(* ===== verification/_CoqProject ===== *)
-Q . S2P
Prelude.v
Sha256.v
Frame.v
FrameExample.v
GoStrings.v
GoTime.v
Metrics.v
Net.v
MetricsSetup.v
Sockets.v
Decimal.v
NetParse.v
NetParseProps.v
Config.v
Wire.v
Reassembly.v
ReassemblyProps.v
Dedup.v
SubtreeGroup.v
Filter.v
Advert.v
Discovery.v
Announce.v
ConfigProps.v
Nack.v
NackSteps.v
NackSweep.v
NackProps.v
NackLive.v
Egress.v
Listener.v
ListenerProps.v
Fragmented.v
Run.v
Main.v
Process.v
MainProps.v
ProcessProps.v
ProcessNack.v
ProcessForward.v
Startup.v
SinkTest.v
Listeners.v
ListenerCount.v
ListenerExample.v
MainExample.v
ProcessExample.v
