(* ===== verification/Prelude.v ===== *)
(** Verification library of bitcoin-shard-listener.

    The program receives IPv6 multicast transaction frames, filters them by
    shard and subtree, forwards them to a unicast or multicast sink, puts
    fragmented transactions together again, and asks retry endpoints for the
    numbers it finds missing. This library translates its Go packages into
    functions on explicit state and proves what they promise.

    ** The parts and the files

    - [Prelude]: machine integers, byte strings, the error monad and the
      automation shared by every file. An integer of a Go type is a [Z], wrapped
      where the code can leave the range; a [[]byte] is a list of [Z].
    - [Sha256], [GoStrings], [GoTime], [Net], [NetParse], [Sockets] (its first
      half): what the program uses of the Go library and of the kernel:
      [crypto/sha256]; [strings], [strconv] and [encoding/hex];
      [time.ParseDuration]; [net] addresses and their textual forms; system
      calls on sockets. [Decimal] and [NetParseProps] hold the lemmas about
      printing and parsing numbers and addresses.
    - [Frame]: the packages [frame] and [shard] of bitcoin-shard-common, which
      are not in the repository: the structs, and a class [FrameLib] of
      parameters for the rest ([Main.ShardLib] for the group addresses).
      [FrameExample] and [MainExample] have one instance of each, for
      evaluation.
    - [Config] ([config/config.go]): the environment, the flags, the parsers of
      lists and numbers, and [Load] with every check; [ConfigProps] says what a
      loaded configuration satisfies and what its texts mean.
    - [Metrics], [MetricsSetup] ([metrics/metrics.go]): the recorder, as a log
      of counter increments plus gauges, and the readiness verdict; and its
      construction with the instruments and error paths of [New], [Shutdown],
      and the probes as they are served.
    - [Wire] ([nack/wire.go]): the NACK and response codecs.
    - [Nack] ([nack/nack.go]): the gap tracker, one definition per method, with
      the sweeper, the dispatch queue and semaphore, and one NACK attempt cut
      in two at its blocking read. [NackSteps] turns these into a transition
      relation, one step per critical section, and proves its invariants;
      [NackSweep] analyses a sweep gap by gap; [NackProps] and [NackLive] have
      the theorems, the latter those on termination and deadlines.
    - [Reassembly] ([reassembly/reassembly.go]): the fragment buffer, generic in
      the state its callbacks act on; [ReassemblyProps] instantiates that state
      with a log and proves the theorems.
    - [Dedup] ([dedup/dedup.go]): the duplicate set, and its specification as a
      bounded queue.
    - [SubtreeGroup] ([subtreegroup/registry.go]): the group registry, its
      specification by the last announcement of each pair, and the interface
      [Membership] the filter needs of it.
    - [Filter] ([filter/filter.go]): the filter, over any [Membership].
    - [Advert], [Discovery] ([discovery/advert.go], [registry.go], [beacon.go]):
      the ADVERT codec, the endpoint registry with its snapshot cache, and the
      handling of one beacon.
    - [Announce] ([discovery/subtree_announce.go]): the announcement listener.
    - [Egress] ([egress/egress.go], [egress/mcast.go]): both senders; the answer
      of the network to a write depends on the connection it is made on.
    - [Sockets] ([openRawSocket] and the set-up of [Run] in
      [listener/listener.go], [openAnnounceSocket], [NewMCast]): each set-up as
      the system calls it makes, with its error paths, in a state monad over
      the history of calls.
    - [Listener] ([listener/listener.go]): the worker and its handlers.
      [ListenerProps] and [ListenerCount] prove what holds over its runs,
      [Fragmented] compares a transaction in fragments with the same one in one
      datagram, [ListenerExample] evaluates it all on concrete datagrams.
    - [Run] ([Worker.Run]): the worker from its set-up to its return.
    - [Listeners] (the loops and [Start] methods of [discovery/beacon.go] and
      [discovery/subtree_announce.go], [gcLoop] of [nack/nack.go], the buffer
      ticker of [main.go]): the goroutines around the handlers, and what ends
      them.
    - [Main] ([main.go]): the groups, the shared objects and the start of a
      worker, from one configuration; [MainProps] follows one worker from its
      configuration to its sinks, [MainExample] evaluates it from an environment
      to the bytes sent.
    - [Process] (the goroutines [run] launches in [main.go]): all workers, the
      tracker's goroutines and both listeners, on the objects they share, one
      event per turn of a goroutine. [ProcessProps] shows that each worker runs
      as if alone among arbitrary moves of the shared objects and concludes for
      the whole process; [ProcessNack] follows the endpoints, [ProcessForward]
      the frames that must go out; [ProcessExample] evaluates a run of two
      workers.
    - [Startup] ([main] and [run] in [main.go]): what [run] launches, opens,
      closes and awaits, on every outcome, and the exit code; and what those
      actions do to the open sinks and the running goroutines, with the ways
      they can go wrong.
    - [SinkTest] ([cmd/sink-test-frames]): the test tool.

    ** How code becomes definitions

    A method is a function from its arguments and the state it writes to its
    result and the new state, under the name it has in Go. What Go takes from
    outside is an argument: a clock reading ([now], or a function where the
    code reads the clock once per iteration), the random source, the answers of
    the network to a dial, a write or a read, the answers of the kernel to a
    system call (a [Kernel] answers from the whole history), and the order in
    which Go walks a map (any list without duplicates that covers the keys,
    [fair] and [fair_walk]). A panic is [None], an error of the configuration a
    right sum. Time is an unbounded [Z] of nanoseconds; durations computed by
    the code wrap at 64 bits where they can.

    A method that runs under a mutex is one step. The counters are updated
    outside any lock but only ever by adding, so that a recorder is a log. The
    goroutines of the tracker interleave in [NackSteps.step]. The worker, the
    ticker of its buffer, and what the other goroutines do to the objects it
    shares with them interleave in [ListenerProps.run_wop]: the registry may be
    replaced between two datagrams by any state the announcement listener
    leaves, the tracker may make any of its steps, and other counters may grow.
    [Process.pstep] has all goroutines on one state: a worker handles a datagram
    in one event, since of the shared objects it only writes the tracker, once
    and under its lock, and the counters; the moment it reads the group
    registry is an event of its own, so that announcements may come between.
    A [sendNACK] is two events, around its blocking read.

    Recursion is structural everywhere: the gap loop of [Observe] runs over the
    numbers between the last one and the new one, the receive loop over the
    answers it gets, so no fuel is chosen and every function is total.

    ** What the theorems show

    - The process: started from any configuration with a non-negative jitter
      bound, it never panics, whatever arrives in whatever order, and each of
      its workers goes through a run of its own ([process_refines_workers]); each
      sink sends only what the configuration and the announcements so far admit
      for it ([process_enforces_configuration]), and the unicast sink does send that
      ([admitted_frames_are_forwarded]); its gap accounts balance
      ([process_gap_accounting]); its NACKs go to configured or advertised
      endpoints ([nacks_go_to_known_endpoints]).
    - Its start and end: a loaded configuration is valid ([load_valid]); the
      recorder is whole ([new_recorder_is_whole]); the groups joined are those
      the filter lets through ([joined_groups_match_filter]), and a worker's
      set-up succeeds exactly when no shard is listed twice
      ([workers_start_iff_shards_distinct]); [run] closes what it opened on
      every outcome and ends with nothing open and nothing running but the two
      goroutines of the tracker, which it does not await ([run_cleans_up],
      [main_exit_code]); the others stop when told to ([listeners_stop_iff],
      [run_returns_iff]).
    - The worker: nothing reaches a sink that the filter or the hash check
      refuses ([outputs_are_admitted]); no datagram crashes it
      ([worker_never_panics]); each settles one counter
      ([datagram_accounting]); a stamped frame goes out
      once, whatever arrives between its copies ([retransmit_forwarded_once]); no gap is lost from the accounts
      ([worker_gap_accounting]); a transaction that came in fragments fares like
      the same one in one datagram ([fragmented_like_inline]).
    - A worker's life: no set-up leaks a descriptor ([setups_leak_nothing],
      [run_closes_socket], [listenGroup_closes_socket]), the memberships are the configured groups
      ([setup_joins_its_groups]), the readiness count is balanced
      ([run_readiness]), and the loop returns at the first quiet moment after
      the cancel ([run_returns_iff]).
    - The tracker: gaps are detected exactly ([gap_detection_exact]), every gap
      is settled by its deadline ([gap_settled_by_deadline]), the goroutines
      finish their work ([nack_work_terminates]), none is lost from the accounts
      ([gap_accounting]), queue and concurrency are bounded
      ([tracker_invariant]), a sweep does what it should ([sweep_spec]),
      requests ask for the right number at the right endpoint
      ([nack_request_spec], [attempts_escalate]), responses settle the right
      gap ([nack_response_spec]), with the retry schedule of
      [backoff_schedule].
    - The buffer: a message is delivered exactly once and unchanged
      ([message_delivered_once]), memory is bounded ([buffer_invariant],
      [capacity_evicts_oldest], [tick_evicts_expired]), and only verified
      payloads come out ([delivered_payloads_are_verified]).
    - The sets and registries: refinements of simple specifications
      ([dedup_refines_fifo], [dedup_sound], [dedup_remembers],
      [registry_refines_announcements], [snapshot_spec],
      [registry_tracks_adverts]), and the paths through several components
      ([announced_subtree_passes], [advertised_endpoint_offered]).
    - The sinks: the unicast sender reports faithfully and re-dials after a
      failure, and only then ([sender_faithful]); multicast datagrams go to the
      address of their own group ([mcast_address]).
    - The filter: exactly its policy, with the reason of a refusal
      ([filter_allow_spec]).
    - The codecs and the texts: round trips and the exact sets of accepted
      datagrams; identifier lists, group ids, sender addresses and networks mean
      what they spell ([id_lists_roundtrip], [group_id_forms],
      [sender_list_exact], [cidr_contains]).
    - Where the code does something else than it means to, a theorem says what
      it does: [backoff_wraps], [observe_panics_iff], [low_number_resets_flow],
      [retransmit_taken_for_restart], [dedup_stale_key_forgotten],
      [fragment_admitted_iff], [verify_merkle_is_inert],
      [reassembled_bypasses_dedup], [workers_start_iff_shards_distinct],
      [group_id_forms], [run_returns_iff], [sink_without_count]. Where it does
      something else than its documents say of legacy frames and of an empty
      include list beside subscribed groups: [filter_allow_spec],
      [zero_subtree_not_exempt].
    - The test tool exits as documented but for a limit of zero
      ([sink_verdict]).

    ** What is not modelled

    The flag package (a command line is an arbitrary update of the flags); the
    OpenTelemetry SDK, the scrape handler and the HTTP server behind the
    metrics, which answer as they like; the sockets that the [net] package opens
    for the beacon listener and the unicast senders, whose answers are
    arguments; the delivery of signals; logging and what the test tool prints.
    Which goroutine runs next is any order, and nothing is said about how long
    a step takes. *)
From Stdlib Require Import ZArith Lia.
From stdpp Require Export prelude gmap strings.


#[global] Open Scope Z_scope.

(** * Machine integers

    A w-bit integer is a [Z]; a conversion or an operation that can leave the
    range is wrapped where the Go code performs it. *)

Definition wrapu (w z : Z) : Z := z `mod` 2 ^ w.
Definition u8 (z : Z) : Z := wrapu 8 z.
Definition u16 (z : Z) : Z := wrapu 16 z.
Definition u32 (z : Z) : Z := wrapu 32 z.
Definition u64 (z : Z) : Z := wrapu 64 z.
Definition i32 (z : Z) : Z := (z + 2 ^ 31) `mod` 2 ^ 32 - 2 ^ 31.
Definition i64 (z : Z) : Z := (z + 2 ^ 63) `mod` 2 ^ 64 - 2 ^ 63.

Lemma wrapu_id w z : 0 <= w -> 0 <= z < 2 ^ w -> wrapu w z = z.
Proof. intros. unfold wrapu. by rewrite Z.mod_small. Qed.

Lemma wrapu_range w z : 0 <= w -> 0 <= wrapu w z < 2 ^ w.
Proof. intros. unfold wrapu. apply Z.mod_pos_bound. lia. Qed.

Lemma u16_id z : 0 <= z < 65536 -> u16 z = z.
Proof. intros. by apply wrapu_id. Qed.

Lemma u32_id z : 0 <= z < 4294967296 -> u32 z = z.
Proof. intros. by apply wrapu_id. Qed.

Lemma u64_id z : 0 <= z < 2 ^ 64 -> u64 z = z.
Proof. intros. by apply wrapu_id. Qed.

Lemma i32_id z : - 2 ^ 31 <= z < 2 ^ 31 -> i32 z = z.
Proof. intros. unfold i32. rewrite Z.mod_small; lia. Qed.

(** Wrapping again after an addition changes nothing. *)
Lemma i32_add z d : i32 (i32 z + d) = i32 (z + d).
Proof.
  unfold i32. f_equal.
  replace ((z + 2 ^ 31) `mod` 2 ^ 32 - 2 ^ 31 + d + 2 ^ 31)
    with ((z + 2 ^ 31) `mod` 2 ^ 32 + d) by lia.
  rewrite Zplus_mod_idemp_l. f_equal. lia.
Qed.

Lemma i64_id z : - 2 ^ 63 <= z < 2 ^ 63 -> i64 z = z.
Proof. intros. unfold i64. rewrite Z.mod_small; lia. Qed.

Lemma i64_range z : - 2 ^ 63 <= i64 z < 2 ^ 63.
Proof.
  unfold i64. pose proof (Z.mod_pos_bound (z + 2 ^ 63) (2 ^ 64)). lia.
Qed.

(** * Sublists *)

Lemma filter_length_sublist {A} (P : A -> Prop) `{!forall x, Decision (P x)} (l l' : list A) :
  l `sublist_of` l' -> (length (filter P l) <= length (filter P l'))%nat.
Proof.
  induction 1 as [|x l l' _ IH|x l l' _ IH]; [done|..]; rewrite ?filter_cons.
  - case_decide; simpl; lia.
  - case_decide; simpl; lia.
Qed.

(** * Durations, in nanoseconds *)

Definition Nanosecond : Z := 1.
Definition Millisecond : Z := 1000000.
Definition Second : Z := 1000000000.
Definition Minute : Z := 60 * Second.

(** * Errors

    A Go function with an error result returns a sum; [let!] returns early. *)

Definition rbind {A B E} (x : A + E) (k : A -> B + E) : B + E :=
  match x with inl a => k a | inr e => inr e end.

Notation "'let!' x := e 'in' k" := (rbind e (fun x => k))
  (at level 200, x name, e at level 100, k at level 200, right associativity).

(** [if bad { return nil, err }]. *)
Definition refuse {E} (bad : bool) (err : E) : unit + E := if bad then inr err else inl tt.

Lemma rbind_inl {A B E} (x : A + E) (k : A -> B + E) b :
  rbind x k = inl b <-> exists a, x = inl a /\ k a = inl b.
Proof. destruct x; simpl; naive_solver. Qed.

Lemma refuse_inl {E} bad (err : E) u : refuse bad err = inl u <-> bad = false.
Proof. destruct bad, u; simpl; naive_solver. Qed.

(** Splits the success of a chain of steps into the success of each. *)
Ltac ok_steps H :=
  repeat first
    [ let a := fresh "a" in let Ha := fresh "Ha" in
      apply rbind_inl in H as (a & Ha & H) ];
  repeat match goal with
    | Hr : refuse _ _ = inl _ |- _ => apply refuse_inl in Hr
    end.

(** [for _, x := range l { y, err := f(x); ...; out = append(out, y) }]. *)
Fixpoint collect {A B E} (f : A -> B + E) (l : list A) : list B + E :=
  match l with
  | [] => inl []
  | x :: l' => let! y := f x in let! ys := collect f l' in inl (y :: ys)
  end.

Lemma collect_Forall2 {A B E} (f : A -> B + E) l out :
  collect f l = inl out <-> Forall2 (fun x y => f x = inl y) l out.
Proof.
  revert out. induction l as [|x l IH]; intros out; simpl.
  - split; [intros [= <-]; constructor|by intros ->%Forall2_nil_inv_l].
  - rewrite rbind_inl. setoid_rewrite rbind_inl. setoid_rewrite IH. split.
    + intros (y & Hy & ys & Hys & [= <-]). by constructor.
    + intros (y & ys & Hy & Hys & ->)%Forall2_cons_inv_l. eauto 10.
Qed.

(** * Byte strings

    A byte is a [Z] in [0, 256); a Go [[]byte] is a list of them. *)

Definition is_byte (b : Z) : Prop := 0 <= b < 256.
Definition byteb (b : Z) : bool := (0 <=? b) && (b <? 256).
Abbreviation bytes := (list Z) (only parsing).

Definition zeros (n : nat) : bytes := replicate n 0.

(** [binary.BigEndian.PutUintN] and [UintN] on [n] bytes. *)
Fixpoint be_put (n : nat) (z : Z) : bytes :=
  match n with
  | O => []
  | S n' => be_put n' (z `div` 256) ++ [z `mod` 256]
  end.

Definition be_get (l : bytes) : Z := foldl (fun acc b => acc * 256 + b) 0 l.

(** [buf[i:j]], [buf[i]] and the in-place write of [bs] at offset [i]. *)
Definition slice (i j : nat) (buf : bytes) : bytes := take (j - i) (drop i buf).
Definition byte_at (i : nat) (buf : bytes) : Z := default 0 (buf !! i).
Definition put_at (i : nat) (bs buf : bytes) : bytes :=
  take i buf ++ bs ++ drop (i + length bs) buf.

Declare Scope go_scope.
Delimit Scope go_scope with go.
Notation "buf .[ i : j ]" := (slice i j buf)
  (at level 1, left associativity, i at level 50, j at level 50, format "buf .[ i : j ]") : go_scope.

Lemma length_be_put n z : length (be_put n z) = n.
Proof.
  revert z. induction n as [|n IH]; intros z; [done|].
  simpl. rewrite length_app, IH. simpl. lia.
Qed.

Lemma be_get_snoc l b : be_get (l ++ [b]) = be_get l * 256 + b.
Proof. unfold be_get. by rewrite foldl_app. Qed.

Lemma be_get_put n z : be_get (be_put n z) = z `mod` 256 ^ Z.of_nat n.
Proof.
  revert z. induction n as [|n IH]; intros z.
  - simpl. by rewrite Z.mod_1_r.
  - simpl be_put. rewrite be_get_snoc, IH.
    rewrite Nat2Z.inj_succ, Z.pow_succ_r by lia.
    rewrite Z.rem_mul_r by lia. lia.
Qed.

Lemma be_get_put_id n z : 0 <= z < 256 ^ Z.of_nat n -> be_get (be_put n z) = z.
Proof. intros. by rewrite be_get_put, Z.mod_small. Qed.

Lemma be_put_bytes n z : Forall is_byte (be_put n z).
Proof.
  revert z. induction n as [|n IH]; intros z; simpl; [constructor|].
  apply Forall_app; split; [done|]. constructor; [|constructor].
  unfold is_byte. pose proof (Z.mod_pos_bound z 256). lia.
Qed.

(** [len] computes lengths; [bytes] proves that a byte string is one. *)
Create Rewrite HintDb len.
#[export] Hint Rewrite length_be_put @length_replicate @length_app @length_take @length_drop
  @length_cons @length_nil : len.
Ltac len := autorewrite with len in *; try lia.

Create HintDb bytes discriminated.
#[export] Hint Resolve be_put_bytes Forall_nil_2 : bytes.
#[export] Hint Extern 1 (Forall is_byte (_ ++ _)) => (apply Forall_app; split) : bytes.
#[export] Hint Extern 1 (Forall is_byte (_ :: _)) => (apply Forall_cons; split) : bytes.
#[export] Hint Extern 1 (Forall is_byte (take _ _)) => apply Forall_take : bytes.
#[export] Hint Extern 1 (Forall is_byte (drop _ _)) => apply Forall_drop : bytes.
#[export] Hint Extern 1 (Forall is_byte (zeros _)) => (apply Forall_replicate; unfold is_byte; lia) : bytes.
#[export] Hint Extern 2 (is_byte _) => (unfold is_byte; lia) : bytes.

(** A concrete byte string is one by evaluation. *)
Lemma bytes_check (l : bytes) : forallb byteb l = true -> Forall is_byte l.
Proof.
  rewrite forallb_forall. intros H. apply Forall_forall. intros b Hb.
  apply list_elem_of_In, H in Hb. unfold byteb in Hb.
  apply andb_true_iff in Hb as [H1%Z.leb_le H2%Z.ltb_lt]. by split.
Qed.

Lemma slice_bytes i j buf : Forall is_byte buf -> Forall is_byte (slice i j buf).
Proof. unfold slice. auto with bytes. Qed.

Lemma put_at_bytes i bs buf :
  Forall is_byte bs -> Forall is_byte buf -> Forall is_byte (put_at i bs buf).
Proof. unfold put_at. auto with bytes. Qed.

#[export] Hint Resolve slice_bytes put_at_bytes : bytes.

Lemma length_put_at i bs buf :
  (i + length bs <= length buf)%nat -> length (put_at i bs buf) = length buf.
Proof. intros. unfold put_at. len. Qed.

Lemma length_slice i j buf : (i <= j <= length buf)%nat -> length (slice i j buf) = (j - i)%nat.
Proof. intros. unfold slice. len. Qed.

Lemma lookup_put_at i bs buf k :
  (i + length bs <= length buf)%nat ->
  put_at i bs buf !! k =
    if decide (i <= k < i + length bs)%nat then bs !! (k - i)%nat else buf !! k.
Proof.
  intros Hlen. unfold put_at. case_decide as Hk.
  - rewrite lookup_app_r by (rewrite length_take; lia).
    rewrite length_take, lookup_app_l by lia. f_equal. lia.
  - destruct (decide (k < i)%nat).
    + rewrite lookup_app_l by (rewrite length_take; lia).
      by rewrite lookup_take_lt.
    + rewrite lookup_app_r by (rewrite length_take; lia).
      rewrite lookup_app_r by (rewrite length_take; lia).
      rewrite lookup_drop, length_take. f_equal. lia.
Qed.

Lemma lookup_slice i j buf k :
  slice i j buf !! k = if decide (k < j - i)%nat then buf !! (i + k)%nat else None.
Proof.
  unfold slice. rewrite lookup_take, lookup_drop.
  by repeat case_decide; try lia.
Qed.

(** A slice that is exactly the written window, and one the write leaves
    alone. *)
Lemma slice_put_at_eq i j bs buf :
  (i + length bs <= length buf)%nat -> j = (i + length bs)%nat ->
  slice i j (put_at i bs buf) = bs.
Proof.
  intros Hlen ->. apply list_eq. intros k.
  rewrite lookup_slice. case_decide.
  - rewrite lookup_put_at by done. rewrite decide_True by lia. f_equal. lia.
  - symmetry. apply lookup_ge_None. lia.
Qed.

Lemma slice_put_at_ne i j k bs buf :
  (k + length bs <= length buf)%nat -> (j <= k \/ k + length bs <= i)%nat ->
  slice i j (put_at k bs buf) = slice i j buf.
Proof.
  intros Hlen Hd. apply list_eq. intros m. rewrite !lookup_slice.
  case_decide; [|done]. rewrite lookup_put_at by done.
  rewrite decide_False by lia. done.
Qed.

Lemma byte_at_put_at_eq i b buf :
  (i < length buf)%nat -> byte_at i (put_at i [b] buf) = b.
Proof.
  intros. unfold byte_at. rewrite lookup_put_at by (simpl; lia).
  rewrite decide_True by (simpl; lia). by rewrite Nat.sub_diag.
Qed.

Lemma byte_at_put_at_ne i k bs buf :
  (k + length bs <= length buf)%nat -> (i < k \/ k + length bs <= i)%nat ->
  byte_at i (put_at k bs buf) = byte_at i buf.
Proof.
  intros. unfold byte_at. rewrite lookup_put_at by done.
  by rewrite decide_False by lia.
Qed.

Lemma drop_put_at i k bs buf :
  (k + length bs <= length buf)%nat -> (k + length bs <= i)%nat ->
  drop i (put_at k bs buf) = drop i buf.
Proof.
  intros. apply list_eq. intros m. rewrite !lookup_drop, lookup_put_at by done.
  by rewrite decide_False by lia.
Qed.

Lemma length_put_at_ge N i bs buf :
  (N <= length buf)%nat -> (N <= length (put_at i bs buf))%nat.
Proof. intros. unfold put_at. len. Qed.

(** [wire] rewrites reads of a buffer through the writes that built it. Its side
    conditions are lengths: [fits] bounds the buffer under the writes from
    below by the hypothesis about the caller's buffer, [wire_len] computes the
    length exactly. *)
Ltac small_len := rewrite ?length_be_put, ?length_replicate; cbn [length]; lia.

Ltac fits :=
  etrans; [|repeat apply length_put_at_ge; match goal with H : _ |- _ => exact H end];
  small_len.

Ltac wire_len :=
  repeat first
    [ rewrite length_be_put | rewrite length_replicate
    | rewrite length_put_at by wire_len | rewrite length_slice by wire_len ];
  cbn [length]; lia.

Ltac wire_side := first [fits | small_len | wire_len].

(** The length of a buffer after writes that fit. *)
Ltac out_len := repeat (rewrite length_put_at by wire_side); done.

(** Discharges the length guard of a decoder. *)
Ltac in_bounds := rewrite (proj2 (Nat.ltb_ge _ _)) by first [fits | wire_len].

Ltac wire_step :=
  first
    [ rewrite slice_put_at_eq by wire_side
    | rewrite slice_put_at_ne by wire_side
    | rewrite byte_at_put_at_eq by wire_side
    | rewrite byte_at_put_at_ne by wire_side
    | rewrite drop_put_at by wire_side ].
Ltac wire := repeat wire_step.

(** * Boolean tests on integers *)

Ltac zcase_step :=
  match goal with
  | |- context [(?a <? ?b)%nat] => destruct (Nat.ltb_spec a b)
  | H : context [(?a <? ?b)%nat] |- _ => destruct (Nat.ltb_spec a b)
  | |- context [?a <? ?b] => destruct (Z.ltb_spec a b)
  | |- context [?a <=? ?b] => destruct (Z.leb_spec a b)
  | |- context [?a =? ?b] => destruct (Z.eqb_spec a b)
  | H : context [?a <? ?b] |- _ => destruct (Z.ltb_spec a b)
  | H : context [?a <=? ?b] |- _ => destruct (Z.leb_spec a b)
  | H : context [?a =? ?b] |- _ => destruct (Z.eqb_spec a b)
  end.
Ltac zcases :=
  repeat (zcase_step; cbn [negb andb orb] in *; try lia; try done).
