(* ===== verification/Sha256.v ===== *)
(** [crypto/sha256] of the Go standard library, as the listener uses it:
    [Sum256], and the double hash a TxID is. The definition is executable and
    is checked against the published vectors. *)
From Stdlib Require Import ZArith Lia.
From S2P Require Import Prelude.

(** The constants are the first 32 bits of the fractional parts of the square
    and cube roots of the first primes (FIPS 180-4); the table is computed. *)
Definition is_prime (n : Z) : bool :=
  forallb (fun d => negb (n `mod` Z.of_nat d =? 0)) (seq 2 (Z.to_nat n - 2)).
Definition primes (n : nat) : list Z :=
  take n (filter (fun p => is_prime p = true) (Z.of_nat <$> seq 2 400)).

(** The integer cube root, bit by bit from bit [n - 1] down. *)
Fixpoint cbrt (n : nat) (x root : Z) : Z :=
  match n with
  | O => root
  | S n' =>
      let r := root + 2 ^ Z.of_nat n' in
      cbrt n' x (if r * r * r <=? x then r else root)
  end.

Definition H0 : list Z :=
  Eval vm_compute in (fun p => u32 (Z.sqrt (p * 2 ^ 64))) <$> primes 8.
Definition K : list Z :=
  Eval vm_compute in (fun p => u32 (cbrt 40 (p * 2 ^ 96) 0)) <$> primes 64.

Definition rotr (n x : Z) : Z :=
  Z.lor (Z.shiftr x n) (u32 (Z.shiftl x (32 - n))).
Definition bsig0 (x : Z) := Z.lxor (rotr 2 x) (Z.lxor (rotr 13 x) (rotr 22 x)).
Definition bsig1 (x : Z) := Z.lxor (rotr 6 x) (Z.lxor (rotr 11 x) (rotr 25 x)).
Definition ssig0 (x : Z) := Z.lxor (rotr 7 x) (Z.lxor (rotr 18 x) (Z.shiftr x 3)).
Definition ssig1 (x : Z) := Z.lxor (rotr 17 x) (Z.lxor (rotr 19 x) (Z.shiftr x 10)).
Definition Ch (x y z : Z) := Z.lxor (Z.land x y) (Z.land (Z.lxor x 0xffffffff) z).
Definition Maj (x y z : Z) :=
  Z.lxor (Z.land x y) (Z.lxor (Z.land x z) (Z.land y z)).

(** Message padding: 0x80, zeros up to 56 mod 64, the bit length in 8 bytes. *)
Definition pad (m : bytes) : bytes :=
  let l := length m in
  m ++ [0x80] ++ zeros (Z.to_nat ((55 - Z.of_nat l) `mod` 64)) ++ be_put 8 (8 * Z.of_nat l).

(** The 48 extension words: the schedule is kept newest first. *)
Fixpoint schedule (n : nat) (w : list Z) : list Z :=
  match n with
  | O => w
  | S n' =>
      let at_ k := nth k w 0 in
      schedule n' (u32 (ssig1 (at_ 1%nat) + at_ 6%nat + ssig0 (at_ 14%nat) + at_ 15%nat) :: w)
  end.

Definition round (s : list Z) (kw : Z * Z) : list Z :=
  match s with
  | [a; b; c; d; e; f; g; h] =>
      let t1 := h + bsig1 e + Ch e f g + kw.1 + kw.2 in
      let t2 := bsig0 a + Maj a b c in
      [u32 (t1 + t2); a; b; c; u32 (d + t1); e; f; g]
  | _ => s
  end.

Fixpoint words (n : nat) (l : bytes) : list Z :=
  match n with
  | O => []
  | S n' => be_get (take 4 l) :: words n' (drop 4 l)
  end.

Definition block (s : list Z) (b : bytes) : list Z :=
  let w := rev (schedule 48 (rev (words 16 b))) in
  zip_with (fun x y => u32 (x + y)) s (foldl round s (zip K w)).

Fixpoint blocks (n : nat) (s : list Z) (l : bytes) : list Z :=
  match n with
  | O => s
  | S n' => blocks n' (block s (take 64 l)) (drop 64 l)
  end.

(** [sha256.Sum256]. *)
Definition Sum256 (m : bytes) : bytes :=
  let p := pad m in
  mbind (be_put 4) (blocks (length p / 64) H0 p).

Definition sha256d (m : bytes) : bytes := Sum256 (Sum256 m).

(** Only [vm_compute] evaluates the hash. *)
#[global] Opaque Sum256 sha256d.

Example sum256_empty :
  be_get (Sum256 []) =
    0xe3b0c44298fc1c149afbf4c8996fb92427ae41e4649b934ca495991b7852b855.
Proof. vm_compute. reflexivity. Qed.

Example sum256_abc :
  be_get (Sum256 [97; 98; 99]) =
    0xba7816bf8f01cfea414140de5dae2223b00361a396177a9cb410ff61f20015ad.
Proof. vm_compute. reflexivity. Qed.

Example sum256_two_blocks :
  be_get (Sum256 (replicate 119 97)) =
    0x31eba51c313a5c08226adf18d4a359cfdfd8d2e816b13f4af952f7ea6584dcfb.
Proof. vm_compute. reflexivity. Qed.
