(* ===== verification/Frame.v ===== *)
(** The interface of the packages [frame] and [shard] of bitcoin-shard-common,
    which the listener imports and whose source is not part of this repository.

    The structs are given with the fields the listener reads and writes; the
    functions and the constants are parameters, collected in a class so that
    every component that uses them is stated for all implementations. *)
From Stdlib Require Import ZArith.
From S2P Require Import Prelude.

(** A BRC-12 / BRC-124 / BRC-128 frame. *)
Record Frame := mkFrame {
  Version : Z;
  TxID : bytes;
  HashKey : Z;
  SeqNum : Z;
  SubtreeID : bytes;
  Payload : bytes;
}.

(** A BRC-130 fragment. *)
Record FragFrame := mkFragFrame {
  ff_TxID : bytes;
  ff_SubtreeID : bytes;
  ff_HashKey : Z;
  ff_SeqNum : Z;
  ff_OrigPayloadLen : Z;
  ff_FragIndex : Z;
  ff_FragTotal : Z;
  ff_OrigFrameVer : Z;
  ff_MsgType : Z;
  ff_FragData : bytes;
}.

(** A BRC-131 block control frame. *)
Record BlockFrame := mkBlockFrame {
  bf_MsgType : Z;
  bf_ContentID : bytes;
  bf_HashKey : Z;
  bf_SeqNum : Z;
  bf_Payload : bytes;
}.

(** A BRC-132 subtree data frame. *)
Record SubtreeDataFrame := mkSubtreeDataFrame {
  sf_MsgType : Z;
  sf_SubtreeID : bytes;
  sf_HashKey : Z;
  sf_SeqNum : Z;
  sf_Payload : bytes;
}.

(** A BRC-127 subtree announcement. *)
Record SubtreeAnnounce := mkSubtreeAnnounce {
  sa_GroupID : bytes;
  sa_SubtreeID : bytes;
  sa_TTL : Z;
}.

(** The errors of the decoders and encoders are only tested against nil. *)
Class FrameLib := {
  FrameVerV2 : Z;
  FrameVerV4 : Z;
  FrameVerV5 : Z;
  BlockMsgAnnounce : Z;
  HeaderSize : nat;
  BlockHeaderSize : nat;
  SubtreeAnnounceSize : nat;
  CtrlGroupControl : Z;
  CtrlGroupSubtreeAnnounce : Z;
  CtrlGroupBlockHeader : Z;
  IsBlockFrame : bytes -> bool;
  IsSubtreeDataFrame : bytes -> bool;
  IsFragment : bytes -> bool;
  DecodeFrame : bytes -> option Frame;
  DecodeFragment : bytes -> option FragFrame;
  DecodeBlock : bytes -> option BlockFrame;
  DecodeSubtreeData : bytes -> option SubtreeDataFrame;
  DecodeSubtreeAnnounce : bytes -> option SubtreeAnnounce;
  EncodeFrame : Frame -> bytes -> option bytes;
  EncodeBlock : BlockFrame -> bytes -> option bytes;
  EncodeSubtreeData : SubtreeDataFrame -> bytes -> option bytes;
  (** [engine.GroupIndex(&txid)] of the engine the worker was built with. *)
  GroupIndex : bytes -> Z;
}.
