(* ===== verification/FrameExample.v ===== *)
(** A concrete implementation of the [frame] interface, used only to evaluate
    the development on inputs: the BRC-124 layout of docs/architecture.md for
    data frames, and simple layouts of the same header for the other kinds. *)
From Stdlib Require Import ZArith Lia.
From S2P Require Import Prelude Frame.
#[local] Open Scope go_scope.

Definition ex_header : nat := 92.

Definition ex_kind (k : Z) (raw : bytes) : bool :=
  (ex_header <=? length raw)%nat && (byte_at 6 raw =? k).

(** Network magic, protocol version, kind, message type, id, HashKey, SeqNum,
    second id, payload length. *)
Definition ex_encode (kind mt : Z) (id : bytes) (hk seq : Z) (sub pl buf : bytes) : option bytes :=
  if (length buf <? ex_header + length pl)%nat then None
  else Some (be_put 4 0xE3E1F3E8 ++ be_put 2 0x02BF ++ [kind; mt] ++ id ++
             be_put 8 hk ++ be_put 8 seq ++ sub ++ be_put 4 (Z.of_nat (length pl)) ++ pl).

Definition ex_decode (raw : bytes) : option Frame :=
  if ex_kind 2 raw then
    Some {| Version := 2; TxID := raw.[8:40]; HashKey := be_get raw.[40:48];
            SeqNum := be_get raw.[48:56]; SubtreeID := raw.[56:88];
            Payload := drop 92 raw |}
  else None.

(** Fragments of the example put their index, total and kind where the payload
    of a data frame starts. *)
Definition ex_fragment (raw : bytes) : option FragFrame :=
  if ex_kind 3 raw && (100 <=? length raw)%nat then
    Some {| ff_TxID := raw.[8:40]; ff_SubtreeID := raw.[56:88];
            ff_HashKey := be_get raw.[40:48]; ff_SeqNum := be_get (raw.[48:56]);
            ff_OrigPayloadLen := be_get raw.[92:96];
            ff_FragIndex := be_get raw.[96:98]; ff_FragTotal := be_get (raw.[98:100]);
            ff_OrigFrameVer := byte_at 91 raw; ff_MsgType := byte_at 7 raw;
            ff_FragData := drop 100 raw |}
  else None.

#[export] Instance exampleLib : FrameLib := {|
  FrameVerV2 := 2; FrameVerV4 := 4; FrameVerV5 := 5;
  BlockMsgAnnounce := 1; HeaderSize := ex_header; BlockHeaderSize := 80;
  SubtreeAnnounceSize := 56;
  CtrlGroupControl := 0xFFFE; CtrlGroupSubtreeAnnounce := 0xFFFB;
  CtrlGroupBlockHeader := 0xFFFA;
  IsBlockFrame := ex_kind 4; IsSubtreeDataFrame := ex_kind 5; IsFragment := ex_kind 3;
  DecodeFrame := ex_decode; DecodeFragment := ex_fragment;
  DecodeBlock raw := Some {| bf_MsgType := byte_at 7 raw; bf_ContentID := raw.[8:40];
    bf_HashKey := be_get raw.[40:48]; bf_SeqNum := be_get (raw.[48:56]);
    bf_Payload := drop 92 raw |};
  DecodeSubtreeData raw := Some {| sf_MsgType := byte_at 7 raw; sf_SubtreeID := raw.[8:40];
    sf_HashKey := be_get raw.[40:48]; sf_SeqNum := be_get (raw.[48:56]);
    sf_Payload := drop 92 raw |};
  DecodeSubtreeAnnounce raw := Some {| sa_GroupID := raw.[8:24];
    sa_SubtreeID := raw.[24:56]; sa_TTL := byte_at 7 raw |};
  EncodeFrame f := ex_encode 2 0 (TxID f) (HashKey f) (SeqNum f) (SubtreeID f) (Payload f);
  EncodeBlock f := ex_encode 4 (bf_MsgType f) (bf_ContentID f) (bf_HashKey f) (bf_SeqNum f)
    (zeros 32) (bf_Payload f);
  EncodeSubtreeData f := ex_encode 5 (sf_MsgType f) (sf_SubtreeID f) (sf_HashKey f) (sf_SeqNum f)
    (zeros 32) (sf_Payload f);
  GroupIndex id := byte_at 0 id / 64;
|}.
