(* ===== verification/GoStrings.v ===== *)
(** What the program uses of Go's [strings], [strconv] and [encoding/hex]. A Go
    string is a sequence of bytes: a [string] of 8-bit characters, taken apart
    as the list of its codes. *)
From Stdlib Require Import ZArith Lia Ascii.
From Stdlib Require Strings.String.
From S2P Require Import Prelude.

Abbreviation list_of_string := Strings.String.list_ascii_of_string.
Abbreviation of_list := Strings.String.string_of_list_ascii.

(** ** Strings as bytes *)

Definition code (c : ascii) : Z := Z.of_N (N_of_ascii c).
Definition char (z : Z) : ascii := ascii_of_N (Z.to_N z).

Definition bytes_of (s : string) : bytes := code <$> list_of_string s.
Definition string_of (b : bytes) : string := of_list (char <$> b).

Lemma code_byte c : is_byte (code c).
Proof. unfold is_byte, code. pose proof (N_ascii_bounded c). lia. Qed.

Lemma code_char z : is_byte z -> code (char z) = z.
Proof. intros [??]. unfold code, char. rewrite N_ascii_embedding; lia. Qed.

Lemma char_code c : char (code c) = c.
Proof. unfold code, char. by rewrite N2Z.id, ascii_N_embedding. Qed.

Lemma bytes_of_bytes s : Forall is_byte (bytes_of s).
Proof. apply Forall_fmap, Forall_forall. intros c _. apply code_byte. Qed.

Lemma bytes_of_string_of b : Forall is_byte b -> bytes_of (string_of b) = b.
Proof.
  intros Hb. unfold bytes_of, string_of. rewrite Strings.String.list_ascii_of_string_of_list_ascii, <- list_fmap_compose.
  rewrite <- (list_fmap_id b) at 2. apply list_fmap_ext. intros i z Hz.
  apply code_char. exact (Forall_lookup_1 _ _ _ _ Hb Hz).
Qed.

Lemma string_of_bytes_of s : string_of (bytes_of s) = s.
Proof.
  unfold bytes_of, string_of. rewrite <- list_fmap_compose.
  rewrite <- (Strings.String.string_of_list_ascii_of_string s) at 2. f_equal.
  rewrite <- (list_fmap_id (list_of_string s)) at 2. apply list_fmap_ext.
  intros i c _. apply char_code.
Qed.

#[export] Hint Resolve bytes_of_bytes : bytes.

(** ** [strings.Split] with a one-byte separator, and its inverse *)

Fixpoint Split (sep : Z) (s : bytes) : list bytes :=
  match s with
  | [] => [[]]
  | c :: s' =>
      if c =? sep then [] :: Split sep s'
      else match Split sep s' with
           | p :: ps => (c :: p) :: ps
           | [] => [[c]]
           end
  end.

Fixpoint join (sep : Z) (l : list bytes) : bytes :=
  match l with
  | [] => []
  | [p] => p
  | p :: ps => p ++ sep :: join sep ps
  end.

Lemma Split_nonempty sep s : Split sep s <> [].
Proof. destruct s as [|c s]; simpl; [done|]. destruct (c =? sep); [done|]. by destruct (Split sep s). Qed.

Lemma Split_plain sep p : sep ∉ p -> Split sep p = [p].
Proof.
  induction p as [|c p IH]; [done|]. intros Hn. simpl.
  apply not_elem_of_cons in Hn as [Hc Hn]. rewrite (proj2 (Z.eqb_neq c sep)) by done.
  by rewrite IH.
Qed.

Lemma Split_app sep p s : sep ∉ p -> Split sep (p ++ sep :: s) = p :: Split sep s.
Proof.
  induction p as [|c p IH]; simpl; [by rewrite Z.eqb_refl|]. intros Hn.
  apply not_elem_of_cons in Hn as [Hc Hn]. rewrite (proj2 (Z.eqb_neq c sep)) by done.
  by rewrite IH.
Qed.

Lemma Split_join sep l :
  l <> [] -> Forall (fun p => sep ∉ p) l -> Split sep (join sep l) = l.
Proof.
  intros Hne Hall. induction Hall as [|p l Hp Hall IH]; [done|].
  destruct l as [|q l]; [by apply Split_plain|].
  cbn [join]. rewrite Split_app by done. f_equal. by apply IH.
Qed.

Lemma Split_bytes sep s : Forall is_byte s -> Forall (Forall is_byte) (Split sep s).
Proof.
  induction 1 as [|c s Hc Hs IH]; simpl.
  { constructor; constructor. }
  destruct (c =? sep); [by constructor|].
  destruct (Split sep s) as [|p ps].
  - constructor; [by constructor|done].
  - apply Forall_cons in IH as [Hp Hps]. constructor; [by constructor|done].
Qed.

(** ** [strings.TrimSpace] *)

(** The UTF-8 forms of the characters for which [unicode.IsSpace] holds. *)
Definition spaces : list bytes :=
  [[9]; [10]; [11]; [12]; [13]; [32]; [0xC2; 0x85]; [0xC2; 0xA0]; [0xE1; 0x9A; 0x80]]
  ++ ((fun k => [0xE2; 0x80; 0x80 + k]) <$> [0; 1; 2; 3; 4; 5; 6; 7; 8; 9; 10; 0x28; 0x29; 0x2F])
  ++ [[0xE2; 0x81; 0x9F]; [0xE3; 0x80; 0x80]].

Definition cut_prefix (p s : bytes) : option bytes :=
  if bool_decide (take (length p) s = p) then Some (drop (length p) s) else None.

(** Removes one of [seqs] from the front. *)
Definition strip (seqs : list bytes) (s : bytes) : option bytes :=
  list_find (fun p => is_Some (cut_prefix p s)) seqs ≫= fun ip => cut_prefix ip.2 s.

Fixpoint trim_left (n : nat) (seqs : list bytes) (s : bytes) : bytes :=
  match n with
  | O => s
  | S n' => match strip seqs s with
            | Some s' => trim_left n' seqs s'
            | None => s
            end
  end.

Definition TrimSpace (s : bytes) : bytes :=
  let s := trim_left (length s) spaces s in
  reverse (trim_left (length s) (reverse <$> spaces) (reverse s)).

(** Nothing is trimmed from a string whose ends are no spaces: [plain] holds of
    the bytes that occur in no space. *)
Definition plain (c : Z) : bool := (33 <=? c) && (c <? 127).

Lemma strip_plain seqs c s :
  Forall (fun p => exists d p', p = d :: p' /\ d <> c) seqs -> strip seqs (c :: s) = None.
Proof.
  intros Hall. unfold strip. destruct (list_find _ seqs) as [[i p]|] eqn:E; [|done].
  apply list_find_Some in E as (Hi & [x Hx] & _).
  destruct (Forall_lookup_1 _ _ _ _ Hall Hi) as (d & p' & -> & Hd).
  unfold cut_prefix in Hx. case_bool_decide as H; [|done]. simpl in H. congruence.
Qed.

Lemma spaces_not_plain c :
  plain c = true ->
  Forall (fun p => exists d p', p = d :: p' /\ d <> c) spaces /\
  Forall (fun p => exists d p', p = d :: p' /\ d <> c) (reverse <$> spaces).
Proof.
  unfold plain. intros [H1%Z.leb_le H2%Z.ltb_lt]%andb_true_iff. unfold spaces.
  split; repeat (apply Forall_cons; split; [do 2 eexists; split; [reflexivity|lia]|]);
    apply Forall_nil_2.
Qed.

Lemma trim_left_plain n seqs c s :
  Forall (fun p => exists d p', p = d :: p' /\ d <> c) seqs ->
  trim_left n seqs (c :: s) = c :: s.
Proof. intros H. destruct n; [done|]. cbn [trim_left]. by rewrite strip_plain. Qed.

Lemma trim_left_nil n seqs : Forall (fun p => p <> []) seqs -> trim_left n seqs [] = [].
Proof.
  intros H. destruct n; [done|]. cbn [trim_left]. unfold strip.
  destruct (list_find _ seqs) as [[i p]|] eqn:E; [|done].
  apply list_find_Some in E as (Hi & [x Hx] & _).
  pose proof (Forall_lookup_1 _ _ _ _ H Hi) as Hne. simpl in Hne.
  unfold cut_prefix in Hx. case_bool_decide as Ht; [|done]. rewrite take_nil in Ht. by subst.
Qed.

Lemma TrimSpace_plain s : forallb plain s = true -> TrimSpace s = s.
Proof.
  intros Hs. rewrite forallb_forall in Hs. unfold TrimSpace.
  destruct s as [|c s]; [reflexivity|].
  rewrite trim_left_plain by (apply spaces_not_plain, Hs; by left).
  destruct (reverse (c :: s)) as [|d r] eqn:E.
  { apply (f_equal (@length Z)) in E. rewrite length_reverse in E. done. }
  assert (plain d = true) as Hd by (apply Hs, list_elem_of_In, elem_of_reverse; rewrite E; left).
  rewrite trim_left_plain by (by apply spaces_not_plain).
  by rewrite <- E, reverse_involutive.
Qed.

Lemma plain_bytes s : forallb plain s = true -> Forall is_byte s.
Proof.
  rewrite forallb_forall. intros H. apply Forall_forall. intros c Hc.
  apply list_elem_of_In, H in Hc. unfold plain in Hc.
  apply andb_true_iff in Hc as [H1%Z.leb_le H2%Z.ltb_lt]. unfold is_byte. lia.
Qed.

Lemma TrimSpace_string s : forallb plain s = true -> TrimSpace (bytes_of (string_of s)) = s.
Proof. intros H. by rewrite bytes_of_string_of, TrimSpace_plain by (try apply plain_bytes; done). Qed.

(** The fuel is enough: after trimming, no space is left in front. *)
Lemma strip_shorter seqs s s' :
  Forall (fun p => p <> []) seqs -> strip seqs s = Some s' -> (length s' < length s)%nat.
Proof.
  intros H. unfold strip. destruct (list_find _ seqs) as [[i p]|] eqn:E; [|done]. simpl.
  apply list_find_Some in E as (Hi & _ & _).
  pose proof (Forall_lookup_1 _ _ _ _ H Hi) as Hne. simpl in Hne.
  unfold cut_prefix. case_bool_decide as Ht; [|done]. intros [= <-].
  rewrite length_drop. assert (length (take (length p) s) = length p) as Hl by (by rewrite Ht).
  rewrite length_take in Hl. destruct p; [done|]. cbn [length] in *. lia.
Qed.

Lemma trim_left_done n seqs s :
  Forall (fun p => p <> []) seqs -> (length s <= n)%nat -> strip seqs (trim_left n seqs s) = None.
Proof.
  intros Hne. revert s. induction n as [|n IH]; intros s Hl; simpl.
  - destruct (strip seqs s) as [s'|] eqn:E; [|done].
    pose proof (strip_shorter _ _ _ Hne E). lia.
  - destruct (strip seqs s) as [s'|] eqn:E; [|done].
    pose proof (strip_shorter _ _ _ Hne E). apply IH. lia.
Qed.

(** ** Prefixes *)

Definition HasPrefix (s p : bytes) : bool := bool_decide (take (length p) s = p).
Definition TrimPrefix (s p : bytes) : bytes := if HasPrefix s p then drop (length p) s else s.

(** [strings.ToLower] on the ASCII letters; the program only tests the result
    for the prefix "0x", which no other character lowers to. *)
Definition ToLower (s : bytes) : bytes :=
  (fun c => if (65 <=? c) && (c <=? 90) then c + 32 else c) <$> s.

(** ** [hex.DecodeString] and [hex.EncodeToString] *)

Definition fromHex (c : Z) : option Z :=
  if (48 <=? c) && (c <=? 57) then Some (c - 48)
  else if (97 <=? c) && (c <=? 102) then Some (c - 87)
  else if (65 <=? c) && (c <=? 70) then Some (c - 55)
  else None.

Fixpoint hex_DecodeString (s : bytes) : option bytes :=
  match s with
  | [] => Some []
  | [_] => None
  | p :: q :: s' =>
      a ← fromHex p; b ← fromHex q; r ← hex_DecodeString s'; Some (16 * a + b :: r)
  end.

Definition toHex (d : Z) : Z := if d <? 10 then 48 + d else 87 + d.
Definition hex_EncodeToString (b : bytes) : bytes := b ≫= fun c => [toHex (c / 16); toHex (c `mod` 16)].

Lemma fromHex_toHex d : 0 <= d < 16 -> fromHex (toHex d) = Some d.
Proof. intros H. unfold toHex, fromHex. zcases; cbn; f_equal; lia. Qed.

Lemma byte_nibbles c : is_byte c -> 0 <= c / 16 < 16 /\ 0 <= c `mod` 16 < 16.
Proof.
  intros [H1 H2]. split; [|apply Z.mod_pos_bound; lia].
  split; [by apply Z.div_pos|apply Z.div_lt_upper_bound; lia].
Qed.

Lemma hex_roundtrip b : Forall is_byte b -> hex_DecodeString (hex_EncodeToString b) = Some b.
Proof.
  induction 1 as [|c b Hc Hb IH]; [done|]. destruct (byte_nibbles c Hc) as [Hh Hl].
  cbn [hex_EncodeToString mbind list_bind app hex_DecodeString].
  rewrite !fromHex_toHex by done. cbn [mbind option_bind].
  unfold hex_EncodeToString in IH. rewrite IH. cbn. by rewrite <- Z.div_mod by lia.
Qed.

Lemma fromHex_range c d : fromHex c = Some d -> 0 <= d < 16.
Proof.
  unfold fromHex. destruct ((48 <=? c) && (c <=? 57)) eqn:E1; [|
    destruct ((97 <=? c) && (c <=? 102)) eqn:E2; [|
      destruct ((65 <=? c) && (c <=? 70)) eqn:E3; [|done]]]; intros [= <-];
    [apply andb_true_iff in E1 as [?%Z.leb_le ?%Z.leb_le]
    |apply andb_true_iff in E2 as [?%Z.leb_le ?%Z.leb_le]
    |apply andb_true_iff in E3 as [?%Z.leb_le ?%Z.leb_le]]; lia.
Qed.

Lemma hex_decoded_bytes s b : hex_DecodeString s = Some b -> Forall is_byte b.
Proof.
  revert s. induction b as [|x b IH]; intros s; [constructor|].
  destruct s as [|p [|q s]]; cbn [hex_DecodeString]; [done..|].
  destruct (fromHex p) as [a|] eqn:Ep; [|done]. cbn [mbind option_bind].
  destruct (fromHex q) as [a'|] eqn:Eq; [|done]. cbn [mbind option_bind].
  destruct (hex_DecodeString s) as [r|] eqn:Er; [|done]. cbn [mbind option_bind].
  intros [= <- <-]. apply fromHex_range in Ep, Eq. constructor; [unfold is_byte; lia|by eapply IH].
Qed.

Lemma hex_encode_plain b : Forall is_byte b -> forallb plain (hex_EncodeToString b) = true.
Proof.
  induction 1 as [|c b Hc Hb IH]; [done|]. destruct (byte_nibbles c Hc) as [Hh Hl].
  unfold hex_EncodeToString in *. cbn [mbind list_bind app forallb]. rewrite IH.
  unfold plain, toHex. zcases.
Qed.

Lemma length_hex_encode b : length (hex_EncodeToString b) = (2 * length b)%nat.
Proof.
  unfold hex_EncodeToString. induction b as [|c b IH]; [done|].
  cbn [mbind list_bind app length] in *. rewrite IH. lia.
Qed.

(** ** [strconv] *)

(** The errors are only tested against nil. *)
Inductive NumError := ErrSyntax | ErrRange.

Definition digit_of (c : Z) : option Z :=
  if (48 <=? c) && (c <=? 57) then Some (c - 48)
  else if (97 <=? Z.lor c 32) && (Z.lor c 32 <=? 122) then Some (Z.lor c 32 - 87)
  else None.

Fixpoint parse_digits (base maxVal acc : Z) (s : bytes) : Z + NumError :=
  match s with
  | [] => inl acc
  | c :: s' =>
      match digit_of c with
      | None => inr ErrSyntax
      | Some d =>
          if base <=? d then inr ErrSyntax
          else if maxVal <? acc * base + d then inr ErrRange
          else parse_digits base maxVal (acc * base + d) s'
      end
  end.

(** [strconv.ParseUint], for the bases 10 and 16. *)
Definition ParseUint (s : bytes) (base bitSize : Z) : Z + NumError :=
  match s with
  | [] => inr ErrSyntax
  | _ => parse_digits base (2 ^ bitSize - 1) 0 s
  end.

(** [strconv.Atoi]: a sign, then decimal digits, in the range of an [int]. *)
Definition Atoi (s : bytes) : Z + NumError :=
  let '(neg, digits) :=
    match s with
    | 45 :: s' => (true, s')
    | 43 :: s' => (false, s')
    | _ => (false, s)
    end in
  match ParseUint digits 10 64 with
  | inr e => inr e
  | inl n =>
      if neg then if 2 ^ 63 <? n then inr ErrRange else inl (- n)
      else if 2 ^ 63 <=? n then inr ErrRange else inl n
  end.

Definition ParseBool (s : bytes) : option bool :=
  if bool_decide (s ∈ bytes_of <$> ["1"; "t"; "T"; "true"; "TRUE"; "True"]%string) then Some true
  else if bool_decide (s ∈ bytes_of <$> ["0"; "f"; "F"; "false"; "FALSE"; "False"]%string)
  then Some false
  else None.

(** The value of a string of digits, most significant first. *)
Definition digits_value (base : Z) (ds : list Z) : Z := foldl (fun a d => a * base + d) 0 ds.

Lemma digit_of_nonneg c d : digit_of c = Some d -> 0 <= d.
Proof.
  unfold digit_of. destruct ((48 <=? c) && (c <=? 57)) eqn:E1.
  - intros [= <-]. apply andb_true_iff in E1 as [E1%Z.leb_le _]. lia.
  - destruct ((97 <=? Z.lor c 32) && (Z.lor c 32 <=? 122)) eqn:E2; [|done].
    intros [= <-]. apply andb_true_iff in E2 as [E2%Z.leb_le _]. lia.
Qed.

Lemma foldl_digits_ge base acc ds :
  1 <= base -> 0 <= acc -> Forall (fun d => 0 <= d) ds ->
  acc <= foldl (fun a d => a * base + d) acc ds.
Proof.
  intros Hb Ha Hds. revert acc Ha. induction Hds as [|d ds Hd Hds IH]; intros acc Ha; [simpl; lia|].
  simpl. etrans; [|apply IH]; nia.
Qed.

Lemma mapM_digits_nonneg s ds : mapM digit_of s = Some ds -> Forall (fun d => 0 <= d) ds.
Proof.
  intros Hm%mapM_Some. induction Hm as [|c d s ds Hc _ IH]; [constructor|].
  constructor; [by eapply digit_of_nonneg|done].
Qed.

(** [ParseUint] reads exactly the non-empty digit strings whose value fits. *)
Lemma parse_digits_spec base maxVal acc s n :
  1 <= base -> 0 <= acc <= maxVal ->
  parse_digits base maxVal acc s = inl n <->
  exists ds, mapM digit_of s = Some ds /\ Forall (fun d => d < base) ds /\
    n = foldl (fun a d => a * base + d) acc ds /\ n <= maxVal.
Proof.
  intros Hb. revert acc. induction s as [|c s IH]; intros acc Hacc; cbn [parse_digits mapM].
  { split.
    - intros [= <-]. exists []. split_and!; [done|constructor|done|lia].
    - by intros (ds & [= <-] & _ & -> & _). }
  destruct (digit_of c) as [d|] eqn:Ed; [|by split; [|intros (? & ? & _)]].
  pose proof (digit_of_nonneg c d Ed) as Hd. cbn [mbind option_bind].
  destruct (Z.leb_spec base d).
  { split; [done|]. intros (ds & Hm & Hf & _). destruct (mapM digit_of s); [|done].
    injection Hm as <-. apply Forall_cons in Hf as [Hf _]. lia. }
  destruct (Z.ltb_spec maxVal (acc * base + d)) as [Hlt|Hle].
  { split; [done|]. intros (ds & Hm & Hf & -> & Hn).
    destruct (mapM digit_of s) as [ds'|] eqn:E; [|done]. injection Hm as <-. simpl in Hn.
    pose proof (foldl_digits_ge base (acc * base + d) ds' Hb ltac:(nia) (mapM_digits_nonneg _ _ E)).
    lia. }
  rewrite IH by nia. split.
  - intros (ds & -> & Hf & -> & Hn). exists (d :: ds). split_and!; [done|by constructor|done|done].
  - intros (ds & Hm & Hf & -> & Hn). destruct (mapM digit_of s) as [ds'|]; [|done].
    injection Hm as <-. apply Forall_cons in Hf as [_ Hf]. by exists ds'.
Qed.

Lemma ParseUint_spec s base bits n :
  1 <= base -> 0 <= bits ->
  ParseUint s base bits = inl n <->
  s <> [] /\ exists ds, mapM digit_of s = Some ds /\ Forall (fun d => d < base) ds /\
    n = digits_value base ds /\ n < 2 ^ bits.
Proof.
  intros Hb Hbits. unfold ParseUint. destruct s as [|c s]; [split; [done|by intros [? _]]|].
  rewrite parse_digits_spec by (try done; pose proof (Z.pow_pos_nonneg 2 bits); lia).
  split.
  - intros (ds & Hm & Hf & -> & Hn). split; [done|]. exists ds.
    split_and!; [done..|unfold digits_value; lia].
  - intros (_ & ds & Hm & Hf & -> & Hn). exists ds.
    split_and!; [done..|unfold digits_value in *; lia].
Qed.

(** A bound on what it returns. *)
Lemma ParseUint_range s base bits n :
  1 <= base -> 0 <= bits -> ParseUint s base bits = inl n -> 0 <= n < 2 ^ bits.
Proof.
  intros Hb Hbits H. apply ParseUint_spec in H as (_ & ds & Hm & _ & -> & Hn); [|done..].
  split; [|done]. unfold digits_value. apply foldl_digits_ge; [lia..|by eapply mapM_digits_nonneg].
Qed.
