(* ===== verification/GoTime.v ===== *)
(** [time.ParseDuration] of the Go standard library, which reads the durations
    of the environment. The fraction of a unit goes through a float64, as in
    Go: the arithmetic is that of [SpecFloat] at double precision. *)
From Stdlib Require Import ZArith Lia.
From Stdlib Require Import SpecFloat.
From S2P Require Import Prelude GoStrings.

Definition float_of (n : Z) : spec_float := binary_normalize 53 1024 n 0 false.
Definition fmul : spec_float -> spec_float -> spec_float := SFmul 53 1024.
Definition fdiv : spec_float -> spec_float -> spec_float := SFdiv 53 1024.

(** [uint64(x)] of a float that is not negative. *)
Definition truncate (x : spec_float) : Z :=
  match x with
  | S754_finite _ m e => if 0 <=? e then Z.pos m * 2 ^ e else Z.pos m / 2 ^ (- e)
  | _ => 0
  end.

Definition is_digit (c : Z) : bool := (48 <=? c) && (c <=? 57).

(** [leadingInt]: [None] on overflow. *)
Fixpoint leadingInt (x : Z) (s : bytes) : option (Z * bytes) :=
  match s with
  | c :: s' =>
      if negb (is_digit c) then Some (x, s)
      else if 2 ^ 63 / 10 <? x then None
      else let x := x * 10 + (c - 48) in
           if 2 ^ 63 <? x then None else leadingInt x s'
  | [] => Some (x, s)
  end.

(** [leadingFraction]: the digits, their power of ten, the rest; digits beyond
    the precision are skipped. *)
Fixpoint leadingFraction (x : Z) (scale : spec_float) (overflow : bool) (s : bytes)
    : Z * spec_float * bytes :=
  match s with
  | c :: s' =>
      if negb (is_digit c) then (x, scale, s)
      else if overflow then leadingFraction x scale true s'
      else if (2 ^ 63 - 1) / 10 <? x then leadingFraction x scale true s'
      else let y := x * 10 + (c - 48) in
           if 2 ^ 63 <? y then leadingFraction x scale true s'
           else leadingFraction y (fmul scale (float_of 10)) false s'
  | [] => (x, scale, s)
  end.

(** The unit name: everything up to the next digit or period. *)
Fixpoint unit_name (s : bytes) : bytes * bytes :=
  match s with
  | c :: s' => if (c =? 46) || is_digit c then ([], s)
               else let '(u, r) := unit_name s' in (c :: u, r)
  | [] => ([], [])
  end.

Definition unitMap : list (bytes * Z) :=
  [(bytes_of "ns", Nanosecond); (bytes_of "us", 1000); ([0xC2; 0xB5; 115], 1000);
   ([0xCE; 0xBC; 115], 1000); (bytes_of "ms", Millisecond); (bytes_of "s", Second);
   (bytes_of "m", Minute); (bytes_of "h", 60 * Minute)].

Definition unit_of (u : bytes) : option Z :=
  snd ∘ snd <$> list_find (fun e => e.1 = u) unitMap.

(** One number with its unit: the nanoseconds and the rest. *)
Definition duration_item (s : bytes) : option (Z * bytes) :=
  match s with
  | [] => None
  | c :: _ =>
      if negb ((c =? 46) || is_digit c) then None
      else
        '(v, s1) ← leadingInt 0 s;
        let pre := negb (length s =? length s1)%nat in
        let '(f, scale, s2, post) :=
          match s1 with
          | 46 :: s1' =>
              let '(f, scale, s2) := leadingFraction 0 (float_of 1) false s1' in
              (f, scale, s2, negb (length s1' =? length s2)%nat)
          | _ => (0, float_of 1, s1, false)
          end in
        if negb pre && negb post then None
        else
          let '(u, s3) := unit_name s2 in
          if (length u =? 0)%nat then None
          else
            unit ← unit_of u;
            if 2 ^ 63 / unit <? v then None
            else
              let v := v * unit in
              let v := if 0 <? f
                       then u64 (v + truncate (fmul (float_of f) (fdiv (float_of unit) scale)))
                       else v in
              if (0 <? f) && (2 ^ 63 <? v) then None else Some (v, s3)
  end.

(** The loop of [ParseDuration] over the items; every item consumes input. *)
Fixpoint duration_loop (n : nat) (d : Z) (s : bytes) : option Z :=
  match s, n with
  | [], _ => Some d
  | _, O => None
  | _, S n' =>
      '(v, s') ← duration_item s;
      let d := u64 (d + v) in
      if 2 ^ 63 <? d then None else duration_loop n' d s'
  end.

Definition ParseDuration (str : bytes) : option Z :=
  let '(neg, s) :=
    match str with
    | 45 :: s' => (true, s')
    | 43 :: s' => (false, s')
    | _ => (false, str)
    end in
  if bool_decide (s = [48]) then Some 0
  else if (length s =? 0)%nat then None
  else
    d ← duration_loop (length s) 0 s;
    if (neg : bool) then Some (- d)
    else if 2 ^ 63 - 1 <? d then None else Some d.

(** ** The fuel is enough *)

Lemma leadingInt_suffix x s v r : leadingInt x s = Some (v, r) -> (length r <= length s)%nat.
Proof.
  revert x. induction s as [|c s IH]; intros x; cbn [leadingInt]; [by intros [= _ <-]|].
  destruct (negb (is_digit c)); [by intros [= _ <-]|].
  destruct (_ <? x); [done|]. destruct (_ <? _); [done|]. intros H%IH. cbn [length]. lia.
Qed.

Lemma leadingFraction_suffix x sc o s : (length (leadingFraction x sc o s).2 <= length s)%nat.
Proof.
  revert x sc o. induction s as [|c s IH]; intros x sc o; cbn [leadingFraction]; [done|].
  cbn [length]. destruct (negb (is_digit c)); [done|].
  destruct o; [etrans; [apply IH|lia]|].
  destruct (_ <? x); [etrans; [apply IH|lia]|].
  destruct (_ <? _); (etrans; [apply IH|lia]).
Qed.

Lemma unit_name_split s : (length (unit_name s).1 + length (unit_name s).2 = length s)%nat.
Proof.
  induction s as [|c s IH]; [done|]. cbn [unit_name]. destruct (_ || _); [done|].
  destruct (unit_name s) as [u r]. cbn [fst snd length] in *. lia.
Qed.

Lemma duration_item_shorter s v r : duration_item s = Some (v, r) -> (length r < length s)%nat.
Proof.
  unfold duration_item. destruct s as [|c s]; [done|]. set (s0 := c :: s).
  destruct (negb _); [done|]. destruct (leadingInt 0 s0) as [[v1 s1]|] eqn:E1; [|done].
  apply leadingInt_suffix in E1. cbn [mbind option_bind].
  set (q := match s1 with 46 :: _ => _ | _ => _ end).
  assert (length q.1.2 <= length s1)%nat as H2.
  { subst q. destruct s1 as [|z s1']; [done|].
    destruct (decide (z = 46)) as [->|Hz].
    - pose proof (leadingFraction_suffix 0 (float_of 1) false s1') as H.
      destruct (leadingFraction _ _ _ _) as [[? ?] ?]. cbn [fst snd length] in *. lia.
    - do 6 (destruct z as [|z|z]; try done; try destruct z as [z|z|]; try done). }
  destruct q as [[[f scale] s2] post]. cbn [fst snd] in H2.
  destruct (_ && _); [done|]. pose proof (unit_name_split s2) as H3.
  destruct (unit_name s2) as [u s3]. cbn [fst snd] in H3.
  destruct (Nat.eqb_spec (length u) 0) as [|Hu]; [done|].
  destruct (unit_of u) as [k|]; [|done]. cbn [mbind option_bind].
  destruct (_ <? v1); [done|]. destruct (_ && _); [done|]. intros [= _ <-]. lia.
Qed.

(** More fuel than the length of the input changes nothing: the loop ends at
    the end of the input or at an error, never for lack of fuel. *)
Lemma duration_loop_fuel n m d s :
  (length s <= n)%nat -> (length s <= m)%nat -> duration_loop n d s = duration_loop m d s.
Proof.
  revert m d s. induction n as [|n IH]; intros m d s Hn Hm.
  { destruct s; [by destruct m|simpl in Hn; lia]. }
  destruct m as [|m]; [destruct s; [done|simpl in Hm; lia]|].
  cbn [duration_loop]. destruct s as [|c s]; [done|].
  destruct (duration_item (c :: s)) as [[v r]|] eqn:E; [|done]. cbn [mbind option_bind].
  apply duration_item_shorter in E. destruct (_ <? _); [done|]. apply IH; lia.
Qed.

Example parse_200ms : ParseDuration (bytes_of "200ms") = Some (200 * Millisecond).
Proof. vm_compute. reflexivity. Qed.
Example parse_10m : ParseDuration (bytes_of "10m") = Some (10 * Minute).
Proof. vm_compute. reflexivity. Qed.
Example parse_compound : ParseDuration (bytes_of "-1h2m3.5s") = Some (- 3723500000000).
Proof. vm_compute. reflexivity. Qed.
Example parse_fraction : ParseDuration (bytes_of "0.000000001s") = Some 1.
Proof. vm_compute. reflexivity. Qed.
Example parse_no_unit : ParseDuration (bytes_of "10") = None.
Proof. vm_compute. reflexivity. Qed.
