(* ===== verification/Metrics.v ===== *)
(** The metrics recorder of [metrics/metrics.go] as the other components see it:
    counters are an append-only log of adds with their attributes, the gauges
    and the readiness state are fields. [MetricsSetup] has its construction. *)
From Stdlib Require Import ZArith Lia.
From S2P Require Import Prelude.

(** The counter fields of [Recorder]. *)
Inductive counter :=
  | framesReceived | framesDropped | framesForwarded | framesInvalidPayload
  | frameReassemblyStarted | frameReassemblyCompleted | frameReassemblyAbandoned
  | frameReassemblyHashMismatch | framesDeduped | egressErrors
  | headerForwarded | headerEgressErrors | mcEgressErrors
  | gapsDetected | gapsSuppressed | nacksDispatched | nacksUnrecovered
  | subtreeAnnouncesReceived | subtreeAnnouncesRejected | subtreeGroupEvictions
  | beaconAdvertsReceived.

#[export] Instance counter_eq_dec : EqDecision counter.
Proof. solve_decision. Defined.

(** [attribute.Int] and [attribute.String]. *)
Inductive attr := AInt (k : string) (v : Z) | AStr (k v : string).

#[export] Instance attr_eq_dec : EqDecision attr.
Proof. solve_decision. Defined.

Record point := mkPoint { p_counter : counter; p_value : Z; p_attrs : list attr }.

(** [Recorder]: [readyCount] is an [atomic.Int32]. *)
Record Recorder := mkRecorder {
  numWorkers : Z;
  readyCount : Z;
  draining : bool;
  subtreeGroupEntries : Z;
  beaconRegistryEndpoints : Z;
  adds : list point;
}.

(** The part of [New] that is state: everything starts at its zero value. *)
Definition New (n : Z) : Recorder := mkRecorder n 0 false 0 0 [].

Definition add (c : counter) (v : Z) (l : list attr) (r : Recorder) : Recorder :=
  {| numWorkers := numWorkers r; readyCount := readyCount r; draining := draining r;
     subtreeGroupEntries := subtreeGroupEntries r;
     beaconRegistryEndpoints := beaconRegistryEndpoints r;
     adds := adds r ++ [mkPoint c v l] |}.

(** ** One definition per method *)

Definition worker (id : Z) : attr := AInt "worker" id.

Definition FrameReceived (workerID : Z) (iface version : string) : Recorder -> Recorder :=
  add framesReceived 1
    [worker workerID; AStr "network.interface.name" iface; AStr "version" version].
Definition FrameDropped (workerID : Z) (reason : string) : Recorder -> Recorder :=
  add framesDropped 1 [worker workerID; AStr "reason" reason].
Definition FrameForwarded (workerID : Z) (proto : string) : Recorder -> Recorder :=
  add framesForwarded 1 [worker workerID; AStr "proto" proto].
Definition FrameInvalidPayload (workerID : Z) : Recorder -> Recorder :=
  add framesInvalidPayload 1 [worker workerID].
Definition ReassemblyStarted : Recorder -> Recorder := add frameReassemblyStarted 1 [].
Definition ReassemblyCompleted : Recorder -> Recorder := add frameReassemblyCompleted 1 [].
Definition ReassemblyAbandoned : Recorder -> Recorder := add frameReassemblyAbandoned 1 [].
Definition ReassemblyHashMismatch : Recorder -> Recorder :=
  add frameReassemblyHashMismatch 1 [].
Definition FrameDeduped (workerID : Z) : Recorder -> Recorder :=
  add framesDeduped 1 [worker workerID].
Definition EgressError (workerID : Z) : Recorder -> Recorder :=
  add egressErrors 1 [worker workerID].
Definition MCEgressError (workerID : Z) : Recorder -> Recorder :=
  add mcEgressErrors 1 [worker workerID].
Definition HeaderForwarded (workerID : Z) : Recorder -> Recorder :=
  add headerForwarded 1 [worker workerID].
Definition HeaderEgressError (workerID : Z) : Recorder -> Recorder :=
  add headerEgressErrors 1 [worker workerID].
Definition GapDetected (flow : string) : Recorder -> Recorder :=
  add gapsDetected 1 [AStr "flow" flow].
Definition GapSuppressed (flow : string) : Recorder -> Recorder :=
  add gapsSuppressed 1 [AStr "flow" flow].
Definition NACKDispatched (flow : string) : Recorder -> Recorder :=
  add nacksDispatched 1 [AStr "flow" flow].
Definition GapUnrecovered (flow : string) : Recorder -> Recorder :=
  add nacksUnrecovered 1 [AStr "flow" flow].
Definition SubtreeAnnounceReceived : Recorder -> Recorder := add subtreeAnnouncesReceived 1 [].
Definition SubtreeAnnounceRejected (reason : string) : Recorder -> Recorder :=
  add subtreeAnnouncesRejected 1 [AStr "reason" reason].
Definition BeaconAdvertReceived : Recorder -> Recorder := add beaconAdvertsReceived 1 [].

Definition SubtreeGroupEvicted (evicted remaining : Z) (r : Recorder) : Recorder :=
  let r := if 0 <? evicted then add subtreeGroupEvictions evicted [] r else r in
  {| numWorkers := numWorkers r; readyCount := readyCount r; draining := draining r;
     subtreeGroupEntries := remaining;
     beaconRegistryEndpoints := beaconRegistryEndpoints r; adds := adds r |}.

Definition SetBeaconRegistryEndpoints (n : Z) (r : Recorder) : Recorder :=
  {| numWorkers := numWorkers r; readyCount := readyCount r; draining := draining r;
     subtreeGroupEntries := subtreeGroupEntries r; beaconRegistryEndpoints := n;
     adds := adds r |}.

Definition ready_add (d : Z) (r : Recorder) : Recorder :=
  {| numWorkers := numWorkers r; readyCount := i32 (readyCount r + d); draining := draining r;
     subtreeGroupEntries := subtreeGroupEntries r;
     beaconRegistryEndpoints := beaconRegistryEndpoints r; adds := adds r |}.
Definition WorkerReady : Recorder -> Recorder := ready_add 1.
Definition WorkerDone : Recorder -> Recorder := ready_add (-1).

Definition SetDraining (r : Recorder) : Recorder :=
  {| numWorkers := numWorkers r; readyCount := readyCount r; draining := true;
     subtreeGroupEntries := subtreeGroupEntries r;
     beaconRegistryEndpoints := beaconRegistryEndpoints r; adds := adds r |}.

(** [if rec != nil { rec.M(..) }]. *)
Definition with_rec (rec : option Recorder) (m : Recorder -> Recorder) : option Recorder :=
  m <$> rec.

(** The value a counter has accumulated, over all attribute sets. *)
Definition value (c : counter) (r : Recorder) : Z :=
  foldr (fun p acc => (if decide (p_counter p = c) then p_value p else 0) + acc) 0 (adds r).

(** ** The readiness probe *)

Record Readyz := mkReadyz {
  rz_code : Z; rz_status : string; workers_ready : Z; workers_total : Z }.

Definition handleReadyz (r : Recorder) : Readyz :=
  let ready := readyCount r in
  let total := numWorkers r in
  if draining r then mkReadyz 503 "draining" ready total
  else if (total <=? ready) && (0 <? total) then mkReadyz 200 "ready" ready total
  else mkReadyz 503 "starting" ready total.

(** ** Counter arithmetic *)

Lemma foldr_value c l acc :
  foldr (fun p acc => (if decide (p_counter p = c) then p_value p else 0) + acc) acc l =
  foldr (fun p acc => (if decide (p_counter p = c) then p_value p else 0) + acc) 0 l + acc.
Proof. induction l as [|p l IH]; simpl; [lia|]. rewrite IH. lia. Qed.

Lemma value_add c c' v l r :
  value c (add c' v l r) = value c r + if decide (c' = c) then v else 0.
Proof.
  unfold value. simpl. rewrite foldr_app. simpl. rewrite foldr_value. lia.
Qed.

(** ** Counters and gauges leave the readiness alone *)

(** Counts are only ever added; the two gauges may move. *)
Definition only_adds (r r' : Recorder) : Prop :=
  exists l se be, r' = mkRecorder (numWorkers r) (readyCount r) (draining r) se be (adds r ++ l).

#[export] Instance only_adds_po : PreOrder only_adds.
Proof.
  split.
  - intros []. eexists [], _, _. by rewrite app_nil_r.
  - intros r1 r2 r3 (l & se & be & ->) (l' & se' & be' & ->). exists (l ++ l'), se', be'.
    simpl. by rewrite app_assoc.
Qed.

Lemma add_only c v l r : only_adds r (add c v l r).
Proof. by eexists _, _, _. Qed.

(** The same for a recorder that may be nil. *)
Definition grows : option Recorder -> option Recorder -> Prop := option_Forall2 only_adds.

#[export] Instance grows_po : PreOrder grows.
Proof. unfold grows. split; apply _. Qed.

Lemma grows_with_rec r m : (forall r, only_adds r (m r)) -> grows r (with_rec r m).
Proof. intros. destruct r; by constructor. Qed.

(** ** Readiness *)

(** What the process does to the readiness state. *)
Inductive ready_event := EvReady | EvDone | EvDrain.

#[export] Instance ready_event_eq_dec : EqDecision ready_event.
Proof. solve_decision. Defined.

Definition ready_step (r : Recorder) (e : ready_event) : Recorder :=
  match e with
  | EvReady => WorkerReady r
  | EvDone => WorkerDone r
  | EvDrain => SetDraining r
  end.

Definition balance (l : list ready_event) : Z :=
  foldr (fun e acc => match e with EvReady => 1 | EvDone => -1 | EvDrain => 0 end + acc) 0 l.

Lemma ready_run l n :
  let r := foldl ready_step (New n) l in
  readyCount r = i32 (balance l) /\ numWorkers r = n /\
  (draining r = true <-> EvDrain ∈ l).
Proof.
  induction l as [|e l IH] using rev_ind; cbn zeta in *.
  - split_and!; [done..|]. split; [done|]. intros H. by apply elem_of_nil in H.
  - rewrite foldl_snoc. destruct IH as (H1 & H2 & H3).
    assert (balance (l ++ [e]) = balance l + balance [e]) as ->.
    { clear. induction l as [|e' l IH]; simpl in *; [lia|]. destruct e'; lia. }
    rewrite elem_of_app, list_elem_of_singleton.
    destruct e; simpl; rewrite ?H1, ?i32_add, ?Z.add_0_r; split_and!; try done;
      rewrite ?H3; naive_solver.
Qed.

(** [/readyz] answers 200 exactly when the process is not draining, has
    workers, and at least as many of them have entered their receive loop and
    not left it; otherwise it answers 503 and says whether it is draining. *)
Theorem readyz_spec l n :
  Z.of_nat (length l) < 2 ^ 31 ->
  let rz := handleReadyz (foldl ready_step (New n) l) in
  (rz_code rz = 200 <-> EvDrain ∉ l /\ 0 < n <= balance l) /\
  (rz_code rz <> 200 -> rz_code rz = 503 /\
     (rz_status rz = "draining"%string <-> EvDrain ∈ l)).
Proof.
  intros Hl. cbn zeta. destruct (ready_run l n) as (H1 & H2 & H3).
  assert (- Z.of_nat (length l) <= balance l <= Z.of_nat (length l)).
  { clear. induction l as [|e l IH]; simpl; [lia|]. destruct e; lia. }
  rewrite i32_id in H1 by lia. unfold handleReadyz. rewrite H1, H2.
  destruct (draining _).
  - assert (EvDrain ∈ l) by (by apply H3). naive_solver.
  - assert (EvDrain ∉ l) by (intros ?%H3; done).
    destruct (Z.leb_spec n (balance l)), (Z.ltb_spec 0 n); simpl;
      (split; [split; [try done; try lia | try done; intros [_ ?]; lia]|]);
      intros ?; try done; split; try done; split; done.
Qed.

Lemma readyz_spec_witness :
  rz_code (handleReadyz (foldl ready_step (New 2) [EvReady; EvReady])) = 200.
Proof.
  apply (readyz_spec [EvReady; EvReady] 2); [simpl; lia|]. split; [|simpl; lia].
  by apply (bool_decide_unpack _).
Defined.
