(* ===== verification/Net.v ===== *)
(** What the listener uses of Go's [net] package: [IP], its conversions and its
    textual form, and [IPNet.Contains]. *)
From Stdlib Require Import ZArith Lia.
From stdpp Require Import pretty.
From S2P Require Import Prelude.
#[local] Open Scope go_scope.

(** An [IP] is a byte slice of length 4 or 16; [[]] is nil. *)
Definition v4InV6Prefix : bytes := replicate 10 0 ++ [255; 255].

Definition To4 (ip : bytes) : bytes :=
  if (length ip =? 4)%nat then ip
  else if (length ip =? 16)%nat && bool_decide (take 12 ip = v4InV6Prefix)
  then drop 12 ip else [].

Definition To16 (ip : bytes) : bytes :=
  if (length ip =? 4)%nat then v4InV6Prefix ++ ip
  else if (length ip =? 16)%nat then ip else [].

Lemma length_To16 ip : length ip = 4%nat \/ length ip = 16%nat -> length (To16 ip) = 16%nat.
Proof. unfold To16. intros [E|E]; rewrite E; simpl; by rewrite ?E. Qed.

(** ** [IP.String] *)

Definition dec (z : Z) : string := pretty z.

Definition hex_digit (d : Z) : string :=
  String.substring (Z.to_nat d) 1 "0123456789abcdef".

(** At most four digits, no leading zeros. *)
Definition hex_word (w : Z) : string :=
  let d k := hex_digit ((w / 16 ^ k) `mod` 16) in
  let '(b3, b2, b1) := (4096 <=? w, 256 <=? w, 16 <=? w) in
  ((if b3 then d 3 else "") +:+ (if b2 then d 2 else "") +:+
   (if b1 then d 1 else "") +:+ d 0)%string.

Definition words (ip : bytes) : list Z :=
  (fun i => be_get (ip.[2 * i:2 * i + 2])) <$> seq 0 8.

Fixpoint zero_prefix (l : list Z) : nat :=
  match l with
  | w :: l' => if w =? 0 then S (zero_prefix l') else O
  | [] => O
  end.

(** The first longest run of at least two zero words: its start and length. *)
Definition longest_zeros (ws : list Z) : nat * nat :=
  foldl (fun best i =>
    let l := zero_prefix (drop i ws) in
    if (2 <=? l)%nat && (best.2 <? l)%nat then (i, l) else best) (8%nat, 0%nat) (seq 0 8).

Definition IPString (ip : bytes) : string :=
  let p4 := To4 ip in
  if (length p4 =? 4)%nat then String.concat "." (dec <$> p4)
  else if (length ip =? 16)%nat then
    let ws := words ip in
    let '(start, len) := longest_zeros ws in
    if (len =? 0)%nat then String.concat ":" (hex_word <$> ws)
    else (String.concat ":" (hex_word <$> take start ws) +:+ "::" +:+
          String.concat ":" (hex_word <$> drop (start + len) ws))%string
  else if (length ip =? 0)%nat then "<nil>"%string
  else ("?" +:+ String.concat "" ((fun b => (hex_digit (b / 16) +:+ hex_digit (b `mod` 16))%string)
          <$> ip))%string.

(** [fmt.Sprintf("[%s]:%d", ip, port)]. *)
Definition host_port (ip : bytes) (port : Z) : string :=
  ("[" +:+ IPString ip +:+ "]:" +:+ dec port)%string.

Example host_port_v6 :
  host_port ([0x20; 1; 0x0d; 0xb8] ++ zeros 11 ++ [1]) 8400 = "[2001:db8::1]:8400"%string.
Proof. vm_compute. reflexivity. Qed.

Example host_port_runs :
  host_port (concat [[0xfd; 0]; [0; 0]; [0; 0]; [0; 7]; [0; 0]; [0; 0]; [0; 0]; [0xab; 0xc]]) 1 =
    "[fd00:0:0:7::ab0c]:1"%string.
Proof. vm_compute. reflexivity. Qed.

Example host_port_mapped :
  host_port (v4InV6Prefix ++ [192; 0; 2; 10]) 9 = "[192.0.2.10]:9"%string.
Proof. vm_compute. reflexivity. Qed.

(** ** [IPNet] *)

Record IPNet := mkIPNet { n_IP : bytes; n_Mask : bytes }.

Definition networkNumberAndMask (n : IPNet) : bytes * bytes :=
  let ip := To4 (n_IP n) in
  let '(ip, bad) := if (length ip =? 0)%nat then (n_IP n, negb (length (n_IP n) =? 16)%nat)
                    else (ip, false) in
  if bad then ([], [])
  else
    let m := n_Mask n in
    if (length m =? 4)%nat then (if (length ip =? 4)%nat then (ip, m) else ([], []))
    else if (length m =? 16)%nat then
      (if (length ip =? 4)%nat then (ip, drop 12 m) else (ip, m))
    else ([], []).

Definition masked (l m : bytes) : bytes := zip_with Z.land l m.

Definition IPNet_Contains (n : IPNet) (ip : bytes) : bool :=
  let '(nn, m) := networkNumberAndMask n in
  let x := To4 ip in
  let ip := if (length x =? 0)%nat then ip else x in
  (length ip =? length nn)%nat && bool_decide (masked nn m = masked ip m).

(** ** [recvfrom] on a raw socket *)

Inductive Errno := EAGAIN | EWOULDBLOCK | EBADF | EINVAL | EINTR | EOTHER.

Inductive Sockaddr := SockaddrInet6 (addr : bytes) | SockaddrOther.

(** What a receive returns: a datagram with its source, or an error; and
    whether the context was cancelled by then. *)
Inductive Recv := RecvData (datagram : bytes) (from : Sockaddr) | RecvErr (e : Errno).
