(* ===== verification/MetricsSetup.v ===== *)
(** The construction and the end of the recorder of [metrics/metrics.go]: the
    instruments and their names, [New] with its error paths, the health probes
    as the HTTP server routes them, and [Shutdown]. OpenTelemetry answers as it
    likes. *)
From Stdlib Require Import ZArith Lia Ascii.
From S2P Require Import Prelude Net Metrics.

(** ** Instruments *)

(** The observable gauges, each with the field it reads. *)
Inductive gauge := GaugeSubtreeGroupEntries | GaugeBeaconRegistryEndpoints | GaugeUptime.

(** What an instrument is for: a counter field, or a gauge. *)
Inductive Instrument := ICounter (c : counter) | IGauge (g : gauge).

#[export] Instance gauge_eq_dec : EqDecision gauge.
Proof. solve_decision. Defined.
#[export] Instance instrument_eq_dec : EqDecision Instrument.
Proof. solve_decision. Defined.

(** The instruments of [New] in the order of their creation. *)
Definition instruments : list (Instrument * string) :=
  [(ICounter framesReceived, "bsl_frames_received_total");
   (ICounter frameReassemblyStarted, "bsl_reassembly_started_total");
   (ICounter frameReassemblyCompleted, "bsl_reassembly_completed_total");
   (ICounter frameReassemblyAbandoned, "bsl_reassembly_abandoned_total");
   (ICounter frameReassemblyHashMismatch, "bsl_reassembly_hash_mismatch_total");
   (ICounter framesDropped, "bsl_frames_dropped_total");
   (ICounter framesForwarded, "bsl_frames_forwarded_total");
   (ICounter framesInvalidPayload, "bsl_frames_invalid_payload_total");
   (ICounter framesDeduped, "bsl_frames_deduped_total");
   (ICounter egressErrors, "bsl_egress_errors_total");
   (ICounter mcEgressErrors, "bsl_mc_egress_errors_total");
   (ICounter headerForwarded, "bsl_header_forwarded_total");
   (ICounter headerEgressErrors, "bsl_header_egress_errors_total");
   (ICounter gapsDetected, "bsl_gaps_detected_total");
   (ICounter gapsSuppressed, "bsl_gaps_suppressed_total");
   (ICounter nacksDispatched, "bsl_nacks_dispatched_total");
   (ICounter nacksUnrecovered, "bsl_gaps_unrecovered_total");
   (ICounter subtreeAnnouncesReceived, "bsl_subtree_announces_received_total");
   (ICounter subtreeAnnouncesRejected, "bsl_subtree_announces_rejected_total");
   (ICounter subtreeGroupEvictions, "bsl_subtree_group_evictions_total");
   (IGauge GaugeSubtreeGroupEntries, "bsl_subtree_group_entries");
   (ICounter beaconAdvertsReceived, "bsl_beacon_adverts_received_total");
   (IGauge GaugeBeaconRegistryEndpoints, "bsl_beacon_registry_endpoints");
   (IGauge GaugeUptime, "bsl_uptime_seconds")]%string.

(** What the callback of a gauge observes at the time [now], in nanoseconds for
    the uptime. *)
Definition observed (r : Recorder) (startTime now : Z) (g : gauge) : Z :=
  match g with
  | GaugeSubtreeGroupEntries => subtreeGroupEntries r
  | GaugeBeaconRegistryEndpoints => beaconRegistryEndpoints r
  | GaugeUptime => now - startTime
  end.

(** ** [New] *)

(** What the operating system and OpenTelemetry answer. *)
Record Otel := mkOtel {
  hostname : option string;
  resource_ok : list (string * string) -> bool;
  prometheus_ok : bool;
  otlp_ok : string -> bool;
  create_ok : Instrument -> string -> bool;
}.

Inductive MetricsErr := ErrResource | ErrPrometheus | ErrOTLP | ErrInstrument (name : string).

Definition ServiceName : string := "bitcoin-shard-listener".

(** The readers of the provider and the functions that shut it down, in order. *)
Inductive Reader := PromReader | OTLPReader (endpoint : string) (interval : Z).
Inductive ShutdownFn := OTLPShutdown | ProviderShutdown.

(** A recorder with what [New] allocated for it. *)
Record Instrumented := mkInstrumented {
  recorder : Recorder;
  attributes : list (string * string);
  readers : list Reader;
  created : list (Instrument * string);
  shutdownFuncs : list ShutdownFn;
}.

Definition default_id (O : Otel) (instanceID : string) : string :=
  if String.eqb instanceID EmptyString then default "unknown"%string (hostname O) else instanceID.

(** The [if x, err = meter.Int64Counter(..); err != nil { return nil, err }]. *)
Fixpoint create_all (O : Otel) (l : list (Instrument * string)) : unit + MetricsErr :=
  match l with
  | [] => inl tt
  | (i, name) :: l' =>
      let! _ := refuse (negb (create_ok O i name)) (ErrInstrument name) in
      create_all O l'
  end.

Definition New (O : Otel) (version instanceID : string) (n : Z) (otlpEndpoint : string)
    (otlpInterval : Z) : Instrumented + MetricsErr :=
  let attrs := [("service.name", ServiceName); ("service.instance.id", default_id O instanceID);
                ("service.version", version)]%string in
  let! _ := refuse (negb (resource_ok O attrs)) ErrResource in
  let! _ := refuse (negb (prometheus_ok O)) ErrPrometheus in
  let push := negb (String.eqb otlpEndpoint EmptyString) in
  let! _ := refuse (push && negb (otlp_ok O otlpEndpoint)) ErrOTLP in
  let! _ := create_all O instruments in
  inl {| recorder := Metrics.New n; attributes := attrs;
         readers := PromReader :: (if push then [OTLPReader otlpEndpoint otlpInterval] else []);
         created := instruments;
         shutdownFuncs := (if push then [OTLPShutdown] else []) ++ [ProviderShutdown] |}.

(** The handle behind a counter field; an [Add] on a nil one panics. *)
Definition handle (m : Instrumented) (c : counter) : option string :=
  snd <$> head (filter (fun p => p.1 = ICounter c) (created m)).

(** ** [Shutdown] *)

(** Every function runs, whatever the others return; the last error wins. *)
Definition shutdownFn (answers : ShutdownFn -> option string) (m : Instrumented)
    : list ShutdownFn * option string :=
  foldl (fun acc fn =>
    (acc.1 ++ [fn], match answers fn with Some err => Some err | None => acc.2 end))
    ([], None) (shutdownFuncs m).

(** ** The probes *)

Definition quoted (s : string) : string := String "034" (s +:+ String "034" EmptyString).
Definition field (k v : string) : string := quoted k +:+ ":" +:+ v.
Definition object (fields : list string) : string := "{" +:+ String.concat "," fields +:+ "}".

Record Response := mkResponse { status : Z; contentType : string; body : string }.

(** [uptime] is the uptime in seconds as ["%.1f"] prints it. *)
Definition handleHealthz (uptime : string) : Response :=
  mkResponse 200 "application/json"
    (object [field "status" (quoted "ok"); field "uptime_seconds" uptime]).

(** The response [handleReadyz] writes for what it finds. *)
Definition write_readyz (z : Readyz) : Response :=
  mkResponse (rz_code z) "application/json"
    (object [field "status" (quoted (rz_status z)); field "workers_ready" (dec (workers_ready z));
             field "workers_total" (dec (workers_total z))]).

(** The mux of [Serve]: the scrape handler is the Prometheus client's. *)
Definition serve_path (scrape : Response) (uptime path : string) (r : Recorder) : option Response :=
  if String.eqb path "/metrics" then Some scrape
  else if String.eqb path "/healthz" then Some (handleHealthz uptime)
  else if String.eqb path "/readyz" then Some (write_readyz (handleReadyz r))
  else None.

Example readyz_body :
  body (write_readyz (handleReadyz (WorkerReady (Metrics.New 1)))) =
    object [field "status" (quoted "ready"); field "workers_ready" "1"; field "workers_total" "1"].
Proof. vm_compute. reflexivity. Qed.

(** ** What [New] promises *)

Lemma create_all_spec O l :
  create_all O l = inl tt <-> Forall (fun p => create_ok O p.1 p.2 = true) l.
Proof.
  induction l as [|[i name] l IH]; cbn [create_all]; [done|].
  rewrite Forall_cons. simpl. destruct (create_ok O i name); simpl; [|intuition congruence].
  rewrite IH. tauto.
Qed.

Lemma counters_instrumented c :
  exists name, (ICounter c, name) ∈ instruments /\
    snd <$> head (filter (fun p => p.1 = ICounter c) instruments) = Some name.
Proof.
  destruct c; eexists; (split; [|vm_compute; reflexivity]); apply (bool_decide_unpack _); vm_compute; exact I.
Qed.

Lemma names_distinct : NoDup (snd <$> instruments).
Proof. apply (bool_decide_unpack _). vm_compute. exact I. Qed.

Lemma instruments_distinct i i' name :
  (i, name) ∈ instruments -> (i', name) ∈ instruments -> i = i'.
Proof.
  intros (k & Hk)%list_elem_of_lookup (k' & Hk')%list_elem_of_lookup.
  assert (k = k') as <-.
  { eapply NoDup_lookup; [apply names_distinct| |]; rewrite list_lookup_fmap; [rewrite Hk|rewrite Hk']; done. }
  congruence.
Qed.

(** C39: a recorder is whole. [New] succeeds exactly when the resource, the
    exporters and every instrument can be made; then each counter field has an
    instrument, so that no recording method meets a nil handle, no two counters
    share a name, and the counts and the readiness start at zero. *)
Theorem new_recorder_is_whole O version id n endpoint interval :
  let attrs := [("service.name", ServiceName); ("service.instance.id", default_id O id);
                ("service.version", version)]%string in
  let r := New O version id n endpoint interval in
  ((exists m, r = inl m) <->
     resource_ok O attrs = true /\ prometheus_ok O = true /\
     (endpoint <> EmptyString -> otlp_ok O endpoint = true) /\
     Forall (fun p => create_ok O p.1 p.2 = true) instruments) /\
  forall m, r = inl m ->
    (forall c, exists name, handle m c = Some name /\ (ICounter c, name) ∈ created m) /\
    (forall c c' name, handle m c = Some name -> handle m c' = Some name -> c = c') /\
    (forall c, value c (recorder m) = 0) /\ readyCount (recorder m) = 0.
Proof.
  cbn zeta. unfold New. set (attrs := [_; _; _]). split.
  - generalize instruments. intros ins. destruct (resource_ok O attrs); simpl; [|split; [by intros [m [=]]|by intros ([=] & _)]].
    destruct (prometheus_ok O); simpl; [|split; [by intros [m [=]]|by intros (_ & [=] & _)]].
    destruct (String.eqb_spec endpoint EmptyString) as [->|He]; simpl.
    + pose proof (create_all_spec O ins) as Hc.
      destruct (create_all O ins) as [[]|err]; simpl.
      * split; [|by eexists]. intros _. split_and!; [done..|by apply Hc].
      * split; [by intros [m [=]]|]. intros (_ & _ & _ & H). by apply Hc in H.
    + destruct (otlp_ok O endpoint); simpl; [|split; [by intros [m [=]]|intros (_ & _ & H & _); by specialize (H He)]].
      pose proof (create_all_spec O ins) as Hc.
      destruct (create_all O ins) as [[]|err]; simpl.
      * split; [|by eexists]. intros _. split_and!; [done..|by apply Hc].
      * split; [by intros [m [=]]|]. intros (_ & _ & _ & H). by apply Hc in H.
  - intros m. do 3 (destruct (refuse _ _); [|done]; cbn [rbind]).
    destruct (create_all O instruments); [|done]. cbn [rbind].
    intros [= <-]. unfold handle. cbn [created recorder]. split_and!; [| |done|done].
    + intros c. destruct (counters_instrumented c) as (name & H1 & H2). by exists name.
    + intros c c' name Hc Hc'.
      destruct (counters_instrumented c) as (x & H1 & H2). rewrite H2 in Hc. injection Hc as ->.
      destruct (counters_instrumented c') as (x' & H3 & H4). rewrite H4 in Hc'. injection Hc' as ->.
      pose proof (instruments_distinct _ _ _ H1 H3). congruence.
Qed.

(** Both exporters are shut down even when one of them fails. *)
Lemma shutdown_runs_all answers m : (shutdownFn answers m).1 = shutdownFuncs m.
Proof.
  unfold shutdownFn. induction (shutdownFuncs m) as [|fn l IH] using rev_ind; [done|].
  rewrite foldl_snoc. simpl. by rewrite IH.
Qed.

(** ** Witness *)

(** No hostname, no push, and everything works. *)
Definition ex_otel : Otel := mkOtel None (fun _ => true) true (fun _ => false) (fun _ _ => true).

Lemma new_recorder_is_whole_witness :
  exists m, New ex_otel "dev" EmptyString 2 EmptyString 0 = inl m /\
    default_id ex_otel EmptyString = "unknown"%string /\
    handle m gapsDetected = Some "bsl_gaps_detected_total"%string /\
    forall c, exists name, handle m c = Some name /\ (ICounter c, name) ∈ created m.
Proof.
  destruct (New ex_otel "dev" EmptyString 2 EmptyString 0) as [m|err] eqn:E; [|vm_compute in E; discriminate E].
  destruct (new_recorder_is_whole ex_otel "dev" EmptyString 2 EmptyString 0) as [_ H].
  destruct (H m E) as (H1 & _). exists m. split; [reflexivity|]. split; [reflexivity|]. split; [|exact H1].
  vm_compute in E. injection E as <-. vm_compute. reflexivity.
Defined.
