(* ===== verification/Sockets.v ===== *)
(** The sockets of [listener/listener.go], [egress/mcast.go] and
    [discovery/subtree_announce.go]: each set-up as the sequence of system calls
    it makes, with its error paths, against any kernel. The theorems: no error
    path leaks a descriptor, a worker that starts is a member of exactly its
    groups, and a group listed twice keeps it from starting. *)
From Stdlib Require Import ZArith Lia.
From S2P Require Import Prelude Net.

(** ** System calls *)

Inductive SockOpt :=
  | SO_REUSEPORT | SO_RCVBUF | SO_SNDBUF
  | IPV6_MULTICAST_IF | IPV6_MULTICAST_HOPS | IPV6_MULTICAST_LOOP.

(** [Socket] is [AF_INET6], [SOCK_DGRAM|SOCK_CLOEXEC]; [Bind] is to [::]. *)
Inductive Call :=
  | Socket
  | SetsockoptInt (fd : Z) (opt : SockOpt) (v : Z)
  | Bind (fd port : Z)
  | JoinGroup (fd ifindex : Z) (addr : bytes)
  | SetRcvTimeout (fd ns : Z)
  | CloseFd (fd : Z).

#[export] Instance sock_opt_eq_dec : EqDecision SockOpt.
Proof. solve_decision. Defined.
#[export] Instance call_eq_dec : EqDecision Call.
Proof. solve_decision. Defined.

(** A call and its answer: [None] is an errno. *)
Abbreviation event := (Call * option Z)%type (only parsing).

(** The kernel answers from everything that happened. *)
Definition Kernel := list event -> Call -> option Z.

(** ** Programs: they extend the history of calls *)

Definition Sys (A : Type) := Kernel -> list event -> A * list event.

Definition ret {A} (a : A) : Sys A := fun _ h => (a, h).
Definition bind {A B} (m : Sys A) (k : A -> Sys B) : Sys B :=
  fun ker h => let '(a, h) := m ker h in k a ker h.
Definition call (c : Call) : Sys (option Z) := fun ker h => (ker h c, h ++ [(c, ker h c)]).

Declare Scope sys_scope.
Delimit Scope sys_scope with sys.
Notation "x <-- m ; k" := (bind m (fun x => k))
  (at level 60, m at next level, right associativity) : sys_scope.
Notation "m ;;; k" := (bind m (fun _ => k)) (at level 60, right associativity) : sys_scope.
#[local] Open Scope sys_scope.

(** [if err := c; err != nil { _ = unix.Close(fd); return err }]. *)
Definition attempt {A} (fd : Z) (c : Call) (k : Sys (option A)) : Sys (option A) :=
  r <-- call c;
  match r with
  | Some _ => k
  | None => call (CloseFd fd);;; ret None
  end.

(** [fd, err := unix.Socket(..); if err != nil { return err }]. *)
Definition with_socket {A} (k : Z -> Sys (option A)) : Sys (option A) :=
  r <-- call Socket;
  match r with
  | Some fd => k fd
  | None => ret None
  end.

(** ** The set-ups *)

Definition socketRecvBuf : Z := 64 * 1024 * 1024.
Definition mcSendBuf : Z := 16 * 1024 * 1024.

(** [openRawSocket] of the workers. *)
Definition openRawSocket (port : Z) : Sys (option Z) :=
  with_socket (fun fd =>
  attempt fd (SetsockoptInt fd SO_REUSEPORT 1) (
  call (SetsockoptInt fd SO_RCVBUF socketRecvBuf);;;
  attempt fd (Bind fd port) (
  ret (Some fd)))).

(** [copy(mreq.Multiaddr[:], ip.To16())] into sixteen zero bytes. *)
Definition mreq_addr (ip : bytes) : bytes := take 16 (To16 ip ++ zeros 16).

(** The loop over the groups in [Run]. *)
Fixpoint join_groups (fd ifindex : Z) (groups : list bytes) (k : Sys (option Z))
    : Sys (option Z) :=
  match groups with
  | [] => k
  | ip :: groups' =>
      attempt fd (JoinGroup fd (u32 ifindex) (mreq_addr ip)) (join_groups fd ifindex groups' k)
  end.

(** [Run] up to its receive loop; [groups] are the IPs to join. The receive
    timeout is a best effort, and is set after the worker counts as ready. *)
Definition run_setup (port ifindex : Z) (groups : list bytes) : Sys (option Z) :=
  r <-- openRawSocket port;
  match r with
  | None => ret None
  | Some fd =>
      join_groups fd ifindex groups (
      call (SetRcvTimeout fd (200 * Millisecond));;;
      ret (Some fd))
  end.

(** [openAnnounceSocket]. *)
Definition openAnnounceSocket (ifindex : Z) (ip : bytes) (port : Z) : Sys (option Z) :=
  with_socket (fun fd =>
  attempt fd (SetsockoptInt fd SO_REUSEPORT 1) (
  attempt fd (Bind fd port) (
  attempt fd (JoinGroup fd (u32 ifindex) (mreq_addr ip)) (
  ret (Some fd))))).

(** The socket calls of [NewMCast]. *)
Definition open_mcast (ifindex hopLimit : Z) : Sys (option Z) :=
  with_socket (fun fd =>
  attempt fd (SetsockoptInt fd IPV6_MULTICAST_IF ifindex) (
  attempt fd (SetsockoptInt fd IPV6_MULTICAST_HOPS hopLimit) (
  attempt fd (SetsockoptInt fd IPV6_MULTICAST_LOOP 0) (
  call (SetsockoptInt fd SO_SNDBUF mcSendBuf);;;
  ret (Some fd))))).

(** [MCastSender.Close]. *)
Definition close_mcast (fd : Z) : Sys (option Z) := call (CloseFd fd).

(** ** What a history leaves behind *)

(** The open descriptors; a close releases the descriptor whatever it answers. *)
Definition open_step (s : gset Z) (e : event) : gset Z :=
  match e with
  | (Socket, Some fd) => {[fd]} ∪ s
  | (CloseFd fd, _) => s ∖ {[fd]}
  | _ => s
  end.
Definition opened (h : list event) : gset Z := foldl open_step ∅ h.

(** The memberships: descriptor, interface, group; closing a socket ends them. *)
Definition member_step (l : list (Z * Z * bytes)) (e : event) : list (Z * Z * bytes) :=
  match e with
  | (JoinGroup fd ifx a, Some _) => l ++ [(fd, ifx, a)]
  | (CloseFd fd, _) => filter (fun m => m.1.1 <> fd) l
  | _ => l
  end.
Definition memberships (h : list event) : list (Z * Z * bytes) := foldl member_step [] h.

(** What is relied on of the kernel: a new socket is not an open one, and a
    socket does not join a group it is in ([EADDRINUSE]). *)
Definition fresh_sockets (ker : Kernel) : Prop :=
  forall h fd, ker h Socket = Some fd -> fd ∉ opened h /\ forall m, m ∈ memberships h -> m.1.1 <> fd.
Definition joins_once (ker : Kernel) : Prop :=
  forall h fd ifx a, (fd, ifx, a) ∈ memberships h -> ker h (JoinGroup fd ifx a) = None.

(** Nothing else fails. *)
Definition obliging (ker : Kernel) : Prop :=
  forall h c, ker h c = None ->
    match c with JoinGroup fd ifx a => (fd, ifx, a) ∈ memberships h | _ => False end.

(** ** No error path leaks a descriptor *)

Section Leak.
Context (ker : Kernel) (Hfresh : fresh_sockets ker).

Lemma opened_snoc h e : opened (h ++ [e]) = open_step (opened h) e.
Proof. unfold opened. apply foldl_snoc. Qed.

Lemma memberships_snoc h e : memberships (h ++ [e]) = member_step (memberships h) e.
Proof. unfold memberships. apply foldl_snoc. Qed.

Lemma run_bind {A B} (m : Sys A) (k : A -> Sys B) h :
  bind m k ker h = k (m ker h).1 ker (m ker h).2.
Proof. unfold bind. by destruct (m ker h). Qed.

(** With [fd] open besides [S], the program hands it on or closes it. *)
Definition owns (S : gset Z) (fd : Z) (m : Sys (option Z)) : Prop :=
  forall h, opened h = {[fd]} ∪ S ->
    let r := m ker h in
    (r.1 = Some fd /\ opened r.2 = {[fd]} ∪ S) \/ (r.1 = None /\ opened r.2 = S).

(** A call that neither opens nor closes. *)
Definition plain (c : Call) : Prop := match c with Socket | CloseFd _ => False | _ => True end.

Lemma plain_opened c h r : plain c -> opened (h ++ [(c, r)]) = opened h.
Proof. rewrite opened_snoc. by destruct c, r. Qed.

Lemma ret_owns S fd : owns S fd (ret (Some fd)).
Proof. intros h Ho. by left. Qed.

Lemma call_owns S fd c k : plain c -> owns S fd k -> owns S fd (call c;;; k).
Proof.
  intros Hc Hk h Ho. rewrite run_bind. exact (Hk _ (eq_trans (plain_opened c h (ker h c) Hc) Ho)).
Qed.

Lemma attempt_owns S fd c k : fd ∉ S -> plain c -> owns S fd k -> owns S fd (attempt fd c k).
Proof.
  intros Hn Hc Hk h Ho. unfold attempt. rewrite run_bind. simpl.
  pose proof (plain_opened c h (ker h c) Hc) as Hop. destruct (ker h c).
  - exact (Hk _ (eq_trans Hop Ho)).
  - right. split; [done|]. simpl. rewrite opened_snoc. simpl. rewrite Hop, Ho. set_solver.
Qed.

Lemma join_owns S fd ifx gs k : fd ∉ S -> owns S fd k -> owns S fd (join_groups fd ifx gs k).
Proof. intros Hn Hk. induction gs; [done|]. by apply attempt_owns. Qed.

(** What a set-up leaves open: its descriptor when it succeeds. *)
Definition accounted (m : Sys (option Z)) : Prop :=
  forall h, match m ker h with
            | (Some fd, h') => fd ∉ opened h /\ opened h' = {[fd]} ∪ opened h
            | (None, h') => opened h' = opened h
            end.

Lemma owns_accounted (k : Z -> Sys (option Z)) :
  (forall fd S, fd ∉ S -> owns S fd (k fd)) -> accounted (with_socket k).
Proof.
  intros Hk h. unfold with_socket. rewrite run_bind. simpl.
  destruct (ker h Socket) as [fd|] eqn:E; [|by simpl; rewrite opened_snoc].
  destruct (Hfresh h fd E) as [Hn _].
  pose proof (Hk fd (opened h) Hn (h ++ [(Socket, Some fd)])) as Hr. rewrite opened_snoc in Hr.
  destruct (k fd ker _) as [r h']. simpl in Hr.
  destruct (Hr eq_refl) as [[-> Ho]|[-> Ho]]; [split; [exact Hn|exact Ho]|exact Ho].
Qed.

Ltac owned := intros fd S Hn; repeat first
  [ apply attempt_owns; [exact Hn|exact I|] | apply call_owns; [exact I|] | apply ret_owns ].

Lemma openRawSocket_accounted port : accounted (openRawSocket port).
Proof. apply owns_accounted. owned. Qed.

Lemma run_setup_accounted port ifx gs : accounted (run_setup port ifx gs).
Proof.
  intros h. unfold run_setup. rewrite run_bind. pose proof (openRawSocket_accounted port h) as Ho.
  destruct (openRawSocket port ker h) as [[fd|] h1]; [|exact Ho]. simpl. destruct Ho as [Hn Ho].
  assert (owns (opened h) fd (join_groups fd ifx gs
            (call (SetRcvTimeout fd (200 * Millisecond));;; ret (Some fd)))) as Hj
    by (apply join_owns; [done|]; apply call_owns; [done|apply ret_owns]).
  specialize (Hj h1 Ho). simpl in Hj. destruct (join_groups _ _ _ _ ker h1) as [r h'].
  destruct Hj as [[Hr Hj]|[Hr Hj]]; simpl in Hr, Hj; by subst r.
Qed.

Lemma open_mcast_accounted ifx hops : accounted (open_mcast ifx hops).
Proof. apply owns_accounted. owned. Qed.

Lemma openAnnounce_accounted ifx ip port : accounted (openAnnounceSocket ifx ip port).
Proof. apply owns_accounted. owned. Qed.

(** C26: no set-up leaks a descriptor. Whatever the kernel refuses and when, a
    worker, an announcement group or a multicast sender whose set-up fails
    leaves the open descriptors as they were, and one that succeeds leaves
    exactly one more, the one it returns. *)
Theorem setups_leak_nothing port ifx groups ip hops :
  accounted (run_setup port ifx groups) /\ accounted (openAnnounceSocket ifx ip port) /\
  accounted (open_mcast ifx hops).
Proof.
  split_and!; [apply run_setup_accounted|apply openAnnounce_accounted|apply open_mcast_accounted].
Qed.

(** Closing the socket of a sender undoes its set-up. *)
Lemma close_mcast_undoes ifx hops h fd h' :
  open_mcast ifx hops ker h = (Some fd, h') -> opened (close_mcast fd ker h').2 = opened h.
Proof.
  intros E. pose proof (open_mcast_accounted ifx hops h) as Ha. rewrite E in Ha. destruct Ha as [Hn Ho]. simpl.
  rewrite opened_snoc. simpl. rewrite Ho. set_solver.
Qed.

(** ** Exactly its groups *)

(** A socket joins group [ip] on the interface. *)
Definition group_entry (fd ifindex : Z) (ip : bytes) : Z * Z * bytes :=
  (fd, u32 ifindex, mreq_addr ip).

(** When the joins succeed, they are the memberships that are added. *)
Lemma join_groups_members fd ifx gs h fd' h' :
  join_groups fd ifx gs (call (SetRcvTimeout fd (200 * Millisecond));;; ret (Some fd)) ker h =
    (Some fd', h') ->
  fd' = fd /\ memberships h' = memberships h ++ (group_entry fd ifx <$> gs).
Proof.
  revert h. induction gs as [|ip gs IH]; intros h; cbn [join_groups].
  - rewrite run_bind. intros [= <- <-]. by rewrite app_nil_r, memberships_snoc.
  - unfold attempt. rewrite run_bind. simpl. destruct (ker h _) eqn:E; [|done].
    intros [-> Hr]%IH. split; [done|]. rewrite Hr, memberships_snoc. simpl.
    by rewrite <- app_assoc.
Qed.

(** The socket a worker reads is bound to its port, shared with the others. *)
Lemma openRawSocket_history port h fd h' :
  openRawSocket port ker h = (Some fd, h') ->
  exists r1 r2 r3,
    h' = h ++ [(Socket, Some fd); (SetsockoptInt fd SO_REUSEPORT 1, Some r1);
               (SetsockoptInt fd SO_RCVBUF socketRecvBuf, r2); (Bind fd port, Some r3)].
Proof.
  unfold openRawSocket, with_socket, attempt. rewrite !run_bind. simpl.
  destruct (ker h Socket) as [fd0|]; [|done]. rewrite !run_bind. simpl.
  destruct (ker (h ++ _) _) as [r1|]; [|done]. rewrite !run_bind. simpl.
  destruct (ker (((h ++ _) ++ _) ++ _) _) as [r3|]; [|done].
  intros [= <- <-]. rewrite <- !app_assoc. simpl. by eexists _, _, _.
Qed.

Lemma run_setup_members port ifx gs h fd h' :
  run_setup port ifx gs ker h = (Some fd, h') ->
  memberships h' = memberships h ++ (group_entry fd ifx <$> gs).
Proof.
  unfold run_setup. rewrite run_bind.
  destruct (openRawSocket port ker h) as [[fd0|] h1] eqn:E; [|done]. simpl.
  apply openRawSocket_history in E as (r1 & r2 & r3 & ->).
  intros [-> ->]%join_groups_members. f_equal.
  unfold memberships at 1. rewrite foldl_app. done.
Qed.

Lemma join_groups_extends fd ifx gs h fd' h' :
  join_groups fd ifx gs (call (SetRcvTimeout fd (200 * Millisecond));;; ret (Some fd)) ker h =
    (Some fd', h') -> exists l, h' = h ++ l.
Proof.
  revert h. induction gs as [|ip gs IH]; intros h; cbn [join_groups].
  - rewrite run_bind. intros [= <- <-]. by eexists.
  - unfold attempt. rewrite run_bind. simpl. destruct (ker h _) eqn:E; [|done].
    intros (l & ->)%IH. rewrite <- app_assoc. by eexists.
Qed.

(** C27: a worker that starts listens to exactly its groups. When the set-up
    succeeds, the descriptor is a new socket bound to the listen port with
    [SO_REUSEPORT], so that every worker can bind it, and its memberships are
    the configured groups, each as a 16-byte address, on the interface, in
    order, and no others. *)
Theorem setup_joins_its_groups port ifx gs h fd h' :
  run_setup port ifx gs ker h = (Some fd, h') ->
  fd ∉ opened h /\ opened h' = {[fd]} ∪ opened h /\
  filter (fun m => m.1.1 = fd) (memberships h') = group_entry fd ifx <$> gs /\
  exists r1 r2 r3 l,
    h' = h ++ [(Socket, Some fd); (SetsockoptInt fd SO_REUSEPORT 1, Some r1);
               (SetsockoptInt fd SO_RCVBUF socketRecvBuf, r2); (Bind fd port, Some r3)] ++ l.
Proof.
  intros Hr. pose proof (run_setup_accounted port ifx gs h) as Ha. rewrite Hr in Ha.
  destruct Ha as [Hn Ho]. pose proof (run_setup_members port ifx gs h fd h' Hr) as Hm.
  revert Hr. unfold run_setup. rewrite run_bind.
  destruct (openRawSocket port ker h) as [[fd0|] h1] eqn:E; [|done]. simpl. intros Hj.
  pose proof Hj as [-> _]%join_groups_members. pose proof Hj as [l ->]%join_groups_extends.
  pose proof E as (r1 & r2 & r3 & ->)%openRawSocket_history.
  split_and!; [done..| |by eexists r1, r2, r3, l; rewrite <- app_assoc].
  assert (ker h Socket = Some fd0) as Hs.
  { revert E. unfold openRawSocket, with_socket, attempt. rewrite run_bind. simpl.
    destruct (ker h Socket) as [fd1|]; [|done]. rewrite run_bind. simpl. destruct (ker (_ ++ _) _); [|done].
    rewrite !run_bind. simpl. destruct (ker (_ ++ _) _); [|done]. by intros [= ->]. }
  rewrite Hm, filter_app. destruct (Hfresh h fd0 Hs) as [_ Hf].
  assert (filter (fun m : Z * Z * bytes => m.1.1 = fd0) (memberships h) = []) as ->.
  { clear -Hf. induction (memberships h) as [|m l IH]; [done|].
    rewrite filter_cons_False by (apply Hf; left). apply IH. intros m' Hm'. apply Hf. by right. }
  clear. induction gs as [|ip gs IH]; [done|]. simpl. rewrite filter_cons_True by done. by f_equal.
Qed.

(** ** A group listed twice *)

Lemma join_groups_distinct fd ifx gs k h :
  joins_once ker -> (join_groups fd ifx gs k ker h).1 <> None ->
  NoDup (group_entry fd ifx <$> gs) /\ forall m, m ∈ group_entry fd ifx <$> gs -> m ∉ memberships h.
Proof.
  intros Honce. revert h. induction gs as [|ip gs IH]; intros h; simpl.
  { intros _. split; [constructor|]. intros m Hm. by apply elem_of_nil in Hm. }
  unfold attempt. rewrite run_bind. simpl. destruct (ker h _) eqn:E; [|done].
  intros [Hd Hn]%IH. setoid_rewrite memberships_snoc in Hn. simpl in Hn. split.
  - constructor; [|done]. intros Hin%Hn. apply Hin, elem_of_app. right. by left.
  - intros m [->|Hm]%elem_of_cons.
    + intros Hin%Honce. unfold group_entry in Hin. congruence.
    + intros Hin. apply (Hn m Hm), elem_of_app. by left.
Qed.

Lemma join_groups_obliging fd ifx gs h :
  obliging ker -> NoDup (group_entry fd ifx <$> gs) ->
  (forall m, m ∈ group_entry fd ifx <$> gs -> m ∉ memberships h) ->
  (join_groups fd ifx gs (call (SetRcvTimeout fd (200 * Millisecond));;; ret (Some fd)) ker h).1 =
    Some fd.
Proof.
  intros Hob. revert h. induction gs as [|ip gs IH]; intros h; [done|].
  simpl. intros [Hx Hd]%NoDup_cons Hn. unfold attempt. rewrite run_bind. simpl.
  destruct (ker h _) eqn:E.
  - apply IH; [done|]. intros m Hm. rewrite memberships_snoc. simpl.
    intros [Hin|Hin]%elem_of_app; [apply (Hn m); [by right|done]|].
    apply list_elem_of_singleton in Hin as ->. done.
  - apply Hob in E. exfalso. apply (Hn (group_entry fd ifx ip)); [by left|exact E].
Qed.

(** On a kernel that refuses nothing but to join a group twice, the set-up
    succeeds exactly when the group addresses are pairwise distinct. *)
Lemma run_setup_distinct port ifx gs h :
  joins_once ker -> obliging ker ->
  (run_setup port ifx gs ker h).1 <> None <-> NoDup (mreq_addr <$> gs).
Proof.
  intros Honce Hob. unfold run_setup. rewrite run_bind.
  assert (exists fd h1, openRawSocket port ker h = (Some fd, h1) /\
            forall m, m ∈ memberships h1 -> m.1.1 <> fd) as (fd & h1 & -> & Hf).
  { unfold openRawSocket, with_socket, attempt. rewrite run_bind. simpl.
    destruct (ker h Socket) as [fd|] eqn:Es; [|by apply Hob in Es].
    destruct (Hfresh h fd Es) as [_ Hf]. rewrite run_bind. simpl.
    destruct (ker (h ++ _) _) eqn:E1; [|by apply Hob in E1]. rewrite !run_bind. simpl.
    destruct (ker ((_ ++ _) ++ _) _) eqn:E2; [|by apply Hob in E2].
    eexists _, _. split; [done|]. intros m. rewrite !memberships_snoc. simpl. apply Hf. }
  simpl. assert (NoDup (group_entry fd ifx <$> gs) <-> NoDup (mreq_addr <$> gs)) as <-.
  { assert (group_entry fd ifx <$> gs = pair (fd, u32 ifx) <$> (mreq_addr <$> gs)) as ->
      by (by rewrite <- list_fmap_compose).
    split; [apply NoDup_fmap_1|apply NoDup_fmap_2; intros ?? [= ->]; done]. }
  split; [intros H%join_groups_distinct; [apply H|done]|]. intros Hd.
  rewrite join_groups_obliging; [done..|].
  intros m Hm Hin. apply list_elem_of_fmap in Hm as (ip & -> & _). by apply Hf in Hin.
Qed.
End Leak.

(** ** Witnesses *)

(** A kernel that refuses only what it must. *)
Definition used_fds (h : list event) : list Z := elements (opened h) ++ ((fun m => m.1.1) <$> memberships h).
Definition simple_kernel : Kernel := fun h c =>
  match c with
  | Socket => Some (1 + foldr Z.max 0 (used_fds h))
  | JoinGroup fd ifx a => if bool_decide ((fd, ifx, a) ∈ memberships h) then None else Some 0
  | _ => Some 0
  end.

Lemma simple_fresh : fresh_sockets simple_kernel.
Proof.
  intros h fd [= <-].
  assert (forall x, x ∈ used_fds h -> x <= foldr Z.max 0 (used_fds h)) as Hle.
  { induction (used_fds h) as [|y l IH]; intros x Hx; [by apply elem_of_nil in Hx|].
    apply elem_of_cons in Hx as [->|Hx%IH]; simpl; lia. }
  split.
  - intros Hin. assert (1 + foldr Z.max 0 (used_fds h) ∈ used_fds h) as Hu%Hle; [|lia].
    apply elem_of_app. left. by apply elem_of_elements.
  - intros m Hm Heq. assert (m.1.1 ∈ used_fds h) as Hu%Hle; [|lia].
    apply elem_of_app. right. apply list_elem_of_fmap. by exists m.
Qed.

Lemma simple_once : joins_once simple_kernel.
Proof. intros h fd ifx a Hin. simpl. by rewrite bool_decide_eq_true_2. Qed.

Lemma simple_obliging : obliging simple_kernel.
Proof. intros h [] H; simpl in *; try done. by case_bool_decide. Qed.

Definition ex_ip (n : Z) : bytes := [0xff; 5] ++ zeros 10 ++ [0; 11; 0; n].

(** A kernel with no descriptor left. *)
Lemma setups_leak_nothing_witness :
  opened (run_setup 9001 2 [ex_ip 3; ex_ip 3] simple_kernel []).2 = ∅.
Proof.
  destruct (setups_leak_nothing simple_kernel simple_fresh 9001 2 [ex_ip 3; ex_ip 3] [] 1) as [H _].
  specialize (H []). destruct (run_setup 9001 2 [ex_ip 3; ex_ip 3] simple_kernel []) as [r h'] eqn:E.
  assert (r = (run_setup 9001 2 [ex_ip 3; ex_ip 3] simple_kernel []).1) as -> by (rewrite E; reflexivity).
  exact H.
Defined.

Lemma setup_joins_its_groups_witness :
  exists h', run_setup 9001 2 [ex_ip 3; ex_ip 4] simple_kernel [] = (Some 1, h') /\
    filter (fun m => m.1.1 = 1) (memberships h') = [(1, 2, ex_ip 3); (1, 2, ex_ip 4)].
Proof.
  destruct (run_setup 9001 2 [ex_ip 3; ex_ip 4] simple_kernel []) as [r h'] eqn:E.
  assert (r = Some 1) as ->
    by (transitivity (run_setup 9001 2 [ex_ip 3; ex_ip 4] simple_kernel []).1;
        [rewrite E; reflexivity|vm_compute; reflexivity]).
  exists h'. split; [reflexivity|].
  destruct (setup_joins_its_groups simple_kernel simple_fresh 9001 2 [ex_ip 3; ex_ip 4] [] 1 h' E)
    as (_ & _ & H & _).
  exact H.
Defined.
