(* ===== verification/Decimal.v ===== *)
(** Printing numbers and reading them back: the decimal form of [fmt] and of
    [strconv], and four hexadecimal digits. *)
From Stdlib Require Import ZArith Lia Ascii.
From stdpp Require Import pretty.
From S2P Require Import Prelude GoStrings GoTime Net.

(** ** Digits *)

(** [ds] are the digits that the text [s] spells in a base. *)
Definition spells (base : Z) (s : bytes) (ds : list Z) : Prop :=
  mapM digit_of s = Some ds /\ Forall (fun d => 0 <= d < base) ds.

Lemma digits_value_snoc base ds d : digits_value base (ds ++ [d]) = digits_value base ds * base + d.
Proof. unfold digits_value. by rewrite foldl_app. Qed.

Lemma digit_of_toHex d : 0 <= d < 16 -> digit_of (toHex d) = Some d.
Proof.
  intros Hd. assert (d = 0 \/ d = 1 \/ d = 2 \/ d = 3 \/ d = 4 \/ d = 5 \/ d = 6 \/ d = 7 \/ d = 8 \/
    d = 9 \/ d = 10 \/ d = 11 \/ d = 12 \/ d = 13 \/ d = 14 \/ d = 15) as H by lia.
  repeat destruct H as [->|H]; try subst d; reflexivity.
Qed.

Lemma spells_app base s1 s2 d1 d2 :
  spells base s1 d1 -> spells base s2 d2 -> spells base (s1 ++ s2) (d1 ++ d2).
Proof.
  intros [H1 F1] [H2 F2]. split; [|by apply Forall_app].
  apply mapM_Some. apply Forall2_app; by apply mapM_Some.
Qed.

Lemma spells_hex ds : Forall (fun d => 0 <= d < 16) ds -> spells 16 (toHex <$> ds) ds.
Proof.
  intros Hds. split; [|done]. apply mapM_Some. induction Hds as [|d ds Hd _ IH]; constructor;
    [by apply digit_of_toHex|exact IH].
Qed.

(** A number spelled in a base is read back when it fits. *)
Lemma ParseUint_spells base bits s ds :
  1 <= base -> 0 <= bits -> s <> [] -> spells base s ds -> digits_value base ds < 2 ^ bits ->
  ParseUint s base bits = inl (digits_value base ds).
Proof.
  intros Hb Hbits Hne [Hm Hf] Hv. apply ParseUint_spec; [done..|]. split; [done|]. exists ds.
  split_and!; [done| |done|done]. eapply Forall_impl; [exact Hf|]. cbn. lia.
Qed.

(** A spelling with a digit the base does not have is refused. *)
Lemma ParseUint_refuses base bits s ds d :
  1 <= base -> 0 <= bits -> mapM digit_of s = Some ds -> d ∈ ds -> base <= d ->
  exists e, ParseUint s base bits = inr e.
Proof.
  intros Hb Hbits Hm Hd Hge. destruct (ParseUint s base bits) as [n|e] eqn:E; [|by exists e].
  apply ParseUint_spec in E as (_ & ds' & Hm' & Hf & _); [|done..]. rewrite Hm in Hm'.
  injection Hm' as <-. rewrite Forall_forall in Hf. specialize (Hf d Hd). cbn in Hf. lia.
Qed.

(** ** Decimal *)

Lemma code_pretty_char d : (d < 10)%N -> code (pretty_N_char d) = 48 + Z.of_N d.
Proof.
  intros Hd. assert (d = 0 \/ d = 1 \/ d = 2 \/ d = 3 \/ d = 4 \/ d = 5 \/ d = 6 \/ d = 7 \/ d = 8 \/
    d = 9)%N as H by lia.
  repeat destruct H as [->|H]; try subst d; reflexivity.
Qed.

Lemma spells_char d : (d < 10)%N -> spells 10 [code (pretty_N_char d)] [Z.of_N d].
Proof.
  intros Hd. rewrite code_pretty_char by done. split.
  - cbn [mapM]. unfold digit_of. rewrite (proj2 (Z.leb_le _ _)), (proj2 (Z.leb_le _ _)) by lia.
    cbn. by replace (48 + Z.of_N d - 48) with (Z.of_N d) by lia.
  - constructor; [lia|constructor].
Qed.

Lemma pretty_go_spells x s :
  exists ds, bytes_of (pretty_N_go x s) = ds.1 ++ bytes_of s /\ spells 10 ds.1 ds.2 /\
    digits_value 10 ds.2 = Z.of_N x /\ (x <> 0%N -> ds.1 <> []).
Proof.
  revert s. induction (N.lt_wf_0 x) as [x _ IH]; intros s.
  destruct (decide (x = 0%N)) as [->|Hx].
  { exists ([], []). rewrite pretty_N_go_0. split_and!; try done. }
  rewrite pretty_N_go_step by lia.
  destruct (IH (x `div` 10)%N ltac:(apply N.div_lt; lia) (String (pretty_N_char (x `mod` 10)) s))
    as ([t ds] & Ht & Hs & Hv & _).
  assert (x `mod` 10 < 10)%N as Hm by (apply N.mod_lt; lia).
  exists (t ++ [code (pretty_N_char (x `mod` 10))], ds ++ [Z.of_N (x `mod` 10)]). cbn [fst snd] in *.
  split_and!.
  - rewrite Ht, <- app_assoc. done.
  - by apply spells_app, spells_char.
  - rewrite digits_value_snoc, Hv, N2Z.inj_div, N2Z.inj_mod. symmetry.
    rewrite Z.mul_comm. apply Z.div_mod. lia.
  - intros _ E. by apply app_eq_nil in E as [_ ?].
Qed.

(** The decimal form of a number spells it. *)
Definition decimal (n : Z) : bytes := bytes_of (dec n).

Lemma decimal_spells n :
  0 <= n -> exists ds, spells 10 (decimal n) ds /\ digits_value 10 ds = n /\ decimal n <> [].
Proof.
  intros Hn. unfold decimal, dec, pretty. destruct n as [|p|p]; [| |lia].
  - exists [0]. split_and!; [|done|done]. apply (spells_char 0). lia.
  - cbn [pretty_Z]. unfold pretty, pretty_positive, pretty, pretty_N. rewrite decide_False by done.
    destruct (pretty_go_spells (N.pos p) "") as ([t ds] & Ht & Hs & Hv & Hne). cbn [fst snd] in *.
    rewrite app_nil_r in Ht. exists ds. rewrite Ht. split_and!; [done|done|by apply Hne].
Qed.

(** Reading a printed number. *)
Lemma ParseUint_decimal n bits :
  0 <= bits -> 0 <= n < 2 ^ bits -> ParseUint (decimal n) 10 bits = inl n.
Proof.
  intros Hb Hn. destruct (decimal_spells n) as (ds & Hs & Hv & Hne); [lia|].
  rewrite <- Hv at 2. apply ParseUint_spells; try done. lia.
Qed.

(** Its characters are decimal digits. *)
Lemma spells_digits s ds : spells 10 s ds -> Forall (fun c => is_digit c = true) s.
Proof.
  intros [Hm Hf]. apply mapM_Some in Hm. induction Hm as [|c d s ds Hc _ IH]; [constructor|].
  apply Forall_cons in Hf as [Hd Hf]. constructor; [|by apply IH].
  revert Hc. unfold digit_of, is_digit. destruct (_ && _); [done|].
  destruct ((97 <=? Z.lor c 32) && _) eqn:E; [|done].
  apply andb_true_iff in E as [E%Z.leb_le _]. intros [= <-]. lia.
Qed.

Lemma digit_plain c : is_digit c = true -> plain c = true.
Proof. unfold is_digit, plain. intros [H1%Z.leb_le H2%Z.leb_le]%andb_true_iff. zcases. Qed.

Lemma decimal_digits n : 0 <= n -> Forall (fun c => is_digit c = true) (decimal n).
Proof. intros Hn. destruct (decimal_spells n Hn) as (ds & Hs & _). by eapply spells_digits. Qed.

Lemma decimal_plain n : 0 <= n -> forallb plain (decimal n) = true.
Proof.
  intros Hn. apply forallb_forall. intros c Hc. apply list_elem_of_In in Hc.
  pose proof (decimal_digits n Hn) as H. rewrite Forall_forall in H. by apply digit_plain, H.
Qed.

(** ** Four hexadecimal digits *)

Definition nibbles (n : Z) : list Z := [n / 4096; n / 256 mod 16; n / 16 mod 16; n mod 16].
Definition hex4 (n : Z) : bytes := toHex <$> nibbles n.

Lemma nibbles_range n : 0 <= n < 2 ^ 16 -> Forall (fun d => 0 <= d < 16) (nibbles n).
Proof.
  intros Hn. repeat constructor; try (apply Z.mod_pos_bound; lia).
  - apply Z.div_pos; lia.
  - apply Z.div_lt_upper_bound; lia.
Qed.

Lemma nibbles_value n : digits_value 16 (nibbles n) = n.
Proof.
  unfold digits_value, nibbles. cbn [foldl].
  pose proof (Z.div_mod n 16 ltac:(lia)) as H1.
  pose proof (Z.div_mod (n / 16) 16 ltac:(lia)) as H2.
  pose proof (Z.div_mod (n / 256) 16 ltac:(lia)) as H3.
  replace (n / 16 / 16) with (n / 256) in H2 by (rewrite Z.div_div by lia; f_equal; lia).
  replace (n / 256 / 16) with (n / 4096) in H3 by (rewrite Z.div_div by lia; f_equal; lia).
  lia.
Qed.

Lemma ParseUint_hex4 n : 0 <= n < 2 ^ 16 -> ParseUint (hex4 n) 16 16 = inl n.
Proof.
  intros Hn. rewrite <- (nibbles_value n) at 2. apply ParseUint_spells; [lia|lia|done| |].
  - by apply spells_hex, nibbles_range.
  - rewrite nibbles_value. lia.
Qed.

Lemma toHex_plain d : 0 <= d < 16 -> plain (toHex d) = true.
Proof. intros Hd. unfold plain, toHex. zcases. Qed.

Lemma hex4_plain n : 0 <= n < 2 ^ 16 -> forallb plain (hex4 n) = true.
Proof.
  intros Hn. apply forallb_forall. intros c Hc.
  apply list_elem_of_In, list_elem_of_fmap in Hc as (d & -> & Hd).
  pose proof (nibbles_range n Hn) as H. rewrite Forall_forall in H. by apply toHex_plain, H.
Qed.
