(* ===== verification/NetParse.v ===== *)
(** The textual addresses of Go's [net] package: [ParseIP] and [ParseCIDR], over
    [netip.ParseAddr]. A zone makes both refuse, so that an address with one is
    refused at its percent sign. *)
From Stdlib Require Import ZArith Lia.
From S2P Require Import Prelude GoStrings GoTime Net.

(** ** Dotted decimals *)

(** The loop of [parseIPv4Fields]: [first] at the first byte, [dot] after a
    period, the value and the digits of the current field, the fields before. *)
Fixpoint v4_fields (first dot : bool) (val digLen : Z) (fields s : bytes) : option bytes :=
  match s with
  | [] => if (length fields <? 3)%nat then None else Some (fields ++ [val])
  | c :: s' =>
      if is_digit c then
        if (digLen =? 1) && (val =? 0) then None
        else
          let val := val * 10 + (c - 48) in
          if 255 <? val then None else v4_fields false false val (digLen + 1) fields s'
      else if c =? 46 then
        if first || (length s' =? 0)%nat || dot then None
        else if (length fields =? 3)%nat then None
        else v4_fields false true 0 0 (fields ++ [val]) s'
      else None
  end.

Definition parseIPv4Fields : bytes -> option bytes := v4_fields true false 0 0 [].

(** ** Colon-separated groups *)

(** One group of at most four hexadecimal digits. *)
Fixpoint hex_group (off : nat) (acc : Z) (s : bytes) : option (nat * Z * bytes) :=
  match s with
  | c :: s' =>
      match fromHex c with
      | Some d =>
          if (3 <? off)%nat then None
          else
            let acc := acc * 16 + d in
            if 65535 <? acc then None else hex_group (S off) acc s'
      | None => Some (off, acc, s)
      end
  | [] => Some (off, acc, s)
  end.

(** The loop of [parseIPv6], at most once per group: the bytes so far, the
    position of the ellipsis, the rest. *)
Fixpoint v6_groups (n : nat) (ellipsis : option nat) (ip s : bytes)
    : option (bytes * option nat * bytes) :=
  match n with
  | O => Some (ip, ellipsis, s)
  | S n' =>
      '(off, acc, rest) ← hex_group 0 0 s;
      if (off =? 0)%nat then None
      else
        match rest with
        | [] => Some (ip ++ be_put 2 acc, ellipsis, [])
        | c :: s1 =>
            if c =? 46 then
              if bool_decide (ellipsis = None) && negb (length ip =? 12)%nat then None
              else if (16 <? length ip + 4)%nat then None
              else f ← parseIPv4Fields s; Some (ip ++ f, ellipsis, [])
            else
              let ip := ip ++ be_put 2 acc in
              if negb (c =? 58) then None
              else
                match s1 with
                | [] => None
                | c1 :: s2 =>
                    if c1 =? 58 then
                      match ellipsis, s2 with
                      | Some _, _ => None
                      | None, [] => Some (ip, Some (length ip), [])
                      | None, _ => v6_groups n' (Some (length ip)) ip s2
                      end
                    else v6_groups n' ellipsis ip s1
                end
        end
  end.

Definition parseIPv6 (s : bytes) : option bytes :=
  if bool_decide (37 ∈ s) then None
  else
    let '(ellipsis, s) := if HasPrefix s [58; 58] then (Some 0%nat, drop 2 s) else (None, s) in
    if bool_decide (ellipsis <> None) && (length s =? 0)%nat then Some (zeros 16)
    else
      '(ip, ellipsis, rest) ← v6_groups 8 ellipsis [] s;
      if negb (length rest =? 0)%nat then None
      else if (length ip <? 16)%nat then
        e ← ellipsis; Some (take e ip ++ zeros (16 - length ip) ++ drop e ip)
      else if bool_decide (ellipsis <> None) then None else Some ip.

(** [netip.ParseAddr]: 4 or 16 bytes; the first of the three separators
    decides. *)
Definition ParseAddr (s : bytes) : option bytes :=
  match list_find (fun c => c = 46 \/ c = 58 \/ c = 37) s with
  | Some (_, c) => if c =? 46 then parseIPv4Fields s else if c =? 58 then parseIPv6 s else None
  | None => None
  end.

(** [net.ParseIP]: nil is [None]. *)
Definition ParseIP (s : bytes) : option bytes := To16 <$> ParseAddr s.

(** ** [ParseCIDR] *)

(** [CIDRMask] with a length in bytes. *)
Fixpoint CIDRMask (ones : Z) (l : nat) : bytes :=
  match l with
  | O => []
  | S l' => if 8 <=? ones then 255 :: CIDRMask (ones - 8) l'
            else (255 - Z.shiftr 255 ones) :: CIDRMask 0 l'
  end.

(** [dtoi]: decimal digits below 0xFFFFFF; here all of the string. *)
Fixpoint dtoi_loop (n : Z) (s : bytes) : option Z :=
  match s with
  | [] => Some n
  | c :: s' =>
      if is_digit c then
        let n := n * 10 + (c - 48) in if 0xFFFFFF <=? n then None else dtoi_loop n s'
      else None
  end.
Definition dtoi (s : bytes) : option Z := if (length s =? 0)%nat then None else dtoi_loop 0 s.

(** [IP.Mask] for a mask as long as the address. *)
Definition ip_Mask (ip m : bytes) : bytes :=
  let ip := if (length m =? 4)%nat && (length ip =? 16)%nat && bool_decide (take 12 ip = v4InV6Prefix)
            then drop 12 ip else ip in
  masked ip m.

(** [strings.Cut] at the first occurrence of a byte. *)
Fixpoint Cut (sep : Z) (s : bytes) : option (bytes * bytes) :=
  match s with
  | [] => None
  | c :: s' => if c =? sep then Some ([], s')
               else '(a, b) ← Cut sep s'; Some (c :: a, b)
  end.

Definition ParseCIDR (s : bytes) : option IPNet :=
  '(addr, mask) ← Cut 47 s;
  ip ← ParseAddr addr;
  n ← dtoi mask;
  if 8 * Z.of_nat (length ip) <? n then None
  else
    let m := CIDRMask n (length ip) in
    Some (mkIPNet (ip_Mask (To16 ip) m) m).

Example parse_v6 :
  ParseIP (bytes_of "2001:db8::1") = Some ([0x20; 1; 0x0d; 0xb8] ++ zeros 11 ++ [1]).
Proof. vm_compute. reflexivity. Qed.
Example parse_unspecified : ParseIP (bytes_of "::") = Some (zeros 16).
Proof. vm_compute. reflexivity. Qed.
Example parse_embedded : ParseIP (bytes_of "::ffff:192.0.2.10") = Some (v4InV6Prefix ++ [192; 0; 2; 10]).
Proof. vm_compute. reflexivity. Qed.
Example parse_zone : ParseIP (bytes_of "fe80::1%eth0") = None.
Proof. vm_compute. reflexivity. Qed.
Example parse_bad : ParseIP <$> (bytes_of <$> ["1.2.3"; "01.2.3.4"; "1::2::3"; "1:2:3:4:5:6:7:8:9"; "::12345"; ""]%string)
  = replicate 6 None.
Proof. vm_compute. reflexivity. Qed.
Example parse_cidr :
  ParseCIDR (bytes_of "fd00:1::/34") = Some (mkIPNet ([0xfd; 0; 0; 1] ++ zeros 12) (replicate 4 255 ++ [192] ++ zeros 11)).
Proof. vm_compute. reflexivity. Qed.
