(* ===== verification/NetParseProps.v ===== *)
(** What the address parsers promise: lengths, the round trip of dotted
    decimals, and which addresses a parsed network contains. *)
From Stdlib Require Import ZArith Lia.
From S2P Require Import Prelude GoStrings GoTime Net NetParse.

(** ** Lengths *)

Lemma v4_fields_length s first dot val k fields b :
  (length fields <= 3)%nat -> v4_fields first dot val k fields s = Some b -> length b = 4%nat.
Proof.
  revert first dot val k fields. induction s as [|c s IH]; intros first dot val k fields Hf;
    cbn [v4_fields].
  - destruct (Nat.ltb_spec (length fields) 3); [done|]. intros [= <-].
    rewrite length_app. simpl. lia.
  - destruct (is_digit c).
    { destruct (_ && _); [done|]. destruct (255 <? _); [done|]. by apply IH. }
    destruct (c =? 46); [|done]. destruct (_ || _ || _); [done|].
    destruct (Nat.eqb_spec (length fields) 3); [done|]. apply IH.
    rewrite length_app. simpl. lia.
Qed.

Lemma v4_fields_bytes s first dot val k fields b :
  is_byte val -> Forall is_byte fields -> v4_fields first dot val k fields s = Some b ->
  Forall is_byte b.
Proof.
  revert first dot val k fields. induction s as [|c s IH]; intros first dot val k fields Hv Hf;
    cbn [v4_fields].
  - destruct (_ <? 3)%nat; [done|]. intros [= <-]. auto with bytes.
  - destruct (is_digit c) eqn:Ed.
    { destruct (_ && _); [done|]. destruct (Z.ltb_spec 255 (val * 10 + (c - 48))); [done|].
      apply andb_true_iff in Ed as [E1%Z.leb_le E2%Z.leb_le].
      apply IH; [|done]. unfold is_byte in *. lia. }
    destruct (c =? 46); [|done]. destruct (_ || _ || _); [done|].
    destruct (length fields =? 3)%nat; [done|]. apply IH; auto with bytes.
Qed.

Lemma parseIPv4Fields_wf s b : parseIPv4Fields s = Some b -> length b = 4%nat /\ Forall is_byte b.
Proof.
  intros H. split; [by eapply v4_fields_length in H; [|simpl; lia]|].
  eapply v4_fields_bytes in H; [done|unfold is_byte; lia|constructor].
Qed.

(** What the loop of [parseIPv6] keeps: the bytes fit the address, and the
    ellipsis is inside them. *)
Definition groups_ok (e : option nat) (ip : bytes) : Prop :=
  Forall is_byte ip /\ forall k, e = Some k -> (k <= length ip)%nat.

Lemma groups_ok_app e ip f : groups_ok e ip -> Forall is_byte f -> groups_ok e (ip ++ f).
Proof.
  intros [H1 H2] Hf. split; [by apply Forall_app|]. intros k Hk. rewrite length_app.
  specialize (H2 k Hk). lia.
Qed.

Lemma v6_groups_wf n e ip s r :
  (length ip + 2 * n <= 16)%nat -> groups_ok e ip -> v6_groups n e ip s = Some r ->
  (length r.1.1 <= 16)%nat /\ groups_ok r.1.2 r.1.1.
Proof.
  revert e ip s. induction n as [|n IH]; intros e ip s Hn Hok; cbn [v6_groups].
  { intros [= <-]. cbn [fst snd]. split; [lia|done]. }
  destruct (hex_group 0 0 s) as [[[off acc] rest]|]; [|done]. cbn [mbind option_bind].
  destruct (off =? 0)%nat; [done|]. set (ip' := ip ++ be_put 2 acc).
  assert (length ip' = length ip + 2)%nat as Hl by (subst ip'; rewrite length_app, length_be_put; lia).
  assert (groups_ok e ip') as Hok' by (by apply groups_ok_app, be_put_bytes).
  destruct rest as [|c s1]; [intros [= <-]; split; [cbn [fst]; lia|done]|].
  destruct (c =? 46).
  { destruct (_ && _); [done|]. destruct (Nat.ltb_spec 16 (length ip + 4)); [done|].
    destruct (parseIPv4Fields s) as [f|] eqn:Ef; [|done]. intros [= <-].
    apply parseIPv4Fields_wf in Ef as [Hf1 Hf2]. cbn [fst snd].
    split; [rewrite length_app; lia|by apply groups_ok_app]. }
  destruct (negb (c =? 58)); [done|]. destruct s1 as [|c1 s2]; [done|].
  destruct (c1 =? 58); [|apply IH; [lia|done]].
  destruct e as [e|]; [done|].
  assert (groups_ok (Some (length ip')) ip') as Hok2 by (split; [apply Hok'|intros k [= <-]; done]).
  destruct s2; [intros [= <-]; split; [cbn [fst]; lia|done]|]. apply IH; [lia|done].
Qed.

Lemma zeros_bytes n : Forall is_byte (zeros n).
Proof. apply Forall_replicate. unfold is_byte. lia. Qed.

Lemma parseIPv6_wf s b : parseIPv6 s = Some b -> length b = 16%nat /\ Forall is_byte b.
Proof.
  unfold parseIPv6. case_bool_decide; [done|].
  destruct (if HasPrefix s [58; 58] then _ else _) as [e s1] eqn:E.
  assert (groups_ok e []) as H0.
  { split; [constructor|]. destruct (HasPrefix s [58; 58]); injection E as <- _; [|done].
    intros k [= <-]. lia. }
  destruct (_ && _); [intros [= <-]; split; [done|apply zeros_bytes]|].
  destruct (v6_groups 8 e [] s1) as [[[ip e'] rest]|] eqn:Eg; [|done].
  apply v6_groups_wf in Eg as [Hl [Hb He]]; [|simpl; lia|done]. cbn [fst snd mbind option_bind] in *.
  destruct (negb _); [done|]. destruct (Nat.ltb_spec (length ip) 16).
  - destruct e' as [k|]; [|done]. cbn [mbind option_bind]. intros [= <-]. specialize (He k eq_refl).
    split; [rewrite !length_app, length_take, length_drop; unfold zeros; rewrite length_replicate; lia|].
    apply Forall_app; split; [by apply Forall_take|].
    apply Forall_app; split; [apply zeros_bytes|by apply Forall_drop].
  - case_bool_decide; [done|]. intros [= <-]. split; [lia|done].
Qed.

Lemma ParseAddr_wf s b :
  ParseAddr s = Some b -> (length b = 4%nat \/ length b = 16%nat) /\ Forall is_byte b.
Proof.
  unfold ParseAddr. destruct (list_find _ s) as [[i c]|]; [|done].
  destruct (c =? 46); [intros [? ?]%parseIPv4Fields_wf; auto|].
  destruct (c =? 58); [intros [? ?]%parseIPv6_wf; auto|done].
Qed.

(** ** Dotted decimals *)

Definition dotted (b : bytes) : bytes := join 46 ((fun z => bytes_of (dec z)) <$> b).

(** The digits of one field, read from the start of it. *)
Fixpoint digit_run (val digLen : Z) (ds : bytes) : option (Z * Z) :=
  match ds with
  | [] => Some (val, digLen)
  | c :: ds' =>
      if is_digit c && negb ((digLen =? 1) && (val =? 0)) && (val * 10 + (c - 48) <=? 255)
      then digit_run (val * 10 + (c - 48)) (digLen + 1) ds' else None
  end.

Lemma v4_fields_run ds first dot val k fields rest v' k' :
  ds <> [] -> digit_run val k ds = Some (v', k') ->
  v4_fields first dot val k fields (ds ++ rest) = v4_fields false false v' k' fields rest.
Proof.
  revert first dot val k. induction ds as [|c ds IH]; intros first dot val k Hne; [done|].
  cbn [digit_run app v4_fields]. destruct (is_digit c); [|done]. cbn [andb].
  destruct (_ && (val =? 0)); [done|]. cbn [negb andb].
  destruct (Z.leb_spec (val * 10 + (c - 48)) 255); [|done].
  rewrite (proj2 (Z.ltb_ge _ _)) by lia. intros Hrun.
  destruct ds as [|d ds]; [by injection Hrun as <- <-|]. by apply IH.
Qed.

Lemma dec_run z : is_byte z -> exists k, digit_run 0 0 (bytes_of (dec z)) = Some (z, k) /\ bytes_of (dec z) <> [].
Proof.
  intros [H1 H2].
  assert (forallb (fun z => match digit_run 0 0 (bytes_of (dec z)) with
    | Some (v, _) => (v =? z) && negb (length (bytes_of (dec z)) =? 0)%nat | None => false end)
    (Z.of_nat <$> seq 0 256) = true) as Hall by (vm_compute; reflexivity).
  rewrite forallb_forall in Hall. specialize (Hall z).
  destruct (digit_run 0 0 (bytes_of (dec z))) as [[v k]|].
  - assert ((v =? z) && negb (length (bytes_of (dec z)) =? 0)%nat = true) as Hz.
    { apply Hall, list_elem_of_In, list_elem_of_fmap. exists (Z.to_nat z).
      split; [lia|]. apply elem_of_seq. lia. }
    apply andb_true_iff in Hz as [->%Z.eqb_eq Hn]. exists k. split; [done|].
    intros E. by rewrite E in Hn.
  - exfalso. enough (false = true) by done. apply Hall, list_elem_of_In, list_elem_of_fmap.
    exists (Z.to_nat z). split; [lia|]. apply elem_of_seq. lia.
Qed.

Lemma parse_dotted b :
  length b = 4%nat -> Forall is_byte b -> parseIPv4Fields (dotted b) = Some b.
Proof.
  intros Hl Hb. destruct b as [|b0 [|b1 [|b2 [|b3 [|]]]]]; try done. clear Hl.
  apply Forall_cons in Hb as [H0 Hb]. apply Forall_cons in Hb as [H1 Hb].
  apply Forall_cons in Hb as [H2 Hb]. apply Forall_cons in Hb as [H3 _].
  destruct (dec_run b0 H0) as (k0 & E0 & N0). destruct (dec_run b1 H1) as (k1 & E1 & N1).
  destruct (dec_run b2 H2) as (k2 & E2 & N2). destruct (dec_run b3 H3) as (k3 & E3 & N3).
  unfold dotted, parseIPv4Fields. cbn [fmap list_fmap join].
  assert (forall c s, bytes_of (dec c) <> [] -> (length (bytes_of (dec c) ++ s) =? 0)%nat = false) as Hne.
  { intros c s Hc. destruct (bytes_of (dec c)); done. }
  assert (is_digit 46 = false) as Hd by reflexivity.
  rewrite (v4_fields_run _ _ _ _ _ _ _ _ _ N0 E0). cbn [v4_fields].
  rewrite Hd, Z.eqb_refl, (Hne b1) by done. cbn [orb app length Nat.eqb].
  rewrite (v4_fields_run _ _ _ _ _ _ _ _ _ N1 E1). cbn [v4_fields].
  rewrite Hd, Z.eqb_refl, (Hne b2) by done. cbn [orb app length Nat.eqb].
  rewrite (v4_fields_run _ _ _ _ _ _ _ _ _ N2 E2). cbn [v4_fields].
  assert ((length (bytes_of (dec b3)) =? 0)%nat = false) as Hlast
    by (destruct (bytes_of (dec b3)); done).
  rewrite Hd, Z.eqb_refl, Hlast. cbn [orb app length Nat.eqb].
  pose proof (v4_fields_run _ false true 0 0 [b0; b1; b2] [] _ _ N3 E3) as Hr.
  rewrite app_nil_r in Hr. rewrite Hr. reflexivity.
Qed.

Lemma digit_run_digits ds v k r : digit_run v k ds = Some r -> Forall (fun c => is_digit c = true) ds.
Proof.
  revert v k. induction ds as [|c ds IH]; intros v k; [constructor|]. cbn [digit_run].
  destruct (is_digit c) eqn:E; [|done]. destruct (_ && _); [|done]. intros H. constructor; [done|].
  by eapply IH.
Qed.

(** A dotted address is made of digits and periods, and has a period. *)
Lemma dotted_chars b :
  Forall is_byte b -> Forall (fun c => is_digit c = true \/ c = 46) (dotted b).
Proof.
  intros Hb. assert (forall z, is_byte z ->
    Forall (fun c => is_digit c = true \/ c = 46) (bytes_of (dec z))) as Hdec.
  { intros z Hz. destruct (dec_run z Hz) as (k & E & _).
    eapply Forall_impl; [by eapply digit_run_digits|]. by left. }
  unfold dotted. induction Hb as [|z b Hz Hb IH]; [constructor|].
  cbn [fmap list_fmap join]. destruct (bytes_of ∘ dec <$> b) eqn:E.
  - destruct b; [|done]. by apply Hdec.
  - destruct b; [done|]. cbn [fmap list_fmap] in *. apply Forall_app; split; [by apply Hdec|].
    constructor; [by right|exact IH].
Qed.

Lemma dotted_avoids b c :
  Forall is_byte b -> is_digit c = false -> c <> 46 -> c ∉ dotted b.
Proof.
  intros Hb Hd Hc Hin. pose proof (dotted_chars b Hb) as Hall.
  rewrite Forall_forall in Hall. destruct (Hall c Hin) as [H|H]; congruence.
Qed.

Lemma ParseIP_dotted b :
  length b = 4%nat -> Forall is_byte b -> ParseIP (dotted b) = Some (v4InV6Prefix ++ b).
Proof.
  intros Hl Hb. unfold ParseIP, ParseAddr.
  destruct (list_find _ (dotted b)) as [[i c]|] eqn:E.
  - apply list_find_Some in E as (Hi & Hc & _).
    pose proof (Forall_lookup_1 _ _ _ _ (dotted_chars b Hb) Hi) as [Hd| ->].
    { destruct Hc as [->|[->| ->]]; [|done..]. by rewrite Z.eqb_refl, parse_dotted by done. }
    rewrite Z.eqb_refl, parse_dotted by done. cbn [fmap option_fmap option_map].
    unfold To16. by rewrite Hl.
  - exfalso. apply list_find_None in E. rewrite Forall_forall in E. apply (E 46); [|by left].
    destruct b as [|b0 [|b1 b]]; [done|done|]. unfold dotted. cbn [fmap list_fmap join].
    apply elem_of_app. right. by left.
Qed.

(** ** Networks *)

(** The leading [n] bits of an address. *)
Definition top (n : Z) (b : bytes) : Z := be_get b / 2 ^ (8 * Z.of_nat (length b) - n).

Lemma be_get_cons x b : be_get (x :: b) = x * 256 ^ Z.of_nat (length b) + be_get b.
Proof.
  induction b as [|c b IH] using rev_ind.
  - unfold be_get. simpl. lia.
  - change (x :: b ++ [c]) with ((x :: b) ++ [c]). rewrite !be_get_snoc, IH, length_app.
    cbn [length]. rewrite Nat2Z.inj_add, Z.pow_add_r by lia. lia.
Qed.

Lemma be_get_bound b : Forall is_byte b -> 0 <= be_get b < 256 ^ Z.of_nat (length b).
Proof.
  induction 1 as [|x b [Hx1 Hx2] Hb IH]; [unfold be_get; simpl; lia|].
  rewrite be_get_cons. cbn [length]. rewrite Nat2Z.inj_succ, Z.pow_succ_r by lia. nia.
Qed.

Lemma pow256 l : 256 ^ Z.of_nat l = 2 ^ (8 * Z.of_nat l).
Proof. rewrite Z.pow_mul_r by lia. done. Qed.

Lemma top_bound n b :
  Forall is_byte b -> 0 <= n <= 8 * Z.of_nat (length b) -> 0 <= top n b < 2 ^ n.
Proof.
  intros Hb Hn. pose proof (be_get_bound b Hb) as [H1 H2]. rewrite pow256 in H2. unfold top.
  pose proof (Z.pow_pos_nonneg 2 (8 * Z.of_nat (length b) - n)).
  split; [apply Z.div_pos; lia|]. apply Z.div_lt_upper_bound; [lia|].
  rewrite <- Z.pow_add_r by lia. by replace (_ - n + n) with (8 * Z.of_nat (length b)) by lia.
Qed.

Lemma top_cons_ge n x b :
  8 <= n <= 8 * Z.of_nat (length (x :: b)) -> top n (x :: b) = x * 2 ^ (n - 8) + top (n - 8) b.
Proof.
  intros Hn. unfold top. rewrite be_get_cons, pow256. cbn [length] in *.
  replace (8 * Z.of_nat (S (length b)) - n) with (8 * Z.of_nat (length b) - (n - 8)) by lia.
  set (d := 8 * Z.of_nat (length b) - (n - 8)).
  replace (8 * Z.of_nat (length b)) with (n - 8 + d) by lia.
  rewrite Z.pow_add_r, Z.mul_assoc by lia. apply Z.div_add_l.
  pose proof (Z.pow_pos_nonneg 2 d). lia.
Qed.

Lemma top_cons_lt n x b :
  Forall is_byte b -> 0 <= n <= 8 -> top n (x :: b) = x / 2 ^ (8 - n).
Proof.
  intros Hb Hn. unfold top. rewrite be_get_cons. pose proof (be_get_bound b Hb) as Hr.
  rewrite pow256 in *. cbn [length]. set (l := 8 * Z.of_nat (length b)) in *.
  replace (8 * Z.of_nat (S (length b)) - n) with (l + (8 - n)) by lia.
  pose proof (Z.pow_pos_nonneg 2 l). pose proof (Z.pow_pos_nonneg 2 (8 - n)).
  rewrite Z.pow_add_r, <- Z.div_div by lia. f_equal.
  rewrite Z.div_add_l, Z.div_small by lia. lia.
Qed.

Lemma mask_byte k x :
  0 <= k <= 8 -> is_byte x -> Z.land x (255 - Z.shiftr 255 k) = x / 2 ^ (8 - k) * 2 ^ (8 - k).
Proof.
  intros Hk [H1 H2].
  assert (forallb (fun k => forallb (fun x =>
    Z.land x (255 - Z.shiftr 255 k) =? x / 2 ^ (8 - k) * 2 ^ (8 - k))
    (Z.of_nat <$> seq 0 256)) (Z.of_nat <$> seq 0 9) = true) as Hall by (vm_compute; reflexivity).
  assert (forall m z, 0 <= z < Z.of_nat m -> In z (Z.of_nat <$> seq 0 m)) as Hin.
  { intros m z Hz. apply list_elem_of_In, list_elem_of_fmap. exists (Z.to_nat z).
    split; [lia|]. apply elem_of_seq. lia. }
  rewrite forallb_forall in Hall. specialize (Hall k (Hin 9%nat k ltac:(lia))).
  rewrite forallb_forall in Hall. by apply Z.eqb_eq, Hall, Hin.
Qed.

Lemma masked_zero a : masked a (CIDRMask 0 (length a)) = zeros (length a).
Proof.
  unfold masked. induction a as [|x a IH]; [done|]. cbn [length CIDRMask].
  change (8 <=? 0) with false. cbn [zip_with]. rewrite IH.
  change (255 - Z.shiftr 255 0) with 0. by rewrite Z.land_0_r.
Qed.

(** Two addresses agree under a mask of [n] bits exactly when their leading [n]
    bits do. *)
Lemma masked_eq n a b :
  length a = length b -> Forall is_byte a -> Forall is_byte b ->
  0 <= n <= 8 * Z.of_nat (length a) ->
  masked a (CIDRMask n (length a)) = masked b (CIDRMask n (length a)) <-> top n a = top n b.
Proof.
  revert n b. induction a as [|x a IH]; intros n [|y b] Hl Ha Hb Hn; try done.
  injection Hl as Hl. apply Forall_cons in Ha as [Hx Ha]. apply Forall_cons in Hb as [Hy Hb].
  cbn [length CIDRMask]. destruct (Z.leb_spec 8 n) as [H8|H8]; cbn [masked zip_with].
  - rewrite !top_cons_ge by (cbn [length] in *; lia).
    change 255 with (Z.ones 8). rewrite !Z.land_ones, !Z.mod_small by (unfold is_byte in *; lia).
    assert (0 <= n - 8 <= 8 * Z.of_nat (length a)) as Hn' by (cbn [length] in Hn; lia).
    pose proof (top_bound _ _ Ha Hn') as Ht1.
    pose proof (top_bound (n - 8) b Hb ltac:(lia)) as Ht2.
    specialize (IH (n - 8) b Hl Ha Hb Hn'). unfold masked in IH. split.
    + intros [= -> H]. apply IH in H. lia.
    + intros H. assert (x = y) as -> by nia. f_equal. apply IH. lia.
  - rewrite !top_cons_lt by (done || lia). rewrite !mask_byte by (done || lia).
    pose proof (masked_zero a) as Ma. pose proof (masked_zero b) as Mb.
    rewrite <- Hl in Mb. unfold masked in Ma, Mb. rewrite Ma, Mb.
    pose proof (Z.pow_pos_nonneg 2 (8 - n)). split; [intros [= H']; nia|intros ->; done].
Qed.

Lemma length_CIDRMask n l : length (CIDRMask n l) = l.
Proof. revert n. induction l as [|l IH]; intros n; [done|]. cbn [CIDRMask]. destruct (8 <=? n); simpl; by rewrite IH. Qed.

Lemma length_masked a m : length a = length m -> length (masked a m) = length a.
Proof. intros H. unfold masked. rewrite length_zip_with. lia. Qed.

Lemma masked_idem a m : masked (masked a m) m = masked a m.
Proof.
  unfold masked. revert m. induction a as [|x a IH]; intros [|y m]; simpl; [done..|].
  by rewrite <- Z.land_assoc, Z.land_diag, IH.
Qed.

(** The form in which [IPNet.Contains] compares an address: four bytes when it
    is an IPv4 address in either form. *)
Definition canon (x : bytes) : bytes := if (length (To4 x) =? 0)%nat then x else To4 x.

Lemma length_To4 x : To4 x = [] \/ length (To4 x) = 4%nat.
Proof.
  unfold To4. destruct (Nat.eqb_spec (length x) 4); [by right|].
  destruct (Nat.eqb_spec (length x) 16) as [E|]; [|by left].
  cbn [andb]. case_bool_decide; [right; rewrite length_drop; lia|by left].
Qed.

Lemma canon_4 x : length x = 4%nat -> canon x = x.
Proof. intros H. unfold canon, To4. rewrite H. cbn. by rewrite H. Qed.

Lemma canon_16 x : length x = 16%nat -> To4 x = [] -> canon x = x.
Proof. intros H H4. unfold canon. by rewrite H4. Qed.

Lemma To4_mapped b : length b = 4%nat -> To4 (v4InV6Prefix ++ b) = b.
Proof.
  intros H. unfold To4. rewrite length_app, H.
  rewrite take_app_length', drop_app_length' by reflexivity.
  by rewrite bool_decide_eq_true_2.
Qed.

Lemma canon_mapped b : length b = 4%nat -> canon (v4InV6Prefix ++ b) = b.
Proof. intros H. unfold canon. by rewrite To4_mapped, H. Qed.

(** A network whose number and mask have the length of an address of its own
    family. *)
Definition own_family (n : IPNet) (l : nat) : Prop :=
  canon (n_IP n) = n_IP n /\ length (n_IP n) = l /\ length (n_Mask n) = l /\ (l = 4%nat \/ l = 16%nat).

Lemma network_own n l : own_family n l -> networkNumberAndMask n = (n_IP n, n_Mask n).
Proof.
  intros (Hc & Hi & Hm & Hl). unfold networkNumberAndMask. unfold canon in Hc.
  destruct (Nat.eqb_spec (length (To4 (n_IP n))) 0) as [E|E].
  - rewrite Hi, Hm. destruct Hl as [->| ->]; [|done].
    unfold To4 in E. rewrite Hi in E. simpl in E. lia.
  - rewrite Hc, Hm, Hi. by destruct Hl as [->| ->].
Qed.

Lemma Contains_own n l x :
  own_family n l ->
  IPNet_Contains n x =
    (length (canon x) =? l)%nat && bool_decide (masked (n_IP n) (n_Mask n) = masked (canon x) (n_Mask n)).
Proof.
  intros Ho. unfold IPNet_Contains. rewrite (network_own n l Ho). destruct Ho as (_ & -> & _).
  done.
Qed.

(** The network of a prefix contains the addresses with those leading bits. *)
Lemma prefix_contains ip n k x :
  n = mkIPNet (masked ip (CIDRMask k (length ip))) (CIDRMask k (length ip)) ->
  own_family n (length ip) -> 0 <= k <= 8 * Z.of_nat (length ip) ->
  Forall is_byte ip -> Forall is_byte (canon x) ->
  IPNet_Contains n x = true <-> length (canon x) = length ip /\ top k ip = top k (canon x).
Proof.
  intros -> Ho Hk Hb Hx. rewrite (Contains_own _ _ _ Ho). cbn [n_IP n_Mask].
  rewrite masked_idem, andb_true_iff, Nat.eqb_eq, bool_decide_eq_true.
  split; intros [Hl H]; (split; [done|]); apply masked_eq in H; done.
Qed.

Lemma canon_bytes x : Forall is_byte x -> Forall is_byte (canon x).
Proof.
  intros H. unfold canon, To4. destruct (length x =? 4)%nat; [by destruct (length x =? 0)%nat|].
  destruct (_ && _); [|done]. destruct (_ =? 0)%nat; auto with bytes.
Qed.

Lemma dtoi_loop_nonneg n s k : 0 <= n -> dtoi_loop n s = Some k -> 0 <= k.
Proof.
  revert n. induction s as [|c s IH]; intros n Hn; cbn [dtoi_loop]; [by intros [= <-]|].
  destruct (is_digit c) eqn:E; [|done]. destruct (_ <=? _); [done|]. apply IH.
  apply andb_true_iff in E as [E%Z.leb_le _]. lia.
Qed.

(** What a parsed CIDR is: the prefix of its text, in its own family unless an
    IPv6 prefix masks to an IPv4-mapped number. *)
Lemma ParseCIDR_spec s n :
  ParseCIDR s = Some n ->
  exists addr mask ip k, Cut 47 s = Some (addr, mask) /\ ParseAddr addr = Some ip /\
    dtoi mask = Some k /\ 0 <= k <= 8 * Z.of_nat (length ip) /\
    n = mkIPNet (masked ip (CIDRMask k (length ip))) (CIDRMask k (length ip)) /\
    (length ip = 4%nat \/ To4 (n_IP n) = [] -> own_family n (length ip)).
Proof.
  unfold ParseCIDR. destruct (Cut 47 s) as [[addr mask]|]; [|done].
  cbn [mbind option_bind]. destruct (ParseAddr addr) as [ip|] eqn:Ea; [|done].
  cbn [mbind option_bind]. destruct (dtoi mask) as [k|] eqn:Ed; [|done]. cbn [mbind option_bind]. destruct (Z.ltb_spec (8 * Z.of_nat (length ip)) k); [done|].
  intros [= <-]. apply ParseAddr_wf in Ea as Hwf. destruct Hwf as [Hl Hb].
  assert (0 <= k) as Hk.
  { unfold dtoi in Ed. destruct (_ =? 0)%nat; [done|]. by eapply dtoi_loop_nonneg in Ed. }
  set (m := CIDRMask k (length ip)).
  assert (length m = length ip) as Hm by apply length_CIDRMask.
  assert (ip_Mask (To16 ip) m = masked ip m) as ->.
  { unfold ip_Mask. rewrite Hm. destruct Hl as [Hl|Hl].
    - assert (To16 ip = v4InV6Prefix ++ ip) as -> by (unfold To16; by rewrite Hl).
      rewrite length_app, Hl, take_app_length', drop_app_length' by reflexivity.
      by rewrite bool_decide_eq_true_2.
    - unfold To16. by rewrite Hl. }
  exists addr, mask, ip, k. split_and!; [done..|lia|done|done|].
  intros Hf. unfold own_family. cbn [n_IP n_Mask] in *.
  rewrite length_masked by done. split_and!; try done.
  destruct Hl as [Hl|Hl]; [apply canon_4; rewrite length_masked; lia|].
  destruct Hf as [Hf|Hf]; [lia|]. apply canon_16; [rewrite length_masked; lia|done].
Qed.

Lemma CIDRMask_full l : CIDRMask (8 * Z.of_nat l) l = replicate l 255.
Proof.
  induction l as [|l IH]; [done|]. cbn [CIDRMask replicate].
  rewrite (proj2 (Z.leb_le _ _)) by lia.
  by replace (8 * Z.of_nat (S l) - 8) with (8 * Z.of_nat l) by lia; rewrite IH.
Qed.

Lemma masked_full a : Forall is_byte a -> masked a (replicate (length a) 255) = a.
Proof.
  unfold masked. induction 1 as [|x a Hx Ha IH]; [done|]. cbn [length replicate zip_with].
  rewrite IH. change 255 with (Z.ones 8). rewrite Z.land_ones, Z.mod_small by (unfold is_byte in *; lia).
  done.
Qed.
