(* ===== verification/Config.v ===== *)
(** The configuration of [config/config.go]: the helpers that read lists,
    group ids and the environment, the flags, and the checks of [Load]. *)
From Stdlib Require Import ZArith Lia.
From S2P Require Import Prelude GoStrings GoTime Net NetParse.

(** [net.Interface], as far as it is used. *)
Record Interface := mkInterface { if_Index : Z; if_Name : string }.

Definition DefaultSubtreeGroupTTL : Z := 900 * Second.

(** [Scopes]. *)
Definition Scopes : list (string * Z) :=
  [("link"%string, 0xFF02); ("site"%string, 0xFF05); ("org"%string, 0xFF08);
   ("global"%string, 0xFF0E)].
Definition scope_prefix (name : string) : option Z :=
  snd ∘ snd <$> list_find (fun e => e.1 = name) Scopes.

(** The errors of [Load], by the flag they name. *)
Inductive LoadError :=
  | ErrShardBits | ErrScope | ErrGroupID | ErrEgressProto | ErrIface
  | ErrMCEgressScope | ErrMCEgressGroupID | ErrMCEgressIface
  | ErrHeaderEgressProto
  | ErrHeaderMCEgressScope | ErrHeaderMCEgressGroupID | ErrHeaderMCEgressIface
  | ErrShardInclude | ErrShardIncludeRange | ErrSubtreeInclude | ErrSubtreeExclude
  | ErrSubtreeGroups | ErrAnnounceScope | ErrSenderInclude | ErrSenderExclude.

(** ** Lists *)

Definition splitComma (s : string) : list bytes :=
  if String.eqb s "" then [] else TrimSpace <$> Split 44 (bytes_of s).

(** The entries a parser of a list looks at. *)
Definition entries (s : string) : list bytes := filter (fun h => h <> []) (splitComma s).

(** One hexadecimal identifier of [n] bytes. *)
Definition parse_id (n : nat) (h : bytes) : bytes + unit :=
  match hex_DecodeString (TrimPrefix h (bytes_of "0x")) with
  | Some b => if (length b =? n)%nat then inl b else inr tt
  | None => inr tt
  end.

Definition parseSubtreeList (s : string) : list bytes + unit := collect (parse_id 32) (entries s).
Definition parseGroupList (s : string) : list bytes + unit := collect (parse_id 16) (entries s).

(** One sender: a CIDR, or an address as the network of itself alone. *)
Definition parse_sender (addr : bytes) : IPNet + unit :=
  if bool_decide (47 ∈ addr) then
    match ParseCIDR addr with Some n => inl n | None => inr tt end
  else
    match ParseIP addr with
    | None => inr tt
    | Some ip =>
        let bits := if negb (length (To4 ip) =? 0)%nat then 32 else 128 in
        inl (mkIPNet ip (CIDRMask bits (Z.to_nat (bits / 8))))
    end.

Definition parseIPNetList (s : string) : list IPNet + unit := collect parse_sender (entries s).

(** [parseGroupID] after trimming; the value fits 16 bits by construction. *)
Definition parse_group (s : bytes) : Z + unit :=
  if (length s =? 0)%nat then inr tt
  else
    let '(s, base) :=
      if HasPrefix (ToLower s) (bytes_of "0x") then (drop 2 s, 16)
      else match ParseUint s 10 16 with inr _ => (s, 16) | inl _ => (s, 10) end in
    match ParseUint s base 16 with inl n => inl n | inr _ => inr tt end.

Definition parseGroupID (s : string) : Z + unit := parse_group (TrimSpace (bytes_of s)).

(** ** The environment *)

Section Env.
Context (getenv : string -> string).

Definition envStr (key def : string) : string :=
  let v := getenv key in if String.eqb v "" then def else v.

Definition env_parsed {A} (parse : bytes -> option A) (key : string) (def : A) : A :=
  let v := getenv key in
  if String.eqb v "" then def
  else match parse (bytes_of v) with Some n => n | None => def end.

Definition envInt : string -> Z -> Z :=
  env_parsed (fun s => match Atoi s with inl n => Some n | inr _ => None end).
Definition envBool : string -> bool -> bool := env_parsed ParseBool.
Definition envDuration : string -> Z -> Z := env_parsed ParseDuration.
End Env.

(** ** The flags *)

(** The flag variables of [Load]: those bound to a field of the configuration
    and those parsed afterwards. *)
Record Flags := mkFlags {
  f_iface : string; f_listen_port : Z; f_scope : string; f_mc_group_id : string;
  f_shard_include : string; f_subtree_include : string; f_subtree_exclude : string;
  f_egress_addr : string; f_egress_proto : string; f_strip_header : bool;
  f_mc_egress_enabled : bool; f_mc_egress_iface : string; f_mc_egress_port : Z;
  f_mc_egress_scope : string; f_mc_egress_group_id : string; f_mc_egress_hoplimit : Z;
  f_header_egress_enabled : bool; f_header_egress_addr : string;
  f_header_egress_proto : string;
  f_header_mc_egress_enabled : bool; f_header_mc_egress_iface : string;
  f_header_mc_egress_port : Z; f_header_mc_egress_scope : string;
  f_header_mc_egress_group_id : string; f_header_mc_egress_hoplimit : Z;
  f_retry_endpoints : string;
  f_nack_jitter_max : Z; f_nack_backoff_max : Z; f_nack_max_retries : Z; f_nack_gap_ttl : Z;
  f_beacon_enabled : bool; f_beacon_port : Z; f_beacon_scope : string;
  f_subtree_groups : string; f_subtree_group_default_ttl : Z; f_announce_scope : string;
  f_sender_include : string; f_sender_exclude : string;
  f_workers : Z; f_debug : bool; f_verify_payload_hash : bool;
  f_subtree_data_enabled : bool; f_subtree_data_verify_merkle : bool;
  f_egress_dedup_cap : Z; f_egress_dedup_ttl : Z; f_drain_timeout : Z;
  f_metrics_addr : string; f_instance : string; f_otlp_endpoint : string; f_otlp_interval : Z;
  f_shard_bits : Z;
}.

(** The values before [flag.Parse]: the environment over the defaults. *)
Definition env_defaults (getenv : string -> string) (NumCPU : Z) : Flags :=
  let str := envStr getenv in let int := envInt getenv in
  let bool := envBool getenv in let dur := envDuration getenv in
  {| f_iface := str "MULTICAST_IF" "eth0";
     f_listen_port := int "LISTEN_PORT" 9001;
     f_scope := str "MC_SCOPE" "site";
     f_mc_group_id := str "MC_GROUP_ID" "0x000B";
     f_shard_include := str "SHARD_INCLUDE" "";
     f_subtree_include := str "SUBTREE_INCLUDE" "";
     f_subtree_exclude := str "SUBTREE_EXCLUDE" "";
     f_egress_addr := str "EGRESS_ADDR" "127.0.0.1:9100";
     f_egress_proto := str "EGRESS_PROTO" "udp";
     f_strip_header := bool "STRIP_HEADER" false;
     f_mc_egress_enabled := bool "MC_EGRESS_ENABLED" false;
     f_mc_egress_iface := str "MC_EGRESS_IFACE" "";
     f_mc_egress_port := int "MC_EGRESS_PORT" 0;
     f_mc_egress_scope := str "MC_EGRESS_SCOPE" "";
     f_mc_egress_group_id := str "MC_EGRESS_GROUP_ID" "";
     f_mc_egress_hoplimit := int "MC_EGRESS_HOPLIMIT" 1;
     f_header_egress_enabled := bool "HEADER_EGRESS_ENABLED" false;
     f_header_egress_addr := str "HEADER_EGRESS_ADDR" "127.0.0.1:9101";
     f_header_egress_proto := str "HEADER_EGRESS_PROTO" "udp";
     f_header_mc_egress_enabled := bool "HEADER_MC_EGRESS_ENABLED" false;
     f_header_mc_egress_iface := str "HEADER_MC_EGRESS_IFACE" "";
     f_header_mc_egress_port := int "HEADER_MC_EGRESS_PORT" 0;
     f_header_mc_egress_scope := str "HEADER_MC_EGRESS_SCOPE" "";
     f_header_mc_egress_group_id := str "HEADER_MC_EGRESS_GROUP_ID" "";
     f_header_mc_egress_hoplimit := int "HEADER_MC_EGRESS_HOPLIMIT" 1;
     f_retry_endpoints := str "RETRY_ENDPOINTS" "";
     f_nack_jitter_max := dur "NACK_JITTER_MAX" (200 * Millisecond);
     f_nack_backoff_max := dur "NACK_BACKOFF_MAX" (5 * Second);
     f_nack_max_retries := int "NACK_MAX_RETRIES" 5;
     f_nack_gap_ttl := dur "NACK_GAP_TTL" (10 * Minute);
     f_beacon_enabled := bool "BEACON_ENABLED" true;
     f_beacon_port := int "BEACON_PORT" 9300;
     f_beacon_scope := str "BEACON_SCOPE" "site";
     f_subtree_groups := str "SUBTREE_GROUPS" "";
     f_subtree_group_default_ttl := dur "SUBTREE_GROUP_DEFAULT_TTL" DefaultSubtreeGroupTTL;
     f_announce_scope := str "ANNOUNCE_SCOPE" "site";
     f_sender_include := str "SENDER_INCLUDE" "";
     f_sender_exclude := str "SENDER_EXCLUDE" "";
     f_workers := int "NUM_WORKERS" NumCPU;
     f_debug := bool "DEBUG" false;
     f_verify_payload_hash := bool "VERIFY_PAYLOAD_HASH" false;
     f_subtree_data_enabled := bool "SUBTREE_DATA_ENABLED" false;
     f_subtree_data_verify_merkle := bool "SUBTREE_DATA_VERIFY_MERKLE" false;
     f_egress_dedup_cap := int "EGRESS_DEDUP_CAP" 0;
     f_egress_dedup_ttl := dur "EGRESS_DEDUP_TTL" (2 * Second);
     f_drain_timeout := dur "DRAIN_TIMEOUT" 0;
     f_metrics_addr := str "METRICS_ADDR" ":9200";
     f_instance := str "INSTANCE_ID" "";
     f_otlp_endpoint := str "OTLP_ENDPOINT" "";
     f_otlp_interval := dur "OTLP_INTERVAL" (30 * Second);
     f_shard_bits := u64 (int "SHARD_BITS" 2) |}%string.

(** ** [Config] and [Load] *)

Record Config := mkConfig {
  Iface : Interface; ListenPort : Z; EgressAddr : string; EgressProto : string;
  StripHeader : bool; RetryEndpoints : list string;
  ShardBits : Z; NumGroups : Z; MCScope : string; MCPrefix : Z; MCGroupID : Z;
  ShardInclude : list Z; SubtreeInclude : list bytes; SubtreeExclude : list bytes;
  NACKJitterMax : Z; NACKBackoffMax : Z; NACKMaxRetries : Z; NACKGapTTL : Z;
  MCEgressEnabled : bool; MCEgressIface : option Interface; MCEgressPort : Z;
  MCEgressScope : string; MCEgressPrefix : Z; MCEgressGroupID : Z; MCEgressHopLimit : Z;
  HeaderEgressEnabled : bool; HeaderEgressAddr : string; HeaderEgressProto : string;
  HeaderMCEgressEnabled : bool; HeaderMCEgressIface : option Interface;
  HeaderMCEgressPort : Z; HeaderMCEgressScope : string; HeaderMCEgressPrefix : Z;
  HeaderMCEgressGroupID : Z; HeaderMCEgressHopLimit : Z;
  BeaconEnabled : bool; BeaconPort : Z; BeaconScope : string;
  SubtreeGroups : list bytes; SubtreeGroupDefaultTTL : Z; AnnounceScopes : list string;
  SenderInclude : list IPNet; SenderExclude : list IPNet;
  SubtreeDataEnabled : bool; SubtreeDataVerifyMerkle : bool;
  NumWorkers : Z; Debug : bool; VerifyPayloadHash : bool;
  EgressDedupCap : Z; EgressDedupTTL : Z; DrainTimeout : Z;
  MetricsAddr : string; InstanceID : string; OTLPEndpoint : string; OTLPInterval : Z;
}.

(** A lookup that has to succeed, and a parser whose error is replaced. *)
Definition require {A E} (o : option A) (err : E) : A + E :=
  match o with Some a => inl a | None => inr err end.
Definition or_else {A E E'} (r : A + E) (err : E') : A + E' :=
  match r with inl a => inl a | inr _ => inr err end.

(** The parameters of a multicast sender. *)
Record MCTarget := mkMCTarget {
  t_Iface : option Interface; t_Port : Z; t_Scope : string; t_Prefix : Z; t_GroupID : Z;
}.

(** The multicast parameters of an egress, each defaulting to the ingress one;
    a disabled egress keeps what the flags set. *)
Definition resolve_mc (InterfaceByName : string -> option Interface)
    (enabled : bool) (scope group_id iface : string) (port : Z)
    (err_scope err_group err_iface : LoadError)
    (in_scope : string) (in_group in_port : Z) (in_iface : Interface) : MCTarget + LoadError :=
  if negb enabled then inl (mkMCTarget None port scope 0 0)
  else
    let scope := if String.eqb scope "" then in_scope else scope in
    let! prefix := require (scope_prefix scope) err_scope in
    let! gid := if String.eqb group_id "" then inl in_group
                else or_else (parseGroupID group_id) err_group in
    let port := if port =? 0 then in_port else port in
    let! ifc := if String.eqb iface "" then inl in_iface
                else require (InterfaceByName iface) err_iface in
    inl (mkMCTarget (Some ifc) port scope prefix gid).

(** One entry of -shard-include. *)
Definition parse_shard (NumGroups : Z) (s : bytes) : Z + LoadError :=
  let! idx := or_else (ParseUint s 10 32) ErrShardInclude in
  let! _ok := refuse (NumGroups <=? idx) ErrShardIncludeRange in
  inl idx.

Definition parse_announce_scope (s : bytes) : string + LoadError :=
  let! _p := require (scope_prefix (string_of s)) ErrAnnounceScope in
  inl (string_of s).

Definition is_proto (p : string) : bool := String.eqb p "udp" || String.eqb p "tcp".

(** The lists, which [Load] parses last. *)
Record Lists := mkLists {
  l_ShardInclude : list Z; l_SubtreeInclude : list bytes; l_SubtreeExclude : list bytes;
  l_SubtreeGroups : list bytes; l_AnnounceScopes : list string;
  l_SenderInclude : list IPNet; l_SenderExclude : list IPNet;
}.

Definition parse_lists (numGroups : Z) (f : Flags) : Lists + LoadError :=
  let! shards := collect (parse_shard numGroups) (entries (f_shard_include f)) in
  let! inc := or_else (parseSubtreeList (f_subtree_include f)) ErrSubtreeInclude in
  let! exc := or_else (parseSubtreeList (f_subtree_exclude f)) ErrSubtreeExclude in
  let! groups := or_else (parseGroupList (f_subtree_groups f)) ErrSubtreeGroups in
  let! scopes := collect parse_announce_scope (entries (f_announce_scope f)) in
  let! sinc := or_else (parseIPNetList (f_sender_include f)) ErrSenderInclude in
  let! sexc := or_else (parseIPNetList (f_sender_exclude f)) ErrSenderExclude in
  inl (mkLists shards inc exc groups (if bool_decide (scopes = []) then ["site"%string] else scopes)
         sinc sexc).

(** [Load] from [flag.Parse] on. *)
Definition validate (InterfaceByName : string -> option Interface) (NumCPU : Z) (f : Flags)
    : Config + LoadError :=
  let! _bits := refuse ((f_shard_bits f <? 1) || (15 <? f_shard_bits f)) ErrShardBits in
  let numGroups := Z.shiftl 1 (f_shard_bits f) in
  let! prefix := require (scope_prefix (f_scope f)) ErrScope in
  let! gid := or_else (parseGroupID (f_mc_group_id f)) ErrGroupID in
  let! _proto := refuse (negb (is_proto (f_egress_proto f))) ErrEgressProto in
  let workers := if f_workers f <=? 0 then NumCPU else f_workers f in
  let! iface := require (InterfaceByName (f_iface f)) ErrIface in
  let! mc := resolve_mc InterfaceByName (f_mc_egress_enabled f) (f_mc_egress_scope f)
    (f_mc_egress_group_id f) (f_mc_egress_iface f) (f_mc_egress_port f)
    ErrMCEgressScope ErrMCEgressGroupID ErrMCEgressIface
    (f_scope f) gid (f_listen_port f) iface in
  let! _hproto := refuse (f_header_egress_enabled f && negb (is_proto (f_header_egress_proto f)))
    ErrHeaderEgressProto in
  let! hmc := resolve_mc InterfaceByName (f_header_mc_egress_enabled f) (f_header_mc_egress_scope f)
    (f_header_mc_egress_group_id f) (f_header_mc_egress_iface f) (f_header_mc_egress_port f)
    ErrHeaderMCEgressScope ErrHeaderMCEgressGroupID ErrHeaderMCEgressIface
    (f_scope f) gid (f_listen_port f) iface in
  let! lists := parse_lists numGroups f in
  inl
    {| Iface := iface; ListenPort := f_listen_port f; EgressAddr := f_egress_addr f;
       EgressProto := f_egress_proto f; StripHeader := f_strip_header f;
       RetryEndpoints := string_of <$> entries (f_retry_endpoints f);
       ShardBits := f_shard_bits f; NumGroups := numGroups; MCScope := f_scope f;
       MCPrefix := prefix; MCGroupID := gid;
       ShardInclude := l_ShardInclude lists; SubtreeInclude := l_SubtreeInclude lists;
       SubtreeExclude := l_SubtreeExclude lists;
       NACKJitterMax := f_nack_jitter_max f; NACKBackoffMax := f_nack_backoff_max f;
       NACKMaxRetries := f_nack_max_retries f; NACKGapTTL := f_nack_gap_ttl f;
       MCEgressEnabled := f_mc_egress_enabled f; MCEgressIface := t_Iface mc;
       MCEgressPort := t_Port mc; MCEgressScope := t_Scope mc; MCEgressPrefix := t_Prefix mc;
       MCEgressGroupID := t_GroupID mc; MCEgressHopLimit := f_mc_egress_hoplimit f;
       HeaderEgressEnabled := f_header_egress_enabled f;
       HeaderEgressAddr := f_header_egress_addr f;
       HeaderEgressProto := f_header_egress_proto f;
       HeaderMCEgressEnabled := f_header_mc_egress_enabled f;
       HeaderMCEgressIface := t_Iface hmc; HeaderMCEgressPort := t_Port hmc;
       HeaderMCEgressScope := t_Scope hmc; HeaderMCEgressPrefix := t_Prefix hmc;
       HeaderMCEgressGroupID := t_GroupID hmc;
       HeaderMCEgressHopLimit := f_header_mc_egress_hoplimit f;
       BeaconEnabled := f_beacon_enabled f; BeaconPort := f_beacon_port f;
       BeaconScope := f_beacon_scope f;
       SubtreeGroups := l_SubtreeGroups lists; SubtreeGroupDefaultTTL := f_subtree_group_default_ttl f;
       AnnounceScopes := l_AnnounceScopes lists;
       SenderInclude := l_SenderInclude lists; SenderExclude := l_SenderExclude lists;
       SubtreeDataEnabled := f_subtree_data_enabled f;
       SubtreeDataVerifyMerkle := f_subtree_data_verify_merkle f;
       NumWorkers := workers; Debug := f_debug f; VerifyPayloadHash := f_verify_payload_hash f;
       EgressDedupCap := f_egress_dedup_cap f; EgressDedupTTL := f_egress_dedup_ttl f;
       DrainTimeout := f_drain_timeout f; MetricsAddr := f_metrics_addr f;
       InstanceID := f_instance f; OTLPEndpoint := f_otlp_endpoint f;
       OTLPInterval := f_otlp_interval f |}.

(** [Load]: the command line is what [parse] sets over the environment. *)
Definition Load (getenv : string -> string) (InterfaceByName : string -> option Interface)
    (NumCPU : Z) (parse : Flags -> Flags) : Config + LoadError :=
  validate InterfaceByName NumCPU (parse (env_defaults getenv NumCPU)).
