(* ===== verification/Wire.v ===== *)
(** The NACK request and the MISS/ACK response datagrams of [nack/wire.go]:
    encoders, decoders, and the round trips between them. A buffer is a list of
    bytes; the bounds check that panics in Go is [None] of the encoders. *)
From Stdlib Require Import ZArith Lia.
From S2P Require Import Prelude.
#[local] Open Scope go_scope.

Definition NACKSize : nat := 64.
Definition MsgTypeNACK : Z := 0x10.
Definition MsgTypeMISS : Z := 0x11.
Definition MsgTypeACK : Z := 0x12.
Definition ResponseSize : nat := 16.
Definition nackMagic : Z := 0xE3E1F3E8.
Definition nackProtoVer : Z := 0x02BF.

(** The sentinel errors [ErrBadNACK] and [ErrBadResponse]. *)
Inductive WireError := ErrBadNACK | ErrBadResponse.

(** Fields in the order of the Go struct. *)
Record NACK := mkNACK {
  n_MsgType : Z;
  n_HashKey : Z;
  n_StartSeq : Z;
  n_EndSeq : Z;
  n_SubtreeID : bytes;
}.

Record Response := mkResponse {
  r_MsgType : Z;
  r_Flags : Z;
  r_SeqNum : Z;
}.

(** [Encode(n, buf)]: the buffer after the writes, or [None] when the bounds
    check [_ = buf[NACKSize-1]] panics. *)
Definition Encode (n : NACK) (buf : bytes) : option bytes :=
  if (length buf <? NACKSize)%nat then None
  else
    let buf := put_at 0 (be_put 4 nackMagic) buf in
    let buf := put_at 4 (be_put 2 nackProtoVer) buf in
    let buf := put_at 6 [n_MsgType n] buf in
    let buf := put_at 7 [0x00] buf in
    let buf := put_at 8 (be_put 8 (n_HashKey n)) buf in
    let buf := put_at 16 (be_put 8 (n_StartSeq n)) buf in
    let buf := put_at 24 (be_put 8 (n_EndSeq n)) buf in
    Some (put_at 32 (take 32 (n_SubtreeID n)) buf).

Definition Decode (buf : bytes) : NACK + WireError :=
  if (length buf <? NACKSize)%nat then inr ErrBadNACK
  else if negb (be_get buf.[0:4] =? nackMagic) then inr ErrBadNACK
  else
    let mt := byte_at 6 buf in
    if negb (mt =? MsgTypeNACK) then inr ErrBadNACK
    else inl {| n_MsgType := mt;
                n_HashKey := be_get buf.[8:16];
                n_StartSeq := be_get buf.[16:24];
                n_EndSeq := be_get buf.[24:32];
                n_SubtreeID := buf.[32:64] |}.

Definition EncodeResponse (r : Response) (buf : bytes) : option bytes :=
  if (length buf <? ResponseSize)%nat then None
  else
    let buf := put_at 0 (be_put 4 nackMagic) buf in
    let buf := put_at 4 (be_put 2 nackProtoVer) buf in
    let buf := put_at 6 [r_MsgType r] buf in
    let buf := put_at 7 [r_Flags r] buf in
    Some (put_at 8 (be_put 8 (r_SeqNum r)) buf).

Definition DecodeResponse (buf : bytes) : Response + WireError :=
  if (length buf <? ResponseSize)%nat then inr ErrBadResponse
  else if negb (be_get buf.[0:4] =? nackMagic) then inr ErrBadResponse
  else
    let mt := byte_at 6 buf in
    if negb (mt =? MsgTypeMISS) && negb (mt =? MsgTypeACK) then inr ErrBadResponse
    else inl {| r_MsgType := mt;
                r_Flags := byte_at 7 buf;
                r_SeqNum := be_get buf.[8:16] |}.

(** A struct whose fields have their Go types. *)
Definition nack_wf (n : NACK) : Prop :=
  n_MsgType n = MsgTypeNACK /\ 0 <= n_HashKey n < 2 ^ 64 /\
  0 <= n_StartSeq n < 2 ^ 64 /\ 0 <= n_EndSeq n < 2 ^ 64 /\
  length (n_SubtreeID n) = 32%nat /\ Forall is_byte (n_SubtreeID n).

Definition response_wf (r : Response) : Prop :=
  (r_MsgType r = MsgTypeMISS \/ r_MsgType r = MsgTypeACK) /\
  is_byte (r_Flags r) /\ 0 <= r_SeqNum r < 2 ^ 64.

Lemma magic_roundtrip : be_get (be_put 4 nackMagic) = nackMagic.
Proof. reflexivity. Qed.

Lemma Encode_eq n buf :
  (NACKSize <= length buf)%nat -> length (n_SubtreeID n) = 32%nat ->
  Encode n buf =
    Some (put_at 32 (n_SubtreeID n)
      (put_at 24 (be_put 8 (n_EndSeq n))
      (put_at 16 (be_put 8 (n_StartSeq n))
      (put_at 8 (be_put 8 (n_HashKey n))
      (put_at 7 [0x00] (put_at 6 [n_MsgType n]
      (put_at 4 (be_put 2 nackProtoVer) (put_at 0 (be_put 4 nackMagic) buf)))))))).
Proof.
  intros Hb Hs. unfold Encode.
  destruct (Nat.ltb_spec (length buf) NACKSize); [lia|].
  by rewrite (take_ge (n_SubtreeID n)) by lia.
Qed.

Lemma Encode_decodes n buf :
  nack_wf n -> (NACKSize <= length buf)%nat ->
  exists out, Encode n buf = Some out /\ Decode out = inl n /\ length out = length buf.
Proof.
  intros (Hm & Hk & Hs & He & Hl & Hb) Hlen. rewrite Encode_eq by done.
  unfold NACKSize in *.
  eexists; split; [done|]. split; [|out_len].
  unfold Decode, NACKSize. in_bounds.
  wire. rewrite magic_roundtrip, Hm, Z.eqb_refl. cbn [negb].
  rewrite !be_get_put_id by lia. destruct n; simpl in *. by subst.
Qed.

(** C33: decoding an encoded NACK gives the NACK back, whatever the caller's
    buffer held before, and the encoder never writes past its 64 bytes. *)
Theorem nack_roundtrip n buf :
  nack_wf n -> (NACKSize <= length buf)%nat ->
  exists out, Encode n buf = Some out /\ Decode out = inl n /\
    length out = length buf /\ drop NACKSize out = drop NACKSize buf.
Proof.
  intros Hwf Hlen. destruct (Encode_decodes n buf Hwf Hlen) as (out & He & Hd & Hl).
  exists out. split_and!; try done. destruct Hwf as (_ & _ & _ & _ & H32 & _).
  rewrite Encode_eq in He by done. injection He as <-. unfold NACKSize in *. by wire.
Qed.

Lemma nack_roundtrip_witness :
  let n := mkNACK MsgTypeNACK 0xAABBCCDDEEFF0011 7 7 (replicate 32 5) in
  exists out, Encode n (replicate 70 9) = Some out /\ Decode out = inl n /\
    length out = 70%nat /\ drop NACKSize out = replicate 6 9.
Proof.
  apply (nack_roundtrip (mkNACK MsgTypeNACK 0xAABBCCDDEEFF0011 7 7 (replicate 32 5))
           (replicate 70 9)).
  - repeat split; try (vm_compute; congruence).
    apply Forall_replicate. by split.
  - vm_compute. lia.
Defined.

(** The decoder accepts exactly the datagrams of at least 64 bytes that
    carry the magic and the NACK message type; everything else is [ErrBadNACK],
    and no input makes it read out of bounds. *)
Theorem nack_decode_accepts buf :
  (exists n, Decode buf = inl n) <->
  (NACKSize <= length buf)%nat /\ be_get buf.[0:4] = nackMagic /\
  byte_at 6 buf = MsgTypeNACK.
Proof.
  unfold Decode. split.
  - intros [n Hn]. revert Hn. zcases.
  - intros (Hl & Hm & Ht). in_bounds. rewrite Hm, Ht, !Z.eqb_refl. eauto.
Qed.

(** The response codec round trips, for MISS and for ACK. *)
Theorem response_roundtrip r buf :
  response_wf r -> (ResponseSize <= length buf)%nat ->
  exists out, EncodeResponse r buf = Some out /\ DecodeResponse out = inl r /\
    length out = length buf.
Proof.
  intros (Hm & Hf & Hs) Hlen. unfold ResponseSize in *.
  unfold EncodeResponse, ResponseSize. in_bounds.
  eexists; split; [done|]. split; [|out_len].
  unfold DecodeResponse, ResponseSize. in_bounds.
  wire. rewrite magic_roundtrip, Z.eqb_refl, be_get_put_id by lia. cbn [negb].
  destruct r; simpl in *. by destruct Hm as [-> | ->].
Qed.

Lemma response_roundtrip_witness :
  exists out, EncodeResponse (mkResponse MsgTypeACK 1 42) (zeros 16) = Some out /\
    DecodeResponse out = inl (mkResponse MsgTypeACK 1 42) /\ length out = 16%nat.
Proof.
  apply (response_roundtrip (mkResponse MsgTypeACK 1 42) (zeros 16)).
  - repeat split; try (vm_compute; congruence). by right.
  - vm_compute. lia.
Defined.

(** What a decoded response can be: the sender only acts on the two types. *)
Lemma DecodeResponse_type buf r :
  DecodeResponse buf = inl r -> r_MsgType r = MsgTypeMISS \/ r_MsgType r = MsgTypeACK.
Proof. unfold DecodeResponse. intros H. zcases; simplify_eq; simpl; eauto. Qed.
