(* ===== verification/Reassembly.v ===== *)
(** The BRC-130 reassembly buffer of [reassembly/reassembly.go].

    A buffer is generic in the state [W] its callbacks and hooks act on, as the
    Go buffer is in the closures it is given: [Observe b now ff w] is the buffer
    and the outer state after the call. The mutex makes every operation one
    atomic step. *)
From Stdlib Require Import ZArith Lia.
From S2P Require Import Prelude Sha256 Frame.

Definition DefaultMaxSlots : Z := 4096.
Definition DefaultTTL : Z := 10 * Second.

(** [slot]: the fragments received so far for one TxID. *)
Record slot := mkSlot {
  txID : bytes;
  subtreeID : bytes;
  hashKey : Z;
  seqNum : Z;
  origPayloadLen : Z;
  fragTotal : Z;
  received : Z;
  frags : list (option bytes);   (* indexed by FragIndex; None = nil *)
  deadline : Z;
  origFrameVer : Z;
  msgType : Z;
}.

Section Buffer.
Context `{FL : FrameLib} {W : Type}.

Definition Callback := bytes -> Frame -> W -> W.
Definition BlockCallback := bytes -> BlockFrame -> W -> W.
Definition SubtreeDataCallback := bytes -> SubtreeDataFrame -> W -> W.
Definition Hook := W -> W.

Record Buffer := mkBuffer {
  slots : gmap bytes slot;
  insertOrder : list bytes;
  maxSlots : Z;
  ttl : Z;
  verifyHash : bool;
  verifyMerkle : bool;
  onComplete : option Callback;
  onCompleteBlock : option BlockCallback;
  onCompleteSubtree : option SubtreeDataCallback;
  onAbandoned : option Hook;
  onStarted : option Hook;
  onHashMismatch : option Hook;
  onMerkleMismatch : option Hook;
}.

(** Replaces the two mutable containers of the buffer. *)
Definition with_slots (b : Buffer) (m : gmap bytes slot) (o : list bytes) : Buffer :=
  mkBuffer m o (maxSlots b) (ttl b) (verifyHash b) (verifyMerkle b)
    (onComplete b) (onCompleteBlock b) (onCompleteSubtree b)
    (onAbandoned b) (onStarted b) (onHashMismatch b) (onMerkleMismatch b).

(** [if fn != nil { fn() }]. *)
Definition call (h : option Hook) (w : W) : W :=
  match h with Some f => f w | None => w end.

Definition New (max_slots ttl_ : Z) (verify_hash : bool) (cb : option Callback) : Buffer :=
  mkBuffer ∅ []
    (if max_slots <=? 0 then DefaultMaxSlots else max_slots)
    (if ttl_ <=? 0 then DefaultTTL else ttl_)
    verify_hash false cb None None None None None None.

Definition SetAbandonedHook (fn : Hook) (b : Buffer) : Buffer :=
  mkBuffer (slots b) (insertOrder b) (maxSlots b) (ttl b) (verifyHash b) (verifyMerkle b)
    (onComplete b) (onCompleteBlock b) (onCompleteSubtree b)
    (Some fn) (onStarted b) (onHashMismatch b) (onMerkleMismatch b).
Definition SetStartedHook (fn : Hook) (b : Buffer) : Buffer :=
  mkBuffer (slots b) (insertOrder b) (maxSlots b) (ttl b) (verifyHash b) (verifyMerkle b)
    (onComplete b) (onCompleteBlock b) (onCompleteSubtree b)
    (onAbandoned b) (Some fn) (onHashMismatch b) (onMerkleMismatch b).
Definition SetHashMismatchHook (fn : Hook) (b : Buffer) : Buffer :=
  mkBuffer (slots b) (insertOrder b) (maxSlots b) (ttl b) (verifyHash b) (verifyMerkle b)
    (onComplete b) (onCompleteBlock b) (onCompleteSubtree b)
    (onAbandoned b) (onStarted b) (Some fn) (onMerkleMismatch b).
Definition SetMerkleMismatchHook (fn : Hook) (b : Buffer) : Buffer :=
  mkBuffer (slots b) (insertOrder b) (maxSlots b) (ttl b) (verifyHash b) (verifyMerkle b)
    (onComplete b) (onCompleteBlock b) (onCompleteSubtree b)
    (onAbandoned b) (onStarted b) (onHashMismatch b) (Some fn).
Definition SetBlockCallback (cb : BlockCallback) (b : Buffer) : Buffer :=
  mkBuffer (slots b) (insertOrder b) (maxSlots b) (ttl b) (verifyHash b) (verifyMerkle b)
    (onComplete b) (Some cb) (onCompleteSubtree b)
    (onAbandoned b) (onStarted b) (onHashMismatch b) (onMerkleMismatch b).
Definition SetSubtreeDataCallback (cb : SubtreeDataCallback) (b : Buffer) : Buffer :=
  mkBuffer (slots b) (insertOrder b) (maxSlots b) (ttl b) (verifyHash b) (verifyMerkle b)
    (onComplete b) (onCompleteBlock b) (Some cb)
    (onAbandoned b) (onStarted b) (onHashMismatch b) (onMerkleMismatch b).
Definition SetVerifyMerkle (v : bool) (b : Buffer) : Buffer :=
  mkBuffer (slots b) (insertOrder b) (maxSlots b) (ttl b) (verifyHash b) v
    (onComplete b) (onCompleteBlock b) (onCompleteSubtree b)
    (onAbandoned b) (onStarted b) (onHashMismatch b) (onMerkleMismatch b).

(** ** Eviction *)

Definition removeSlot (id : bytes) (b : Buffer) : Buffer :=
  with_slots b (delete id (slots b)) (insertOrder b).

(** One iteration of the first loop of [evictExpired]. *)
Definition evictExpired_step (now : Z) (bw : Buffer * W) (id : bytes) : Buffer * W :=
  match slots bw.1 !! id with
  | None => bw
  | Some s =>
      if deadline s <? now
      then (removeSlot id bw.1, call (onAbandoned bw.1) bw.2)
      else bw
  end.

Definition live_order (m : gmap bytes slot) (order : list bytes) : list bytes :=
  filter (fun id => is_Some (m !! id)) order.

Definition evictExpired (now : Z) (b : Buffer) (w : W) : Buffer * W :=
  let '(b1, w1) := foldl (evictExpired_step now) (b, w) (insertOrder b) in
  (with_slots b1 (slots b1) (live_order (slots b1) (insertOrder b1)), w1).

(** The search of [evictOldest]: the first id of the order that still has a
    slot, and the order without that occurrence. *)
Fixpoint oldest_live (m : gmap bytes slot) (order : list bytes) : option (bytes * list bytes) :=
  match order with
  | [] => None
  | id :: rest =>
      match m !! id with
      | Some _ => Some (id, rest)
      | None =>
          match oldest_live m rest with
          | Some (id', rest') => Some (id', id :: rest')
          | None => None
          end
      end
  end.

Definition evictOldest (b : Buffer) (w : W) : Buffer * W :=
  match oldest_live (slots b) (insertOrder b) with
  | None => (b, w)
  | Some (id, order') =>
      (with_slots b (delete id (slots b)) order', call (onAbandoned b) w)
  end.

(** ** Completion *)

(** [for _, frag := range s.frags { payload = append(payload, frag...) }]. *)
Definition assemble (l : list (option bytes)) : bytes :=
  mjoin (default [] <$> l).

Definition complete (s : slot) (b : Buffer) (w : W) : Buffer * W :=
  let payload := assemble (frags s) in
  if origFrameVer s =? FrameVerV4 then
    let bf := {| bf_MsgType := msgType s; bf_ContentID := txID s; bf_HashKey := hashKey s;
                 bf_SeqNum := seqNum s; bf_Payload := payload |} in
    let b := removeSlot (txID s) b in
    match onCompleteBlock b with
    | Some cb => (b, cb payload bf w)
    | None => (b, w)
    end
  else if origFrameVer s =? FrameVerV5 then
    let sf := {| sf_MsgType := msgType s; sf_SubtreeID := txID s; sf_HashKey := hashKey s;
                 sf_SeqNum := seqNum s; sf_Payload := payload |} in
    let b := removeSlot (txID s) b in
    match onCompleteSubtree b with
    | Some cb => (b, cb payload sf w)
    | None => (b, w)
    end
  else if verifyHash b && negb (bool_decide (sha256d payload = txID s)) then
    (removeSlot (txID s) b, call (onHashMismatch b) w)
  else
    let f := {| Version := FrameVerV2; TxID := txID s; HashKey := hashKey s;
                SeqNum := seqNum s; SubtreeID := subtreeID s; Payload := payload |} in
    let b := removeSlot (txID s) b in
    match onComplete b with
    | Some cb => (b, cb payload f w)
    | None => (b, w)
    end.

(** ** Observe *)

(** The two guards that reject pathological metadata before a slot is opened;
    [OrigPayloadLen + 1] is a uint32 sum. *)
Definition bad_metadata (ff : FragFrame) : bool :=
  ((ff_FragTotal ff =? 0) || (ff_FragTotal ff <=? ff_FragIndex ff)) ||
  ((ff_OrigPayloadLen ff =? 0) || (u32 (ff_OrigPayloadLen ff + 1) <? ff_FragTotal ff)).

Definition fresh_slot (now ttl_ : Z) (ff : FragFrame) : slot :=
  {| txID := ff_TxID ff; subtreeID := ff_SubtreeID ff; hashKey := ff_HashKey ff;
     seqNum := ff_SeqNum ff; origPayloadLen := ff_OrigPayloadLen ff;
     fragTotal := ff_FragTotal ff; received := 0;
     frags := replicate (Z.to_nat (ff_FragTotal ff)) None;
     deadline := now + ttl_; origFrameVer := ff_OrigFrameVer ff;
     msgType := ff_MsgType ff |}.

(** The [!exists] branch: the opened slot, or [None] for the early returns. *)
Definition open_slot (now : Z) (ff : FragFrame) (b : Buffer) (w : W) : option (slot * Buffer * W) :=
  if bad_metadata ff then None
  else
    let '(b, w) :=
      if maxSlots b <=? Z.of_nat (size (slots b)) then evictOldest b w else (b, w) in
    let s := fresh_slot now (ttl b) ff in
    Some (s, with_slots b (<[ff_TxID ff := s]> (slots b)) (insertOrder b ++ [ff_TxID ff]),
          call (onStarted b) w).

Definition store_frag (i : nat) (data : bytes) (s : slot) : slot :=
  {| txID := txID s; subtreeID := subtreeID s; hashKey := hashKey s; seqNum := seqNum s;
     origPayloadLen := origPayloadLen s; fragTotal := fragTotal s;
     received := u16 (received s + 1); frags := <[i := Some data]> (frags s);
     deadline := deadline s; origFrameVer := origFrameVer s; msgType := msgType s |}.

(** The part of [Observe] after the slot is known. The slot is shared with the
    map, so the write goes back to it. [s.frags[i]] is in range for every slot
    of a well-formed buffer ([slot_ok]); the out-of-range read, which would
    panic, is the last branch. *)
Definition add_fragment (ff : FragFrame) (s : slot) (b : Buffer) (w : W) : Buffer * W :=
  if negb (ff_FragTotal ff =? fragTotal s) || (fragTotal s <=? ff_FragIndex ff) then (b, w)
  else
    let i := Z.to_nat (ff_FragIndex ff) in
    match frags s !! i with
    | Some None =>
        let s := store_frag i (ff_FragData ff) s in
        let b := with_slots b (<[ff_TxID ff := s]> (slots b)) (insertOrder b) in
        if received s <? fragTotal s then (b, w) else complete s b w
    | Some (Some _) => (b, w)
    | None => (b, w)
    end.

Definition Observe (now : Z) (ff : FragFrame) (b : Buffer) (w : W) : Buffer * W :=
  let '(b, w) := evictExpired now b w in
  match slots b !! ff_TxID ff with
  | Some s => add_fragment ff s b w
  | None =>
      match open_slot now ff b w with
      | None => (b, w)
      | Some (s, b, w) => add_fragment ff s b w
      end
  end.

(** ** The other entry points *)

Definition Tick (now : Z) (b : Buffer) (w : W) : Buffer * W := evictExpired now b w.

Definition Len (b : Buffer) : nat := size (slots b).
Definition Stats (b : Buffer) : nat := size (slots b).

(** [Purge] calls the hook once per slot, in the map's iteration order, which
    the hook cannot observe. *)
Definition Purge (b : Buffer) (w : W) : Buffer * W :=
  (with_slots b ∅ [], Nat.iter (size (slots b)) (call (onAbandoned b)) w).

(** ** Well-formed buffers *)

Definition count_some (l : list (option bytes)) : nat := length (filter is_Some l).

Record slot_ok (id : bytes) (s : slot) : Prop := {
  sok_id : txID s = id;
  sok_total : 0 < fragTotal s < 65536;
  sok_frags : length (frags s) = Z.to_nat (fragTotal s);
  sok_received : received s = Z.of_nat (count_some (frags s));
  sok_incomplete : received s < fragTotal s;
  sok_seq : 0 <= seqNum s < 2 ^ 64;
}.

Record buf_ok (b : Buffer) : Prop := {
  bok_slots : map_Forall slot_ok (slots b);
  bok_nodup : NoDup (insertOrder b);
  bok_dom : forall id, is_Some (slots b !! id) -> id ∈ insertOrder b;
  bok_size : Z.of_nat (size (slots b)) <= maxSlots b;
  bok_max : 0 < maxSlots b;
}.

(** The fields of a decoded fragment have their Go types. *)
Definition frag_ok (ff : FragFrame) : Prop :=
  0 <= ff_FragIndex ff < 65536 /\ 0 <= ff_FragTotal ff < 65536 /\
  0 <= ff_OrigPayloadLen ff < 2 ^ 32 /\ 0 <= ff_SeqNum ff < 2 ^ 64.

Lemma count_some_le l : (count_some l <= length l)%nat.
Proof. apply length_filter. Qed.

Lemma count_some_cons o l :
  count_some (o :: l) = ((if o is Some _ then 1 else 0) + count_some l)%nat.
Proof.
  unfold count_some. destruct o.
  - by rewrite filter_cons_True by done.
  - rewrite filter_cons_False; [done|]. by intros [? [=]].
Qed.

Lemma count_some_lt l i : l !! i = Some None -> (count_some l < length l)%nat.
Proof.
  revert i. induction l as [|o l IH]; intros i Hi; [done|].
  rewrite count_some_cons. pose proof (count_some_le l).
  destruct i as [|i]; simpl in *; simplify_eq.
  - lia.
  - specialize (IH i Hi). destruct o; lia.
Qed.

Lemma count_some_insert l i d :
  l !! i = Some None -> count_some (<[i := Some d]> l) = S (count_some l).
Proof.
  revert i. induction l as [|o l IH]; intros i Hi; [done|].
  destruct i as [|i]; simpl in *; simplify_eq; rewrite !count_some_cons; [done|].
  rewrite IH by done. by destruct o.
Qed.

Lemma count_some_replicate n : count_some (replicate n None) = 0%nat.
Proof. induction n; [done|]. simpl. by rewrite count_some_cons. Qed.

Lemma count_some_full l :
  (forall i o, l !! i = Some o -> is_Some o) -> count_some l = length l.
Proof.
  induction l as [|o l IH]; intros H; [done|].
  rewrite count_some_cons. destruct (H 0%nat o eq_refl) as [d ->].
  rewrite IH; [done|]. intros i. apply (H (S i)).
Qed.

Lemma with_slots_id b : with_slots b (slots b) (insertOrder b) = b.
Proof. by destruct b. Qed.

(** ** What an expiry pass does *)

Definition unexpired (now : Z) (m : gmap bytes slot) : gmap bytes slot :=
  filter (fun p => now <= deadline p.2) m.

Definition survivors (now : Z) (order : list bytes) (m : gmap bytes slot) : gmap bytes slot :=
  filter (fun p => ~ (p.1 ∈ order /\ deadline p.2 < now)) m.

Lemma survivors_nil now m : survivors now [] m = m.
Proof. apply map_filter_id. intros i x _ [H _]. by apply not_elem_of_nil in H. Qed.

Lemma survivors_cons_keep now id order m :
  (forall s, m !! id = Some s -> now <= deadline s) ->
  survivors now (id :: order) m = survivors now order m.
Proof.
  intros H. apply map_filter_ext. intros i x Hi. simpl.
  rewrite elem_of_cons. split; intros Hn [Hin Hd]; apply Hn; split; try done; [by right|].
  destruct Hin as [->|]; [|done]. specialize (H _ Hi). lia.
Qed.

Lemma survivors_cons_drop now id order m s :
  m !! id = Some s -> deadline s < now ->
  survivors now (id :: order) m = survivors now order (delete id m).
Proof.
  intros Hm Hd. apply map_eq. intros i. apply option_eq. intros x.
  unfold survivors. rewrite !map_lookup_filter_Some, lookup_delete_Some. simpl.
  rewrite elem_of_cons. split.
  - intros [Hi Hn]. repeat split; try done.
    + intros <-. simplify_eq. apply Hn. by split; [left|].
    + intros [? ?]. apply Hn. split; [by right|done].
  - intros [[Hne Hi] Hn]. split; [done|]. intros [[->|] ?]; [done|]. by apply Hn.
Qed.

Lemma size_survivors_le now order m : (size (survivors now order m) <= size m)%nat.
Proof. apply map_size_filter. Qed.

Lemma evict_fold now order b m o w :
  foldl (evictExpired_step now) (with_slots b m o, w) order =
  (with_slots b (survivors now order m) o,
   Nat.iter (size m - size (survivors now order m)) (call (onAbandoned b)) w).
Proof.
  revert m w. induction order as [|id order IH]; intros m w; simpl.
  - by rewrite survivors_nil, Nat.sub_diag.
  - unfold evictExpired_step at 2. simpl. destruct (m !! id) as [s|] eqn:Hid.
    + destruct (Z.ltb_spec (deadline s) now).
      * unfold removeSlot. simpl.
        change (with_slots (with_slots b m o) ?x ?y) with (with_slots b x y).
        rewrite IH. rewrite (survivors_cons_drop now id order m s) by done.
        f_equal. pose proof (map_size_delete_Some id m ltac:(eauto)) as Hsz.
        pose proof (size_survivors_le now order (delete id m)).
        pose proof (map_size_ne_0_lookup_2 m id ltac:(eauto)).
        replace (size m - size (survivors now order (delete id m)))%nat
          with (S (size (delete id m) - size (survivors now order (delete id m)))) by lia.
        by rewrite Nat.iter_succ_r.
      * rewrite IH, survivors_cons_keep; [done|]. intros ? ?. by simplify_eq.
    + rewrite IH, survivors_cons_keep; [done|]. intros ? ?. by simplify_eq.
Qed.

Lemma evictExpired_survivors now b w :
  evictExpired now b w =
    let m := survivors now (insertOrder b) (slots b) in
    (with_slots b m (live_order m (insertOrder b)),
     Nat.iter (size (slots b) - size m) (call (onAbandoned b)) w).
Proof.
  unfold evictExpired. rewrite <- (with_slots_id b) at 1. by rewrite evict_fold.
Qed.

Lemma evictExpired_eq now b w :
  buf_ok b ->
  evictExpired now b w =
    (with_slots b (unexpired now (slots b)) (live_order (unexpired now (slots b)) (insertOrder b)),
     Nat.iter (size (slots b) - size (unexpired now (slots b))) (call (onAbandoned b)) w).
Proof.
  intros Hok. rewrite evictExpired_survivors. simpl.
  assert (survivors now (insertOrder b) (slots b) = unexpired now (slots b)) as ->; [|done].
  apply map_filter_ext. intros id s Hs. simpl. split; intros H.
  - apply Z.nlt_ge. intros Hlt. apply H. split; [|done]. apply (bok_dom b Hok). eauto.
  - intros [_ ?]. lia.
Qed.

Definition order_live (b : Buffer) : Prop :=
  forall id, id ∈ insertOrder b -> is_Some (slots b !! id).

Lemma unexpired_subseteq now m : unexpired now m ⊆ m.
Proof. apply map_filter_subseteq. Qed.

Lemma elem_of_live_order m order id :
  id ∈ live_order m order <-> is_Some (m !! id) /\ id ∈ order.
Proof. unfold live_order. by rewrite list_elem_of_filter. Qed.

(** Shrinking the map to a submap keeps a buffer well-formed. *)
Lemma buf_ok_submap b m o :
  buf_ok b -> m ⊆ slots b -> NoDup o ->
  (forall id, is_Some (m !! id) -> id ∈ o) -> buf_ok (with_slots b m o).
Proof.
  intros [Hs Hn Hd Hz Hm] Hsub Ho Hdo. split; simpl; try done.
  - intros id s Hid. apply Hs. by eapply lookup_weaken.
  - pose proof (map_subseteq_size _ _ Hsub). lia.
Qed.

Lemma evictExpired_ok now b w :
  buf_ok b -> buf_ok (evictExpired now b w).1 /\ order_live (evictExpired now b w).1.
Proof.
  intros Hok. rewrite evictExpired_eq by done. simpl. split.
  - apply buf_ok_submap; [done|apply unexpired_subseteq| |].
    + apply NoDup_filter, Hok.
    + intros id Hid. apply elem_of_live_order. split; [done|]. apply (bok_dom b Hok).
      eapply lookup_weaken_is_Some; [done|apply unexpired_subseteq].
  - intros id Hid. by apply elem_of_live_order in Hid as [? _].
Qed.

(** In a compacted order the oldest live id is the head. *)
Lemma evictOldest_eq b w id order :
  order_live b -> insertOrder b = id :: order ->
  evictOldest b w = (with_slots b (delete id (slots b)) order, call (onAbandoned b) w).
Proof.
  intros Hl Ho. unfold evictOldest. rewrite Ho. simpl.
  destruct (Hl id) as [s ->]; [rewrite Ho; by left|]. done.
Qed.

Lemma evictOldest_nil b w : slots b = ∅ -> evictOldest b w = (b, w).
Proof.
  intros Hs. unfold evictOldest. rewrite Hs.
  assert (forall o, oldest_live ∅ o = None) as ->; [|done].
  induction o as [|id o IH]; simpl; [done|]. by rewrite lookup_empty, IH.
Qed.

Lemma buf_ok_order_nonempty b :
  buf_ok b -> maxSlots b <= Z.of_nat (size (slots b)) ->
  exists id order, insertOrder b = id :: order.
Proof.
  intros Hok Hsz. pose proof (bok_max b Hok).
  destruct (insertOrder b) as [|id order] eqn:Ho; [|eauto]. exfalso.
  destruct (map_size_ne_0_lookup_1 (slots b)) as [i Hi]; [lia|].
  apply (bok_dom b Hok) in Hi. rewrite Ho in Hi. by apply not_elem_of_nil in Hi.
Qed.

Lemma evictOldest_ok b w :
  buf_ok b -> order_live b -> maxSlots b <= Z.of_nat (size (slots b)) ->
  let b' := (evictOldest b w).1 in
  buf_ok b' /\ order_live b' /\ Z.of_nat (size (slots b')) < maxSlots b' /\
  slots b' ⊆ slots b.
Proof.
  intros Hok Hl Hsz. destruct (buf_ok_order_nonempty b Hok Hsz) as (id & order & Ho).
  rewrite (evictOldest_eq b w id order) by done. simpl.
  pose proof (bok_nodup b Hok) as Hnd. rewrite Ho in Hnd. apply NoDup_cons in Hnd as [Hni Hnd].
  assert (is_Some (slots b !! id)) as Hid by (apply Hl; rewrite Ho; by left).
  split_and!.
  - apply buf_ok_submap; [done|apply delete_subseteq|done|].
    intros i [s Hi]. apply lookup_delete_Some in Hi as [Hne Hi].
    assert (i ∈ insertOrder b) as Hin by (apply (bok_dom b Hok); eauto).
    rewrite Ho, elem_of_cons in Hin. destruct Hin as [->|]; done.
  - intros i Hi. simpl in *. rewrite lookup_delete_ne by (by intros ->).
    apply Hl. rewrite Ho. by right.
  - pose proof (map_size_delete_Some id (slots b) Hid) as Hd.
    pose proof (bok_size b Hok). pose proof (bok_max b Hok). lia.
  - apply delete_subseteq.
Qed.

Lemma fresh_slot_ok now t ff :
  frag_ok ff -> bad_metadata ff = false -> slot_ok (ff_TxID ff) (fresh_slot now t ff).
Proof.
  intros (Hi & Ht & Hp & Hq) Hb. unfold bad_metadata in Hb.
  apply orb_false_elim in Hb as [Hb _]. apply orb_false_elim in Hb as [Hz Hlt].
  apply Z.eqb_neq in Hz. apply Z.leb_gt in Hlt.
  split; simpl; try done; [lia|by rewrite length_replicate|by rewrite count_some_replicate|lia..].
Qed.

Lemma open_slot_ok now ff b w s b' w' :
  buf_ok b -> order_live b -> slots b !! ff_TxID ff = None -> frag_ok ff ->
  open_slot now ff b w = Some (s, b', w') ->
  buf_ok b' /\ slots b' !! ff_TxID ff = Some s /\ s = fresh_slot now (ttl b) ff /\
  bad_metadata ff = false.
Proof.
  intros Hok Hl Hnone Hff. unfold open_slot.
  destruct (bad_metadata ff) eqn:Hbad; [done|].
  assert (exists b1 w1, (if maxSlots b <=? Z.of_nat (size (slots b))
                         then evictOldest b w else (b, w)) = (b1, w1) /\
            buf_ok b1 /\ order_live b1 /\ Z.of_nat (size (slots b1)) < maxSlots b1 /\
            slots b1 ⊆ slots b /\ ttl b1 = ttl b) as (b1 & w1 & -> & Hok1 & Hl1 & Hsz & Hsub & Httl).
  { destruct (Z.leb_spec (maxSlots b) (Z.of_nat (size (slots b)))) as [Hfull|].
    - pose proof (evictOldest_ok b w Hok Hl Hfull) as (? & ? & ? & ?).
      destruct (buf_ok_order_nonempty b Hok Hfull) as (id & order & Ho).
      rewrite (evictOldest_eq b w id order) in * by done. eauto 10.
    - exists b, w. split_and!; done. }
  intros [= <- <- <-]. simpl. rewrite lookup_insert_eq, Httl.
  assert (slots b1 !! ff_TxID ff = None) as Hnone1.
  { destruct (slots b1 !! ff_TxID ff) eqn:E; [|done].
    by rewrite (lookup_weaken _ _ _ _ E Hsub) in Hnone. }
  split_and!; try done. split; simpl.
  - apply map_Forall_insert_2; [by apply fresh_slot_ok|apply Hok1].
  - apply NoDup_app. split_and!; [apply Hok1| |apply NoDup_singleton].
    intros id Hin ->%list_elem_of_singleton. destruct (Hl1 _ Hin) as [? E]. congruence.
  - intros id Hid. rewrite elem_of_app, list_elem_of_singleton.
    destruct (decide (id = ff_TxID ff)) as [->|Hne]; [by right|left].
    rewrite lookup_insert_ne in Hid by done. by apply (bok_dom b1 Hok1).
  - rewrite map_size_insert_None by done. lia.
  - apply Hok1.
Qed.

Lemma complete_fst s b w : (complete s b w).1 = removeSlot (txID s) b.
Proof. unfold complete. repeat case_match; done. Qed.

(** The three things [add_fragment] can do to the map. *)
Lemma add_fragment_ok ff s b w :
  buf_ok b -> slots b !! ff_TxID ff = Some s -> frag_ok ff ->
  buf_ok (add_fragment ff s b w).1.
Proof.
  intros Hok Hs (Hi & _). pose proof (bok_slots b Hok _ _ Hs) as [Hid Ht Hf Hr Hinc].
  unfold add_fragment.
  destruct (negb _ || _) eqn:Hg; [done|].
  apply orb_false_elim in Hg as [_ Hlt]. apply Z.leb_gt in Hlt.
  destruct (frags s !! Z.to_nat (ff_FragIndex ff)) as [[d|]|] eqn:Hlook; [done| |done].
  pose proof (count_some_lt _ _ Hlook).
  assert (u16 (received s + 1) = received s + 1) as Hu by (apply u16_id; lia).
  simpl. destruct (Z.ltb_spec (u16 (received s + 1)) (fragTotal s)).
  - split; simpl; try apply Hok.
    + apply map_Forall_insert_2; [|apply Hok]. split; simpl; try done.
      * by rewrite length_insert.
      * rewrite count_some_insert by done. lia.
    + intros id Hin. apply (bok_dom b Hok).
      destruct (decide (id = ff_TxID ff)) as [->|]; [by eexists|].
      by rewrite lookup_insert_ne in Hin.
    + rewrite map_size_insert_Some by eauto. apply Hok.
  - rewrite complete_fst. unfold removeSlot. simpl. rewrite Hid, delete_insert_eq.
    apply (buf_ok_submap b); [done|apply delete_subseteq|apply Hok|].
    intros id Hin. apply (bok_dom b Hok). eapply lookup_weaken_is_Some; [done|].
    apply delete_subseteq.
Qed.

Lemma Observe_ok now ff b w :
  buf_ok b -> frag_ok ff -> buf_ok (Observe now ff b w).1.
Proof.
  intros Hok Hff. unfold Observe.
  pose proof (evictExpired_ok now b w Hok) as [Hok1 Hl1].
  destruct (evictExpired now b w) as [b1 w1]. simpl in *.
  destruct (slots b1 !! ff_TxID ff) as [s|] eqn:Hs; [by apply add_fragment_ok|].
  destruct (open_slot now ff b1 w1) as [[[s b2] w2]|] eqn:Ho; [|done].
  destruct (open_slot_ok _ _ _ _ _ _ _ Hok1 Hl1 Hs Hff Ho) as (Hok2 & Hs2 & _).
  by apply add_fragment_ok.
Qed.

Lemma Purge_ok b w : buf_ok b -> buf_ok (Purge b w).1.
Proof.
  intros Hok. apply (buf_ok_submap b); [done|apply map_empty_subseteq|constructor|].
  intros id Hid. by apply lookup_empty_is_Some in Hid.
Qed.

Lemma New_buf_ok m t v cb : buf_ok (New m t v cb).
Proof.
  split; simpl; [apply map_Forall_empty|constructor| | |].
  - intros id Hid. by apply lookup_empty_is_Some in Hid.
  - rewrite map_size_empty. zcases; unfold DefaultMaxSlots; lia.
  - zcases; unfold DefaultMaxSlots; lia.
Qed.

(** ** Runs: the buffer operations in the order the mutex serialises them *)

Inductive Op :=
| OObserve (now : Z) (ff : FragFrame)
| OTick (now : Z)
| OPurge.

Definition op_ok (o : Op) : Prop :=
  match o with OObserve _ ff => frag_ok ff | _ => True end.

Definition run_op (bw : Buffer * W) (o : Op) : Buffer * W :=
  match o with
  | OObserve now ff => Observe now ff bw.1 bw.2
  | OTick now => Tick now bw.1 bw.2
  | OPurge => Purge bw.1 bw.2
  end.

Definition run (ops : list Op) (b : Buffer) (w : W) : Buffer * W := foldl run_op (b, w) ops.

Lemma run_op_ok b w o : buf_ok b -> op_ok o -> buf_ok (run_op (b, w) o).1.
Proof.
  destruct o; simpl; intros; [by apply Observe_ok| |by apply (Purge_ok b w)].
  by apply (evictExpired_ok now b w).
Qed.

(** No operation changes the configuration of the buffer: the callbacks, the
    hooks, the limits and the flags are those it was built with. *)
Definition same_config (b b' : Buffer) : Prop :=
  b' = with_slots b (slots b') (insertOrder b').

Lemma same_config_refl b : same_config b b.
Proof. by destruct b. Qed.

Lemma same_config_trans b1 b2 b3 :
  same_config b1 b2 -> same_config b2 b3 -> same_config b1 b3.
Proof. intros H1 H2. unfold same_config in *. rewrite H2, H1. done. Qed.

Lemma same_config_with_slots b b' m o :
  same_config b b' -> same_config b (with_slots b' m o).
Proof. intros H. unfold same_config in *. rewrite H. done. Qed.

#[local] Hint Resolve same_config_refl same_config_trans same_config_with_slots : core.

Lemma evictExpired_config now b w : same_config b (evictExpired now b w).1.
Proof. by rewrite evictExpired_survivors. Qed.

Lemma add_fragment_config ff s b w : same_config b (add_fragment ff s b w).1.
Proof.
  unfold add_fragment.
  repeat (case_match; simpl; try apply same_config_refl; try done).
  rewrite complete_fst. done.
Qed.

Lemma open_slot_config now ff b w s b' w' :
  open_slot now ff b w = Some (s, b', w') -> same_config b b'.
Proof.
  unfold open_slot, evictOldest. intros H.
  repeat (case_match; simplify_eq/=; try done).
Qed.

Lemma Observe_config now ff b w : same_config b (Observe now ff b w).1.
Proof.
  unfold Observe. pose proof (evictExpired_config now b w) as H.
  destruct (evictExpired now b w) as [b1 w1]. simpl in H.
  eapply same_config_trans; [done|].
  destruct (slots b1 !! ff_TxID ff); [apply add_fragment_config|].
  destruct (open_slot now ff b1 w1) as [[[s b2] w2]|] eqn:Ho; [|apply same_config_refl].
  eapply same_config_trans; [by eapply open_slot_config|apply add_fragment_config].
Qed.

Lemma run_op_config b w o : same_config b (run_op (b, w) o).1.
Proof.
  destruct o; [apply Observe_config|apply evictExpired_config|done].
Qed.

Lemma run_ind (P : Buffer * W -> Prop) ops b w :
  P (b, w) ->
  (forall b w o, o ∈ ops -> P (b, w) -> P (run_op (b, w) o)) ->
  P (run ops b w).
Proof.
  unfold run. revert b w. induction ops as [|o ops IH]; intros b w H0 Hstep; simpl; [done|].
  destruct (run_op (b, w) o) as [b' w'] eqn:E. apply IH.
  - rewrite <- E. apply Hstep; [by left|done].
  - intros. apply Hstep; [by right|done].
Qed.

(** ** Frame rules for [Observe] *)

Lemma call_iter_pres (Q : W -> Prop) h n w :
  (forall w, Q w -> Q (call h w)) -> Q w -> Q (Nat.iter n (call h) w).
Proof. intros Hh Hw. induction n; simpl; auto. Qed.

Lemma evictExpired_w_pres (Q : W -> Prop) now b w :
  (forall w, Q w -> Q (call (onAbandoned b) w)) ->
  Q w -> Q (evictExpired now b w).2.
Proof.
  intros Hh Hw. rewrite evictExpired_survivors. simpl. by apply call_iter_pres.
Qed.

(** A property of the outer state is kept by [Observe] when the two hooks it
    may call and the completion of the fragment's own slot keep it. *)
Lemma Observe_w_pres (Q : W -> Prop) now ff b w :
  buf_ok b -> frag_ok ff ->
  (forall w, Q w -> Q (call (onAbandoned b) w)) ->
  (forall w, Q w -> Q (call (onStarted b) w)) ->
  (forall s b' w, same_config b b' -> txID s = ff_TxID ff -> 0 <= seqNum s < 2 ^ 64 ->
     Q w -> Q (complete s b' w).2) ->
  Q w -> Q (Observe now ff b w).2.
Proof.
  intros Hok Hff Hab Hst Hco Hw. unfold Observe.
  pose proof (evictExpired_config now b w) as Hc1.
  pose proof (evictExpired_w_pres Q now b w Hab Hw) as Hw1.
  pose proof (evictExpired_ok now b w Hok) as [Hok1 _].
  destruct (evictExpired now b w) as [b1 w1]. simpl in *.
  assert (forall s b' w, same_config b b' -> txID s = ff_TxID ff -> 0 <= seqNum s < 2 ^ 64 -> Q w ->
    Q (add_fragment ff s b' w).2) as Hadd.
  { intros s b' w' Hc Hid Hseq Hw'. unfold add_fragment.
    repeat (case_match; simpl; try done). apply Hco; auto. }
  destruct (slots b1 !! ff_TxID ff) as [s|] eqn:Hs.
  { pose proof (bok_slots b1 Hok1 _ _ Hs) as Hsl. apply Hadd; [done|apply Hsl|apply Hsl|done]. }
  destruct (open_slot now ff b1 w1) as [[[s b2] w2]|] eqn:Ho; [|done].
  pose proof (open_slot_config _ _ _ _ _ _ _ Ho) as Hc2.
  assert (onAbandoned b1 = onAbandoned b /\ onStarted b1 = onStarted b) as [Ha Hs1]
    by (by rewrite Hc1).
  unfold open_slot, evictOldest in Ho.
  repeat (case_match; simplify_eq/=); apply Hadd; eauto;
    rewrite ?Ha, ?Hs1; auto; apply Hff.
Qed.

(** A fragment of another transaction leaves a slot alone, as long as the
    buffer is below its capacity. *)
Lemma add_fragment_other ff s b w id :
  txID s = ff_TxID ff -> id <> ff_TxID ff ->
  slots (add_fragment ff s b w).1 !! id = slots b !! id.
Proof.
  intros Hs Hne. unfold add_fragment.
  repeat (case_match; simpl; try done); rewrite ?complete_fst; simpl;
    rewrite ?Hs, ?lookup_delete_ne, ?lookup_insert_ne by done; done.
Qed.

Lemma open_slot_below now ff b w :
  bad_metadata ff = false -> Z.of_nat (size (slots b)) < maxSlots b ->
  open_slot now ff b w =
    Some (fresh_slot now (ttl b) ff,
          with_slots b (<[ff_TxID ff := fresh_slot now (ttl b) ff]> (slots b))
            (insertOrder b ++ [ff_TxID ff]),
          call (onStarted b) w).
Proof.
  intros Hb Hsz. unfold open_slot. rewrite Hb.
  by rewrite (proj2 (Z.leb_gt _ _)) by done.
Qed.

Lemma unexpired_size now m : (size (unexpired now m) <= size m)%nat.
Proof. apply map_size_filter. Qed.

Lemma Observe_other now ff b w id :
  buf_ok b -> id <> ff_TxID ff -> Z.of_nat (size (slots b)) < maxSlots b ->
  slots (Observe now ff b w).1 !! id = unexpired now (slots b) !! id.
Proof.
  intros Hok Hne Hsz. unfold Observe.
  pose proof (evictExpired_ok now b w Hok) as [Hok1 _].
  rewrite evictExpired_eq in * by done.
  pose proof (unexpired_size now (slots b)).
  set (b1 := with_slots b _ _) in *. fold (slots b1).
  destruct (slots b1 !! ff_TxID ff) as [s|] eqn:Hs.
  - rewrite add_fragment_other; [done| |done]. apply (bok_slots b1 Hok1 _ _ Hs).
  - destruct (bad_metadata ff) eqn:Hbad.
    + unfold open_slot. by rewrite Hbad.
    + rewrite open_slot_below by (simpl; lia || done).
      rewrite add_fragment_other by done. simpl. by rewrite lookup_insert_ne.
Qed.

Lemma add_fragment_size ff s b w :
  slots b !! ff_TxID ff = Some s ->
  (size (slots (add_fragment ff s b w).1) <= size (slots b))%nat.
Proof.
  intros Hs. unfold add_fragment.
  repeat (case_match; simpl; try done); rewrite ?complete_fst; simpl.
  - rewrite map_size_insert_Some by eauto. done.
  - etrans; [apply map_subseteq_size, delete_subseteq|].
    rewrite map_size_insert_Some by eauto. done.
Qed.

Lemma Observe_size now ff b w :
  buf_ok b -> frag_ok ff -> Z.of_nat (size (slots b)) < maxSlots b ->
  (size (slots (Observe now ff b w).1) <= S (size (slots b)))%nat.
Proof.
  intros Hok Hff Hsz. unfold Observe.
  pose proof (evictExpired_ok now b w Hok) as [Hok1 Hl1].
  rewrite evictExpired_eq in * by done.
  pose proof (unexpired_size now (slots b)).
  set (b1 := with_slots b _ _) in *. fold (slots b1).
  destruct (slots b1 !! ff_TxID ff) as [s|] eqn:Hs.
  - pose proof (add_fragment_size ff s b1 (Nat.iter (size (slots b) - size (unexpired now (slots b)))
      (call (onAbandoned b)) w) Hs). simpl in *. lia.
  - destruct (bad_metadata ff) eqn:Hbad.
    + unfold open_slot. rewrite Hbad. simpl. lia.
    + rewrite open_slot_below by (simpl; lia || done).
      etrans; [apply add_fragment_size; simpl; by rewrite lookup_insert_eq|].
      simpl. rewrite map_size_insert_None by done. simpl. lia.
Qed.

End Buffer.

Arguments Buffer : clear implicits.

(** [validateFragment], the guard of the tests: [None] is no error. *)
Inductive FragError := FragTotalZero | FragIndexTooLarge (i n : Z).

Definition validateFragment (ff : FragFrame) : option FragError :=
  if ff_FragTotal ff =? 0 then Some FragTotalZero
  else if ff_FragTotal ff <=? ff_FragIndex ff
       then Some (FragIndexTooLarge (ff_FragIndex ff) (ff_FragTotal ff))
       else None.
