(* ===== verification/ReassemblyProps.v ===== *)
(** What the reassembly buffer promises: the invariant of every run, delivery of
    the original payload whatever the order of the fragments, the hash check,
    the eviction policy. The outer state is the log of what the buffer told its
    owner, so that "delivered exactly once" can be said. *)
From Stdlib Require Import ZArith Lia.
From S2P Require Import Prelude Sha256 Frame FrameExample Reassembly.

(** ** The invariant of every run *)

Section Invariant.
Context `{FL : FrameLib} {W : Type}.

(** C12: whatever fragments arrive, in whatever order and mixed with ticks and
    purges, a buffer built by [New] stays well-formed: never more than
    [maxSlots] slots, every slot incomplete with a received count equal to the
    number of stored fragments and a fragment table of the declared length,
    and every slot in the eviction order, which has no duplicates. *)
Theorem buffer_invariant (ops : list Op) m t v (cb : option (Callback (W := W))) (w : W) :
  Forall op_ok ops ->
  let b := (run ops (New m t v cb) w).1 in
  buf_ok b /\ Z.of_nat (Len b) <= (if m <=? 0 then DefaultMaxSlots else m).
Proof.
  intros Hops b.
  assert (buf_ok b /\ same_config (New m t v cb) b) as [Hok Hc].
  { subst b. apply (run_ind (fun bw => buf_ok bw.1 /\ same_config (New m t v cb) bw.1)).
    - split; [apply New_buf_ok|apply same_config_refl].
    - intros b' w' o Hin [H1 H2]. split.
      + apply run_op_ok; [done|]. by eapply Forall_forall in Hops.
      + eapply same_config_trans; [done|]. apply run_op_config. }
  split; [done|]. pose proof (bok_size b Hok) as Hs. unfold Len.
  rewrite Hc in Hs. simpl in Hs. by rewrite Hc.
Qed.

(** A tick at [now] removes exactly the slots whose deadline has passed,
    calls the abandoned hook once for each of them, and keeps the insertion
    order of the others. *)
Theorem tick_evicts_expired (b : Buffer W) now w :
  buf_ok b ->
  let r := Tick now b w in
  (forall id s, slots r.1 !! id = Some s <-> slots b !! id = Some s /\ now <= deadline s) /\
  r.2 = Nat.iter (size (slots b) - size (slots r.1)) (call (onAbandoned b)) w /\
  insertOrder r.1 = filter (fun id => is_Some (slots r.1 !! id)) (insertOrder b).
Proof.
  intros Hok. unfold Tick. rewrite evictExpired_eq by done. simpl.
  split_and!; [|done|done]. intros id s. unfold unexpired.
  by rewrite map_lookup_filter_Some.
Qed.

(** A buffer at capacity makes room for a new transaction by abandoning
    the slot that was opened first, and only that one. *)
Theorem capacity_evicts_oldest (b : Buffer W) now ff w id order s b' w' :
  buf_ok b -> order_live b -> insertOrder b = id :: order ->
  Z.of_nat (size (slots b)) = maxSlots b ->
  slots b !! ff_TxID ff = None ->
  open_slot now ff b w = Some (s, b', w') ->
  slots b' = <[ff_TxID ff := s]> (delete id (slots b)) /\
  insertOrder b' = order ++ [ff_TxID ff] /\
  w' = call (onStarted b) (call (onAbandoned b) w).
Proof.
  intros Hok Hl Ho Hfull Hn. unfold open_slot. destruct (bad_metadata ff); [done|].
  rewrite (proj2 (Z.leb_le _ _)) by lia.
  rewrite (evictOldest_eq b w id order) by done. by intros [= <- <- <-].
Qed.

(** Each operation commutes with setting the Merkle flag. *)
Lemma evictExpired_merkle v now (b : Buffer W) w :
  evictExpired now (SetVerifyMerkle v b) w =
    (SetVerifyMerkle v (evictExpired now b w).1, (evictExpired now b w).2).
Proof. by rewrite !evictExpired_survivors. Qed.

Lemma complete_merkle v s (b : Buffer W) w :
  complete s (SetVerifyMerkle v b) w =
    (SetVerifyMerkle v (complete s b w).1, (complete s b w).2).
Proof.
  unfold complete. cbn [verifyHash onHashMismatch SetVerifyMerkle].
  destruct (_ =? FrameVerV4); [by destruct (onCompleteBlock b) eqn:E; simpl; rewrite E|].
  destruct (_ =? FrameVerV5); [by destruct (onCompleteSubtree b) eqn:E; simpl; rewrite E|].
  destruct (_ && _); [done|]. by destruct (onComplete b) eqn:E; simpl; rewrite E.
Qed.

Lemma add_fragment_merkle v ff s (b : Buffer W) w :
  add_fragment ff s (SetVerifyMerkle v b) w =
    (SetVerifyMerkle v (add_fragment ff s b w).1, (add_fragment ff s b w).2).
Proof.
  unfold add_fragment. repeat (case_match; simplify_eq/=; try done).
  apply (complete_merkle v _ (with_slots b _ _) w).
Qed.

Lemma open_slot_merkle v now ff (b : Buffer W) w :
  open_slot now ff (SetVerifyMerkle v b) w =
    ('(s, b', w') ← open_slot now ff b w; Some (s, SetVerifyMerkle v b', w')).
Proof. unfold open_slot, evictOldest. simpl. by repeat (case_match; simplify_eq/=). Qed.

Lemma Observe_merkle v now ff (b : Buffer W) w :
  Observe now ff (SetVerifyMerkle v b) w =
    (SetVerifyMerkle v (Observe now ff b w).1, (Observe now ff b w).2).
Proof.
  unfold Observe. rewrite evictExpired_merkle.
  destruct (evictExpired now b w) as [b1 w1]. simpl.
  destruct (slots b1 !! ff_TxID ff); [apply add_fragment_merkle|].
  rewrite open_slot_merkle.
  destruct (open_slot now ff b1 w1) as [[[s b2] w2]|]; simpl; [apply add_fragment_merkle|done].
Qed.

(** The Merkle flag is inert: no operation consults it, so a buffer with
    [SetVerifyMerkle] on and one with it off do the same thing on every input. *)
Theorem verify_merkle_is_inert (b : Buffer W) ops w v :
  run ops (SetVerifyMerkle v b) w =
    (SetVerifyMerkle v (run ops b w).1, (run ops b w).2).
Proof.
  revert b w. unfold run. induction ops as [|o ops IH]; intros b w; [done|]. simpl.
  assert (run_op (SetVerifyMerkle v b, w) o =
    (SetVerifyMerkle v (run_op (b, w) o).1, (run_op (b, w) o).2)) as ->.
  { destruct o; [apply Observe_merkle|apply evictExpired_merkle|done]. }
  destruct (run_op (b, w) o) as [b' w']. apply IH.
Qed.
End Invariant.

(** ** The log of a buffer *)

Inductive Event :=
| Delivered (payload : bytes) (f : Frame)
| DeliveredBlock (payload : bytes) (bf : BlockFrame)
| DeliveredSubtree (payload : bytes) (sf : SubtreeDataFrame)
| Abandoned
| Started
| HashMismatch.

Definition log_hook (e : Event) : Hook (W := list Event) := fun w => w ++ [e].

(** [New] followed by the setters of main.go, with callbacks that log. *)
Definition log_buffer (m t : Z) (v : bool) : Buffer (list Event) :=
  SetSubtreeDataCallback (fun p sf w => w ++ [DeliveredSubtree p sf])
  (SetBlockCallback (fun p bf w => w ++ [DeliveredBlock p bf])
  (SetHashMismatchHook (log_hook HashMismatch)
  (SetAbandonedHook (log_hook Abandoned)
  (SetStartedHook (log_hook Started)
  (New m t v (Some (fun p f w => w ++ [Delivered p f]))))))).

(** The transaction an event delivers. *)
Definition delivers (e : Event) : option bytes :=
  match e with
  | Delivered _ f => Some (TxID f)
  | DeliveredBlock _ bf => Some (bf_ContentID bf)
  | DeliveredSubtree _ sf => Some (sf_SubtreeID sf)
  | _ => None
  end.

Section Log.
Context `{FL : FrameLib} (m t : Z) (v : bool).

Abbreviation logging := (same_config (log_buffer m t v)).

Definition verified (e : Event) : Prop :=
  match e with Delivered p f => sha256d p = TxID f /\ Payload f = p | _ => True end.

(** The fields of a logging buffer that [complete] reads. *)
Lemma logging_fields b :
  logging b ->
  onComplete b = Some (fun p f w => w ++ [Delivered p f]) /\
  onCompleteBlock b = Some (fun p bf w => w ++ [DeliveredBlock p bf]) /\
  onCompleteSubtree b = Some (fun p sf w => w ++ [DeliveredSubtree p sf]) /\
  onHashMismatch b = Some (log_hook HashMismatch) /\ verifyHash b = v.
Proof. intros Hc. rewrite Hc. split_and!; reflexivity. Qed.

(** [complete] on a logging buffer: which event is logged. *)
Lemma complete_logs s b w :
  logging b ->
  let p := assemble (frags s) in
  complete s b w =
    (removeSlot (txID s) b,
     w ++ [if origFrameVer s =? FrameVerV4 then
             DeliveredBlock p (mkBlockFrame (msgType s) (txID s) (hashKey s) (seqNum s) p)
           else if origFrameVer s =? FrameVerV5 then
             DeliveredSubtree p (mkSubtreeDataFrame (msgType s) (txID s) (hashKey s) (seqNum s) p)
           else if v && negb (bool_decide (sha256d p = txID s)) then HashMismatch
           else Delivered p (mkFrame FrameVerV2 (txID s) (hashKey s) (seqNum s) (subtreeID s) p)]).
Proof.
  intros (H1 & H2 & H3 & H4 & H5)%logging_fields. unfold complete.
  cbn [removeSlot with_slots onComplete onCompleteBlock onCompleteSubtree].
  rewrite H1, H2, H3, H4, H5.
  destruct (_ =? FrameVerV4); [reflexivity|]. destruct (_ =? FrameVerV5); [reflexivity|].
  destruct (_ && _); reflexivity.
Qed.

Lemma complete_verified s b w :
  logging b -> verifyHash b = true -> Forall verified w ->
  Forall verified (complete s b w).2.
Proof.
  intros Hc Hv Hw. rewrite complete_logs by done. cbn [snd].
  apply Forall_app. split; [done|]. apply Forall_singleton.
  destruct (_ =? FrameVerV4); [done|]. destruct (_ =? FrameVerV5); [done|].
  destruct (_ && _) eqn:E; [done|].
  destruct (logging_fields b Hc) as (_ & _ & _ & _ & Hvb). rewrite <- Hvb, Hv in E.
  apply negb_false_iff, bool_decide_eq_true in E. done.
Qed.

(** C14: with hash verification on, no run delivers a data payload whose double
    SHA-256 is not the TxID it is delivered under; mismatches are only counted. *)
Theorem delivered_payloads_are_verified ops :
  Forall op_ok ops -> v = true ->
  Forall verified (run ops (log_buffer m t v) []).2.
Proof.
  intros Hops Hv.
  apply (run_ind (fun bw => buf_ok bw.1 /\ logging bw.1 /\ Forall verified bw.2)).
  - split_and!; [|done|constructor]. pose proof (New_buf_ok (W := list Event) m t v None) as H.
    destruct H. by split.
  - intros b w o Hin (Hok & Hc & Hw). cbn [fst snd] in *.
    assert (op_ok o) as Ho by (by eapply Forall_forall in Hops).
    split_and!; [by apply run_op_ok|eapply same_config_trans; [done|apply run_op_config]|].
    assert (forall e w, verified e -> Forall verified w -> Forall verified (log_hook e w)) as Hlog.
    { intros e w' He Hw'. apply Forall_app. split; [done|by constructor]. }
    assert (forall w, Forall verified w -> Forall verified (call (onAbandoned b) w)) as Hab
      by (intros w' ?; rewrite Hc; by apply Hlog).
    destruct o; simpl in *.
    + apply Observe_w_pres; try done.
      * intros w' ?. rewrite Hc. by apply Hlog.
      * intros s b' w' Hbb _ _ Hw'. apply complete_verified; [by eapply same_config_trans| |done].
        rewrite Hbb, Hc. done.
    + by apply evictExpired_w_pres.
    + by apply call_iter_pres.
Qed.

(** ** Delivery *)

Definition of_tx (T : bytes) (w : list Event) : list Event :=
  filter (fun e => delivers e = Some T) w.

Lemma of_tx_app T w1 w2 : of_tx T (w1 ++ w2) = of_tx T w1 ++ of_tx T w2.
Proof. apply filter_app. Qed.

Lemma of_tx_hook T e w : delivers e = None -> of_tx T (log_hook e w) = of_tx T w.
Proof.
  intros He. unfold log_hook. rewrite of_tx_app. unfold of_tx at 2.
  rewrite filter_cons_False by (by rewrite He). by rewrite app_nil_r.
Qed.

Lemma complete_of_other_tx T s b w :
  logging b -> txID s <> T -> of_tx T (complete s b w).2 = of_tx T w.
Proof.
  intros Hc Hne. rewrite complete_logs by done. cbn [snd].
  rewrite of_tx_app. unfold of_tx at 2. rewrite filter_cons_False; [by rewrite app_nil_r|].
  destruct (_ =? FrameVerV4); [simpl; congruence|].
  destruct (_ =? FrameVerV5); [simpl; congruence|].
  destruct (_ && _); simpl; congruence.
Qed.

Section Message.
Context (T : bytes) (pieces : list bytes).

Definition K : Z := Z.of_nat (length pieces).

(** The fragments of [T] carry the pieces of one message. *)
Definition fragment_of (ff : FragFrame) : Prop :=
  ff_TxID ff = T ->
  ff_FragTotal ff = K /\ pieces !! Z.to_nat (ff_FragIndex ff) = Some (ff_FragData ff) /\
  bad_metadata ff = false.

Abbreviation obs := (Z * FragFrame)%type.
Definition mine (l : list obs) : list obs := filter (fun o => ff_TxID o.2 = T) l.
Definition indices (l : list obs) : list nat :=
  (fun o : obs => Z.to_nat (ff_FragIndex o.2)) <$> mine l.
Definition ops_of (l : list obs) : list Op := (fun o : obs => OObserve o.1 o.2) <$> l.

(** The fragment table after the indices [l] arrived. *)
Definition table (l : list nat) : list (option bytes) :=
  imap (fun i d => if decide (i ∈ l) then Some d else None) pieces.

Definition slot_after (ttl_ : Z) (o : obs) (l : list nat) : slot :=
  {| txID := T; subtreeID := ff_SubtreeID o.2; hashKey := ff_HashKey o.2;
     seqNum := ff_SeqNum o.2; origPayloadLen := ff_OrigPayloadLen o.2; fragTotal := K;
     received := Z.of_nat (count_some (table l)); frags := table l;
     deadline := o.1 + ttl_; origFrameVer := ff_OrigFrameVer o.2; msgType := ff_MsgType o.2 |}.

Lemma table_lookup l i :
  table l !! i = (fun d => if decide (i ∈ l) then Some d else None) <$> pieces !! i.
Proof. apply list_lookup_imap. Qed.

Lemma length_table l : length (table l) = length pieces.
Proof. apply length_imap. Qed.

Lemma table_snoc l i d :
  pieces !! i = Some d -> <[i := Some d]> (table l) = table (l ++ [i]).
Proof.
  intros Hd. apply list_eq. intros j. rewrite table_lookup.
  destruct (decide (j = i)) as [->|Hne].
  - rewrite list_lookup_insert_eq by (rewrite length_table; by eapply lookup_lt_Some).
    rewrite Hd. simpl. rewrite decide_True; [done|]. set_solver.
  - rewrite list_lookup_insert_ne by done. rewrite table_lookup.
    destruct (pieces !! j); simpl; [|done]. f_equal.
    apply decide_ext. set_solver.
Qed.

Lemma table_same l i : i ∈ l -> table (l ++ [i]) = table l.
Proof.
  intros Hi. apply list_eq. intros j. rewrite !table_lookup.
  destruct (pieces !! j); simpl; [|done]. f_equal.
  apply decide_ext. set_solver.
Qed.

Lemma table_nil : table [] = replicate (length pieces) None.
Proof.
  apply list_eq. intros i. rewrite table_lookup.
  destruct (pieces !! i) eqn:E; cbn [fmap option_fmap option_map].
  - rewrite decide_False by set_solver.
    symmetry. apply lookup_replicate. split; [done|]. by eapply lookup_lt_Some.
  - symmetry. apply lookup_ge_None. rewrite length_replicate. by apply lookup_ge_None.
Qed.

Lemma table_full l :
  (forall i, (i < length pieces)%nat -> i ∈ l) -> table l = Some <$> pieces.
Proof.
  intros H. apply list_eq. intros i. rewrite table_lookup, list_lookup_fmap.
  destruct (pieces !! i) eqn:E; cbn [fmap option_fmap option_map]; [|done]. rewrite decide_True; [done|].
  apply H. by eapply lookup_lt_Some.
Qed.

Lemma assemble_full : assemble (Some <$> pieces) = mjoin pieces.
Proof. unfold assemble. f_equal. induction pieces; simpl; [done|]. by f_equal. Qed.

Lemma mine_snoc_in l o : ff_TxID o.2 = T -> mine (l ++ [o]) = mine l ++ [o].
Proof. intros H. unfold mine. by rewrite filter_app, filter_cons_True. Qed.

Lemma mine_snoc_out l o : ff_TxID o.2 <> T -> mine (l ++ [o]) = mine l.
Proof. intros H. unfold mine. rewrite filter_app, filter_cons_False by done. apply app_nil_r. Qed.

Lemma indices_snoc l o :
  ff_TxID o.2 = T -> indices (l ++ [o]) = indices l ++ [Z.to_nat (ff_FragIndex o.2)].
Proof. intros H. unfold indices. by rewrite mine_snoc_in, fmap_app. Qed.

(** ** One fragment of the message *)

Lemma add_fragment_table {W} ff o l (b : Buffer W) (w : W) :
  ff_TxID ff = T -> fragment_of ff -> frag_ok ff -> K < 65536 ->
  add_fragment ff (slot_after (ttl b) o l) b w =
    let i := Z.to_nat (ff_FragIndex ff) in
    if decide (i ∈ l) then (b, w)
    else
      let s := slot_after (ttl b) o (l ++ [i]) in
      let b' := with_slots b (<[T := s]> (slots b)) (insertOrder b) in
      if received s <? K then (b', w) else complete s b' w.
Proof.
  intros HT Hof (Hi & _) HK. destruct (Hof HT) as (Htot & Hp & _).
  pose proof (lookup_lt_Some _ _ _ Hp) as Hlt.
  unfold add_fragment. rewrite Htot. simpl.
  rewrite Z.eqb_refl. cbn [negb orb].
  rewrite (proj2 (Z.leb_gt _ _)) by (unfold K; lia).
  rewrite table_lookup, Hp. simpl. destruct (decide _) as [|Hnew]; [done|].
  assert (table l !! Z.to_nat (ff_FragIndex ff) = Some None) as Hnone.
  { rewrite table_lookup, Hp. simpl. by rewrite decide_False. }
  assert (u16 (Z.of_nat (count_some (table l)) + 1) =
          Z.of_nat (count_some (table (l ++ [Z.to_nat (ff_FragIndex ff)])))) as Hrec.
  { rewrite <- (table_snoc l _ _ Hp), count_some_insert by done.
    pose proof (count_some_lt _ _ Hnone) as Hc. rewrite length_table in Hc.
    rewrite u16_id by (unfold K in HK; lia). lia. }
  assert (store_frag (Z.to_nat (ff_FragIndex ff)) (ff_FragData ff) (slot_after (ttl b) o l) =
          slot_after (ttl b) o (l ++ [Z.to_nat (ff_FragIndex ff)])) as ->.
  { unfold store_frag, slot_after. simpl. by rewrite table_snoc, Hrec. }
  by rewrite HT, Hrec.
Qed.

(** The fragment that brings the last missing piece completes the slot. *)
Lemma add_fragment_last {W} ff o l (b : Buffer W) (w : W) :
  let i := Z.to_nat (ff_FragIndex ff) in
  ff_TxID ff = T -> fragment_of ff -> frag_ok ff -> K < 65536 -> i ∉ l ->
  (forall j, (j < length pieces)%nat -> j ∈ l ++ [i]) ->
  let s := slot_after (ttl b) o (l ++ [i]) in
  add_fragment ff (slot_after (ttl b) o l) b w =
    complete s (with_slots b (<[T := s]> (slots b)) (insertOrder b)) w.
Proof.
  cbn zeta. intros HT Hof Hff HK Hnew Hall. rewrite add_fragment_table by done. cbn zeta.
  rewrite decide_False by done. rewrite (proj2 (Z.ltb_ge _ _)); [done|].
  simpl. rewrite table_full, count_some_full by done || (intros i x Hx;
    apply list_lookup_fmap_Some in Hx as (? & -> & _); eauto).
  by rewrite length_fmap.
Qed.

(** The first fragment of the message, from which the slot takes its metadata. *)
Definition first_of (l : list obs) (o : obs) : obs :=
  match mine l with [] => o | o1 :: _ => o1 end.

Lemma mine_first l o :
  ff_TxID o.2 = T -> exists rest, mine (l ++ [o]) = first_of l o :: rest.
Proof.
  intros HT. rewrite mine_snoc_in by done. unfold first_of. destruct (mine l); simpl; eauto.
Qed.

Record tracking (b0 : Buffer (list Event)) (w0 : list Event) (l : list obs)
    (b : Buffer (list Event)) (w : list Event) : Prop := {
  tr_ok : buf_ok b;
  tr_log : logging b;
  tr_slot : slots b !! T =
    match mine l with [] => None | o1 :: _ => Some (slot_after (ttl b) o1 (indices l)) end;
  tr_size : (size (slots b) <= size (slots b0) + length l)%nat;
  tr_tx : of_tx T w = of_tx T w0;
}.

(** What one observation of the run may assume: typed, in time, of the message,
    and with room left in the buffer. *)
Record timely (t0 : Z) (b0 : Buffer (list Event)) (l : list obs) (o : obs) : Prop := {
  ti_frag : frag_ok o.2;
  ti_of : fragment_of o.2;
  ti_time : t0 <= o.1 <= t0 + ttl (log_buffer m t v);
  ti_room : Z.of_nat (size (slots b0) + length l) < maxSlots (log_buffer m t v);
  ti_past : Forall (fun o' : obs => t0 <= o'.1) l;
}.

Lemma mine_first_time t0 l o1 l' :
  Forall (fun o' : obs => t0 <= o'.1) l -> mine l = o1 :: l' -> t0 <= o1.1.
Proof.
  intros Hf Hm. assert (o1 ∈ mine l) as Hin by (rewrite Hm; by left).
  unfold mine in Hin. apply list_elem_of_filter in Hin as [_ Hin].
  by eapply Forall_forall in Hf.
Qed.

Lemma unexpired_tracked t0 b0 w0 l o b w :
  tracking b0 w0 l b w -> timely t0 b0 l o -> unexpired o.1 (slots b) !! T = slots b !! T.
Proof.
  intros Ht Hti. unfold unexpired. rewrite (tr_slot _ _ _ _ _ Ht).
  destruct (mine l) as [|o1 l'] eqn:Hm.
  - apply map_lookup_filter_None. left. by rewrite (tr_slot _ _ _ _ _ Ht), Hm.
  - apply map_lookup_filter_Some. split; [by rewrite (tr_slot _ _ _ _ _ Ht), Hm|].
    simpl. pose proof (mine_first_time _ _ _ _ (ti_past _ _ _ _ Hti) Hm).
    pose proof (ti_time _ _ _ _ Hti) as Htime.
    rewrite (tr_log _ _ _ _ _ Ht). simpl in *. lia.
Qed.

Lemma of_tx_call_abandoned b w : logging b -> of_tx T (call (onAbandoned b) w) = of_tx T w.
Proof. intros Hc. rewrite Hc. by apply of_tx_hook. Qed.

Lemma of_tx_call_started b w : logging b -> of_tx T (call (onStarted b) w) = of_tx T w.
Proof. intros Hc. rewrite Hc. by apply of_tx_hook. Qed.

(** The expiry pass at the start of [Observe] keeps track of the message. *)
Lemma tracking_evict t0 b0 w0 l o b w :
  tracking b0 w0 l b w -> timely t0 b0 l o ->
  let bw1 := evictExpired o.1 b w in
  tracking b0 w0 l bw1.1 bw1.2 /\ order_live bw1.1.
Proof.
  intros Ht Hti. pose proof (tr_ok _ _ _ _ _ Ht) as Hok.
  pose proof (tr_log _ _ _ _ _ Ht) as Hlog.
  pose proof (evictExpired_ok o.1 b w Hok) as [Hok1 Hl1].
  pose proof (evictExpired_w_pres (fun w => of_tx T w = of_tx T w0) o.1 b w) as Hw.
  rewrite evictExpired_eq in * by done. simpl in *. split; [|done]. split; simpl; try done.
  - by apply same_config_with_slots.
  - rewrite (unexpired_tracked t0 b0 w0 l o b w) by done. apply (tr_slot _ _ _ _ _ Ht).
  - pose proof (unexpired_size o.1 (slots b)). pose proof (tr_size _ _ _ _ _ Ht). lia.
  - apply Hw; [|apply (tr_tx _ _ _ _ _ Ht)]. intros w' ?. by rewrite of_tx_call_abandoned.
Qed.

Lemma tracking_room t0 b0 w0 l o b w :
  tracking b0 w0 l b w -> timely t0 b0 l o -> Z.of_nat (size (slots b)) < maxSlots b.
Proof.
  intros Ht Hti. rewrite (tr_log _ _ _ _ _ Ht). simpl.
  pose proof (tr_size _ _ _ _ _ Ht). pose proof (ti_room _ _ _ _ Hti). simpl in *. lia.
Qed.

Lemma fresh_slot_table now t_ ff :
  ff_TxID ff = T -> ff_FragTotal ff = K -> fresh_slot now t_ ff = slot_after t_ (now, ff) [].
Proof.
  intros HT Htot. unfold fresh_slot, slot_after. simpl.
  rewrite table_nil, count_some_replicate, HT, Htot. f_equal. unfold K. by rewrite Nat2Z.id.
Qed.

(** Whether or not the slot exists already, a fragment of the message reaches
    the slot of the message. *)
Lemma Observe_reaches_slot t0 b0 w0 l o b w :
  tracking b0 w0 l b w -> timely t0 b0 l o -> ff_TxID o.2 = T ->
  exists b1 w1,
    Observe o.1 o.2 b w = add_fragment o.2 (slot_after (ttl b1) (first_of l o) (indices l)) b1 w1 /\
    buf_ok b1 /\ logging b1 /\
    slots b1 !! T = Some (slot_after (ttl b1) (first_of l o) (indices l)) /\
    (size (slots b1) <= size (slots b0) + S (length l))%nat /\ of_tx T w1 = of_tx T w0.
Proof.
  intros Ht Hti HT. destruct (tracking_evict _ _ _ _ _ _ _ Ht Hti) as [Ht1 Hl1].
  unfold Observe. destruct (evictExpired o.1 b w) as [b1 w1]. cbn [fst snd] in *.
  pose proof (tracking_room _ _ _ _ _ _ _ Ht1 Hti) as Hroom.
  pose proof (tr_slot _ _ _ _ _ Ht1) as Hs. destruct Ht1 as [Hok1 Hlog1 _ Hsz Hw1].
  rewrite HT. unfold first_of, indices in *. revert Hs. destruct (mine l) as [|o1 l']; intros Hs.
  - destruct (ti_of _ _ _ _ Hti HT) as (Htot & _ & Hbad). rewrite Hs.
    destruct (open_slot_ok o.1 o.2 b1 w1 _ _ _ Hok1 Hl1 ltac:(by rewrite HT) (ti_frag _ _ _ _ Hti)
      (open_slot_below _ _ _ _ Hbad Hroom)) as (Hok2 & Hs2 & _).
    rewrite (open_slot_below _ _ _ _ Hbad Hroom), fresh_slot_table in * by done.
    rewrite HT in Hok2, Hs2 |- *.
    exists (with_slots b1 (<[T := slot_after (ttl b1) (o.1, o.2) []]> (slots b1))
             (insertOrder b1 ++ [T])), (call (onStarted b1) w1).
    split; [reflexivity|].
    split_and!; [done| |done| |].
    + by apply same_config_with_slots.
    + simpl. rewrite map_size_insert_None by done. lia.
    + by rewrite of_tx_call_started.
  - rewrite Hs. exists b1, w1. split_and!; try done. lia.
Qed.

Lemma logging_ttl (b : Buffer (list Event)) : logging b -> ttl b = ttl (log_buffer m t v).
Proof. intros Hc. by rewrite Hc. Qed.

Lemma tracking_other t0 b0 w0 l o b w :
  tracking b0 w0 l b w -> timely t0 b0 l o -> ff_TxID o.2 <> T ->
  tracking b0 w0 (l ++ [o]) (Observe o.1 o.2 b w).1 (Observe o.1 o.2 b w).2.
Proof.
  intros Ht Hti HT. pose proof (tracking_room _ _ _ _ _ _ _ Ht Hti) as Hroom.
  pose proof (unexpired_tracked _ _ _ _ _ _ _ Ht Hti) as Hun.
  destruct Ht as [Hok Hlog Hslot Hsz Htx]. pose proof (ti_frag _ _ _ _ Hti) as Hff.
  pose proof (same_config_trans _ _ _ Hlog (Observe_config o.1 o.2 b w)) as Hlog'.
  split; [by apply Observe_ok|done| | |].
  - rewrite Observe_other, Hun, Hslot by done. unfold indices.
    rewrite mine_snoc_out by done. by rewrite (logging_ttl b), (logging_ttl _ Hlog').
  - pose proof (Observe_size o.1 o.2 b w Hok Hff Hroom). rewrite length_app. simpl. lia.
  - apply (Observe_w_pres (fun w => of_tx T w = of_tx T w0)); try done.
    + intros w' ?. by rewrite of_tx_call_abandoned.
    + intros w' ?. by rewrite of_tx_call_started.
    + intros s b' w' Hb Hid ?. rewrite complete_of_other_tx; [done| |by rewrite Hid].
      by apply (same_config_trans _ b).
Qed.

Lemma count_table_lt l i :
  (i < length pieces)%nat -> i ∉ l -> Z.of_nat (count_some (table l)) < K.
Proof.
  intros Hi Hn. destruct (lookup_lt_is_Some_2 _ _ Hi) as [d Hd].
  assert (table l !! i = Some None) as H.
  { rewrite table_lookup, Hd. simpl. by rewrite decide_False. }
  apply count_some_lt in H. rewrite length_table in H. unfold K. lia.
Qed.

Lemma tracking_mine t0 b0 w0 l o b w i :
  tracking b0 w0 l b w -> timely t0 b0 l o -> ff_TxID o.2 = T -> K < 65536 ->
  (i < length pieces)%nat -> i ∉ indices (l ++ [o]) ->
  tracking b0 w0 (l ++ [o]) (Observe o.1 o.2 b w).1 (Observe o.1 o.2 b w).2.
Proof.
  intros Ht Hti HT HK Hi Hni.
  destruct (Observe_reaches_slot _ _ _ _ _ _ _ Ht Hti HT)
    as (b1 & w1 & -> & Hok1 & Hlog1 & Hs1 & Hsz1 & Hw1).
  assert (buf_ok (add_fragment o.2 (slot_after (ttl b1) (first_of l o) (indices l)) b1 w1).1)
    as Hok2 by (apply add_fragment_ok; [done|by rewrite HT|apply (ti_frag _ _ _ _ Hti)]).
  destruct (mine_first l o HT) as [rest Hrest].
  rewrite indices_snoc in Hni by done.
  rewrite add_fragment_table in * by (done || apply (ti_of _ _ _ _ Hti) || apply (ti_frag _ _ _ _ Hti)).
  cbn zeta in *. destruct (decide _) as [Hin|Hin].
  - split; try done; simpl; rewrite ?length_app; simpl; try lia.
    rewrite Hrest, Hs1, indices_snoc by done. unfold slot_after.
    by rewrite (table_same (indices l)) by done.
  - revert Hok2. simpl. rewrite (proj2 (Z.ltb_lt _ _)) by (by apply (count_table_lt _ i)).
    intros Hok2. split; try done; simpl.
    + by apply same_config_with_slots.
    + by rewrite Hrest, indices_snoc, lookup_insert_eq by done.
    + rewrite map_size_insert_Some by eauto. rewrite length_app. simpl. lia.
Qed.

(** What the owner is told when the message with first fragment [ff] is complete. *)
Definition delivery (ff : FragFrame) (p : bytes) : Event :=
  if ff_OrigFrameVer ff =? FrameVerV4 then
    DeliveredBlock p (mkBlockFrame (ff_MsgType ff) T (ff_HashKey ff) (ff_SeqNum ff) p)
  else if ff_OrigFrameVer ff =? FrameVerV5 then
    DeliveredSubtree p (mkSubtreeDataFrame (ff_MsgType ff) T (ff_HashKey ff) (ff_SeqNum ff) p)
  else
    Delivered p (mkFrame FrameVerV2 T (ff_HashKey ff) (ff_SeqNum ff) (ff_SubtreeID ff) p).

Lemma delivers_delivery ff p : delivers (delivery ff p) = Some T.
Proof. unfold delivery. by repeat case_match. Qed.

Lemma complete_full o l b w :
  logging b -> (forall i, (i < length pieces)%nat -> i ∈ l) ->
  (v = true -> ff_OrigFrameVer o.2 <> FrameVerV4 -> ff_OrigFrameVer o.2 <> FrameVerV5 ->
   sha256d (mjoin pieces) = T) ->
  complete (slot_after (ttl b) o l) b w =
    (with_slots b (delete T (slots b)) (insertOrder b), w ++ [delivery o.2 (mjoin pieces)]).
Proof.
  intros Hlog Hall Hv. rewrite complete_logs by done. unfold delivery.
  cbn [slot_after frags txID msgType hashKey seqNum subtreeID origFrameVer].
  rewrite table_full, assemble_full by done.
  destruct (Z.eqb_spec (ff_OrigFrameVer o.2) FrameVerV4); [reflexivity|].
  destruct (Z.eqb_spec (ff_OrigFrameVer o.2) FrameVerV5); [reflexivity|].
  destruct v; [|reflexivity]. rewrite bool_decide_eq_true_2 by auto. reflexivity.
Qed.

(** What a run of observations may assume, taken together. *)
Record timely_run (t0 : Z) (b0 : Buffer (list Event)) (l : list obs) : Prop := {
  tr_frags : Forall (fun o : obs => frag_ok o.2 /\ fragment_of o.2) l;
  tr_times : Forall (fun o : obs => t0 <= o.1 <= t0 + ttl (log_buffer m t v)) l;
  tr_room : Z.of_nat (size (slots b0) + length l) <= maxSlots (log_buffer m t v);
}.

Lemma timely_run_snoc t0 b0 l o :
  timely_run t0 b0 (l ++ [o]) -> timely_run t0 b0 l /\ timely t0 b0 l o.
Proof.
  intros [Hf Ht Hr]. apply Forall_app in Hf as [Hf Hfo]. apply Forall_app in Ht as [Ht Hto].
  rewrite Forall_singleton in Hfo, Hto. destruct Hfo. rewrite length_app in Hr. cbn [length] in Hr.
  split; split; try done; try lia.
  eapply Forall_impl; [exact Ht|]. intros ? [? _]. done.
Qed.

Lemma run_snoc (l : list obs) o (b : Buffer (list Event)) w :
  run (ops_of (l ++ [o])) b w =
    Observe o.1 o.2 (run (ops_of l) b w).1 (run (ops_of l) b w).2.
Proof. unfold run, ops_of. by rewrite fmap_app, foldl_app. Qed.

Lemma tracking_run t0 b0 w0 l i :
  buf_ok b0 -> logging b0 -> slots b0 !! T = None -> timely_run t0 b0 l -> K < 65536 ->
  (i < length pieces)%nat -> i ∉ indices l ->
  tracking b0 w0 l (run (ops_of l) b0 w0).1 (run (ops_of l) b0 w0).2.
Proof.
  intros Hok Hlog Hnone. induction l as [|o l IH] using rev_ind; intros Hrun HK Hi Hni.
  - split; simpl; try done; lia.
  - destruct (timely_run_snoc _ _ _ _ Hrun) as [Hrun' Hti]. rewrite run_snoc.
    destruct (decide (ff_TxID o.2 = T)) as [HT|HT].
    + eapply tracking_mine; try done. apply IH; try done.
      rewrite indices_snoc in Hni by done. set_solver.
    + apply (tracking_other t0); try done. apply IH; try done.
      unfold indices in *. by rewrite mine_snoc_out in Hni.
Qed.

(** C7: fragments may arrive in any order, duplicated, and interleaved with the
    fragments of other transactions: as long as they arrive within the TTL and
    the buffer does not fill up, the owner is told nothing about the
    transaction before the last missing fragment, and on it exactly once, with
    the original payload under the metadata of the first fragment; the slot is
    then gone. *)
Theorem message_delivered_once t0 b0 w0 l o :
  buf_ok b0 -> logging b0 -> slots b0 !! T = None ->
  timely_run t0 b0 (l ++ [o]) -> K < 65536 ->
  ff_TxID o.2 = T -> Z.to_nat (ff_FragIndex o.2) ∉ indices l ->
  (forall i, (i < length pieces)%nat -> i ∈ indices (l ++ [o])) ->
  (v = true -> ff_OrigFrameVer (first_of l o).2 <> FrameVerV4 ->
   ff_OrigFrameVer (first_of l o).2 <> FrameVerV5 -> sha256d (mjoin pieces) = T) ->
  let before := run (ops_of l) b0 w0 in
  let after := run (ops_of (l ++ [o])) b0 w0 in
  of_tx T before.2 = of_tx T w0 /\
  of_tx T after.2 = of_tx T w0 ++ [delivery (first_of l o).2 (mjoin pieces)] /\
  slots after.1 !! T = None.
Proof.
  intros Hok Hlog Hnone Hrun HK HT Hnew Hall Hv before after.
  destruct (timely_run_snoc _ _ _ _ Hrun) as [Hrun' Hti].
  pose proof (ti_frag _ _ _ _ Hti) as Hff.
  destruct (ti_of _ _ _ _ Hti HT) as (_ & Hp & _).
  pose proof (tracking_run t0 b0 w0 l _ Hok Hlog Hnone Hrun' HK (lookup_lt_Some _ _ _ Hp) Hnew) as Ht.
  split; [apply (tr_tx _ _ _ _ _ Ht)|].
  destruct (Observe_reaches_slot _ _ _ _ _ _ _ Ht Hti HT)
    as (b1 & w1 & Hobs & Hok1 & Hlog1 & Hs1 & Hsz1 & Hw1).
  subst after. rewrite run_snoc, Hobs.
  rewrite indices_snoc in Hall by done.
  rewrite add_fragment_last by (done || apply (ti_of _ _ _ _ Hti)).
  set (b2 := with_slots b1 _ _).
  replace (ttl b1) with (ttl b2) by done.
  rewrite (complete_full _ _ b2) by (done || by apply same_config_with_slots). simpl.
  rewrite of_tx_app, Hw1, lookup_delete_eq. split; [|done]. f_equal.
  unfold of_tx. rewrite filter_cons_True by apply delivers_delivery. done.
Qed.
End Message.
End Log.

(** ** Admission *)

(** Which typed fragments open a slot: the index below the total, and a
    declared length that is positive, not the uint32 maximum (whose successor
    wraps to 0 in the guard) and at least the number of fragments minus one. *)
Theorem fragment_admitted_iff `{FL : FrameLib} {W} now ff (b : Buffer W) w :
  frag_ok ff ->
  is_Some (open_slot now ff b w) <->
  ff_FragIndex ff < ff_FragTotal ff /\ 0 < ff_OrigPayloadLen ff < 2 ^ 32 - 1 /\
  ff_FragTotal ff <= ff_OrigPayloadLen ff + 1.
Proof.
  intros (Hi & Ht & Hl & _).
  assert (is_Some (open_slot now ff b w) <-> bad_metadata ff = false) as ->.
  { unfold open_slot. destruct (bad_metadata ff).
    - split; [intros [? [=]]|done].
    - split; [done|]. destruct (if maxSlots b <=? _ then _ else _). eauto. }
  unfold bad_metadata. destruct (decide (ff_OrigPayloadLen ff = 2 ^ 32 - 1)) as [He|He].
  - rewrite He. change (u32 (2 ^ 32 - 1 + 1)) with 0. split; [|lia]. zcases.
  - rewrite u32_id by lia. split; [|zcases].
    intros H. repeat apply orb_false_elim in H as [H ?]. revert H. zcases.
Qed.

(** ** Witnesses: a three-byte message in two fragments *)

Module Witness.
Definition msg_T : bytes := sha256d [97; 98; 99].
Definition msg_pieces : list bytes := [[97; 98]; [99]].
Definition frag (tx : bytes) (i : Z) (d : bytes) : FragFrame :=
  mkFragFrame tx (zeros 32) 0xAABB (i + 1) 3 i 2 2 0 d.
Definition other_T : bytes := zeros 32.
Definition stream : list (Z * FragFrame) :=
  [(0, frag msg_T 1 [99]); (5, frag other_T 0 [1; 2]); (7, frag msg_T 1 [99])].
Definition last : Z * FragFrame := (9, frag msg_T 0 [97; 98]).
Definition b0 : Buffer (list Event) := log_buffer 4 Second true.
End Witness.

(** Closes the typing side conditions of a concrete run. *)
Ltac typed := rewrite ?Forall_cons, ?Forall_nil; unfold frag_ok; simpl; split_and?; done || lia.

Lemma b0_ok : buf_ok Witness.b0.
Proof. destruct (New_buf_ok (W := list Event) 4 Second true None). by split. Qed.

Lemma buffer_invariant_witness :
  let ops := ops_of (Witness.stream ++ [Witness.last]) ++ [OTick 3; OPurge] in
  Z.of_nat (Len (run ops (New 4 Second true None) ([] : list Event)).1) <= 4.
Proof.
  apply (buffer_invariant (ops_of (Witness.stream ++ [Witness.last]) ++ [OTick 3; OPurge])
           4 Second true None ([] : list Event)).
  simpl. typed.
Defined.

Lemma tick_evicts_expired_witness :
  let b := (run (ops_of [(0, Witness.frag Witness.other_T 1 [99])]) Witness.b0 []).1 in
  slots b <> ∅ /\ (Tick (Second + 1) b []).2 = [Abandoned].
Proof.
  split; [by vm_compute|].
  assert (buf_ok (run (ops_of [(0, Witness.frag Witness.other_T 1 [99])]) Witness.b0 []).1) as Hok.
  { apply run_op_ok; [apply b0_ok|]. simpl. typed. }
  rewrite (proj1 (proj2 (tick_evicts_expired _ (Second + 1) [] Hok))). by vm_compute.
Defined.

Lemma capacity_evicts_oldest_witness :
  let b := (run (ops_of [(0, Witness.frag Witness.other_T 1 [99])]) (log_buffer 1 Second true) []).1 in
  exists s b' w', open_slot 1 (Witness.frag [7] 0 [1]) b [] = Some (s, b', w') /\
    insertOrder b' = [[7]] /\ w' = [Abandoned; Started].
Proof.
  assert (buf_ok (log_buffer 1 Second true)) as H0.
  { destruct (New_buf_ok (W := list Event) 1 Second true None). by split. }
  assert (buf_ok (run (ops_of [(0, Witness.frag Witness.other_T 1 [99])])
    (log_buffer 1 Second true) []).1) as Hok.
  { apply run_op_ok; [done|]. simpl. typed. }
  eexists _, _, _. split; [by vm_compute|].
  refine (let H := capacity_evicts_oldest _ 1 (Witness.frag [7] 0 [1]) [] Witness.other_T []
    _ _ _ Hok _ _ _ _ _ in conj (proj1 (proj2 H)) (proj2 (proj2 H))); try by vm_compute.
  intros id Hid. vm_compute in Hid. apply list_elem_of_In in Hid as [<-|[]]. vm_compute. eauto.
Defined.

Lemma delivered_payloads_are_verified_witness :
  Forall verified
    (run (ops_of (Witness.stream ++ [Witness.last])) (log_buffer 4 Second true) []).2.
Proof.
  apply (delivered_payloads_are_verified 4 Second true).
  - simpl. typed.
  - done.
Defined.

(** The expected delivery, evaluated. *)
Definition expected : Event :=
  Delivered [97; 98; 99] (mkFrame 2 Witness.msg_T 0xAABB 2 (zeros 32) [97; 98; 99]).

Lemma message_delivered_once_witness :
  of_tx Witness.msg_T (run (ops_of Witness.stream) Witness.b0 []).2 = [] /\
  of_tx Witness.msg_T (run (ops_of (Witness.stream ++ [Witness.last])) Witness.b0 []).2 =
    [expected].
Proof.
  assert (timely_run 4 Second true Witness.msg_T Witness.msg_pieces 0 Witness.b0
            (Witness.stream ++ [Witness.last])) as Hrun.
  { assert (forall i d, 0 <= i < 2 -> Witness.msg_pieces !! Z.to_nat i = Some d ->
      frag_ok (Witness.frag Witness.msg_T i d) /\
      fragment_of Witness.msg_T Witness.msg_pieces (Witness.frag Witness.msg_T i d)) as Hmine.
    { intros i d Hi Hd. split; [unfold frag_ok; cbn; lia|]. intros _. split; [reflexivity|].
      split; [exact Hd|]. unfold bad_metadata. cbn. rewrite (proj2 (Z.leb_gt _ _)) by lia.
      reflexivity. }
    split; [|simpl; typed|vm_compute; discriminate].
    apply Forall_cons; split; [apply Hmine; [lia|reflexivity]|].
    apply Forall_cons; split.
    { split; [unfold frag_ok; cbn; lia|]. intros H. vm_compute in H. discriminate H. }
    apply Forall_cons; split; [apply Hmine; [lia|reflexivity]|].
    apply Forall_singleton. apply Hmine; [lia|reflexivity]. }
  assert (forall i, (i < length Witness.msg_pieces)%nat ->
            i ∈ indices Witness.msg_T (Witness.stream ++ [Witness.last])) as Hall.
  { intros i Hi. destruct i as [|[|i]]; [| |simpl in Hi; lia];
      apply (bool_decide_unpack _); vm_compute; exact I. }
  assert (Z.to_nat (ff_FragIndex Witness.last.2) ∉ indices Witness.msg_T Witness.stream) as Hnew
    by (apply (bool_decide_unpack _); vm_compute; exact I).
  assert (slots Witness.b0 !! Witness.msg_T = None) as Hnone by reflexivity.
  assert (sha256d (mjoin Witness.msg_pieces) = Witness.msg_T) as Hsha by (vm_compute; reflexivity).
  assert (K Witness.msg_pieces < 65536) as HK by (vm_compute; reflexivity).
  pose proof (message_delivered_once 4 Second true Witness.msg_T Witness.msg_pieces 0
    Witness.b0 [] Witness.stream Witness.last b0_ok (same_config_refl _) Hnone Hrun HK
    eq_refl Hnew Hall (fun _ _ _ => Hsha)) as (H1 & H2 & _).
  split; [exact H1|]. rewrite H2. vm_compute. reflexivity.
Defined.

(** A fragment that declares the largest length is refused, whatever else it
    carries; one that declares a length of one for two fragments is let in. *)
Lemma fragment_admitted_iff_witness :
  ~ is_Some (open_slot 1 (mkFragFrame [7] (zeros 32) 0 1 (2 ^ 32 - 1) 0 1 2 0 [5])
               (log_buffer 1 Second true) []) /\
  is_Some (open_slot 1 (mkFragFrame [7] (zeros 32) 0 1 1 0 2 2 0 [5])
             (log_buffer 1 Second true) []).
Proof.
  split.
  - intros H. apply fragment_admitted_iff in H; [|unfold frag_ok; cbn; lia]. cbn in H. lia.
  - apply fragment_admitted_iff; [unfold frag_ok; cbn; lia|]. cbn. lia.
Defined.
