(* ===== verification/Dedup.v ===== *)
(** The egress duplicate suppressor of [dedup/dedup.go]: a map of expiry times
    and a ring of inserted keys, with the two contracts it has: it implements a
    bounded first-in-first-out memory when expiry is off, and with expiry it
    never reports a key that was not offered within the TTL. *)
From Stdlib Require Import ZArith Lia.
From S2P Require Import Prelude.

(** [Key]. *)
Record Key := mkKey { GroupIdx : Z; KSubtreeID : bytes; KSeqNum : Z }.

#[export] Instance Key_eq_dec : EqDecision Key.
Proof. solve_decision. Defined.

#[export] Instance Key_countable : Countable Key.
Proof.
  apply (inj_countable' (fun k => (GroupIdx k, KSubtreeID k, KSeqNum k))
           (fun p => mkKey p.1.1 p.1.2 p.2)).
  by intros [].
Defined.

(** The zero value of [Key], which [make([]Key, capacity)] fills the ring with. *)
Definition zeroKey : Key := mkKey 0 (zeros 32) 0.

#[export] Instance Key_inhabited : Inhabited Key := populate zeroKey.

(** [Set]; the mutex makes each method one step. *)
Record DSet := mkSet {
  capacity : Z;
  ttl : Z;
  entries : gmap Key Z;
  ring : list Key;
  head : Z;
  count : Z;
}.

Definition New (capacity_ ttl_ : Z) : DSet :=
  if capacity_ <=? 0 then mkSet 0 0 ∅ [] 0 0
  else mkSet capacity_ ttl_ ∅ (replicate (Z.to_nat capacity_) zeroKey) 0 0.

(** The expiry computed at the top of [SeenAndAdd]; int64 arithmetic. *)
Definition expiry_at (ttl_ now : Z) : Z := if 0 <? ttl_ then i64 (now + ttl_) else now.

(** The TTL an expiry stands for: a key offered at [t0] is remembered until
    [t0 + ttl], inclusive, in int64 arithmetic; a TTL that is not positive means
    for ever. *)
Lemma expiry_runs t t0 now :
  t <= 0 \/ now <= expiry_at t t0 <-> t <= 0 \/ now <= i64 (t0 + t).
Proof. unfold expiry_at. destruct (Z.ltb_spec 0 t); [done|]. lia. Qed.

(** The insertion part of [SeenAndAdd], after the lookup fell through. *)
Definition insert_key (s : DSet) (expiry : Z) (key : Key) : DSet :=
  let '(entries', count') :=
    if count s =? capacity s
    then (delete (ring s !!! Z.to_nat (head s)) (entries s), count s)
    else (entries s, count s + 1) in
  {| capacity := capacity s; ttl := ttl s;
     entries := <[key := expiry]> entries';
     ring := <[Z.to_nat (head s) := key]> (ring s);
     head := (head s + 1) `mod` capacity s;
     count := count' |}.

Definition SeenAndAdd (now : Z) (key : Key) (s : DSet) : bool * DSet :=
  if capacity s =? 0 then (false, s)
  else
    let expiry := expiry_at (ttl s) now in
    match entries s !! key with
    | Some exp =>
        if (ttl s <=? 0) || (now <=? exp)
        then (true, {| capacity := capacity s; ttl := ttl s;
                       entries := <[key := expiry]> (entries s);
                       ring := ring s; head := head s; count := count s |})
        else (false, insert_key s expiry key)
    | None => (false, insert_key s expiry key)
    end.

Definition Len (s : DSet) : Z := count s.

(** Calls in the order the mutex serialises them: the answers and the state. *)
Fixpoint calls (tr : list (Z * Key)) (s : DSet) : list bool * DSet :=
  match tr with
  | [] => ([], s)
  | (now, k) :: tr' =>
      let '(r, s1) := SeenAndAdd now k s in
      let '(rs, s2) := calls tr' s1 in (r :: rs, s2)
  end.

(** ** Well-formed sets *)

(** The keys of the ring, oldest first. *)
Definition window (s : DSet) : list Key :=
  if count s =? capacity s
  then drop (Z.to_nat (head s)) (ring s) ++ take (Z.to_nat (head s)) (ring s)
  else take (Z.to_nat (count s)) (ring s).

Record set_ok (s : DSet) : Prop := {
  so_cap : 0 < capacity s;
  so_ring : length (ring s) = Z.to_nat (capacity s);
  so_head : 0 <= head s < capacity s;
  so_count : 0 <= count s <= capacity s;
  so_filling : count s < capacity s -> head s = count s;
  so_keys : forall k, is_Some (entries s !! k) -> k ∈ window s;
}.

Lemma New_set_ok c t : 0 < c -> set_ok (New c t).
Proof.
  intros Hc. unfold New. rewrite (proj2 (Z.leb_gt _ _)) by lia.
  split; simpl; try lia.
  - by rewrite length_replicate.
  - intros k Hk. by apply lookup_empty_is_Some in Hk.
Qed.

(** The window after an insertion: the new key at the end, the oldest gone when
    the ring was full. *)
Definition slide (full : bool) (w : list Key) (k : Key) : list Key :=
  (if full then tail w else w) ++ [k].

Lemma rotate_insert (l : list Key) (h : nat) k :
  (h < length l)%nat ->
  let l' := <[h := k]> l in
  drop (S h) l' ++ take (S h) l' = tail (drop h l ++ take h l) ++ [k].
Proof.
  intros Hh l'. destruct (lookup_lt_is_Some_2 l h Hh) as [x Hx].
  subst l'. rewrite drop_insert_lt by lia.
  rewrite (take_S_r _ _ k) by (by apply list_lookup_insert_eq).
  rewrite take_insert_ge by lia. rewrite (drop_S l x h) by done. simpl.
  by rewrite app_assoc.
Qed.

Lemma succ_mod h c : 0 <= h < c -> (h + 1) `mod` c = if h + 1 =? c then 0 else h + 1.
Proof.
  intros. destruct (Z.eqb_spec (h + 1) c) as [->|].
  - apply Z.mod_same. lia.
  - apply Z.mod_small. lia.
Qed.

Lemma window_insert s e k :
  set_ok s -> window (insert_key s e k) = slide (count s =? capacity s) (window s) k.
Proof.
  intros [Hc Hr Hh Hn Hf _]. unfold insert_key, window, slide.
  destruct (Z.eqb_spec (count s) (capacity s)) as [He|Hne]; simpl.
  - rewrite He, Z.eqb_refl, succ_mod by lia.
    rewrite <- rotate_insert by lia.
    destruct (Z.eqb_spec (head s + 1) (capacity s)) as [Hw|].
    + change (Z.to_nat 0) with 0%nat. rewrite drop_0, take_0, app_nil_r.
      by rewrite drop_ge, take_ge by (rewrite length_insert; lia).
    + by replace (Z.to_nat (head s + 1)) with (S (Z.to_nat (head s))) by lia.
  - assert (head s = count s) as Hhd by (apply Hf; lia). rewrite Hhd, succ_mod by lia.
    assert (Z.to_nat (count s + 1) = S (Z.to_nat (count s))) as Hs by lia.
    assert (take (S (Z.to_nat (count s))) (<[Z.to_nat (count s):=k]> (ring s)) =
            take (Z.to_nat (count s)) (ring s) ++ [k]) as Ht.
    { rewrite (take_S_r _ _ k) by (apply list_lookup_insert_eq; lia).
      by rewrite take_insert_ge by lia. }
    destruct (Z.eqb_spec (count s + 1) (capacity s)).
    + simpl. rewrite drop_0, take_0, app_nil_r, <- Ht.
      symmetry. apply take_ge. rewrite length_insert. lia.
    + by rewrite Hs.
Qed.

Lemma length_window s : set_ok s -> length (window s) = Z.to_nat (count s).
Proof.
  intros [Hc Hr Hh Hn Hf _]. unfold window. destruct (Z.eqb_spec (count s) (capacity s)).
  - rewrite length_app, length_drop, length_take. lia.
  - rewrite length_take. lia.
Qed.

(** In a full ring the slot about to be overwritten holds the oldest key. *)
Lemma window_head s :
  set_ok s -> count s = capacity s ->
  exists w, window s = (ring s !!! Z.to_nat (head s)) :: w.
Proof.
  intros [Hc Hr Hh Hn Hf _] He. unfold window. rewrite He, Z.eqb_refl.
  destruct (lookup_lt_is_Some_2 (ring s) (Z.to_nat (head s))) as [x Hx]; [lia|].
  rewrite (list_lookup_total_correct _ _ _ Hx), (drop_S _ _ _ Hx). simpl. eauto.
Qed.

Lemma insert_key_entries s e k k' :
  entries (insert_key s e k) !! k' =
    if decide (k = k') then Some e
    else if (count s =? capacity s) && bool_decide (ring s !!! Z.to_nat (head s) = k')
         then None else entries s !! k'.
Proof.
  unfold insert_key. destruct (count s =? capacity s); simpl.
  - rewrite lookup_insert, lookup_delete.
    destruct (decide (k = k')); [done|].
    destruct (decide (ring s !!! Z.to_nat (head s) = k')).
    + by rewrite bool_decide_eq_true_2.
    + by rewrite bool_decide_eq_false_2.
  - by rewrite lookup_insert.
Qed.

Lemma insert_key_ok s e k : set_ok s -> set_ok (insert_key s e k).
Proof.
  intros Hok. pose proof Hok as [Hc Hr Hh Hn Hf Hk].
  pose proof (Z.mod_pos_bound (head s + 1) (capacity s)) as Hm.
  assert (capacity (insert_key s e k) = capacity s /\
          ring (insert_key s e k) = <[Z.to_nat (head s) := k]> (ring s) /\
          head (insert_key s e k) = (head s + 1) `mod` capacity s /\
          count (insert_key s e k) = if count s =? capacity s then count s else count s + 1)
    as (E1 & E2 & E3 & E4) by (unfold insert_key; destruct (count s =? capacity s); done).
  split; rewrite ?E1, ?E2, ?E3, ?E4; try done; try lia.
  - by rewrite length_insert.
  - zcases.
  - destruct (Z.eqb_spec (count s) (capacity s)); [lia|]. intros Hlt.
    rewrite Hf by lia. apply Z.mod_small. lia.
  - intros k' Hk'. rewrite window_insert by done. rewrite insert_key_entries in Hk'.
    apply elem_of_app. rewrite list_elem_of_singleton.
    destruct (decide (k = k')) as [->|Hne]; [by right|left].
    destruct (Z.eqb_spec (count s) (capacity s)) as [He|]; cbn [andb] in Hk'; [|by apply Hk].
    destruct (bool_decide _) eqn:Hb; [by destruct Hk' as [? [=]]|].
    apply bool_decide_eq_false in Hb. apply Hk in Hk'.
    destruct (window_head s Hok He) as [w Hw]. rewrite Hw in Hk' |- *. simpl.
    apply elem_of_cons in Hk' as [->|]; done.
Qed.

(** The refresh of a duplicate only changes an expiry. *)
Definition refresh (s : DSet) (expiry : Z) (key : Key) : DSet :=
  {| capacity := capacity s; ttl := ttl s; entries := <[key := expiry]> (entries s);
     ring := ring s; head := head s; count := count s |}.

Lemma refresh_ok s e k : set_ok s -> is_Some (entries s !! k) -> set_ok (refresh s e k).
Proof.
  intros [Hc Hr Hh Hn Hf Hk] Hs. split; simpl; try done.
  intros k'. unfold window. simpl. fold (window s).
  destruct (decide (k = k')) as [->|]; [intros _; by apply Hk|].
  rewrite lookup_insert_ne by done. apply Hk.
Qed.

(** The two outcomes of a call on an enabled set. *)
Lemma SeenAndAdd_cases now k s :
  0 < capacity s ->
  (exists exp, entries s !! k = Some exp /\ (ttl s <= 0 \/ now <= exp) /\
     SeenAndAdd now k s = (true, refresh s (expiry_at (ttl s) now) k)) \/
  ((forall exp, entries s !! k = Some exp -> 0 < ttl s /\ exp < now) /\
     SeenAndAdd now k s = (false, insert_key s (expiry_at (ttl s) now) k)).
Proof.
  intros Hc. unfold SeenAndAdd. rewrite (proj2 (Z.eqb_neq _ _)) by lia.
  destruct (entries s !! k) as [exp|]; [|by right].
  destruct (Z.leb_spec (ttl s) 0), (Z.leb_spec now exp); cbn [orb]; [left|left|left|right];
    try (exists exp; by auto). split; [|done]. intros ? [= <-]. lia.
Qed.

Lemma SeenAndAdd_ok now k s : set_ok s -> set_ok (SeenAndAdd now k s).2.
Proof.
  intros Hok.
  destruct (SeenAndAdd_cases now k s (so_cap s Hok)) as [(exp & He & _ & ->)|[_ ->]].
  - apply refresh_ok; [done|by eexists].
  - by apply insert_key_ok.
Qed.

Lemma SeenAndAdd_config now k s :
  capacity (SeenAndAdd now k s).2 = capacity s /\ ttl (SeenAndAdd now k s).2 = ttl s.
Proof.
  unfold SeenAndAdd, insert_key.
  destruct (capacity s =? 0); [done|].
  destruct (entries s !! k); [destruct (_ || _)|]; try done; destruct (count s =? capacity s); done.
Qed.

Lemma calls_snoc tr now k s :
  calls (tr ++ [(now, k)]) s =
    let r := SeenAndAdd now k (calls tr s).2 in ((calls tr s).1 ++ [r.1], r.2).
Proof.
  revert s. induction tr as [|[now' k'] tr IH]; intros s; simpl.
  - by destruct (SeenAndAdd now k s).
  - destruct (SeenAndAdd now' k' s) as [r s1]. rewrite IH. by destruct (calls tr s1).
Qed.

Lemma calls_app tr1 tr2 s : (calls (tr1 ++ tr2) s).2 = (calls tr2 (calls tr1 s).2).2.
Proof.
  revert s. induction tr1 as [|[now k] tr1 IH]; intros s; [done|]. cbn [app calls].
  destruct (SeenAndAdd now k s) as [r s1]. specialize (IH s1).
  destruct (calls (tr1 ++ tr2) s1), (calls tr1 s1). exact IH.
Qed.

Lemma calls_config tr s :
  capacity (calls tr s).2 = capacity s /\ ttl (calls tr s).2 = ttl s.
Proof.
  revert s. induction tr as [|[now k] tr IH]; intros s; [done|]. cbn [calls].
  destruct (SeenAndAdd_config now k s) as [<- <-]. destruct (SeenAndAdd now k s) as [r s1].
  specialize (IH s1). by destruct (calls tr s1).
Qed.

Lemma calls_ok tr c t :
  0 < c ->
  let s := (calls tr (New c t)).2 in
  set_ok s /\ capacity s = c /\ ttl s = t.
Proof.
  intros Hc. induction tr as [|[now k] tr IH] using rev_ind.
  - split; [by apply New_set_ok|]. unfold New. simpl. by rewrite (proj2 (Z.leb_gt _ _)) by lia.
  - rewrite calls_snoc. simpl in *. destruct IH as (Hok & E1 & E2).
    destruct (SeenAndAdd_config now k (calls tr (New c t)).2) as [-> ->].
    split; [by apply SeenAndAdd_ok|done].
Qed.

Lemma size_list_to_set_le (l : list Key) :
  (size (list_to_set l : gset Key) <= length l)%nat.
Proof.
  induction l as [|k l IH]; [done|].
  change (list_to_set (k :: l)) with ({[k]} ∪ list_to_set l : gset Key).
  rewrite size_union_alt, size_singleton. simpl.
  assert (size ((list_to_set l : gset Key) ∖ {[k]}) <= size (list_to_set l : gset Key))%nat
    by (apply subseteq_size; set_solver).
  lia.
Qed.

(** Bounded memory. Whatever is offered, a set never remembers more keys
    than its capacity, and [Len] is at most the capacity. *)
Theorem dedup_bounded tr c t :
  0 < c ->
  let s := (calls tr (New c t)).2 in
  set_ok s /\ Z.of_nat (size (entries s)) <= Len s <= c.
Proof.
  intros Hc. cbn zeta. destruct (calls_ok tr c t Hc) as (Hok & Hcap & _).
  set (s := (calls tr (New c t)).2) in *. split; [done|].
  pose proof (so_count s Hok). unfold Len. split; [|lia].
  assert (size (dom (entries s)) <= length (window s))%nat as Hsz.
  { assert (dom (entries s) ⊆ list_to_set (window s)) as Hsub.
    { intros k Hk. apply elem_of_list_to_set. by apply (so_keys s Hok), elem_of_dom. }
    etrans; [apply subseteq_size, Hsub|apply size_list_to_set_le]. }
  rewrite size_dom, (length_window s Hok) in Hsz. lia.
Qed.

(** ** The first-in-first-out memory it implements when expiry is off *)

Definition fifo_offer (cap : nat) (k : Key) (q : list Key) : bool * list Key :=
  if decide (k ∈ q) then (true, q)
  else (false, slide (length q =? cap)%nat q k).

Fixpoint fifo_calls (cap : nat) (ks : list Key) (q : list Key) : list bool * list Key :=
  match ks with
  | [] => ([], q)
  | k :: ks' =>
      let '(r, q1) := fifo_offer cap k q in
      let '(rs, q2) := fifo_calls cap ks' q1 in (r :: rs, q2)
  end.

(** The relation between the two: the window is the queue. *)
Record refines (s : DSet) (q : list Key) : Prop := {
  rf_ok : set_ok s;
  rf_ttl : ttl s <= 0;
  rf_window : window s = q;
  rf_keys : forall k, k ∈ q -> is_Some (entries s !! k);
  rf_nodup : NoDup q;
}.

Lemma offer_simulation now k s q :
  refines s q ->
  (SeenAndAdd now k s).1 = (fifo_offer (Z.to_nat (capacity s)) k q).1 /\
  refines (SeenAndAdd now k s).2 (fifo_offer (Z.to_nat (capacity s)) k q).2.
Proof.
  intros [Hok Ht Hw Hk Hnd]. unfold fifo_offer.
  destruct (SeenAndAdd_config now k s) as [_ Httl].
  pose proof (SeenAndAdd_ok now k s Hok) as Hok'.
  destruct (SeenAndAdd_cases now k s (so_cap s Hok)) as [(exp & He & _ & E)|[Hn E]];
    rewrite E in *; cbn [fst snd] in *.
  - assert (k ∈ q) as Hin by (rewrite <- Hw; apply (so_keys s Hok); by eexists).
    rewrite decide_True by done. split; [done|]. split; try done.
    intros k' Hk'. simpl. apply lookup_insert_is_Some'. right. by apply Hk.
  - assert (k ∉ q) as Hnin.
    { intros Hin. destruct (Hk k Hin) as [e He]. apply Hn in He. lia. }
    rewrite decide_False by done. split; [done|].
    assert (slide (count s =? capacity s) q k =
            slide (length q =? Z.to_nat (capacity s))%nat q k) as Hs.
    { f_equal. rewrite <- Hw, (length_window s Hok). pose proof (so_count s Hok).
      pose proof (so_cap s Hok). zcases; symmetry; [apply Nat.eqb_eq|apply Nat.eqb_neq]; lia. }
    simpl. rewrite <- Hs. split; try done; [by lia|by rewrite window_insert, Hw| |].
    + intros k' Hk'. rewrite insert_key_entries. case_decide; [by eexists|].
      unfold slide in Hk'. apply elem_of_app in Hk' as [Hk'|Hk'];
        [|apply list_elem_of_singleton in Hk'; congruence].
      destruct (Z.eqb_spec (count s) (capacity s)) as [Hf|]; cbn [andb]; [|by apply Hk].
      destruct (window_head s Hok Hf) as [w Hhd]. rewrite Hw in Hhd. rewrite Hhd in Hk', Hnd.
      apply NoDup_cons in Hnd as [Hnin' _]. simpl in Hk'.
      rewrite bool_decide_eq_false_2 by (intros E'; apply Hnin'; by rewrite E').
      apply Hk. rewrite Hhd. by right.
    + unfold slide. apply NoDup_app. split_and!; [| |apply NoDup_singleton].
      * destruct (count s =? capacity s); [|done]. destruct q; [done|].
        by apply NoDup_cons in Hnd as [_ ?].
      * intros x Hx ->%list_elem_of_singleton. apply Hnin.
        destruct (count s =? capacity s); [|done]. destruct q; [done|]. by right.
Qed.

Lemma New_refines c t : 0 < c -> t <= 0 -> refines (New c t) [].
Proof.
  intros Hc Ht. pose proof (New_set_ok c t Hc) as Hok.
  assert (length (window (New c t)) = 0%nat) as Hw.
  { rewrite length_window by done. unfold New. by rewrite (proj2 (Z.leb_gt _ _)) by lia. }
  split; [done| |by apply nil_length_inv| |constructor].
  - unfold New. by rewrite (proj2 (Z.leb_gt _ _)) by lia.
  - intros k Hk. by apply elem_of_nil in Hk.
Qed.

Lemma calls_simulation tr s q :
  refines s q ->
  (calls tr s).1 = (fifo_calls (Z.to_nat (capacity s)) tr.*2 q).1 /\
  refines (calls tr s).2 (fifo_calls (Z.to_nat (capacity s)) tr.*2 q).2.
Proof.
  revert s q. induction tr as [|[now k] tr IH]; intros s q Href; [by split|].
  destruct (offer_simulation now k s q Href) as [Ha Href'].
  destruct (SeenAndAdd_config now k s) as [Hcap _].
  cbn [calls fmap list_fmap fifo_calls snd].
  destruct (SeenAndAdd now k s) as [r s1].
  destruct (fifo_offer (Z.to_nat (capacity s)) k q) as [r' q1].
  cbn [fst snd] in *. subst r'. specialize (IH s1 q1 Href'). rewrite Hcap in IH.
  destruct (calls tr s1), (fifo_calls _ _ q1). cbn [fst snd] in *.
  destruct IH as [-> IH]. done.
Qed.

(** C15: with expiry off ([ttl <= 0]) the map-and-ring set is a bounded
    first-in-first-out memory: whatever the calls and the clock, its answers
    are those of a queue of at most [capacity] distinct keys that drops its
    oldest key, and the ring holds that queue. *)
Theorem dedup_refines_fifo tr c t :
  0 < c -> t <= 0 ->
  let spec := fifo_calls (Z.to_nat c) tr.*2 [] in
  (calls tr (New c t)).1 = spec.1 /\
  window (calls tr (New c t)).2 = spec.2 /\ NoDup spec.2 /\
  (forall k, is_Some (entries (calls tr (New c t)).2 !! k) <-> k ∈ spec.2).
Proof.
  intros Hc Ht. cbn zeta.
  destruct (calls_simulation tr _ _ (New_refines c t Hc Ht)) as [Ha Href].
  destruct (calls_ok [] c t Hc) as (_ & Hcap & _). simpl in Hcap. rewrite Hcap in *.
  destruct Href as [Hok _ Hw Hk Hnd]. split; [done|]. split; [done|]. split; [done|].
  intros k. split; [rewrite <- Hw; apply (so_keys _ Hok)|apply Hk].
Qed.

(** ** What it answers when expiry is on *)

(** The time of the last call on [k]. *)
Definition last_call (k : Key) (tr : list (Z * Key)) : option Z :=
  fst <$> last (filter (fun c => c.2 = k) tr).

Lemma last_call_snoc k tr now k' :
  last_call k (tr ++ [(now, k')]) = if decide (k' = k) then Some now else last_call k tr.
Proof.
  unfold last_call. rewrite filter_app, filter_cons, filter_nil. simpl. case_decide.
  - by rewrite last_snoc.
  - by rewrite app_nil_r.
Qed.

(** A remembered key carries the expiry of the last call that offered it. *)
Lemma entries_last_call tr c t :
  0 < c ->
  forall k e, entries (calls tr (New c t)).2 !! k = Some e ->
  exists t0, last_call k tr = Some t0 /\ e = expiry_at t t0.
Proof.
  intros Hc. induction tr as [|[now k'] tr IH] using rev_ind; intros k e.
  - unfold New. rewrite (proj2 (Z.leb_gt _ _)) by lia. simpl. by rewrite lookup_empty.
  - rewrite calls_snoc, last_call_snoc. cbn [snd].
    destruct (calls_ok tr c t Hc) as (Hok & _ & Httl).
    destruct (SeenAndAdd_cases now k' _ (so_cap _ Hok)) as [(exp & _ & _ & ->)|[_ ->]];
      rewrite Httl; cbn [snd].
    + simpl. rewrite lookup_insert. case_decide; [|apply IH].
      intros [= <-]. by exists now.
    + rewrite insert_key_entries. case_decide; [intros [= <-]; by exists now|].
      destruct (_ && _); [done|apply IH].
Qed.

(** C16: no false duplicates. When [SeenAndAdd] answers true at [now], the key was
    offered before, and with a positive TTL at most that TTL has passed since the
    last time it was: [now] is not past [t0 + ttl] (int64 nanoseconds). *)
Theorem dedup_sound tr c t now k :
  0 < c ->
  (SeenAndAdd now k (calls tr (New c t)).2).1 = true ->
  exists t0, last_call k tr = Some t0 /\ (t <= 0 \/ now <= i64 (t0 + t)).
Proof.
  intros Hc Hr. destruct (calls_ok tr c t Hc) as (Hok & _ & Httl).
  destruct (SeenAndAdd_cases now k _ (so_cap _ Hok)) as [(exp & He & Hexp & E)|[_ E]].
  - destruct (entries_last_call tr c t Hc k exp He) as (t0 & Hl & ->).
    rewrite Httl, expiry_runs in Hexp. eauto.
  - by rewrite E in Hr.
Qed.

Lemma window_calls tr c t k :
  0 < c -> k ∈ window (calls tr (New c t)).2 -> k ∈ tr.*2.
Proof.
  intros Hc. induction tr as [|[now k'] tr IH] using rev_ind.
  - intros Hk. apply list_elem_of_lookup_1 in Hk as [i Hi]. apply lookup_lt_Some in Hi.
    rewrite length_window in Hi by (by apply New_set_ok). unfold New in Hi.
    rewrite (proj2 (Z.leb_gt _ _)) in Hi by lia. simpl in Hi. lia.
  - rewrite calls_snoc, fmap_app, elem_of_app. cbn [snd].
    destruct (calls_ok tr c t Hc) as (Hok & _ & _).
    destruct (SeenAndAdd_cases now k' _ (so_cap _ Hok)) as [(exp & _ & _ & ->)|[_ ->]];
      cbn [snd].
    + intros Hk. left. by apply IH.
    + rewrite window_insert by done. unfold slide. rewrite elem_of_app.
      intros [Hk|Hk]; [left|by right]. apply IH. destruct (_ =? _); [|done].
      destruct (window _); [done|by right].
Qed.

(** Where a freshly inserted key sits: one copy, [n] insertions from the end. *)
Record remembered (s : DSet) (k : Key) (e : Z) (n : nat) : Prop := {
  rm_entry : entries s !! k = Some e;
  rm_window : exists w1 w2, window s = w1 ++ k :: w2 /\ k ∉ w1 /\ k ∉ w2 /\ length w2 = n;
}.

Lemma remembered_step s k e n now k' :
  set_ok s -> remembered s k e n -> k' <> k ->
  let r := SeenAndAdd now k' s in
  (r.1 = false -> Z.of_nat (S n) < capacity s) ->
  remembered r.2 k e (if r.1 then n else S n).
Proof.
  intros Hok [He (w1 & w2 & Hw & Hk1 & Hk2 & Hn)] Hne. cbn zeta.
  destruct (SeenAndAdd_cases now k' s (so_cap s Hok)) as [(exp & _ & _ & ->)|[_ ->]];
    cbn [fst snd]; intros Hlt.
  - split; [|by exists w1, w2]. simpl. by rewrite lookup_insert_ne.
  - specialize (Hlt eq_refl).
    pose proof (length_window s Hok) as Hlen. rewrite Hw, length_app in Hlen. simpl in Hlen.
    split.
    + rewrite insert_key_entries, decide_False by done.
      destruct (Z.eqb_spec (count s) (capacity s)) as [Hf|]; [|done]. cbn [andb].
      destruct (window_head s Hok Hf) as [w Hhd].
      destruct w1 as [|x w1]; [simpl in Hlen; lia|]. rewrite Hw in Hhd.
      injection Hhd as <- _. rewrite bool_decide_eq_false_2; [done|].
      intros ->. apply Hk1. by left.
    + rewrite window_insert, Hw by done. unfold slide.
      exists (if count s =? capacity s then tail w1 else w1), (w2 ++ [k']).
      split_and!.
      * destruct (Z.eqb_spec (count s) (capacity s)); [|by rewrite <- app_assoc].
        destruct w1; [simpl in Hlen; lia|]. simpl. by rewrite <- app_assoc.
      * destruct (count s =? capacity s); [|done].
        destruct w1; [done|]. intros ?. apply Hk1. by right.
      * rewrite elem_of_app, list_elem_of_singleton. intros [?|?]; congruence.
      * rewrite length_app. simpl. lia.
Qed.

Definition misses (rs : list bool) : nat := length (filter (fun r => r = false) rs).

Lemma misses_cons r rs : misses (r :: rs) = ((if r then 0 else 1) + misses rs)%nat.
Proof. unfold misses. rewrite filter_cons. by destruct r. Qed.

(** Offered again in time, a remembered key is a duplicate and gets a new expiry. *)
Lemma remembered_again s k e n now :
  0 < capacity s -> remembered s k e n -> ttl s <= 0 \/ now <= e ->
  (SeenAndAdd now k s).1 = true /\
  remembered (SeenAndAdd now k s).2 k (expiry_at (ttl s) now) n.
Proof.
  intros Hc [He (w1 & w2 & Hw & Hk)] Ht.
  destruct (SeenAndAdd_cases now k s Hc) as [(exp & _ & _ & ->)|[Hno _]].
  - split; [done|]. split; [by apply lookup_insert_eq|by exists w1, w2].
  - apply Hno in He. lia.
Qed.

(** The calls on [k] come in time: not after [lo], and they leave an expiry not
    before it. *)
Definition in_time (k : Key) (t lo : Z) (d : Z * Key) : Prop :=
  d.2 = k -> t <= 0 \/ d.1 <= lo <= i64 (d.1 + t).

Definition miss (r : bool) : nat := if r then 0 else 1.

Lemma remembered_next s k e n lo d :
  set_ok s -> remembered s k e n -> ttl s <= 0 \/ lo <= e -> in_time k (ttl s) lo d ->
  let q := SeenAndAdd d.1 d.2 s in
  (d.2 <> k -> q.1 = false -> Z.of_nat (S n) < capacity s) ->
  (d.2 = k -> q.1 = true) /\
  exists e', remembered q.2 k e' (n + miss q.1) /\ (ttl s <= 0 \/ lo <= e').
Proof.
  intros Hok Hr Hlo Hin q Hlt. destruct d as [now k']. cbn [fst snd] in *.
  destruct (decide (k' = k)) as [->|Hne].
  - destruct (Hin eq_refl) as [Ht|Ht];
      (destruct (remembered_again s k e n now (so_cap s Hok) Hr) as [Ha Hr1]; [simpl in Ht; lia|]);
      fold q in Ha, Hr1; rewrite Ha; (split; [done|]); simpl; rewrite Nat.add_0_r;
      eexists; (split; [exact Hr1|]); [by left|].
    unfold expiry_at. simpl in Ht. destruct (Z.ltb_spec 0 (ttl s)); lia.
  - split; [done|]. exists e. split; [|done].
    replace (n + miss q.1)%nat with (if q.1 then n else S n) by (destruct q.1; simpl; lia).
    by apply (remembered_step s k e n now k' Hok Hr Hne); auto.
Qed.

(** A key stays remembered through calls that insert few other keys. *)
Lemma remembered_calls tr s k e n lo :
  set_ok s -> remembered s k e n -> ttl s <= 0 \/ lo <= e ->
  Forall (in_time k (ttl s) lo) tr ->
  Z.of_nat (n + misses (calls tr s).1) < capacity s ->
  exists e', remembered (calls tr s).2 k e' (n + misses (calls tr s).1) /\
             (ttl s <= 0 \/ lo <= e').
Proof.
  revert s e n. induction tr as [|[now k'] tr IH]; intros s e n Hok Hr Hlo Hin Hlt.
  { exists e. simpl. by rewrite Nat.add_0_r. }
  apply Forall_cons in Hin as [Hin1 Hin].
  pose proof (SeenAndAdd_ok now k' s Hok) as Hok1.
  destruct (SeenAndAdd_config now k' s) as [Hcap Httl].
  pose proof (remembered_next s k e n lo (now, k') Hok Hr Hlo Hin1) as Hn. cbn [fst snd] in Hn.
  cbn [calls] in *. destruct (SeenAndAdd now k' s) as [r s1]. cbn [fst snd] in *.
  destruct (calls tr s1) as [rs s2] eqn:E. cbn [fst snd] in *. rewrite misses_cons in *.
  destruct Hn as (_ & e1 & Hr1 & Hlo1); [intros _ ->; simpl in Hlt; lia|].
  specialize (IH s1 e1 (n + miss r)%nat). rewrite E, Hcap, Httl in IH. cbn [fst snd] in IH.
  unfold miss in IH. rewrite <- Nat.add_assoc in IH. by apply IH.
Qed.

(** Only calls on other keys insert, so there are at most as many insertions. *)
Lemma misses_others tr s k e n lo :
  set_ok s -> remembered s k e n -> ttl s <= 0 \/ lo <= e ->
  Forall (in_time k (ttl s) lo) tr ->
  Z.of_nat (n + length (filter (fun d => d.2 <> k) tr)) < capacity s ->
  (misses (calls tr s).1 <= length (filter (fun d => d.2 <> k) tr))%nat.
Proof.
  revert s e n. induction tr as [|[now k'] tr IH]; intros s e n Hok Hr Hlo Hin Hlt; [done|].
  apply Forall_cons in Hin as [Hin1 Hin]. rewrite filter_cons in *.
  pose proof (SeenAndAdd_ok now k' s Hok) as Hok1.
  destruct (SeenAndAdd_config now k' s) as [Hcap Httl].
  pose proof (remembered_next s k e n lo (now, k') Hok Hr Hlo Hin1) as Hn. cbn [fst snd] in Hn.
  cbn [calls]. destruct (SeenAndAdd now k' s) as [r s1]. cbn [fst snd] in *.
  destruct Hn as (Ht & e1 & Hr1 & Hlo1).
  { intros Hne _. rewrite decide_True in Hlt by done. simpl in Hlt. lia. }
  specialize (IH s1 e1 (n + miss r)%nat). rewrite Hcap, Httl in IH.
  destruct (calls tr s1) as [rs s2]. cbn [fst snd] in *. rewrite misses_cons.
  case_decide as Hd; simpl in *.
  - specialize (IH Hok1 Hr1 Hlo1 Hin). destruct r; simpl in *; lia.
  - rewrite Ht in * by (destruct (decide (k' = k)); done). simpl in *.
    rewrite Nat.add_0_r in *. specialize (IH Hok1 Hr1 Hlo1 Hin Hlt). lia.
Qed.

(** A key inserted for the first time is the newest one. *)
Lemma first_offer t0 k s :
  set_ok s -> (SeenAndAdd t0 k s).1 = false -> k ∉ window s ->
  remembered (SeenAndAdd t0 k s).2 k (expiry_at (ttl s) t0) 0.
Proof.
  intros Hok Ha Hw. destruct (SeenAndAdd_cases t0 k s (so_cap s Hok)) as [(exp & _ & _ & E)|[_ E]];
    rewrite E in *; [done|]. cbn [snd]. split.
  - by rewrite insert_key_entries, decide_True.
  - rewrite window_insert by done. unfold slide. eexists _, []. split; [done|].
    split_and!; [|apply not_elem_of_nil|done]. destruct (_ =? _); [|done].
    destruct (window s); [done|]. intros ?. apply Hw. by right.
Qed.

(** Offered again after other calls, a remembered key is a duplicate. *)
Lemma remembered_answer tr s k e n lo now :
  set_ok s -> remembered s k e n -> ttl s <= 0 \/ lo <= e ->
  Forall (in_time k (ttl s) lo) tr ->
  Z.of_nat (n + misses (calls tr s).1) < capacity s ->
  ttl s <= 0 \/ now <= lo ->
  (SeenAndAdd now k (calls tr s).2).1 = true.
Proof.
  intros Hok Hr Hlo Hk Hm Ht.
  destruct (remembered_calls tr s k e n lo Hok Hr Hlo Hk Hm) as (e' & He & Hlo').
  destruct (calls_config tr s) as [E1 E2]. pose proof (so_cap s Hok).
  eapply (remembered_again _ k e'); [lia|exact He|lia].
Qed.

(** A key never offered before is answered as new, and remembered. *)
Lemma first_remembered tr c t t0 k :
  0 < c -> k ∉ tr.*2 ->
  (SeenAndAdd t0 k (calls tr (New c t)).2).1 = false /\
  remembered (calls (tr ++ [(t0, k)]) (New c t)).2 k (expiry_at t t0) 0.
Proof.
  intros Hc Hk. destruct (calls_ok tr c t Hc) as (Hok & Hcap & Httl).
  assert (k ∉ window (calls tr (New c t)).2) as Hw by (intros ?%window_calls; done).
  assert ((SeenAndAdd t0 k (calls tr (New c t)).2).1 = false) as Ha.
  { destruct (SeenAndAdd_cases t0 k _ (so_cap _ Hok)) as [(exp & He & _)|[_ ->]]; [|done].
    destruct Hw. apply (so_keys _ Hok). by eexists. }
  split; [done|]. rewrite calls_snoc. cbn [snd].
  pose proof (first_offer t0 k _ Hok Ha Hw) as H. by rewrite Httl in H.
Qed.

(** Offered once and then again among other calls, in time: a duplicate. *)
Lemma repeated_answer tr1 tr2 c t t0 now k lo :
  0 < c -> k ∉ tr1.*2 ->
  t <= 0 \/ lo <= i64 (t0 + t) -> Forall (in_time k t lo) tr2 ->
  Z.of_nat (length (filter (fun d => d.2 <> k) tr2)) < c ->
  t <= 0 \/ now <= lo ->
  (SeenAndAdd now k (calls tr2 (calls (tr1 ++ [(t0, k)]) (New c t)).2).2).1 = true.
Proof.
  intros Hc Hk Hlo%expiry_runs Hin Hlt Hnow.
  destruct (first_remembered tr1 c t t0 k Hc Hk) as [_ Hr].
  destruct (calls_ok (tr1 ++ [(t0, k)]) c t Hc) as (Hok & Hcap & Httl).
  set (s1 := (calls (tr1 ++ [(t0, k)]) (New c t)).2) in *.
  pose proof (misses_others tr2 s1 k _ 0 lo Hok Hr) as Hm. rewrite Httl, Hcap in Hm.
  apply (remembered_answer tr2 s1 k (expiry_at t t0) 0 lo); rewrite ?Httl, ?Hcap; try done.
  specialize (Hm Hlo Hin Hlt). lia.
Qed.

(** C17: nothing is forgotten early. A key offered once, at [t0], is answered as a
    duplicate until [t0 + ttl] inclusive (for ever when the TTL is not positive),
    as long as fewer than [capacity] other keys were inserted since. *)
Theorem dedup_remembers tr1 tr2 c t t0 now k :
  0 < c -> k ∉ tr1.*2 -> k ∉ tr2.*2 ->
  let s1 := (calls (tr1 ++ [(t0, k)]) (New c t)).2 in
  Z.of_nat (misses (calls tr2 s1).1) < c ->
  t <= 0 \/ now <= i64 (t0 + t) ->
  (SeenAndAdd now k (calls tr2 s1).2).1 = true.
Proof.
  intros Hc H1 H2 s1 Hm Ht%expiry_runs.
  destruct (calls_ok (tr1 ++ [(t0, k)]) c t Hc) as (Hok1 & Hcap1 & Httl1). fold s1 in Hok1, Hcap1, Httl1.
  apply (remembered_answer tr2 s1 k (expiry_at t t0) 0 (expiry_at t t0)); rewrite ?Httl1, ?Hcap1;
    try done; [by apply first_remembered|by right|].
  apply Forall_forall. intros d Hd E. destruct H2. rewrite <- E. by apply list_elem_of_fmap_2.
Qed.

(** A disabled set ([capacity <= 0]) answers false to everything and records
    nothing. *)
Theorem dedup_disabled tr c t :
  c <= 0 ->
  calls tr (New c t) = (replicate (length tr) false, New c t) /\ Len (New c t) = 0.
Proof.
  intros Hc. unfold New. rewrite (proj2 (Z.leb_le _ _)) by done. split; [|done].
  induction tr as [|[now k] tr IH]; [done|]. cbn [calls]. unfold SeenAndAdd.
  by rewrite Z.eqb_refl, IH.
Qed.

(** The side condition of [dedup_remembers] is needed. In a set of two keys
    with a TTL of 10, offer A at 0 and again, stale, at 20, then B at 21: A is
    in both ring slots, so inserting B evicts A although it was offered one
    nanosecond earlier, and A is let through again at 22. [Len] answers 2 when
    one key is remembered. *)
Theorem dedup_stale_key_forgotten :
  let A := mkKey 1 (zeros 32) 1 in
  let B := mkKey 1 (zeros 32) 2 in
  let s := (calls [(0, A); (20, A); (21, B)] (New 2 10)).2 in
  last_call A [(0, A); (20, A); (21, B)] = Some 20 /\ 22 <= 20 + 10 /\
  (SeenAndAdd 22 A s).1 = false /\ size (entries s) = 1%nat /\ Len s = 2.
Proof. split_and!; vm_compute; (reflexivity || done). Qed.

(** ** Witnesses *)

Definition key (n : Z) : Key := mkKey 1 (zeros 32) n.

Lemma dedup_bounded_witness :
  let s := (calls [(0, key 1); (1, key 2); (2, key 3)] (New 2 10)).2 in
  set_ok s /\ Z.of_nat (size (entries s)) <= Len s <= 2.
Proof. apply (dedup_bounded [(0, key 1); (1, key 2); (2, key 3)] 2 10). lia. Defined.

Lemma dedup_refines_fifo_witness :
  let tr := [(0, key 1); (1, key 2); (2, key 1); (3, key 3); (4, key 1)] in
  (calls tr (New 2 0)).1 = [false; false; true; false; false] /\
  (calls tr (New 2 0)).1 = (fifo_calls 2 tr.*2 []).1.
Proof.
  split; [vm_compute; reflexivity|].
  apply (dedup_refines_fifo [(0, key 1); (1, key 2); (2, key 1); (3, key 3); (4, key 1)] 2 0);
    lia.
Defined.

Lemma dedup_sound_witness :
  (SeenAndAdd 10 (key 1) (calls [(0, key 1); (1, key 2)] (New 2 10)).2).1 = true /\
  (SeenAndAdd 11 (key 1) (calls [(0, key 1); (1, key 2)] (New 2 10)).2).1 = false /\
  exists t0, last_call (key 1) [(0, key 1); (1, key 2)] = Some t0 /\
             (10 <= 0 \/ 10 <= i64 (t0 + 10)).
Proof.
  split; [vm_compute; reflexivity|]. split; [vm_compute; reflexivity|].
  apply (dedup_sound [(0, key 1); (1, key 2)] 2 10 10 (key 1)); [lia|vm_compute; reflexivity].
Defined.

Lemma dedup_remembers_witness :
  (SeenAndAdd 10 (key 1) (calls [(1, key 2); (2, key 2)]
     (calls ([] ++ [(0, key 1)]) (New 2 10)).2).2).1 = true.
Proof.
  apply (dedup_remembers [] [(1, key 2); (2, key 2)] 2 10 0 10 (key 1)).
  - lia.
  - by apply (bool_decide_unpack _).
  - by apply (bool_decide_unpack _).
  - vm_compute. reflexivity.
  - right. vm_compute. discriminate.
Defined.

Lemma dedup_disabled_witness :
  (calls [(0, key 1); (1, key 1)] (New 0 10)).1 = [false; false].
Proof.
  destruct (dedup_disabled [(0, key 1); (1, key 1)] 0 10) as [E _]; [lia|]. by rewrite E.
Defined.
