(* ===== verification/SubtreeGroup.v ===== *)
(** The subtree group registry of [subtreegroup/registry.go] (BRC-127): which
    subtree IDs belong to the subscribed groups, until when. The file also
    states the interface the frame filter sees of it. *)
From Stdlib Require Import ZArith Lia.
From S2P Require Import Prelude.

(** What a registry of memberships promises a client that asks [contains]: read
    at one instant, it is the membership relation of that instant. The clock
    is a function because [Contains] reads the time once per group. *)
Class Membership (R : Type) := {
  contains : (bytes -> Z) -> R -> bytes -> bool;
  member : R -> Z -> bytes -> Prop;
  contains_member : forall t r sid, contains (fun _ => t) r sid = true <-> member r t sid;
}.

(** [Registry]; the mutex makes each method one step. *)
Record Registry := mkRegistry {
  subscribedGroups : gset bytes;
  entries : gmap bytes (gmap bytes Z);
  defaultTTL : Z;
}.

Definition New (groups : list bytes) (ttl : Z) : Registry :=
  {| subscribedGroups := list_to_set groups;
     entries := foldl (fun m g => <[g := ∅]> m) ∅ groups;
     defaultTTL := ttl |}.

Definition with_entries (r : Registry) (m : gmap bytes (gmap bytes Z)) : Registry :=
  {| subscribedGroups := subscribedGroups r; entries := m; defaultTTL := defaultTTL r |}.

(** [Add] at time [now]; [None] is the panic of a write into a nil map. *)
Definition Add (now : Z) (groupID subtreeID : bytes) (ttl : Z) (r : Registry) : option Registry :=
  if bool_decide (groupID ∈ subscribedGroups r) then
    let ttl := if ttl <=? 0 then defaultTTL r else ttl in
    let expiry := now + ttl in
    match entries r !! groupID with
    | Some subs => Some (with_entries r (<[groupID := <[subtreeID := expiry]> subs]> (entries r)))
    | None => None
    end
  else Some r.

Definition Remove (groupID subtreeID : bytes) (r : Registry) : Registry :=
  if bool_decide (groupID ∈ subscribedGroups r)
  then with_entries r (alter (delete subtreeID) groupID (entries r))
  else r.

(** [Contains]: the clock is read for each group that lists the subtree. *)
Definition live_in (now : bytes -> Z) (subtreeID : bytes) (gs : bytes * gmap bytes Z) : bool :=
  match gs.2 !! subtreeID with
  | Some expiry => now gs.1 <? expiry
  | None => false
  end.

Definition Contains (now : bytes -> Z) (r : Registry) (subtreeID : bytes) : bool :=
  existsb (live_in now subtreeID) (map_to_list (entries r)).

Definition expired (now expiry : Z) : Prop := expiry < now.

#[export] Instance expired_dec now expiry : Decision (expired now expiry).
Proof. unfold expired. apply _. Defined.

Definition Evict (now : Z) (r : Registry) : Z * Registry :=
  (map_fold (fun _ subs n =>
     Z.of_nat (size (filter (fun kv : bytes * Z => expired now kv.2) subs)) + n) 0 (entries r),
   with_entries r (filter (fun kv : bytes * Z => ~ expired now kv.2) <$> entries r)).

Definition Len (r : Registry) : Z :=
  map_fold (fun _ subs n => Z.of_nat (size (subs : gmap bytes Z)) + n) 0 (entries r).

(** ** Well-formedness: a map for every subscribed group *)

Definition reg_ok (r : Registry) : Prop := dom (entries r) = subscribedGroups r.

(** The stored expiry of a membership. *)
Definition stored (r : Registry) (g sid : bytes) : option Z :=
  entries r !! g ≫= (fun subs => subs !! sid).

Lemma New_lookup groups ttl g :
  entries (New groups ttl) !! g = if decide (g ∈ groups) then Some ∅ else None.
Proof.
  unfold New. simpl. induction groups as [|g' l IH] using rev_ind.
  - simpl. by rewrite lookup_empty.
  - rewrite foldl_snoc, lookup_insert, IH.
    repeat case_decide; try done; set_solver.
Qed.

Lemma New_reg_ok groups ttl : reg_ok (New groups ttl).
Proof.
  unfold reg_ok. apply set_eq. intros g. rewrite elem_of_dom, New_lookup. simpl.
  rewrite elem_of_list_to_set. by case_decide; naive_solver.
Qed.

Lemma Add_ok now g sid ttl r :
  reg_ok r -> exists r', Add now g sid ttl r = Some r' /\ reg_ok r' /\
    subscribedGroups r' = subscribedGroups r /\ defaultTTL r' = defaultTTL r /\
    forall g' sid', stored r' g' sid' =
      if decide (g' = g /\ sid' = sid /\ g ∈ subscribedGroups r)
      then Some (now + (if ttl <=? 0 then defaultTTL r else ttl)) else stored r g' sid'.
Proof.
  intros Hok. unfold Add. case_bool_decide as Hg.
  - assert (is_Some (entries r !! g)) as [subs Hs] by (apply elem_of_dom; by rewrite Hok).
    rewrite Hs. eexists. split; [done|]. split_and!; try done.
    + unfold reg_ok. simpl. rewrite dom_insert_lookup_L; [done|by rewrite Hs].
    + intros g' sid'. unfold stored. simpl. rewrite lookup_insert. case_decide as E.
      * subst g'. rewrite Hs. simpl. rewrite lookup_insert.
        case_decide; case_decide; naive_solver.
      * rewrite decide_False by naive_solver. done.
  - exists r. split_and!; try done. intros g' sid'. rewrite decide_False by naive_solver. done.
Qed.

Lemma Remove_ok g sid r :
  reg_ok r -> reg_ok (Remove g sid r) /\
    subscribedGroups (Remove g sid r) = subscribedGroups r /\
    defaultTTL (Remove g sid r) = defaultTTL r /\
    forall g' sid', stored (Remove g sid r) g' sid' =
      if decide (g' = g /\ sid' = sid) then None else stored r g' sid'.
Proof.
  intros Hok. unfold Remove. case_bool_decide as Hg.
  - split_and!; try done; [unfold reg_ok; simpl; by rewrite dom_alter_L|].
    intros g' sid'. unfold stored. simpl. rewrite lookup_alter.
    destruct (decide (g = g')) as [<-|].
    + destruct (entries r !! g) as [subs|]; simpl; [rewrite lookup_delete|];
        repeat case_decide; naive_solver.
    + rewrite decide_False by naive_solver. done.
  - split_and!; try done. intros g' sid'. case_decide as E; [|done]. destruct E as [-> ->].
    unfold stored. rewrite <- Hok, not_elem_of_dom in Hg. by rewrite Hg.
Qed.

Lemma Evict_ok now r :
  reg_ok r -> reg_ok (Evict now r).2 /\
    forall g sid, stored (Evict now r).2 g sid =
      match stored r g sid with
      | Some e => if decide (expired now e) then None else Some e
      | None => None
      end.
Proof.
  intros Hok. split; [unfold reg_ok; simpl; by rewrite dom_fmap_L|].
  intros g sid. unfold stored. simpl. rewrite lookup_fmap.
  destruct (entries r !! g) as [subs|]; simpl; [|done].
  rewrite map_lookup_filter. destruct (subs !! sid) as [e|]; simpl; [|done].
  case_guard; simpl; case_decide; naive_solver.
Qed.

Lemma Contains_stored now r sid :
  Contains now r sid = true <-> exists g e, stored r g sid = Some e /\ now g < e.
Proof.
  unfold Contains. rewrite existsb_exists. split.
  - intros [[g subs] [Hin Hl]]. apply list_elem_of_In, elem_of_map_to_list in Hin.
    unfold live_in in Hl. simpl in Hl. destruct (subs !! sid) as [e|] eqn:Hs; [|done].
    exists g, e. unfold stored. rewrite Hin. simpl. split; [done|by apply Z.ltb_lt].
  - intros (g & e & Hs & Hlt). unfold stored in Hs.
    apply bind_Some in Hs as (subs & Hg & Hs). exists (g, subs). split.
    + by apply list_elem_of_In, elem_of_map_to_list.
    + unfold live_in. simpl. rewrite Hs. by apply Z.ltb_lt.
Qed.

#[export] Program Instance registry_membership : Membership Registry := {|
  contains := Contains;
  member r t sid := exists g e, stored r g sid = Some e /\ t < e;
|}.
Next Obligation. intros. apply Contains_stored. Qed.

(** ** Counting *)

Lemma fold_counts (f : gmap bytes Z -> Z) (m : gmap bytes (gmap bytes Z)) g subs :
  m !! g = None ->
  map_fold (fun _ subs n => f subs + n) 0 (<[g := subs]> m) =
  f subs + map_fold (fun _ subs n => f subs + n) 0 m.
Proof. intros. rewrite map_fold_insert_L; [done| |done]. intros. lia. Qed.

Lemma split_size (now : Z) (m : gmap bytes Z) :
  size m = (size (filter (fun kv : bytes * Z => expired now kv.2) m) +
            size (filter (fun kv : bytes * Z => ~ expired now kv.2) m))%nat.
Proof.
  rewrite <- map_size_disj_union by apply map_disjoint_filter_complement.
  by rewrite map_filter_union_complement.
Qed.

(** An eviction removes exactly the memberships whose time has passed, says
    how many, and no reader whose clock is not behind it can tell that it
    happened. *)
Theorem evict_spec now r :
  reg_ok r ->
  let r' := (Evict now r).2 in
  (forall g sid e, stored r' g sid = Some e <-> stored r g sid = Some e /\ now <= e) /\
  (Evict now r).1 = Len r - Len r' /\
  forall clock sid, (forall g, now <= clock g) -> Contains clock r' sid = Contains clock r sid.
Proof.
  intros Hok r'. destruct (Evict_ok now r Hok) as [_ Hst]. fold r' in Hst.
  assert (forall g sid e, stored r' g sid = Some e <-> stored r g sid = Some e /\ now <= e) as Hiff.
  { intros g sid e. rewrite Hst. destruct (stored r g sid) as [e'|]; [|naive_solver].
    case_decide as Hx; unfold expired in Hx; [|naive_solver lia].
    split; [done|]. intros [[= <-] ?]. lia. }
  split_and!; [done| |].
  - subst r'. unfold Len, Evict. simpl. clear. induction (entries r) as [|g subs m Hg IH] using map_ind.
    + done.
    + rewrite fmap_insert, !fold_counts by (rewrite ?lookup_fmap, ?Hg; done).
      pose proof (split_size now subs). lia.
  - intros clock sid Hclk. apply Bool.eq_iff_eq_true. rewrite !Contains_stored.
    setoid_rewrite Hiff. split; [naive_solver|]. intros (g & e & Hs & Hlt).
    exists g, e. specialize (Hclk g). split_and!; [done|lia|done].
Qed.

(** ** Histories *)

Inductive Op :=
  | OpAdd (now : Z) (g sid : bytes) (ttl : Z)
  | OpRemove (g sid : bytes)
  | OpEvict (now : Z).

Definition run_op (o : Op) (r : Registry) : option Registry :=
  match o with
  | OpAdd now g sid ttl => Add now g sid ttl r
  | OpRemove g sid => Some (Remove g sid r)
  | OpEvict now => Some (Evict now r).2
  end.

Definition run (ops : list Op) (r : Registry) : option Registry :=
  foldl (fun acc o => acc ≫= run_op o) (Some r) ops.

(** What the announcements promised about a membership: the expiry of the last
    [Add] of the pair that no [Remove] followed. *)
Definition promise (dttl : Z) (g sid : bytes) (acc : option Z) (o : Op) : option Z :=
  match o with
  | OpAdd now g' sid' ttl =>
      if decide (g = g' /\ sid = sid') then Some (now + (if ttl <=? 0 then dttl else ttl)) else acc
  | OpRemove g' sid' => if decide (g = g' /\ sid = sid') then None else acc
  | OpEvict _ => acc
  end.

Definition promised (dttl : Z) (g sid : bytes) (ops : list Op) : option Z :=
  foldl (promise dttl g sid) None ops.

(** Evictions do not run ahead of the reader's clock. *)
Definition not_after (t : Z) (o : Op) : Prop :=
  match o with OpEvict now => now <= t | _ => True end.

Lemma run_promised groups dttl ops t :
  Forall (not_after t) ops ->
  exists r, run ops (New groups dttl) = Some r /\ reg_ok r /\
    subscribedGroups r = list_to_set groups /\ defaultTTL r = dttl /\
    forall g sid,
      (forall e, stored r g sid = Some e -> g ∈ groups /\ promised dttl g sid ops = Some e) /\
      (forall e, g ∈ groups -> promised dttl g sid ops = Some e -> t < e -> stored r g sid = Some e).
Proof.
  induction ops as [|o ops IH] using rev_ind.
  - intros _. exists (New groups dttl). split_and!; [done|apply New_reg_ok|done..|].
    intros g sid. split; [|done]. unfold stored. rewrite New_lookup.
    case_decide; simpl; [rewrite lookup_empty|]; done.
  - intros [Hl [Ho _]%Forall_cons]%Forall_app.
    destruct (IH Hl) as (r & Hr & Hok & Hg & Hd & Hinv).
    unfold run, promised. rewrite foldl_snoc. fold (run ops (New groups dttl)). rewrite Hr.
    setoid_rewrite foldl_snoc. fold (promised dttl). simpl.
    destruct o as [now g0 s0 ttl|g0 s0|now]; simpl in *.
    + destruct (Add_ok now g0 s0 ttl r Hok) as (r' & Hr' & Hok' & Hg' & Hd' & Hst).
      exists r'. split_and!; [done..|congruence|congruence|]. intros g sid.
      specialize (Hinv g sid). specialize (Hst g sid). rewrite Hg, Hd in Hst.
      pose proof (elem_of_list_to_set (C := gset bytes) g0 groups).
      unfold promised in Hinv. rewrite Hst. clear Hst. repeat case_decide; naive_solver.
    + destruct (Remove_ok g0 s0 r Hok) as (Hok' & Hg' & Hd' & Hst).
      exists (Remove g0 s0 r). split_and!; [done..|congruence|congruence|]. intros g sid.
      specialize (Hinv g sid). specialize (Hst g sid). unfold promised in Hinv.
      rewrite Hst. clear Hst. case_decide; naive_solver.
    + destruct (Evict_ok now r Hok) as (Hok' & Hst).
      exists (Evict now r).2. split_and!; [done..|]. intros g sid.
      specialize (Hinv g sid). destruct Hinv as [H1 H2]. rewrite Hst. unfold promised in *.
      split.
      * intros e. destruct (stored r g sid); [case_decide|]; naive_solver.
      * intros e Hin Hp Hlt. rewrite (H2 e) by done. rewrite decide_False; [done|].
        unfold expired. lia.
Qed.

(** C20: the registry implements the announcements. After any sequence of adds,
    removes and evictions none of which is ahead of the reader's clock, no
    operation has panicked, and a subtree is reported as a member exactly when,
    for some subscribed group, the last announcement of the pair has not been
    withdrawn and its TTL (the default one when it carried none) still runs. *)
Theorem registry_refines_announcements groups dttl ops t :
  Forall (not_after t) ops ->
  exists r, run ops (New groups dttl) = Some r /\
  forall sid, Contains (fun _ => t) r sid = true <->
    exists g e, g ∈ groups /\ promised dttl g sid ops = Some e /\ t < e.
Proof.
  intros Hops. destruct (run_promised groups dttl ops t Hops) as (r & Hr & _ & _ & _ & Hinv).
  exists r. split; [done|]. intros sid. rewrite Contains_stored. split.
  - intros (g & e & Hs & Hlt). exists g, e. destruct (Hinv g sid) as [H1 _].
    apply H1 in Hs as [??]. done.
  - intros (g & e & Hin & Hp & Hlt). exists g, e. destruct (Hinv g sid) as [_ H2].
    split; [by apply H2|done].
Qed.

(** ** Witnesses *)

Definition g1 : bytes := be_put 16 1.
Definition s1 : bytes := be_put 32 7.

Lemma evict_spec_witness :
  exists r, Add 0 g1 s1 5 (New [g1] 60) = Some r /\ (Evict 9 r).1 = 1 /\
    (Evict 9 r).1 = Len r - Len (Evict 9 r).2.
Proof.
  destruct (Add_ok 0 g1 s1 5 (New [g1] 60) (New_reg_ok _ _)) as (r & Hr & Hok & _).
  exists r. split; [done|]. split; [|apply (evict_spec 9 r Hok)].
  assert (Some r = Add 0 g1 s1 5 (New [g1] 60)) as E by done.
  vm_compute in E. injection E as ->. vm_compute. reflexivity.
Defined.

Lemma registry_refines_announcements_witness :
  exists r, run [OpAdd 0 g1 s1 0; OpEvict 50] (New [g1] 60) = Some r /\
    Contains (fun _ => 59) r s1 = true.
Proof.
  destruct (registry_refines_announcements [g1] 60 [OpAdd 0 g1 s1 0; OpEvict 50] 59)
    as (r & Hr & H).
  - repeat constructor. simpl. lia.
  - exists r. split; [done|]. apply H. exists g1, 60. split_and!; [by left| |lia].
    vm_compute. reflexivity.
Defined.
