(* ===== verification/Filter.v ===== *)
(** The shard and subtree filter of [filter/filter.go], over any registry that
    implements the [Membership] interface. *)
From Stdlib Require Import ZArith Lia.
From S2P Require Import Prelude Frame SubtreeGroup.

Section Filter.
Context {R : Type} `{Membership R}.

(** [Filter]: [None] is a nil map or pointer. *)
Record Filter := mkFilter {
  shardInclude : option (gset Z);
  subtreeInclude : option (gset bytes);
  subtreeExclude : option (gset bytes);
  groupReg : option R;
}.

(** A set is made only from a non-empty list. *)
Definition New (shard_include : list Z) (subtree_include subtree_exclude : list bytes)
    (group_reg : option R) : Filter :=
  {| shardInclude := if (0 <? length shard_include)%nat
                     then Some (list_to_set shard_include) else None;
     subtreeInclude := if (0 <? length subtree_include)%nat
                       then Some (list_to_set subtree_include) else None;
     subtreeExclude := if (0 <? length subtree_exclude)%nat
                       then Some (list_to_set subtree_exclude) else None;
     groupReg := group_reg |}.

(** [_, ok := m[k]]; a nil map has no keys. *)
Definition has {K} `{Countable K} (m : option (gset K)) (k : K) : bool :=
  match m with Some s => bool_decide (k ∈ s) | None => false end.

Definition is_nil {A} (o : option A) : bool := match o with Some _ => false | None => true end.

(** [Allow]; [clock] is what the registry reads the time with. *)
Definition Allow (clock : bytes -> Z) (groupIdx : Z) (fr : Frame) (f : Filter) : bool * string :=
  if negb (is_nil (shardInclude f)) && negb (has (shardInclude f) groupIdx)
  then (false, "shard_filter"%string)
  else if negb (is_nil (subtreeExclude f)) && has (subtreeExclude f) (SubtreeID fr)
  then (false, "subtree_exclude"%string)
  else
    let inStatic := has (subtreeInclude f) (SubtreeID fr) in
    let inGroup := match groupReg f with
                   | Some r => contains clock r (SubtreeID fr)
                   | None => false
                   end in
    if (negb (is_nil (subtreeInclude f)) || negb (is_nil (groupReg f)))
       && (negb inStatic && negb inGroup)
    then (false, "subtree_include_miss"%string)
    else (true, ""%string).

(** ** The policy, in terms of the configured lists *)

Definition shard_allowed (si : list Z) (groupIdx : Z) : Prop := si = [] \/ groupIdx ∈ si.

Definition subtree_included (inc : list bytes) (reg : option R) (t : Z) (sid : bytes) : Prop :=
  (inc = [] /\ reg = None) \/ sid ∈ inc \/ exists r, reg = Some r /\ member r t sid.

Lemma has_of_list {K} `{Countable K} (l : list K) k :
  has (if (0 <? length l)%nat then Some (list_to_set l) else None) k = bool_decide (k ∈ l).
Proof.
  destruct l as [|x l]; cbn [length Nat.ltb Nat.leb has].
  - symmetry. apply bool_decide_eq_false_2, not_elem_of_nil.
  - change (list_to_set (x :: l)) with ({[x]} ∪ list_to_set l : gset K).
    apply bool_decide_ext. rewrite elem_of_union, elem_of_list_to_set, elem_of_singleton.
    by rewrite elem_of_cons.
Qed.

Lemma is_nil_of_list {A B} (l : list A) (x : B) :
  is_nil (if (0 <? length l)%nat then Some x else None) = bool_decide (l = []).
Proof. by destruct l. Qed.

(** What a clock that may move during the test sees of a registry. *)
Definition seen_included (inc : list bytes) (reg : option R) (clock : bytes -> Z) (sid : bytes) : Prop :=
  (inc = [] /\ reg = None) \/ sid ∈ inc \/ exists r, reg = Some r /\ contains clock r sid = true.

Lemma Allow_spec si inc exc reg clock groupIdx fr :
  let r := Allow clock groupIdx fr (New si inc exc reg) in
  let shard_ok := shard_allowed si groupIdx in
  let excluded := SubtreeID fr ∈ exc in
  let included := seen_included inc reg clock (SubtreeID fr) in
  (r = (true, ""%string) <-> shard_ok /\ ~ excluded /\ included) /\
  (r = (false, "shard_filter"%string) <-> ~ shard_ok) /\
  (r = (false, "subtree_exclude"%string) <-> shard_ok /\ excluded) /\
  (r = (false, "subtree_include_miss"%string) <-> shard_ok /\ ~ excluded /\ ~ included).
Proof.
  cbn zeta. unfold Allow, New, shard_allowed, seen_included. simpl.
  rewrite !has_of_list, !is_nil_of_list.
  set (inG := match reg with Some r => contains clock r (SubtreeID fr) | None => false end).
  assert (inG = true <-> exists r, reg = Some r /\ contains clock r (SubtreeID fr) = true) as HG.
  { subst inG. destruct reg as [r|]; [|naive_solver]. naive_solver. }
  assert (is_nil reg = true <-> reg = None) as HN by (destruct reg; naive_solver).
  assert (negb (bool_decide (si = [])) && negb (bool_decide (groupIdx ∈ si)) = false <->
          si = [] \/ groupIdx ∈ si) as H1 by (repeat case_bool_decide; simpl; naive_solver).
  assert (negb (bool_decide (exc = [])) && bool_decide (SubtreeID fr ∈ exc) = true <->
          SubtreeID fr ∈ exc) as H2.
  { destruct exc as [|x l]; [split; [done|intros Hx; by apply not_elem_of_nil in Hx]|].
    rewrite (bool_decide_eq_false_2 (x :: l = [])) by done. apply bool_decide_eq_true. }
  assert ((negb (bool_decide (inc = [])) || negb (is_nil reg)) &&
          (negb (bool_decide (SubtreeID fr ∈ inc)) && negb inG) = false <->
          (inc = [] /\ reg = None) \/ SubtreeID fr ∈ inc \/
             exists r, reg = Some r /\ contains clock r (SubtreeID fr) = true) as H3.
  { clear H1 H2. revert HG HN.
    generalize inG, (is_nil reg), (exists r, reg = Some r /\ contains clock r (SubtreeID fr) = true).
    intros g n P HG HN. repeat case_bool_decide; destruct g, n; simpl; intuition congruence. }
  clear HG HN. revert H1 H2 H3.
  generalize (negb (bool_decide (si = [])) && negb (bool_decide (groupIdx ∈ si))),
    (negb (bool_decide (exc = [])) && bool_decide (SubtreeID fr ∈ exc)),
    ((negb (bool_decide (inc = [])) || negb (is_nil reg)) &&
      (negb (bool_decide (SubtreeID fr ∈ inc)) && negb inG)).
  intros b1 b2 b3 H1 H2 H3. destruct b1, b2, b3; split_and!; intuition congruence.
Qed.
Lemma Allow_verdict clock groupIdx fr f :
  Allow clock groupIdx fr f = (true, ""%string) \/
  Allow clock groupIdx fr f = (false, "shard_filter"%string) \/
  Allow clock groupIdx fr f = (false, "subtree_exclude"%string) \/
  Allow clock groupIdx fr f = (false, "subtree_include_miss"%string).
Proof. unfold Allow. repeat case_match; auto. Qed.

(** C21: the filter implements its policy. A frame passes exactly when its shard
    is included (or no list was given), its subtree is not excluded, and its
    subtree is in the static list or is a live member of a subscribed group
    (or neither is configured); a refusal names the first test that failed. No
    frame is exempt: the zero subtree of a legacy frame is tested like any
    other, and with a group registry an empty static list admits members only. *)
Theorem filter_allow_spec si inc exc reg t groupIdx fr :
  let r := Allow (fun _ => t) groupIdx fr (New si inc exc reg) in
  let shard_ok := shard_allowed si groupIdx in
  let excluded := SubtreeID fr ∈ exc in
  let included := subtree_included inc reg t (SubtreeID fr) in
  (r = (true, ""%string) <-> shard_ok /\ ~ excluded /\ included) /\
  (r = (false, "shard_filter"%string) <-> ~ shard_ok) /\
  (r = (false, "subtree_exclude"%string) <-> shard_ok /\ excluded) /\
  (r = (false, "subtree_include_miss"%string) <-> shard_ok /\ ~ excluded /\ ~ included).
Proof.
  cbn zeta. assert (subtree_included inc reg t (SubtreeID fr) <->
                    seen_included inc reg (fun _ => t) (SubtreeID fr)) as ->.
  { unfold subtree_included, seen_included. by setoid_rewrite contains_member. }
  apply Allow_spec.
Qed.
End Filter.

Arguments Filter R : clear implicits.

(** The zero subtree ID of a BRC-12 frame gets no exemption: under a static
    include list without it, and no registry, every frame that carries it is
    refused. *)
Theorem zero_subtree_not_exempt `{Membership R} si inc exc clock groupIdx fr :
  inc <> [] -> zeros 32 ∉ inc -> SubtreeID fr = zeros 32 ->
  (Allow clock groupIdx fr (New si inc exc None)).1 = false.
Proof.
  intros Hne Hn Hz. unfold Allow, New. simpl.
  rewrite !has_of_list, !is_nil_of_list, Hz, (bool_decide_eq_false_2 (zeros 32 ∈ inc)),
    (bool_decide_eq_false_2 (inc = [])) by done. simpl.
  by repeat (case_match; try done).
Qed.

Lemma zero_subtree_not_exempt_witness :
  (Allow (fun _ => 0) 3 (mkFrame 1 (zeros 32) 0 0 (zeros 32) [])
     (New (R := Registry) [] [be_put 32 7] [] None)).1 = false.
Proof.
  apply (zero_subtree_not_exempt [] [be_put 32 7] []); [done| |done].
  by apply (bool_decide_unpack _).
Defined.
