(* ===== verification/Advert.v ===== *)
(** The ADVERT beacon codec of [discovery/advert.go] (BRC-126). *)
From Stdlib Require Import ZArith Lia.
From S2P Require Import Prelude Net.
#[local] Open Scope go_scope.

Definition ADVERTSize : nat := 56.
Definition MsgTypeADVERT : Z := 0x20.
Definition advertMagic : Z := 0xE3E1F3E8.
Definition advertProtoVer : Z := 0x02BF.

Definition FlagHasParent : Z := 0x0002.
Definition FlagDraining : Z := 0x0004.
Definition FlagUnicastRetransmit : Z := 0x0008.
Definition FlagMulticastRetransmit : Z := 0x0010.

(** [ErrBadADVERT], plain or wrapped with its reason. *)
Inductive AdvertError := ErrBadADVERT | ErrBadADVERT_zero_addr.

Record ADVERT := mkADVERT {
  Scope : Z;
  NACKAddr : bytes;
  NACKPort : Z;
  Tier : Z;
  Preference : Z;
  BeaconInterval : Z;
  Flags : Z;
  InstanceID : Z;
}.

(** [None] is the panic of the bounds check. *)
Definition EncodeADVERT (a : ADVERT) (buf : bytes) : option bytes :=
  if (length buf <? ADVERTSize)%nat then None
  else
    let buf := put_at 0 (be_put 4 advertMagic) buf in
    let buf := put_at 4 (be_put 2 advertProtoVer) buf in
    let buf := put_at 6 [MsgTypeADVERT] buf in
    let buf := put_at 7 [Scope a] buf in
    let buf := put_at 8 (take 16 (To16 (NACKAddr a))) buf in
    let buf := put_at 24 (be_put 2 (NACKPort a)) buf in
    let buf := put_at 26 [Tier a] buf in
    let buf := put_at 27 [Preference a] buf in
    let buf := put_at 28 (be_put 2 (BeaconInterval a)) buf in
    let buf := put_at 30 (be_put 2 (Flags a)) buf in
    let buf := put_at 32 (be_put 4 (InstanceID a)) buf in
    let buf := put_at 36 (be_put 4 0) buf in
    Some (put_at 40 (zeros 16) buf).

Definition all_zero (l : bytes) : bool := forallb (fun b => b =? 0) l.

Definition DecodeADVERT (buf : bytes) : ADVERT + AdvertError :=
  if (length buf <? ADVERTSize)%nat then inr ErrBadADVERT
  else if negb (be_get buf.[0:4] =? advertMagic) then inr ErrBadADVERT
  else if negb (byte_at 6 buf =? MsgTypeADVERT) then inr ErrBadADVERT
  else
    let nackAddr := buf.[8:24] in
    if all_zero nackAddr then inr ErrBadADVERT_zero_addr
    else inl {| Scope := byte_at 7 buf;
                NACKAddr := nackAddr;
                NACKPort := be_get buf.[24:26];
                Tier := byte_at 26 buf;
                Preference := byte_at 27 buf;
                BeaconInterval := be_get buf.[28:30];
                Flags := be_get buf.[30:32];
                InstanceID := be_get buf.[32:36] |}.

(** A struct whose fields have their Go types and whose address is an IP. *)
Definition advert_wf (a : ADVERT) : Prop :=
  (length (NACKAddr a) = 4%nat \/ length (NACKAddr a) = 16%nat) /\
  0 <= NACKPort a < 65536 /\ 0 <= BeaconInterval a < 65536 /\
  0 <= Flags a < 65536 /\ 0 <= InstanceID a < 4294967296.

Definition with_addr (a : ADVERT) (ip : bytes) : ADVERT :=
  {| Scope := Scope a; NACKAddr := ip; NACKPort := NACKPort a; Tier := Tier a;
     Preference := Preference a; BeaconInterval := BeaconInterval a; Flags := Flags a;
     InstanceID := InstanceID a |}.

Lemma EncodeADVERT_eq a buf :
  (ADVERTSize <= length buf)%nat -> advert_wf a ->
  EncodeADVERT a buf =
    Some (put_at 40 (zeros 16) (put_at 36 (be_put 4 0) (put_at 32 (be_put 4 (InstanceID a))
      (put_at 30 (be_put 2 (Flags a)) (put_at 28 (be_put 2 (BeaconInterval a))
      (put_at 27 [Preference a] (put_at 26 [Tier a] (put_at 24 (be_put 2 (NACKPort a))
      (put_at 8 (To16 (NACKAddr a)) (put_at 7 [Scope a] (put_at 6 [MsgTypeADVERT]
      (put_at 4 (be_put 2 advertProtoVer) (put_at 0 (be_put 4 advertMagic) buf))))))))))))).
Proof.
  intros Hb [Ha _]. unfold EncodeADVERT. rewrite (proj2 (Nat.ltb_ge _ _)) by done.
  by rewrite (take_ge (To16 _)) by (rewrite length_To16 by done; lia).
Qed.

Lemma advert_magic_roundtrip : be_get (be_put 4 advertMagic) = advertMagic.
Proof. reflexivity. Qed.

Lemma EncodeADVERT_decodes a buf :
  advert_wf a -> (ADVERTSize <= length buf)%nat ->
  exists out, EncodeADVERT a buf = Some out /\ length out = length buf /\
    DecodeADVERT out =
      if all_zero (To16 (NACKAddr a)) then inr ErrBadADVERT_zero_addr
      else inl (with_addr a (To16 (NACKAddr a))).
Proof.
  intros Hwf Hlen. rewrite EncodeADVERT_eq by done.
  destruct Hwf as (Ha & Hp & Hi & Hf & Hid). apply length_To16 in Ha.
  unfold ADVERTSize, zeros in *. eexists; split; [done|]. split; [out_len|].
  unfold DecodeADVERT, ADVERTSize. in_bounds.
  wire. rewrite advert_magic_roundtrip, !Z.eqb_refl. cbn [negb].
  rewrite !be_get_put_id by lia. done.
Qed.

(** C34: an encoded ADVERT decodes to itself, with an IPv4 address in its mapped
    16-byte form; the one exception is the all-zero address, which the
    encoder writes and the decoder refuses. *)
Theorem advert_roundtrip a buf :
  advert_wf a -> (ADVERTSize <= length buf)%nat ->
  exists out, EncodeADVERT a buf = Some out /\
    DecodeADVERT out =
      (if all_zero (To16 (NACKAddr a)) then inr ErrBadADVERT_zero_addr
       else inl (with_addr a (To16 (NACKAddr a)))) /\
    length out = length buf /\ drop ADVERTSize out = drop ADVERTSize buf.
Proof.
  intros Hwf Hlen. destruct (EncodeADVERT_decodes a buf Hwf Hlen) as (out & He & Hl & Hd).
  exists out. split_and!; try done. rewrite EncodeADVERT_eq in He by done.
  destruct Hwf as [Ha _]. apply length_To16 in Ha. injection He as <-.
  unfold ADVERTSize, zeros in *. by wire.
Qed.

Lemma advert_roundtrip_witness :
  let a := mkADVERT 5 [192; 0; 2; 10] 8400 1 10 30 8 77 in
  exists out, EncodeADVERT a (replicate 60 9) = Some out /\
    DecodeADVERT out = inl (with_addr a (v4InV6Prefix ++ [192; 0; 2; 10])) /\
    length out = 60%nat /\ drop ADVERTSize out = replicate 4 9.
Proof.
  apply (advert_roundtrip (mkADVERT 5 [192; 0; 2; 10] 8400 1 10 30 8 77) (replicate 60 9)).
  - split; [by left|]. simpl. lia.
  - vm_compute. lia.
Defined.

(** The decoder accepts exactly the datagrams of at least 56 bytes with the
    magic, the ADVERT message type and a non-zero address; the protocol
    version is not looked at. *)
Theorem advert_decode_accepts buf :
  (exists a, DecodeADVERT buf = inl a) <->
  (ADVERTSize <= length buf)%nat /\ be_get buf.[0:4] = advertMagic /\
  byte_at 6 buf = MsgTypeADVERT /\ exists b, b ∈ buf.[8:24] /\ b <> 0.
Proof.
  assert (all_zero (buf.[8:24]) = false <-> exists b, b ∈ buf.[8:24] /\ b <> 0) as Hz.
  { unfold all_zero. rewrite <- not_true_iff_false, forallb_forall. split.
    - intros Hn. destruct (decide (Exists (fun b => b <> 0) (buf.[8:24]))) as [He|He].
      + by apply Exists_exists in He.
      + destruct Hn. intros b Hb. apply Z.eqb_eq. destruct (decide (b = 0)); [done|].
        destruct He. apply Exists_exists. exists b. by rewrite list_elem_of_In.
    - intros (b & Hin & Hb) Hall. apply Hb, Z.eqb_eq, Hall. by apply list_elem_of_In. }
  rewrite <- Hz. unfold DecodeADVERT. split.
  - intros [a Ha]. revert Ha. destruct (all_zero (buf.[8:24])); zcases; naive_solver.
  - intros (Hl & Hm & Ht & ->). in_bounds. rewrite Hm, Ht, !Z.eqb_refl. eauto.
Qed.
