(* ===== verification/Discovery.v ===== *)
(** Endpoint discovery: the registry of retry endpoints of
    [discovery/registry.go] and the beacon listener of [discovery/beacon.go]
    that feeds it. *)
From Stdlib Require Import ZArith Lia.
From stdpp Require Import sorting.
From S2P Require Import Prelude Net Advert Metrics.

(** [EndpointEntry]. *)
Record EndpointEntry := mkEndpoint {
  Addr : string;
  e_Tier : Z;
  e_Preference : Z;
  e_Flags : Z;
  Expires : Z;
  e_InstanceID : Z;
  SupportsUnicast : bool;
}.

(** [Registry]; the mutex makes each method one step. The entries are heap
    cells shared by nobody else: [Snapshot] hands out deep copies. *)
Record Registry := mkRegistry {
  entries : gmap Z EndpointEntry;
  seeds : list EndpointEntry;
  snapshot : option (list EndpointEntry);
  dirty : bool;
}.

Definition NewRegistry : Registry := mkRegistry ∅ [] None false.

Definition has_flag (flags f : Z) : bool := negb (Z.land flags f =? 0).

(** The entry [Upsert] leaves under the advertised instance, new or updated. *)
Definition endpoint_of (now : Z) (a : ADVERT) : EndpointEntry :=
  {| Addr := host_port (NACKAddr a) (NACKPort a);
     e_Tier := Tier a; e_Preference := Preference a; e_Flags := Flags a;
     Expires := now + BeaconInterval a * 3 * Second;
     e_InstanceID := InstanceID a;
     SupportsUnicast := has_flag (Flags a) FlagUnicastRetransmit |}.

Definition Upsert (now : Z) (a : ADVERT) (r : Registry) : Registry :=
  let ttl := BeaconInterval a * 3 * Second in
  let entry :=
    match entries r !! InstanceID a with
    | Some old =>
        {| Addr := host_port (NACKAddr a) (NACKPort a);
           e_Tier := Tier a; e_Preference := Preference a; e_Flags := Flags a;
           Expires := now + ttl; e_InstanceID := e_InstanceID old;
           SupportsUnicast := has_flag (Flags a) FlagUnicastRetransmit |}
    | None => endpoint_of now a
    end in
  {| entries := <[InstanceID a := entry]> (entries r); seeds := seeds r;
     snapshot := snapshot r; dirty := true |}.

Definition expired (now : Z) (kv : Z * EndpointEntry) : Prop := Expires kv.2 < now.

#[export] Instance expired_dec now kv : Decision (expired now kv).
Proof. unfold expired. apply _. Defined.

Definition Evict (now : Z) (r : Registry) : Registry :=
  {| entries := filter (fun kv => ~ expired now kv) (entries r); seeds := seeds r;
     snapshot := snapshot r;
     dirty := dirty r || negb (bool_decide (filter (expired now) (entries r) = ∅)) |}.

(** [time.Date(9999, 1, 1, 0, 0, 0, 0, time.UTC)]. *)
Definition never : Z := 253370764800 * Second.

Definition seed_entry (i : nat) (addr : string) : EndpointEntry :=
  {| Addr := addr; e_Tier := 0xFF; e_Preference := 0; e_Flags := 0; Expires := never;
     e_InstanceID := u32 (0xFFFFF000 + Z.of_nat i); SupportsUnicast := false |}.

Definition Seed (addrs : list string) (r : Registry) : Registry :=
  {| entries := entries r; seeds := imap seed_entry addrs; snapshot := snapshot r;
     dirty := true |}.

(** The order of [Snapshot]: tier ascending, preference descending. *)
Definition less (a b : EndpointEntry) : bool :=
  if negb (e_Tier a =? e_Tier b) then e_Tier a <? e_Tier b
  else e_Preference b <? e_Preference a.

Definition before (a b : EndpointEntry) : Prop := less b a = false.

#[export] Instance before_dec a b : Decision (before a b).
Proof. unfold before. apply _. Defined.

(** What the registry offers: the live beacons or, failing any, the seeds.
    [iter] is the order in which the map is walked, which Go leaves open. *)
Definition merged (iter : list EndpointEntry -> list EndpointEntry) (r : Registry)
    : list EndpointEntry :=
  iter (map_to_list (entries r)).*2 ++
  (if (size (entries r) =? 0)%nat then seeds r else []).

(** [sort.Slice] is not stable, but any order it may give to equal elements is
    the one of some walk of the map. *)
Definition Snapshot (iter : list EndpointEntry -> list EndpointEntry) (r : Registry)
    : list EndpointEntry * Registry :=
  let rebuilt :=
    {| entries := entries r; seeds := seeds r;
       snapshot := Some (merge_sort before (merged iter r)); dirty := false |} in
  let r' := match snapshot r with
            | None => rebuilt
            | Some _ => if dirty r then rebuilt else r
            end in
  (default [] (snapshot r'), r').

Definition Len (r : Registry) : Z := Z.of_nat (size (entries r) + length (seeds r)).

(** ** The beacon listener *)

Record BeaconListener := mkBeaconListener { bl_Registry : Registry; bl_Rec : option Recorder }.

(** One datagram of [listenGroup]: the read buffer truncates it. *)
Definition beacon_datagram (now : Z) (datagram : bytes) (bl : BeaconListener) : BeaconListener :=
  let buf := take (ADVERTSize + 64) datagram in
  match DecodeADVERT buf with
  | inr _ => bl
  | inl advert =>
      if has_flag (Flags advert) FlagDraining then bl
      else {| bl_Registry := Upsert now advert (bl_Registry bl);
              bl_Rec := with_rec (bl_Rec bl) BeaconAdvertReceived |}
  end.

(** One tick of [evictLoop]. *)
Definition beacon_tick (now : Z) (bl : BeaconListener) : BeaconListener :=
  let reg := Evict now (bl_Registry bl) in
  {| bl_Registry := reg;
     bl_Rec := with_rec (bl_Rec bl) (SetBeaconRegistryEndpoints (Len reg)) |}.

(** ** The snapshot cache *)

(** What a snapshot is allowed to contain. *)
Definition offered (r : Registry) : list EndpointEntry :=
  if (size (entries r) =? 0)%nat then seeds r else (map_to_list (entries r)).*2.

Definition fair (iter : list EndpointEntry -> list EndpointEntry) : Prop :=
  forall l, iter l ≡ₚ l.

Lemma before_spec a b :
  before a b <-> e_Tier a < e_Tier b \/ (e_Tier a = e_Tier b /\ e_Preference b <= e_Preference a).
Proof. unfold before, less. zcases; split; intros; try done; lia. Qed.

#[export] Instance before_trans : Transitive before.
Proof.
  intros a b c. unfold before, less. zcases.
Qed.

#[export] Instance before_total : Total before.
Proof. intros a b. unfold before, less. zcases; first [by left | by right | idtac]. Qed.

Lemma merged_offered iter r : fair iter -> merged iter r ≡ₚ offered r.
Proof.
  intros Hi. unfold merged, offered. rewrite (Hi (map_to_list (entries r)).*2). destruct (Nat.eqb_spec (size (entries r)) 0) as [E|].
  - apply map_size_empty_inv in E. by rewrite E, map_to_list_empty.
  - by rewrite app_nil_r.
Qed.

Lemma sorted_lookup (l : list EndpointEntry) i j x y :
  StronglySorted before l -> (i < j)%nat -> l !! i = Some x -> l !! j = Some y -> before x y.
Proof.
  intros Hs. revert i j. induction Hs as [|z l Hs IH Hall]; [done|].
  intros [|i] [|j] Hlt; simpl; try lia.
  - intros [= ->] Hy. rewrite Forall_forall in Hall. apply Hall. by eapply list_elem_of_lookup_2.
  - apply IH. lia.
Qed.

(** A clean cache is a sorted copy of what the registry holds. *)
Definition cache_ok (r : Registry) : Prop :=
  forall s, snapshot r = Some s -> dirty r = false -> s ≡ₚ offered r /\ StronglySorted before s.

Inductive Op :=
  | OpUpsert (now : Z) (a : ADVERT)
  | OpEvict (now : Z)
  | OpSeed (addrs : list string)
  | OpSnapshot (iter : list EndpointEntry -> list EndpointEntry).

Definition run_op (r : Registry) (o : Op) : Registry :=
  match o with
  | OpUpsert now a => Upsert now a r
  | OpEvict now => Evict now r
  | OpSeed addrs => Seed addrs r
  | OpSnapshot iter => (Snapshot iter r).2
  end.

Definition run (ops : list Op) (r : Registry) : Registry := foldl run_op r ops.

Definition op_fair (o : Op) : Prop :=
  match o with OpSnapshot iter => fair iter | _ => True end.

Lemma Snapshot_ok iter r :
  fair iter -> cache_ok r ->
  let q := Snapshot iter r in
  q.1 ≡ₚ offered r /\ StronglySorted before q.1 /\
  entries q.2 = entries r /\ seeds q.2 = seeds r /\ cache_ok q.2.
Proof.
  intros Hi Hc. cbn zeta.
  assert (merge_sort before (merged iter r) ≡ₚ offered r /\
          StronglySorted before (merge_sort before (merged iter r))) as [Hp Hs].
  { split; [|apply (StronglySorted_merge_sort before)].
    by rewrite merge_sort_Permutation, merged_offered. }
  unfold Snapshot. destruct (snapshot r) as [s|] eqn:Es; [destruct (dirty r) eqn:Ed|]; simpl.
  - split_and!; try done. by intros s' [= <-] _.
  - rewrite Es. simpl. destruct (Hc s Es Ed). done.
  - split_and!; try done. by intros s' [= <-] _.
Qed.

Lemma Evict_cache now r : cache_ok r -> cache_ok (Evict now r).
Proof.
  intros Hc s Hs Hd. simpl in Hs, Hd. apply orb_false_iff in Hd as [Hd Hn].
  apply negb_false_iff, bool_decide_eq_true in Hn.
  assert (filter (fun kv => ~ expired now kv) (entries r) = entries r) as He.
  { apply map_filter_id. intros id e Hid Hx.
    by apply (map_filter_empty_not_lookup _ _ id e Hn) in Hid. }
  specialize (Hc s Hs Hd). unfold offered in *. cbn [entries seeds Evict]. by rewrite He.
Qed.

Lemma run_cache ops : Forall op_fair ops -> cache_ok (run ops NewRegistry).
Proof.
  induction ops as [|o ops IH] using rev_ind; [by intros _ s [=]|].
  intros [Hl [Ho _]%Forall_cons]%Forall_app. unfold run. rewrite foldl_snoc.
  specialize (IH Hl). fold (run ops NewRegistry).
  destruct o as [now a|now|addrs|iter]; simpl.
  - by intros s _ [=].
  - by apply Evict_cache.
  - by intros s _ [=].
  - by apply Snapshot_ok.
Qed.

(** C28: the snapshot cache is transparent. Whatever was upserted, evicted,
    seeded or snapshotted before, and in whatever order the maps were walked,
    a snapshot is exactly the endpoints the registry holds at that moment: the
    beacons, or the seeds only when there is no beacon. Of two of its endpoints
    the first has the lower tier or, in the same tier, at least the preference
    of the second. Taking it changes neither the beacons nor the seeds. *)
Theorem snapshot_spec ops iter :
  Forall op_fair ops -> fair iter ->
  let r := run ops NewRegistry in
  let snap := (Snapshot iter r).1 in
  snap ≡ₚ (if decide (entries r = ∅) then seeds r else (map_to_list (entries r)).*2) /\
  (forall i j x y, (i < j)%nat -> snap !! i = Some x -> snap !! j = Some y ->
     e_Tier x < e_Tier y \/ (e_Tier x = e_Tier y /\ e_Preference y <= e_Preference x)) /\
  entries (Snapshot iter r).2 = entries r /\ seeds (Snapshot iter r).2 = seeds r.
Proof.
  intros Hops Hi. cbn zeta.
  destruct (Snapshot_ok iter _ Hi (run_cache ops Hops)) as (H1 & H2 & He & Hse & _).
  set (r := run ops NewRegistry) in *. split; [|split; [|done]].
  - rewrite H1. unfold offered. case_decide as E; [by rewrite E|].
    destruct (Nat.eqb_spec (size (entries r)) 0) as [E'|]; [|done].
    by apply map_size_empty_inv in E'.
  - intros i j x y Hij Hx Hy.
    by apply before_spec, (sorted_lookup (Snapshot iter r).1 i j).
Qed.

(** ** What a run remembers of an instance *)

Definition latest_step (id : Z) (acc : option EndpointEntry) (o : Op) : option EndpointEntry :=
  match o with
  | OpUpsert now a => if decide (InstanceID a = id) then Some (endpoint_of now a) else acc
  | _ => acc
  end.

(** The entry of the last ADVERT of an instance. *)
Definition latest (id : Z) (ops : list Op) : option EndpointEntry :=
  foldl (latest_step id) None ops.

Definition op_not_after (t : Z) (o : Op) : Prop :=
  match o with OpEvict now => now <= t | _ => True end.

Lemma Upsert_lookup now a r id :
  (forall e, entries r !! InstanceID a = Some e -> e_InstanceID e = InstanceID a) ->
  entries (Upsert now a r) !! id =
    if decide (InstanceID a = id) then Some (endpoint_of now a) else entries r !! id.
Proof.
  intros Hid. unfold Upsert. cbn [entries]. rewrite lookup_insert.
  case_decide; [|done]. destruct (entries r !! InstanceID a) eqn:E; [|done].
  unfold endpoint_of. by rewrite (Hid _ eq_refl).
Qed.

Lemma Snapshot_entries iter r : entries (Snapshot iter r).2 = entries r.
Proof. unfold Snapshot. by destruct (snapshot r); [destruct (dirty r)|]. Qed.

Lemma latest_id id ops e : latest id ops = Some e -> e_InstanceID e = id.
Proof.
  unfold latest. induction ops as [|o ops IH] using rev_ind; [done|].
  rewrite foldl_snoc. destruct o; simpl; try done. case_decide; [|done]. by intros [= <-].
Qed.

(** The last ADVERT of an instance, as the registry keeps it. *)
Lemma latest_upsert id ops e :
  latest id ops = Some e -> exists now a, OpUpsert now a ∈ ops /\ InstanceID a = id /\
    e = endpoint_of now a.
Proof.
  unfold latest. revert e. induction ops as [|o ops IH] using rev_ind; [done|].
  intros e. rewrite foldl_snoc. intros He.
  assert (foldl (latest_step id) None ops = Some e -> exists now a,
    OpUpsert now a ∈ ops ++ [o] /\ InstanceID a = id /\ e = endpoint_of now a) as Hold.
  { intros (now & a & Hin & H)%IH. exists now, a. split; [|done]. apply elem_of_app. by left. }
  destruct o as [now a|now|addrs|iter]; simpl in He; auto. case_decide; auto.
  injection He as <-. exists now, a. split; [|done]. apply elem_of_app. right. by left.
Qed.

(** C29: the registry remembers beacons. After any run whose evictions are not
    ahead of [t], the entry of an instance is the one of its last ADVERT, and
    it is there at least until that ADVERT expires; its address, tier and
    preference are the advertised ones, and it expires three advertised beacon
    intervals (in seconds) after the ADVERT came. *)
Theorem registry_tracks_adverts ops t id :
  Forall (op_not_after t) ops ->
  let r := run ops NewRegistry in
  (forall e, entries r !! id = Some e -> latest id ops = Some e) /\
  (forall e, latest id ops = Some e -> t <= Expires e -> entries r !! id = Some e) /\
  (forall e, latest id ops = Some e -> exists now a, OpUpsert now a ∈ ops /\ InstanceID a = id /\
     Addr e = host_port (NACKAddr a) (NACKPort a) /\ e_Tier e = Tier a /\
     e_Preference e = Preference a /\ Expires e = now + 3 * BeaconInterval a * Second).
Proof.
  intros Hall. cbn zeta. apply and_assoc. split.
  2: { intros e (now & a & Hin & Hid & ->)%latest_upsert. exists now, a. simpl.
       split_and!; try done. lia. }
  revert id Hall. induction ops as [|o ops IH] using rev_ind; [done|].
  intros id [Hl [Ho _]%Forall_cons]%Forall_app.
  pose proof (fun i => IH i Hl) as Hinv. clear IH. destruct (Hinv id) as [H1 H2].
  unfold run, latest in *. rewrite !foldl_snoc.
  destruct o as [now a|now|addrs|iter]; cbn [run_op latest_step]; try done.
  - rewrite Upsert_lookup; [case_decide; [by split; intros|done]|].
    intros e He. destruct (Hinv (InstanceID a)) as [Ha _]. apply Ha in He.
    by apply (latest_id _ ops).
  - cbn [entries Evict]. split; intros e He.
    + apply map_lookup_filter_Some in He as [? _]. auto.
    + intros Ht. apply map_lookup_filter_Some. split; [by apply H2|].
      unfold expired. simpl in *. lia.
  - rewrite Snapshot_entries. done.
Qed.

(** ** The beacon path, from datagram to snapshot *)

(** A retry endpoint that advertises itself is offered. When a well-formed
    ADVERT (any flags but Draining, a non-zero address) arrives as a datagram,
    the next snapshot holds an endpoint at the advertised address, with its
    tier and preference, valid for three beacon intervals, and no seed; a
    Draining ADVERT changes nothing, so an endpoint that was known stays
    offered until it expires. *)
Theorem advertised_endpoint_offered now a buf out bl iter :
  advert_wf a -> all_zero (To16 (NACKAddr a)) = false ->
  (ADVERTSize <= length buf <= ADVERTSize + 64)%nat -> EncodeADVERT a buf = Some out ->
  cache_ok (bl_Registry bl) ->
  (forall e, entries (bl_Registry bl) !! InstanceID a = Some e -> e_InstanceID e = InstanceID a) ->
  fair iter ->
  let bl' := beacon_datagram now out bl in
  let snap := (Snapshot iter (bl_Registry bl')).1 in
  if has_flag (Flags a) FlagDraining then bl' = bl
  else endpoint_of now (with_addr a (To16 (NACKAddr a))) ∈ snap /\
       (forall e, e ∈ snap -> exists id, entries (bl_Registry bl') !! id = Some e) /\
       bl_Rec bl' = with_rec (bl_Rec bl) BeaconAdvertReceived.
Proof.
  intros Hwf Hz Hlen Henc Hc Hid Hi. cbn zeta.
  assert (DecodeADVERT out = inl (with_addr a (To16 (NACKAddr a))) /\ length out = length buf)
    as [Hdec Hl].
  { destruct (EncodeADVERT_decodes a buf Hwf) as (out' & Ho & Hl & Hd); [lia|].
    rewrite Henc in Ho. injection Ho as <-. by rewrite Hd, Hz. }
  unfold beacon_datagram. rewrite take_ge by lia. rewrite Hdec.
  cbn [with_addr Flags]. destruct (has_flag (Flags a) FlagDraining); [done|].
  cbn [bl_Registry bl_Rec].
  set (a' := with_addr a (To16 (NACKAddr a))). set (r' := Upsert now a' (bl_Registry bl)).
  assert (entries r' !! InstanceID a' = Some (endpoint_of now a')) as Hl'.
  { unfold r'. rewrite Upsert_lookup by done. by rewrite decide_True. }
  destruct (Snapshot_ok iter r' Hi) as (Hp & _); [by intros s _ [=]|].
  assert (offered r' = (map_to_list (entries r')).*2) as Ho.
  { unfold offered. destruct (Nat.eqb_spec (size (entries r')) 0) as [E|]; [|done].
    apply map_size_empty_inv in E. by rewrite E, lookup_empty in Hl'. }
  rewrite Ho in Hp. split_and!; [| |done].
  - rewrite Hp. apply list_elem_of_fmap. exists (InstanceID a', endpoint_of now a').
    split; [done|]. by apply elem_of_map_to_list.
  - intros e. rewrite Hp. intros ([id e'] & -> & Hin)%list_elem_of_fmap.
    exists id. by apply elem_of_map_to_list.
Qed.

(** ** Witnesses *)

Definition ex_advert (id tier pref : Z) : ADVERT :=
  mkADVERT 5 ([0x20; 1; 0x0d; 0xb8] ++ zeros 11 ++ [id]) 8400 tier pref 10 8 id.

Definition reverse_walk : list EndpointEntry -> list EndpointEntry := @reverse EndpointEntry.

Lemma reverse_walk_fair : fair reverse_walk.
Proof. intros l. apply reverse_Permutation. Defined.

Definition ex_ops : list Op :=
  [OpSeed ["seed:1"%string]; OpSnapshot reverse_walk; OpUpsert 0 (ex_advert 1 2 5);
   OpUpsert 1 (ex_advert 2 0 1); OpSnapshot reverse_walk; OpEvict (31 * Second)].

(** Two beacons of tier 2 and one of tier 0, walked in reverse; the first two
    come out by descending preference. *)
Definition ex_tiers : list Op :=
  take 5 ex_ops ++ [OpUpsert 2 (ex_advert 3 2 9); OpSnapshot reverse_walk].

Lemma snapshot_spec_witness :
  (fun e => (e_InstanceID e, e_Tier e, e_Preference e)) <$>
    (Snapshot reverse_walk (run ex_tiers NewRegistry)).1 = [(2, 0, 1); (3, 2, 9); (1, 2, 5)] /\
  (Addr <$> (Snapshot reverse_walk (run ex_ops NewRegistry)).1) = ["seed:1"%string] /\
  forall x y, (Snapshot reverse_walk (run ex_tiers NewRegistry)).1 !! 1%nat = Some x ->
    (Snapshot reverse_walk (run ex_tiers NewRegistry)).1 !! 2%nat = Some y ->
    e_Tier x < e_Tier y \/ (e_Tier x = e_Tier y /\ e_Preference y <= e_Preference x).
Proof.
  split; [vm_compute; reflexivity|]. split; [vm_compute; reflexivity|]. intros x y.
  assert (Forall op_fair ex_tiers) as H by (repeat constructor; apply reverse_walk_fair).
  destruct (snapshot_spec ex_tiers reverse_walk H reverse_walk_fair) as (_ & Hord & _).
  apply (Hord 1%nat 2%nat). lia.
Defined.

Lemma registry_tracks_adverts_witness :
  entries (run [OpUpsert 0 (ex_advert 1 2 5); OpUpsert 7 (ex_advert 1 0 1); OpEvict 9] NewRegistry)
    !! 1 = Some (endpoint_of 7 (ex_advert 1 0 1)).
Proof.
  apply (registry_tracks_adverts
           [OpUpsert 0 (ex_advert 1 2 5); OpUpsert 7 (ex_advert 1 0 1); OpEvict 9] 9 1).
  - repeat constructor. simpl. lia.
  - vm_compute. reflexivity.
  - vm_compute. discriminate.
Defined.

Lemma advertised_endpoint_offered_witness :
  exists out, EncodeADVERT (ex_advert 3 1 1) (zeros 56) = Some out /\
    endpoint_of 5 (ex_advert 3 1 1) ∈
      (Snapshot reverse_walk (bl_Registry
         (beacon_datagram 5 out (mkBeaconListener NewRegistry None)))).1.
Proof.
  destruct (EncodeADVERT (ex_advert 3 1 1) (zeros 56)) as [out|] eqn:E; [|vm_compute in E; done].
  exists out. split; [done|].
  apply (advertised_endpoint_offered 5 (ex_advert 3 1 1) (zeros 56) out
           (mkBeaconListener NewRegistry None) reverse_walk).
  - repeat split; simpl; lia.
  - vm_compute. reflexivity.
  - vm_compute. lia.
  - exact E.
  - by intros s [=].
  - by intros e [=].
  - apply reverse_walk_fair.
Defined.
