(* ===== verification/Announce.v ===== *)
(** The subtree announcement listener of [discovery/subtree_announce.go]
    (BRC-127): it admits announcements by sender and feeds the subtree group
    registry that the filter consults. *)
From Stdlib Require Import ZArith Lia.
From S2P Require Import Prelude Net Frame FrameExample Metrics SubtreeGroup Filter.

Section Announce.
Context `{FL : FrameLib}.

(** [SubtreeAnnounceListener], without the sockets. *)
Record Listener := mkListener {
  Registry_ : Registry;
  DefaultTTL : Z;
  SenderInclude : list IPNet;
  SenderExclude : list IPNet;
  Rec : option Recorder;
}.

Definition with_rec_field (al : Listener) (m : Recorder -> Recorder) : Listener :=
  {| Registry_ := Registry_ al; DefaultTTL := DefaultTTL al; SenderInclude := SenderInclude al;
     SenderExclude := SenderExclude al; Rec := with_rec (Rec al) m |}.

Definition with_registry (al : Listener) (r : Registry) : Listener :=
  {| Registry_ := r; DefaultTTL := DefaultTTL al; SenderInclude := SenderInclude al;
     SenderExclude := SenderExclude al; Rec := Rec al |}.

(** The address of the UDP source; [[]] is the nil IP of an empty [UDPAddr]. *)
Definition sockaddrToUDP (sa : Sockaddr) : bytes :=
  match sa with SockaddrInet6 addr => addr | SockaddrOther => [] end.

Definition senderAllowed (al : Listener) (ip : bytes) : bool :=
  if existsb (fun cidr => IPNet_Contains cidr ip) (SenderExclude al) then false
  else if (length (SenderInclude al) =? 0)%nat then true
  else existsb (fun cidr => IPNet_Contains cidr ip) (SenderInclude al).

(** One datagram of [listenGroup]; the read buffer truncates it. [None] is a
    panic of the registry. *)
Definition announce_datagram (now : Z) (datagram : bytes) (from : Sockaddr) (al : Listener)
    : option Listener :=
  let buf := take (SubtreeAnnounceSize + 64) datagram in
  if (length buf <? SubtreeAnnounceSize)%nat
  then Some (with_rec_field al (SubtreeAnnounceRejected "too_short"))
  else if negb (senderAllowed al (sockaddrToUDP from))
  then Some (with_rec_field al (SubtreeAnnounceRejected "sender_filter"))
  else
    match DecodeSubtreeAnnounce buf with
    | None => Some (with_rec_field al (SubtreeAnnounceRejected "decode_error"))
    | Some ann =>
        let ttl := if 0 <? sa_TTL ann then sa_TTL ann * Second else DefaultTTL al in
        r ← Add now (sa_GroupID ann) (sa_SubtreeID ann) ttl (Registry_ al);
        Some (with_rec_field (with_registry al r) SubtreeAnnounceReceived)
    end.

(** One round of the receive loop: [true] when the loop goes on, [false] when
    [listenGroup] returns nil. *)
Definition announce_recv (now : Z) (ctx_done : bool) (o : Recv) (al : Listener)
    : option (bool * Listener) :=
  match o with
  | RecvErr (EAGAIN | EWOULDBLOCK) => Some (negb ctx_done, al)
  | RecvErr (EBADF | EINVAL) => Some (false, al)
  | RecvErr EINTR => Some (true, al)
  | RecvErr EOTHER => Some (negb ctx_done, al)
  | RecvData datagram from => al' ← announce_datagram now datagram from al; Some (true, al')
  end.

(** One tick of [evictLoop]: the registry is read again for its length. *)
Definition announce_tick (now : Z) (al : Listener) : Listener :=
  let '(evicted, r) := Evict now (Registry_ al) in
  with_rec_field (with_registry al r) (SubtreeGroupEvicted evicted (Len r)).

(** ** Admission *)

(** An announcement is admitted exactly when its sender is in no excluded
    network and, if any network is included, in one of those; exclusion wins. *)
Theorem senderAllowed_spec al ip :
  senderAllowed al ip = true <->
  (forall n, n ∈ SenderExclude al -> IPNet_Contains n ip = false) /\
  (SenderInclude al = [] \/ exists n, n ∈ SenderInclude al /\ IPNet_Contains n ip = true).
Proof.
  unfold senderAllowed. destruct (existsb _ (SenderExclude al)) eqn:He.
  - split; [done|]. intros [Hx _]. apply existsb_exists in He as (n & Hin & Hc).
    apply list_elem_of_In in Hin. by rewrite (Hx n Hin) in Hc.
  - assert (forall n, n ∈ SenderExclude al -> IPNet_Contains n ip = false) as Hx.
    { intros n Hin%list_elem_of_In. apply not_true_iff_false. intros Hc.
      apply not_true_iff_false in He. apply He, existsb_exists. eauto. }
    destruct (SenderInclude al) as [|n0 l] eqn:Ei; [naive_solver|].
    cbn [length Nat.eqb]. rewrite existsb_exists. split.
      * intros (n & Hin%list_elem_of_In & Hc). eauto.
      * intros (_ & [[=]|(n & Hin%list_elem_of_In & Hc)]). eauto.
Qed.

(** ** Every datagram is accounted for *)

Definition rejected (reason : string) : list point :=
  [mkPoint subtreeAnnouncesRejected 1 [AStr "reason" reason]].

(** What one datagram must do: a counter point and a change of the registry. *)
Definition announce_outcome (datagram : bytes) (from : Sockaddr) (al : Listener)
    : list point * option (bytes * bytes * Z) :=
  let buf := take (SubtreeAnnounceSize + 64) datagram in
  if (length buf <? SubtreeAnnounceSize)%nat then (rejected "too_short", None)
  else if negb (senderAllowed al (sockaddrToUDP from)) then (rejected "sender_filter", None)
  else match DecodeSubtreeAnnounce buf with
       | None => (rejected "decode_error", None)
       | Some ann => ([mkPoint subtreeAnnouncesReceived 1 []],
                      Some (sa_GroupID ann, sa_SubtreeID ann, sa_TTL ann))
       end.

Lemma announce_datagram_spec' now datagram from al rec :
  reg_ok (Registry_ al) -> Rec al = Some rec ->
  let o := announce_outcome datagram from al in
  exists al' rec', announce_datagram now datagram from al = Some al' /\
    Rec al' = Some rec' /\ adds rec' = adds rec ++ o.1 /\ length o.1 = 1%nat /\
    reg_ok (Registry_ al') /\
    forall g sid, stored (Registry_ al') g sid =
      match o.2 with
      | Some (g0, s0, secs) =>
          if decide (g = g0 /\ sid = s0 /\ g0 ∈ subscribedGroups (Registry_ al))
          then let ttl := if 0 <? secs then secs * Second else DefaultTTL al in
               Some (now + if ttl <=? 0 then defaultTTL (Registry_ al) else ttl)
          else stored (Registry_ al) g sid
      | None => stored (Registry_ al) g sid
      end.
Proof.
  intros Hok Hrec. cbn zeta. unfold announce_datagram, announce_outcome.
  destruct (_ <? _)%nat; [|destruct (negb _); [|destruct (DecodeSubtreeAnnounce _) as [ann|]]].
  3: { destruct (Add_ok now (sa_GroupID ann) (sa_SubtreeID ann)
         (if 0 <? sa_TTL ann then sa_TTL ann * Second else DefaultTTL al) _ Hok)
         as (r & Hr & Hok' & _ & _ & Hst).
       rewrite Hr. simpl. eexists _, _. split; [done|]. cbn [Rec with_rec_field with_registry].
       rewrite Hrec. by split_and!. }
  all: eexists _, _; split; [done|]; cbn [Rec with_rec_field with_registry]; rewrite Hrec;
    by split_and!.
Qed.

Definition announce_run (l : list (Z * bytes * Sockaddr)) (al : Listener) : option Listener :=
  foldl (fun acc d => acc ≫= announce_datagram d.1.1 d.1.2 d.2) (Some al) l.

Lemma value_adds c r r' l :
  adds r' = adds r ++ l ->
  value c r' = value c r +
    foldr (fun p acc => (if decide (p_counter p = c) then p_value p else 0) + acc) 0 l.
Proof. intros E. unfold value. by rewrite E, foldr_app, foldr_value, Z.add_comm. Qed.

(** No datagram panics the listener, and every one is counted exactly once,
    as received or as rejected. *)
Theorem announce_accounting l al rec :
  reg_ok (Registry_ al) -> Rec al = Some rec ->
  exists al' rec', announce_run l al = Some al' /\ Rec al' = Some rec' /\
    reg_ok (Registry_ al') /\
    value subtreeAnnouncesReceived rec' + value subtreeAnnouncesRejected rec' =
    value subtreeAnnouncesReceived rec + value subtreeAnnouncesRejected rec + Z.of_nat (length l).
Proof.
  intros Hok Hrec. induction l as [|[[now d] from] l IH] using rev_ind.
  - exists al, rec. simpl. split_and!; try done. lia.
  - destruct IH as (al1 & rec1 & Hrun & Hrec1 & Hok1 & Hv).
    destruct (announce_datagram_spec' now d from al1 rec1 Hok1 Hrec1)
      as (al2 & rec2 & Hd & Hrec2 & Hadds & _ & Hok2 & _).
    exists al2, rec2. unfold announce_run. rewrite foldl_snoc. fold (announce_run l al).
    rewrite Hrun. split_and!; try done. rewrite !(value_adds _ _ _ _ Hadds), length_app.
    unfold announce_outcome, rejected.
    destruct (_ <? _)%nat; [|destruct (negb _); [|destruct (DecodeSubtreeAnnounce _)]];
      simpl; lia.
Qed.
End Announce.

Arguments with_rec_field : clear implicits.

(** ** From the announcement to the filter *)

(** Dynamic subtree filtering works end to end. Once an admitted
    announcement of a subscribed group has been handled at [now], a filter in
    group mode lets the frames of that subtree through at every instant before
    its TTL is over, whatever evictions happen meanwhile. *)
Theorem announced_subtree_passes `{FL : FrameLib} now datagram from al al' t g0 fr secs g sid ts :
  announce_datagram now datagram from al = Some al' ->
  reg_ok (Registry_ al) -> is_Some (Rec al) ->
  (announce_outcome datagram from al).2 = Some (g, sid, secs) ->
  g ∈ subscribedGroups (Registry_ al) -> 0 < secs -> SubtreeID fr = sid ->
  Forall (fun te => te <= t) ts -> t < now + secs * Second ->
  let r := foldl (fun r te => (Evict te r).2) (Registry_ al') ts in
  (Allow (fun _ => t) g0 fr (Filter.New [] [] [] (Some r))).1 = true.
Proof.
  intros Had Hok [rec Hrec] Ho Hg Hs Hsid Hts Ht r.
  destruct (announce_datagram_spec' now datagram from al rec Hok Hrec)
    as (al1 & _ & Had1 & _ & _ & _ & Hok1 & Hst).
  rewrite Had in Had1. injection Had1 as <-. rewrite Ho in Hst.
  assert (stored (Registry_ al') g sid = Some (now + secs * Second)) as Hs1.
  { rewrite Hst, decide_True by done. rewrite (proj2 (Z.ltb_lt _ _)) by done. cbn zeta.
    by rewrite (proj2 (Z.leb_gt _ _)) by (unfold Second; lia). }
  assert (reg_ok r /\ stored r g sid = Some (now + secs * Second)) as [_ Hr].
  { subst r. clear Had Hst. revert Hts. induction ts as [|te ts IH] using rev_ind; [done|].
    intros [Hl [Hte _]%Forall_cons]%Forall_app. rewrite foldl_snoc.
    destruct (IH Hl) as [Hok2 Hs2]. destruct (Evict_ok te _ Hok2) as [Hok3 He].
    split; [done|]. rewrite He, Hs2, decide_False; [done|].
    unfold SubtreeGroup.expired. lia. }
  destruct (Allow (fun _ => t) g0 fr (Filter.New [] [] [] (Some r))) as [b reason] eqn:E.
  unfold Allow, Filter.New in E. simpl in E.
  rewrite Hsid, (proj2 (Contains_stored (fun _ => t) r sid)) in E by eauto.
  simpl in E. by injection E as <- _.
Qed.

(** ** Witnesses *)

(** Announces group [g1] and subtree [s1] for 20 seconds in the example layout. *)
Definition ex_announce : bytes := zeros 7 ++ [20] ++ g1 ++ s1.

Definition ex_listener : Listener :=
  mkListener (SubtreeGroup.New [g1] (60 * Second)) (60 * Second)
    [mkIPNet ([0xfd; 0] ++ zeros 14) ([0xff; 0xff] ++ zeros 14)] [] (Some (Metrics.New 1)).

Definition ex_source : Sockaddr := SockaddrInet6 ([0xfd; 0] ++ replicate 14 7).

Lemma announced_subtree_passes_witness :
  exists al', announce_datagram 0 ex_announce ex_source ex_listener = Some al' /\
    (Allow (fun _ => 19 * Second) 3 (mkFrame 2 (zeros 32) 0 1 s1 [])
      (Filter.New [] [] [] (Some (Evict (10 * Second) (Registry_ al')).2))).1 = true.
Proof.
  destruct (announce_datagram 0 ex_announce ex_source ex_listener) as [al'|] eqn:E;
    [|vm_compute in E; done].
  exists al'. split; [done|].
  apply (announced_subtree_passes 0 ex_announce ex_source ex_listener al' (19 * Second) 3
           (mkFrame 2 (zeros 32) 0 1 s1 []) 20 g1 s1 [10 * Second]).
  - exact E.
  - apply New_reg_ok.
  - by eexists.
  - vm_compute. reflexivity.
  - by apply (bool_decide_unpack _).
  - lia.
  - reflexivity.
  - repeat constructor. unfold Second. lia.
  - unfold Second. lia.
Defined.

Lemma announce_accounting_witness :
  exists al' rec',
    announce_run [(0, ex_announce, ex_source); (1, ex_announce, SockaddrOther); (2, [], ex_source)]
      ex_listener = Some al' /\ Rec al' = Some rec' /\
    value subtreeAnnouncesReceived rec' + value subtreeAnnouncesRejected rec' = 3.
Proof.
  destruct (announce_accounting
    [(0, ex_announce, ex_source); (1, ex_announce, SockaddrOther); (2, [], ex_source)]
    ex_listener (Metrics.New 1) (New_reg_ok _ _) eq_refl) as (al' & rec' & H1 & H2 & _ & H3).
  exists al', rec'. done.
Defined.
