(* ===== verification/ConfigProps.v ===== *)
(** What a loaded configuration satisfies, and what its textual lists and
    numbers mean. *)
From Stdlib Require Import ZArith Lia.
From S2P Require Import Prelude GoStrings GoTime Net Decimal NetParse NetParseProps.
From S2P Require Import Announce Config.

(** ** Validity *)

(** A sender network has a number and a mask of the same length. *)
Definition net_wf (n : IPNet) : Prop :=
  let '(nn, m) := networkNumberAndMask n in
  length nn = length m /\ (length nn = 4%nat \/ length nn = 16%nat).

(** The multicast parameters of an egress that is switched on. *)
Definition mc_ok (enabled : bool) (iface : option Interface) (scope : string) (prefix gid : Z) : Prop :=
  enabled = true ->
  is_Some iface /\ scope_prefix scope = Some prefix /\ 0 <= gid < 2 ^ 16.

Record valid (c : Config) : Prop := {
  va_bits : 1 <= ShardBits c <= 15;
  va_groups : NumGroups c = 2 ^ ShardBits c;
  va_prefix : scope_prefix (MCScope c) = Some (MCPrefix c);
  va_gid : 0 <= MCGroupID c < 2 ^ 16;
  va_proto : EgressProto c = "udp"%string \/ EgressProto c = "tcp"%string;
  va_header : HeaderEgressEnabled c = true ->
    HeaderEgressProto c = "udp"%string \/ HeaderEgressProto c = "tcp"%string;
  va_mc : mc_ok (MCEgressEnabled c) (MCEgressIface c) (MCEgressScope c) (MCEgressPrefix c)
            (MCEgressGroupID c);
  va_hmc : mc_ok (HeaderMCEgressEnabled c) (HeaderMCEgressIface c) (HeaderMCEgressScope c)
             (HeaderMCEgressPrefix c) (HeaderMCEgressGroupID c);
  va_workers : 0 < NumWorkers c;
  va_shards : Forall (fun i => 0 <= i < NumGroups c) (ShardInclude c);
  va_subtrees : Forall (fun i => length i = 32%nat /\ Forall is_byte i)
                  (SubtreeInclude c ++ SubtreeExclude c);
  va_subgroups : Forall (fun i => length i = 16%nat /\ Forall is_byte i) (SubtreeGroups c);
  va_scopes : AnnounceScopes c <> [] /\ Forall (fun s => is_Some (scope_prefix s)) (AnnounceScopes c);
  va_senders : Forall net_wf (SenderInclude c ++ SenderExclude c);
}.

Lemma require_inl {A E} (o : option A) (e : E) a : require o e = inl a <-> o = Some a.
Proof. destruct o; simpl; naive_solver. Qed.

Lemma or_else_inl {A E E'} (r : A + E) (e : E') a : or_else r e = inl a <-> r = inl a.
Proof. destruct r; simpl; naive_solver. Qed.

Lemma is_proto_spec p : is_proto p = true <-> p = "udp"%string \/ p = "tcp"%string.
Proof. unfold is_proto. by rewrite orb_true_iff, !String.eqb_eq. Qed.

Lemma parse_id_wf n h b : parse_id n h = inl b -> length b = n /\ Forall is_byte b.
Proof.
  unfold parse_id. destruct (hex_DecodeString _) as [d|] eqn:E; [|done].
  destruct (Nat.eqb_spec (length d) n) as [Hl|]; [|done]. intros [= <-]. split; [done|].
  by eapply hex_decoded_bytes.
Qed.

(** Every element a parser collected satisfies what one element does. *)
Lemma collect_Forall {A B E} (f : A -> B + E) (P : B -> Prop) l out :
  (forall x y, f x = inl y -> P y) -> collect f l = inl out -> Forall P out.
Proof.
  intros Hf H%collect_Forall2. induction H as [|x y l out Hxy _ IH]; constructor; [by eapply Hf|done].
Qed.

Lemma parseGroupID_range s n : parseGroupID s = inl n -> 0 <= n < 2 ^ 16.
Proof.
  unfold parseGroupID, parse_group. set (t := TrimSpace _). destruct (_ =? 0)%nat; [done|].
  set (q := if HasPrefix _ _ then _ else _).
  assert (q.2 = 10 \/ q.2 = 16) as Hq.
  { subst q. destruct (HasPrefix _ _); [by right|]. destruct (ParseUint t 10 16); [by left|by right]. }
  destruct q as [d base]. cbn [snd] in Hq. destruct (ParseUint d base 16) as [v|] eqn:E; [|done].
  intros [= <-]. apply ParseUint_range in E; [done|lia..].
Qed.

Lemma own_family_wf n l : own_family n l -> net_wf n.
Proof.
  intros Ho. unfold net_wf. rewrite (network_own n l Ho). destruct Ho as (_ & -> & -> & Hl). done.
Qed.

(** An IPv6 prefix that masks to an IPv4-mapped number is read as one. *)
Lemma mapped_wf nn m :
  length nn = 16%nat -> length m = 16%nat -> To4 nn <> [] -> net_wf (mkIPNet nn m).
Proof.
  intros Hn Hm H4. unfold net_wf, networkNumberAndMask. cbn [n_IP n_Mask].
  destruct (length_To4 nn) as [|Hl]; [done|]. rewrite Hl, Hm. cbn. rewrite Hl. cbn. split; [rewrite length_drop; lia|by left].
Qed.

Lemma parse_sender_wf addr n : parse_sender addr = inl n -> net_wf n.
Proof.
  unfold parse_sender. case_bool_decide.
  - destruct (ParseCIDR addr) as [n0|] eqn:E; [|done]. intros [= <-].
    apply ParseCIDR_spec in E as (a & mk & ip & k & _ & Ha & _ & _ & Hn & Hf).
    apply ParseAddr_wf in Ha as [[Hl|Hl] _]; [eapply own_family_wf, Hf; by left|].
    destruct (decide (To4 (n_IP n0) = [])) as [H4|H4]; [eapply own_family_wf, Hf; by right|].
    subst n0. cbn [n_IP] in H4. apply mapped_wf.
    + rewrite length_masked; [done|by rewrite length_CIDRMask].
    + by rewrite length_CIDRMask.
    + done.
  - destruct (ParseIP addr) as [ip|] eqn:E; [|done]. intros [= <-].
    unfold ParseIP in E. apply fmap_Some in E as (a & Ha & ->).
    apply ParseAddr_wf in Ha as [Hl _].
    assert (length (To16 a) = 16%nat) as H16 by (by apply length_To16).
    set (ip := To16 a) in *. unfold net_wf, networkNumberAndMask. cbn [n_IP n_Mask].
    destruct (length_To4 ip) as [H4|H4]; rewrite H4; cbn [negb length Nat.eqb].
    + pose proof (length_CIDRMask 128 (Z.to_nat (128 / 8))) as Hm.
      revert Hm. generalize (CIDRMask 128 (Z.to_nat (128 / 8))). intros m Hm.
      change (Z.to_nat (128 / 8)) with 16%nat in Hm. rewrite H16, Hm. cbn. rewrite H16, Hm. auto.
    + pose proof (length_CIDRMask 32 (Z.to_nat (32 / 8))) as Hm.
      revert Hm. generalize (CIDRMask 32 (Z.to_nat (32 / 8))). intros m Hm.
      change (Z.to_nat (32 / 8)) with 4%nat in Hm. rewrite Hm. cbn. rewrite H4. cbn.
      rewrite H4, Hm. auto.
Qed.

Lemma resolve_mc_ok byname en sc gid ifn port e1 e2 e3 isc ig ip ii t :
  resolve_mc byname en sc gid ifn port e1 e2 e3 isc ig ip ii = inl t -> 0 <= ig < 2 ^ 16 ->
  mc_ok en (t_Iface t) (t_Scope t) (t_Prefix t) (t_GroupID t).
Proof.
  unfold resolve_mc, mc_ok. destruct en; [|done]. cbn [negb]. intros H Hig _. ok_steps H.
  injection H as <-. cbn. apply require_inl in Ha. split_and!; [by eexists|done|..];
    (destruct (String.eqb gid ""); [injection Ha0 as <-; lia|];
     apply or_else_inl, parseGroupID_range in Ha0; lia).
Qed.

Lemma parse_shard_range g s i : parse_shard g s = inl i -> 0 <= i < g.
Proof.
  unfold parse_shard. intros H. ok_steps H. injection H as <-.
  apply or_else_inl, ParseUint_range in Ha; [|lia..]. apply Z.leb_gt in Ha0. lia.
Qed.

Lemma parse_announce_scope_known s n : parse_announce_scope s = inl n -> is_Some (scope_prefix n).
Proof. unfold parse_announce_scope. intros H. ok_steps H. injection H as <-. apply require_inl in Ha. by eexists. Qed.

Lemma ids_wf n s l :
  collect (parse_id n) (entries s) = inl l -> Forall (fun i => length i = n /\ Forall is_byte i) l.
Proof. apply collect_Forall. intros x y. apply parse_id_wf. Qed.

Lemma validate_valid byname NumCPU f c :
  0 < NumCPU -> validate byname NumCPU f = inl c -> valid c.
Proof.
  intros Hcpu H. unfold validate in H. ok_steps H. unfold parse_lists in Ha7. ok_steps Ha7.
  injection Ha7 as <-. apply orb_false_iff in Ha as [Hb1%Z.ltb_ge Hb2%Z.ltb_ge].
  injection H as <-.
  repeat match goal with
    | Hr : require _ _ = inl _ |- _ => apply require_inl in Hr
    | Hr : or_else _ _ = inl _ |- _ => apply or_else_inl in Hr
    end.
  pose proof (parseGroupID_range _ _ Ha1) as Hgid.
  pose proof (resolve_mc_ok _ _ _ _ _ _ _ _ _ _ _ _ _ _ Ha4 Hgid) as Hmc.
  pose proof (resolve_mc_ok _ _ _ _ _ _ _ _ _ _ _ _ _ _ Ha6 Hgid) as Hhmc.
  apply negb_false_iff, is_proto_spec in Ha2.
  split; cbn; try done.
  - rewrite Z.shiftl_mul_pow2 by lia. lia.
  - intros Hen. rewrite Hen in Ha5. by apply negb_false_iff, is_proto_spec in Ha5.
  - zcases.
  - revert Ha8. apply collect_Forall. intros x y. apply parse_shard_range.
  - apply Forall_app; split; by eapply ids_wf.
  - by eapply ids_wf.
  - case_bool_decide as E.
    + split; [done|]. apply Forall_singleton. vm_compute. eauto.
    + split; [done|]. revert Ha12. apply collect_Forall, parse_announce_scope_known.
  - apply Forall_app; split; [revert Ha13|revert Ha14]; apply collect_Forall, parse_sender_wf.
Qed.

(** C22: [Load] checks what the rest of the program relies on. Whatever the
    environment, the command line and the interfaces of the host, a
    configuration it returns has its shard bits in range and the group count
    they give, known scopes and their prefixes, 16-bit group ids, protocols the
    senders implement, an interface for every enabled multicast egress, at
    least one worker, shards below the group count, identifiers of the right
    length, at least one announcement scope, and well-formed sender
    networks. *)
Theorem load_valid getenv byname NumCPU parse c :
  0 < NumCPU -> Load getenv byname NumCPU parse = inl c -> valid c.
Proof. intros Hcpu. by apply validate_valid. Qed.

(** ** Group ids *)

(** The four digits are decimal digits, and what they say as such. *)
Definition looks_decimal (n : Z) : bool := forallb (fun d => d <? 10) (nibbles n).
Definition as_decimal (n : Z) : Z := digits_value 10 (nibbles n).

Lemma parseGroupID_plain s : forallb plain s = true -> parseGroupID (string_of s) = parse_group s.
Proof. intros H. unfold parseGroupID. by rewrite TrimSpace_string. Qed.

Lemma parse_group_prefix c n :
  c = 120 \/ c = 88 -> 0 <= n < 2 ^ 16 -> parse_group (48 :: c :: hex4 n) = inl n.
Proof.
  intros Hc Hn. unfold parse_group. cbn [length Nat.eqb].
  assert (HasPrefix (ToLower (48 :: c :: hex4 n)) (bytes_of "0x") = true) as ->
    by (unfold HasPrefix; by destruct Hc as [->| ->]; apply bool_decide_eq_true_2).
  cbn [drop]. rewrite drop_0. by rewrite ParseUint_hex4.
Qed.

(** A second character that is no x in either case. *)
Lemma no_prefix c d s :
  is_digit d = true \/ 97 <= d <= 102 -> HasPrefix (ToLower (c :: d :: s)) (bytes_of "0x") = false.
Proof.
  intros Hd. unfold HasPrefix. apply bool_decide_eq_false_2. cbn. intros [= _ H].
  change (code _) with 120 in H.
  unfold is_digit in Hd. revert H. destruct Hd as [[?%Z.leb_le ?%Z.leb_le]%andb_true_iff|?]; zcases.
Qed.

Lemma parse_group_decimal n : 0 <= n < 2 ^ 16 -> parse_group (decimal n) = inl n.
Proof.
  intros Hn. pose proof (decimal_digits n ltac:(lia)) as Hd.
  destruct (decimal_spells n ltac:(lia)) as (_ & _ & _ & Hne). unfold parse_group.
  pose proof (ParseUint_decimal n 16 ltac:(lia) Hn) as Hp.
  destruct (decimal n) as [|c s]; [done|]. cbn [length Nat.eqb].
  assert (HasPrefix (ToLower (c :: s)) (bytes_of "0x") = false) as ->.
  { destruct s as [|d s]; [by apply bool_decide_eq_false_2|]. apply no_prefix. left.
    apply Forall_cons in Hd as [_ Hd]. by apply Forall_cons in Hd as [Hd _]. }
  by rewrite !Hp.
Qed.

Lemma parse_group_bare n :
  0 <= n < 2 ^ 16 -> parse_group (hex4 n) = inl (if looks_decimal n then as_decimal n else n).
Proof.
  intros Hn. pose proof (nibbles_range n Hn) as Hr. unfold parse_group.
  assert (HasPrefix (ToLower (hex4 n)) (bytes_of "0x") = false) as ->.
  { unfold hex4, nibbles. cbn [fmap list_fmap]. apply no_prefix.
    unfold is_digit, toHex. pose proof (Z.mod_pos_bound (n / 256) 16). zcases. }
  change (length (hex4 n) =? 0)%nat with false. cbv iota beta.
  assert (mapM digit_of (hex4 n) = Some (nibbles n)) as Hm by apply (spells_hex (nibbles n) Hr).
  unfold looks_decimal. destruct (forallb _ (nibbles n)) eqn:E.
  - assert (ParseUint (hex4 n) 10 16 = inl (as_decimal n)) as Hp; [|rewrite Hp; cbv iota beta; by rewrite Hp].
    rewrite forallb_forall in E. apply ParseUint_spells; [lia|lia|done| |].
    + split; [done|]. rewrite Forall_forall in *. intros d Hd. specialize (Hr d Hd).
      apply list_elem_of_In, E, Z.ltb_lt in Hd. cbn in Hr. lia.
    + unfold as_decimal, digits_value, nibbles in *. cbn [foldl].
      assert (forall d, In d [n / 4096; n / 256 mod 16; n / 16 mod 16; n mod 16] -> d <= 9) as H9
        by (intros d Hd%E%Z.ltb_lt; lia).
      pose proof (H9 (n / 4096) ltac:(simpl; auto)). pose proof (H9 (n / 256 mod 16) ltac:(simpl; auto)).
      pose proof (H9 (n / 16 mod 16) ltac:(simpl; auto)). pose proof (H9 (n mod 16) ltac:(simpl; auto)).
      lia.
  - assert (exists d, d ∈ nibbles n /\ 10 <= d) as (d & Hd & Hge).
    { apply not_true_iff_false in E. rewrite forallb_forall in E.
      destruct (decide (Exists (fun d => 10 <= d) (nibbles n))) as [He|He].
      - apply Exists_exists in He as (d & ? & ?). by exists d.
      - exfalso. apply E. intros d Hd. apply Z.ltb_lt.
        apply not_Exists_Forall in He; [|apply _]. rewrite Forall_forall in He.
        apply list_elem_of_In in Hd. specialize (He d Hd). cbn in He. lia. }
    destruct (ParseUint_refuses 10 16 (hex4 n) (nibbles n) d) as [e ->]; try done; try lia.
    by rewrite ParseUint_hex4.
Qed.

(** A group id is read back from its decimal form and from its hexadecimal
    form with a prefix, in either case, for all 65536 ids; without the prefix a
    four-digit hexadecimal id is read back only if one of its digits is a
    letter, and otherwise taken for a decimal number. *)
Theorem group_id_forms n :
  0 <= n < 2 ^ 16 ->
  parseGroupID (string_of (decimal n)) = inl n /\
  parseGroupID (string_of (bytes_of "0x" ++ hex4 n)) = inl n /\
  parseGroupID (string_of (bytes_of "0X" ++ hex4 n)) = inl n /\
  parseGroupID (string_of (hex4 n)) = inl (if looks_decimal n then as_decimal n else n).
Proof.
  intros Hn. pose proof (hex4_plain n Hn) as Hp.
  rewrite !parseGroupID_plain by (done || apply decimal_plain; lia).
  split_and!; [by apply parse_group_decimal|apply parse_group_prefix; auto..|by apply parse_group_bare].
Qed.

Lemma group_id_forms_witness :
  parseGroupID "11" = inl 11 /\ parseGroupID "0x000b" = inl 11 /\ parseGroupID "000b" = inl 11 /\
  parseGroupID "0010" = inl 10.
Proof.
  destruct (group_id_forms 11) as (H1 & H2 & _ & H4); [lia|].
  destruct (group_id_forms 16) as (_ & _ & _ & H5); [lia|].
  split; [exact H1|]. split; [exact H2|]. split; [exact H4|exact H5].
Defined.

(** ** Lists *)

(** An entry that a list gives back as it is. *)
Definition entry_ok (p : bytes) : Prop := p <> [] /\ forallb plain p = true /\ 44 ∉ p.

Lemma string_of_nonempty b : Forall is_byte b -> b <> [] -> String.eqb (string_of b) "" = false.
Proof.
  intros Hb Hne. apply String.eqb_neq. intros E. apply (f_equal bytes_of) in E.
  by rewrite bytes_of_string_of in E.
Qed.

Lemma join_plain l : Forall entry_ok l -> forallb plain (join 44 l) = true.
Proof.
  induction 1 as [|p l (_ & Hp & _) Hl IH]; [done|]. cbn [join].
  destruct l as [|q l]; [done|]. rewrite forallb_app, Hp. exact IH.
Qed.

Lemma filter_nonempty l : Forall entry_ok l -> filter (fun h => h <> []) l = l.
Proof.
  induction 1 as [|q r (Hq & _) Hr IH]; [done|]. rewrite filter_cons_True by done. by rewrite IH.
Qed.

Lemma entries_join l : Forall entry_ok l -> Config.entries (string_of (join 44 l)) = l.
Proof.
  intros Hl. unfold Config.entries, splitComma. destruct l as [|p l]; [done|].
  pose proof (plain_bytes _ (join_plain _ Hl)) as Hb.
  rewrite string_of_nonempty, bytes_of_string_of, Split_join; try done.
  - assert (TrimSpace <$> p :: l = p :: l) as ->.
    { rewrite <- (list_fmap_id (p :: l)) at 2. apply list_fmap_ext. intros i q Hq.
      apply TrimSpace_plain. by apply (Forall_lookup_1 _ _ _ _ Hl Hq). }
    by apply filter_nonempty.
  - eapply Forall_impl; [exact Hl|]. by intros q (_ & _ & ?).
  - apply Forall_cons in Hl as [(Hp & _) _]. destruct p; [done|]. by destruct l.
Qed.

Lemma collect_map {A B C E} (f : B -> C + E) (g : A -> B) (h : A -> C) l :
  Forall (fun x => f (g x) = inl (h x)) l -> collect f (g <$> l) = inl (h <$> l).
Proof. intros H. apply collect_Forall2, Forall2_fmap_2, Forall_Forall2_diag. exact H. Qed.

(** An identifier as operators write it, with or without the prefix. *)
Definition id_text (x : bool * bytes) : bytes :=
  (if x.1 then bytes_of "0x" else []) ++ hex_EncodeToString x.2.

Definition is_id (n : nat) (x : bool * bytes) : Prop := length x.2 = n /\ Forall is_byte x.2.

Lemma hex_chars b :
  Forall is_byte b -> Forall (fun c => is_digit c = true \/ 97 <= c <= 102) (hex_EncodeToString b).
Proof.
  induction 1 as [|c b Hc Hb IH]; [constructor|]. destruct (byte_nibbles c Hc) as [Hh Hl].
  assert (forall d, 0 <= d < 16 -> is_digit (toHex d) = true \/ 97 <= toHex d <= 102) as Hd
    by (intros d Hd; unfold is_digit, toHex; zcases).
  unfold hex_EncodeToString in *. cbn [mbind list_bind app]. auto.
Qed.

Lemma hex_no_prefix b : Forall is_byte b -> HasPrefix (hex_EncodeToString b) (bytes_of "0x") = false.
Proof.
  intros Hb%hex_chars. unfold HasPrefix. apply bool_decide_eq_false_2.
  destruct (hex_EncodeToString b) as [|c [|d s]]; [done|done|]. cbn. intros [= _ H].
  change (code _) with 120 in H. apply Forall_cons in Hb as [_ Hb].
  apply Forall_cons in Hb as [[Hd|Hd] _]; [|lia]. unfold is_digit in Hd.
  apply andb_true_iff in Hd as [_ Hd%Z.leb_le]. lia.
Qed.

Lemma parse_id_text n x : is_id n x -> parse_id n (id_text x) = inl x.2.
Proof.
  intros [Hl Hb]. unfold parse_id, TrimPrefix, id_text. destruct x as [[] b]; cbn [fst snd] in *.
  - assert (HasPrefix (bytes_of "0x" ++ hex_EncodeToString b) (bytes_of "0x") = true) as ->
      by (by apply bool_decide_eq_true_2).
    rewrite drop_app_length' by done. by rewrite hex_roundtrip, Hl, Nat.eqb_refl.
  - cbn [app]. rewrite hex_no_prefix by done. by rewrite hex_roundtrip, Hl, Nat.eqb_refl.
Qed.

Lemma id_text_ok n x : (0 < n)%nat -> is_id n x -> entry_ok (id_text x).
Proof.
  intros Hn [Hl Hb]. unfold id_text. split_and!.
  - pose proof (length_hex_encode x.2) as H. intros [_ E]%app_eq_nil. rewrite E in H. simpl in H. lia.
  - rewrite forallb_app, hex_encode_plain by done. by destruct x.1.
  - intros [H|H]%elem_of_app.
    + destruct x.1; [|by apply elem_of_nil in H].
      apply list_elem_of_In in H. destruct H as [H|[H|[]]]; vm_compute in H; discriminate H.
    + pose proof (hex_chars _ Hb) as Hc. rewrite Forall_forall in Hc.
      destruct (Hc 44 H) as [E|E]; [discriminate E|lia].
Qed.

(** C36: the identifier lists are read as they are written: any list of 32-byte
    subtree ids (and likewise of 16-byte group ids), each in hexadecimal with
    or without the prefix, separated by commas, is parsed into those ids in
    order. *)
Theorem id_lists_roundtrip subtrees groups :
  Forall (is_id 32) subtrees -> Forall (is_id 16) groups ->
  parseSubtreeList (string_of (join 44 (id_text <$> subtrees))) = inl subtrees.*2 /\
  parseGroupList (string_of (join 44 (id_text <$> groups))) = inl groups.*2.
Proof.
  intros Hs Hg. unfold parseSubtreeList, parseGroupList.
  rewrite !entries_join by (apply Forall_fmap; eapply Forall_impl; [done|];
    intros x Hx; cbn; eapply id_text_ok; [|exact Hx]; lia).
  split; apply collect_map; (eapply Forall_impl; [done|]; intros x Hx; by apply parse_id_text).
Qed.

Lemma id_lists_roundtrip_witness :
  parseSubtreeList (string_of (join 44 (id_text <$> [(true, zeros 32); (false, replicate 32 171)]))) =
    inl [zeros 32; replicate 32 171].
Proof.
  assert (forall n z, is_byte z -> Forall is_byte (replicate n z)) as Hr
    by (intros; by apply Forall_replicate).
  apply (id_lists_roundtrip [(true, zeros 32); (false, replicate 32 171)] []).
  - apply Forall_cons; split; [split; [reflexivity|apply Hr; unfold is_byte; lia]|].
    apply Forall_cons; split; [split; [reflexivity|apply Hr; unfold is_byte; lia]|apply Forall_nil_2].
  - apply Forall_nil_2.
Defined.

(** ** Senders *)

(** One address as a sender is the network of that address alone. *)
Definition host_net (b : bytes) : IPNet := mkIPNet (v4InV6Prefix ++ b) (CIDRMask 32 4).

Lemma parse_sender_dotted b :
  length b = 4%nat -> Forall is_byte b ->
  parse_sender (dotted b) = inl (host_net b).
Proof.
  intros Hl Hb. unfold parse_sender.
  rewrite bool_decide_eq_false_2 by (by apply dotted_avoids).
  by rewrite ParseIP_dotted, To4_mapped, Hl.
Qed.

Lemma To4_canon x b : length b = 4%nat -> canon x = b <-> To4 x = b.
Proof.
  intros Hl. unfold canon. destruct (Nat.eqb_spec (length (To4 x)) 0) as [E|E]; [|done].
  split; intros H; exfalso.
  - subst b. unfold To4 in E. rewrite Hl in E. simpl in E. lia.
  - subst b. lia.
Qed.

Lemma Contains_single b x :
  length b = 4%nat -> Forall is_byte b -> Forall is_byte x ->
  IPNet_Contains (host_net b) x = true <-> To4 x = b.
Proof.
  intros Hl Hb Hx. rewrite <- To4_canon by done.
  unfold IPNet_Contains, networkNumberAndMask, host_net. cbn [n_IP n_Mask]. rewrite To4_mapped, Hl by done.
  change (4 =? 0)%nat with false. cbv iota beta. rewrite length_CIDRMask. cbn [Nat.eqb].
  rewrite Hl. cbn [Nat.eqb]. cbv iota beta. fold (canon x).
  rewrite andb_true_iff, Nat.eqb_eq, bool_decide_eq_true, Hl.
  change (CIDRMask 32 4) with (CIDRMask (8 * Z.of_nat 4) 4). rewrite CIDRMask_full.
  pose proof (masked_full b Hb) as M1. pose proof (masked_full (canon x) (canon_bytes x Hx)) as M2.
  rewrite Hl in M1. split.
  - intros [E H]. rewrite E in M2. congruence.
  - intros ->. by rewrite Hl.
Qed.

Lemma dotted_ok b : length b = 4%nat -> Forall is_byte b -> entry_ok (dotted b).
Proof.
  intros Hl Hb. pose proof (dotted_chars b Hb) as Hc. split_and!.
  - intros E. pose proof (ParseIP_dotted b Hl Hb) as H. by rewrite E in H.
  - apply forallb_forall. intros c Hin. apply list_elem_of_In in Hin.
    rewrite Forall_forall in Hc. destruct (Hc c Hin) as [H| ->]; [by apply digit_plain|done].
  - by apply dotted_avoids.
Qed.

(** A list of trusted senders means what it says. When -sender-include is a
    list of IPv4 addresses and nothing is excluded, the announcement listener
    built from it admits exactly the datagrams that come from one of those
    addresses, plain or in their IPv6-mapped form. *)
Theorem sender_list_exact l nets al ip :
  l <> [] -> Forall (fun b => length b = 4%nat /\ Forall is_byte b) l ->
  parseIPNetList (string_of (join 44 (dotted <$> l))) = inl nets ->
  Announce.SenderInclude al = nets -> Announce.SenderExclude al = [] -> Forall is_byte ip ->
  senderAllowed al ip = true <-> To4 ip ∈ l.
Proof.
  intros Hne Hl Hp Hi He Hip. unfold parseIPNetList in Hp.
  rewrite entries_join in Hp by (apply Forall_fmap; eapply Forall_impl; [exact Hl|];
    intros b [? ?]; by apply dotted_ok).
  rewrite (collect_map parse_sender dotted host_net l) in Hp
    by (eapply Forall_impl; [exact Hl|]; intros b [? ?]; by apply parse_sender_dotted).
  assert (nets = host_net <$> l) as -> by congruence. clear Hp. unfold senderAllowed. rewrite He, Hi.
  destruct (Nat.eqb_spec (length (host_net <$> l)) 0) as [E|_];
    [rewrite length_fmap in E; by destruct l|].
  change (existsb _ []) with false. cbv iota. rewrite existsb_exists.
  rewrite Forall_forall in Hl. split.
  - intros (n & Hn & Hc). apply list_elem_of_In, list_elem_of_fmap in Hn as (b & -> & Hb).
    destruct (Hl b Hb) as [? ?]. by apply Contains_single in Hc as ->.
  - intros Hin. destruct (Hl _ Hin) as [? ?]. eexists. split.
    + apply list_elem_of_In, list_elem_of_fmap. eexists. split; [reflexivity|exact Hin].
    + by apply Contains_single.
Qed.

(** A CIDR admits the addresses that share its leading bits. A network read
    from text contains exactly the addresses of its own family whose first [k]
    bits are those of the number before the slash. *)
Theorem cidr_contains s n addr mask ip k x :
  parse_sender s = inl n -> Cut 47 s = Some (addr, mask) -> ParseAddr addr = Some ip ->
  dtoi mask = Some k -> length ip = 4%nat \/ To4 (n_IP n) = [] -> Forall is_byte x ->
  IPNet_Contains n x = true <-> length (canon x) = length ip /\ top k ip = top k (canon x).
Proof.
  intros Hs Hc Ha Hd Hf Hx. unfold parse_sender in Hs.
  assert (47 ∈ s) as Hin.
  { clear -Hc. revert addr Hc. induction s as [|c s IH]; intros addr; cbn [Cut]; [done|].
    destruct (Z.eqb_spec c 47) as [->|]; [intros _; by left|].
    destruct (Cut 47 s) as [[a b]|]; [|simpl; done]. intros [= _ <-]. right. by eapply IH. }
  rewrite bool_decide_eq_true_2 in Hs by done.
  destruct (ParseCIDR s) as [n0|] eqn:E; [|done]. injection Hs as ->.
  apply ParseCIDR_spec in E as (a & m & i & k' & Hc' & Ha' & Hd' & Hk & Hn & Ho).
  rewrite Hc in Hc'. injection Hc' as <- <-. rewrite Ha in Ha'. injection Ha' as <-.
  rewrite Hd in Hd'. injection Hd' as <-. destruct (ParseAddr_wf _ _ Ha) as [_ Hb].
  apply (prefix_contains ip n k x); auto using canon_bytes.
Qed.

Lemma sender_list_exact_witness :
  let al := mkListener (SubtreeGroup.New [] 1) 1 (host_net <$> [[192; 0; 2; 10]; [10; 0; 0; 1]]) [] None in
  senderAllowed al (v4InV6Prefix ++ [192; 0; 2; 10]) = true /\
  ~ senderAllowed al (v4InV6Prefix ++ [192; 0; 2; 11]) = true.
Proof.
  assert (Forall (fun b => length b = 4%nat /\ Forall is_byte b) [[192; 0; 2; 10]; [10; 0; 0; 1]]) as Hl.
  { apply Forall_cons; split; [split; [reflexivity|by apply bytes_check]|].
    apply Forall_cons; split; [split; [reflexivity|by apply bytes_check]|apply Forall_nil_2]. }
  cbv zeta. set (al := mkListener _ _ _ _ _).
  assert (forall ip, Forall is_byte ip ->
    senderAllowed al ip = true <-> To4 ip ∈ [[192; 0; 2; 10]; [10; 0; 0; 1]]) as H.
  { intros ip Hip. apply (sender_list_exact _ (host_net <$> [[192; 0; 2; 10]; [10; 0; 0; 1]]) al ip);
      [discriminate|exact Hl|vm_compute; reflexivity|reflexivity|reflexivity|exact Hip]. }
  split.
  - apply H; [by apply bytes_check|]. apply (bool_decide_unpack _). vm_compute. exact I.
  - intros Ha. apply H in Ha; [|by apply bytes_check].
    revert Ha. apply (bool_decide_unpack _). vm_compute. exact I.
Defined.

Lemma cidr_contains_witness :
  exists n, parse_sender (bytes_of "fd00:1::/34") = inl n /\
    IPNet_Contains n ([0xfd; 0; 0; 1; 0x3f] ++ zeros 11) = true /\
    ~ IPNet_Contains n ([0xfd; 0; 0; 1; 0x40] ++ zeros 11) = true.
Proof.
  destruct (parse_sender (bytes_of "fd00:1::/34")) as [n|] eqn:E; [|vm_compute in E; discriminate E].
  exists n. split; [reflexivity|].
  assert (To4 (n_IP n) = []) as H4 by (vm_compute in E; injection E as <-; reflexivity).
  assert (forall x, Forall is_byte x -> IPNet_Contains n x = true <->
    length (canon x) = 16%nat /\ top 34 ([0xfd; 0; 0; 1] ++ zeros 12) = top 34 (canon x)) as H.
  { intros x Hx. apply (cidr_contains (bytes_of "fd00:1::/34") n (bytes_of "fd00:1::") (bytes_of "34")
      ([0xfd; 0; 0; 1] ++ zeros 12) 34 x E);
      [vm_compute; reflexivity|vm_compute; reflexivity|vm_compute; reflexivity|right; exact H4|exact Hx]. }
  split.
  - apply H; [by apply bytes_check|]. vm_compute. split; reflexivity.
  - intros Ha. apply H in Ha; [|by apply bytes_check]. vm_compute in Ha. destruct Ha as [_ Ha]. discriminate Ha.
Defined.

(** The defaults load on a host with one interface. *)
Definition ex_ifaces (name : string) : option Interface :=
  if String.eqb name "eth0" then Some (mkInterface 2 "eth0") else None.
Definition ex_getenv (key : string) : string :=
  if String.eqb key "SHARD_INCLUDE" then "0, 3" else if String.eqb key "NACK_JITTER_MAX" then "-1ms"
  else if String.eqb key "SENDER_INCLUDE" then "fd00::/8,10.1.2.3" else "".

Lemma load_valid_witness :
  exists c, Load ex_getenv ex_ifaces 4 (fun f => f) = inl c /\ valid c /\
    ShardInclude c = [0; 3] /\ NACKJitterMax c = - Millisecond.
Proof.
  destruct (Load ex_getenv ex_ifaces 4 (fun f => f)) as [c|] eqn:E; [|vm_compute in E; discriminate E].
  exists c. split; [reflexivity|]. split; [apply (load_valid ex_getenv ex_ifaces 4 (fun f => f)); [lia|exact E]|].
  vm_compute in E. injection E as <-. split; reflexivity.
Defined.
