(* ===== verification/Nack.v ===== *)
(** The gap tracker of [nack/nack.go]: per-flow sequence tracking, the pending
    gaps with their retry state, the sweeper, and the NACK exchange with the
    retry endpoints, as operations on one tracker state. *)
From Stdlib Require Import ZArith Lia.
From S2P Require Import Prelude Metrics Wire Discovery.

(** ** Data *)

(** [TrackerConfig]. *)
Record TrackerConfig := mkConfig {
  JitterMax : Z;
  BackoffMax : Z;
  MaxRetries : Z;
  GapTTL : Z;
  TailTTL : Z;
  SeqResetThreshold : Z;
}.

Definition ctrlGroupControl : Z := 0xFFFE.
Definition ctrlGroupSubtreeAnnounce : Z := 0xFFFB.

Definition flowLabel (groupIdx : Z) : string :=
  if groupIdx =? ctrlGroupControl then "brc131"
  else if groupIdx =? ctrlGroupSubtreeAnnounce then "brc132"
  else "brc124".

(** [gapEntry]. *)
Record gapEntry := mkGap {
  g_hashKey : Z;
  g_seqNum : Z;
  g_groupIdx : Z;
  g_subtreeID : bytes;
  retries : Z;
  nextAttempt : Z;
  deadline : Z;
  endpointIdx : Z;
}.

(** [flowState]. *)
Record flowState := mkFlow {
  lastSeqNum : Z;
  f_groupIdx : Z;
  f_subtreeID : bytes;
  flowType : string;
  pending : gmap Z gapEntry;
  lastSeen : Z;
}.

(** A [sendNACK] goroutine: launched, or waiting for the response to a NACK it
    sent when the snapshot had that many endpoints. Both carry the private copy
    of the gap entry the sweep queued. *)
Inductive flight := Launched (e : gapEntry) | Awaiting (e : gapEntry) (numEndpoints : Z).

(** [Tracker]. [waiting] is the entry [dispatchLoop] has taken from the queue
    while it waits for the semaphore, [flights] the goroutines that hold a
    slot of it, and [wire] the NACK datagrams sent so far, for the theorems. *)
Record Tracker := mkTracker {
  cfg : TrackerConfig;
  rec : option Recorder;
  registry : Registry;
  respTimeout : Z;
  flows : gmap Z flowState;
  nackQueue : list gapEntry;
  waiting : option gapEntry;
  flights : list flight;
  wire : list (string * bytes);
}.

Definition maxConcurrent : nat := 64.
Definition queueCap : nat := 4096.

Definition New (c : TrackerConfig) (retryEndpoints : list string) (rec_ : option Recorder)
    (registry_ : option Registry) : Tracker :=
  let registry := default NewRegistry registry_ in
  let registry := if (0 <? length retryEndpoints)%nat
                  then Seed retryEndpoints registry else registry in
  {| cfg := c; rec := rec_; registry := registry; respTimeout := 300 * Millisecond;
     flows := ∅; nackQueue := []; waiting := None; flights := []; wire := [] |}.

Definition with_flows (t : Tracker) (fl : gmap Z flowState) (r : option Recorder) : Tracker :=
  {| cfg := cfg t; rec := r; registry := registry t; respTimeout := respTimeout t;
     flows := fl; nackQueue := nackQueue t; waiting := waiting t; flights := flights t;
     wire := wire t |}.

Definition with_pending (fs : flowState) (p : gmap Z gapEntry) : flowState :=
  {| lastSeqNum := lastSeqNum fs; f_groupIdx := f_groupIdx fs; f_subtreeID := f_subtreeID fs;
     flowType := flowType fs; pending := p; lastSeen := lastSeen fs |}.

Definition with_last (fs : flowState) (n : Z) : flowState :=
  {| lastSeqNum := n; f_groupIdx := f_groupIdx fs; f_subtreeID := f_subtreeID fs;
     flowType := flowType fs; pending := pending fs; lastSeen := lastSeen fs |}.

(** ** [Observe] *)

(** [rand.Int64N(n)] panics when [n <= 0]; [r] is the random source's value. *)
Definition Int64N (n r : Z) : option Z := if n <=? 0 then None else Some (r `mod` n).

Definition new_flow (groupIdx : Z) (subtreeID : bytes) : flowState :=
  {| lastSeqNum := 0; f_groupIdx := groupIdx; f_subtreeID := subtreeID;
     flowType := flowLabel groupIdx; pending := ∅; lastSeen := 0 |}.

(** Step 3: close a pending gap whose number matches. *)
Definition auto_fill (seqNum : Z) (fs : flowState) (r : option Recorder)
    : flowState * option Recorder :=
  match pending fs !! seqNum with
  | Some _ => (with_pending fs (delete seqNum (pending fs)), with_rec r (GapSuppressed (flowType fs)))
  | None => (fs, r)
  end.

Definition new_gap (c : TrackerConfig) (now jitter hashKey groupIdx : Z) (subtreeID : bytes)
    (missing : Z) : gapEntry :=
  {| g_hashKey := hashKey; g_seqNum := missing; g_groupIdx := groupIdx;
     g_subtreeID := subtreeID; retries := 0; nextAttempt := now + jitter;
     deadline := now + GapTTL c; endpointIdx := 0 |}.

(** Step 6: the loop from [missing], [n] iterations left. *)
Fixpoint gap_loop (c : TrackerConfig) (now : Z) (rnd : Z -> Z) (hashKey groupIdx : Z)
    (subtreeID : bytes) (label : string) (n : nat) (missing : Z)
    (p : gmap Z gapEntry) (r : option Recorder) : option (gmap Z gapEntry * option Recorder) :=
  match n with
  | O => Some (p, r)
  | S n' =>
      match p !! missing with
      | Some _ => gap_loop c now rnd hashKey groupIdx subtreeID label n' (missing + 1) p r
      | None =>
          jitter ← Int64N (i64 (JitterMax c + 1)) (rnd missing);
          gap_loop c now rnd hashKey groupIdx subtreeID label n' (missing + 1)
            (<[missing := new_gap c now jitter hashKey groupIdx subtreeID missing]> p)
            (with_rec r (GapDetected label))
      end
  end.

Definition threshold (c : TrackerConfig) : Z :=
  if SeqResetThreshold c =? 0 then 100 else SeqResetThreshold c.

(** What [Observe] does to the flow it found or created. *)
Definition observe_flow (c : TrackerConfig) (now : Z) (rnd : Z -> Z) (groupIdx : Z)
    (subtreeID : bytes) (hashKey seqNum : Z) (fs : flowState) (r : option Recorder)
    : option (flowState * option Recorder) :=
  let '(fs, r) := auto_fill seqNum fs r in
  if lastSeqNum fs =? 0 then Some (with_last fs seqNum, r)
  else if seqNum <=? lastSeqNum fs then
    if (seqNum <=? threshold c) && (threshold c <? lastSeqNum fs)
    then Some (with_last (with_pending fs ∅) seqNum,
               Nat.iter (size (pending fs)) (fun r => with_rec r (GapUnrecovered (flowType fs))) r)
    else Some (fs, r)
  else if seqNum =? u64 (lastSeqNum fs + 1) then Some (with_last fs seqNum, r)
  else
    '(p, r) ← gap_loop c now rnd hashKey groupIdx subtreeID (flowType fs)
                (Z.to_nat (seqNum - (lastSeqNum fs + 1))) (lastSeqNum fs + 1) (pending fs) r;
    Some (with_last (with_pending fs p) seqNum, r).

(** [Observe] at [now]; [rnd] gives the random value drawn for each missing
    number, and [None] is the panic of the draw. The TxID is not used. *)
Definition Observe (now : Z) (rnd : Z -> Z) (groupIdx : Z) (subtreeID : bytes)
    (hashKey seqNum : Z) (t : Tracker) : option Tracker :=
  if seqNum =? 0 then Some t
  else
    let fs := default (new_flow groupIdx subtreeID) (flows t !! hashKey) in
    let fs := {| lastSeqNum := lastSeqNum fs; f_groupIdx := f_groupIdx fs;
                 f_subtreeID := f_subtreeID fs; flowType := flowType fs;
                 pending := pending fs; lastSeen := now |} in
    '(fs, r) ← observe_flow (cfg t) now rnd groupIdx subtreeID hashKey seqNum fs (rec t);
    Some (with_flows t (<[hashKey := fs]> (flows t)) r).

(** ** [Fill] and [cancelGap] *)

Definition drop_gap (label : flowState -> string) (hashKey seqNum : Z) (t : Tracker) : Tracker :=
  match flows t !! hashKey with
  | Some fs =>
      match pending fs !! seqNum with
      | Some _ =>
          with_flows t (<[hashKey := with_pending fs (delete seqNum (pending fs))]> (flows t))
            (with_rec (rec t) (GapSuppressed (label fs)))
      | None => t
      end
  | None => t
  end.

Definition Fill (hashKey seqNum : Z) (t : Tracker) : Tracker :=
  if seqNum =? 0 then t else drop_gap flowType hashKey seqNum t.

Definition cancelGap (e : gapEntry) (t : Tracker) : Tracker :=
  drop_gap (fun _ => flowLabel (g_groupIdx e)) (g_hashKey e) (g_seqNum e) t.

(** ** The dispatcher and the sweeper *)

Definition with_dispatch (t : Tracker) (q : list gapEntry) (w : option gapEntry)
    (fl : list flight) : Tracker :=
  {| cfg := cfg t; rec := rec t; registry := registry t; respTimeout := respTimeout t;
     flows := flows t; nackQueue := q; waiting := w; flights := fl; wire := wire t |}.

(** One step of [dispatchLoop]: take an entry from the queue, or start its
    goroutine when the semaphore has a slot; otherwise it is blocked. *)
Definition dispatch (t : Tracker) : Tracker :=
  match waiting t with
  | Some e =>
      if (length (flights t) <? maxConcurrent)%nat
      then with_dispatch t (nackQueue t) None (flights t ++ [Launched e])
      else t
  | None =>
      match nackQueue t with
      | e :: q => with_dispatch t q (Some e) (flights t)
      | [] => t
      end
  end.

Definition with_nextAttempt (e : gapEntry) (next : Z) : gapEntry :=
  {| g_hashKey := g_hashKey e; g_seqNum := g_seqNum e; g_groupIdx := g_groupIdx e;
     g_subtreeID := g_subtreeID e; retries := retries e; nextAttempt := next;
     deadline := deadline e; endpointIdx := endpointIdx e |}.

Definition set_pending (hk : Z) (fs : flowState) (p : gmap Z gapEntry) (r : option Recorder)
    (t : Tracker) : Tracker :=
  with_flows t (<[hk := with_pending fs p]> (flows t)) r.

(** The body of the inner loop of [sweepOnce] for one gap. The dispatcher does
    not take the lock, so it may have advanced by any number of steps when the
    entry is offered to the queue; [drain] says how many. *)
Definition sweep_gap (now : Z) (drain : Z -> Z -> nat) (hk : Z) (t : Tracker) (seq : Z) : Tracker :=
  match flows t !! hk with
  | None => t
  | Some fs =>
      match pending fs !! seq with
      | None => t
      | Some e =>
          if deadline e <? now
          then set_pending hk fs (delete seq (pending fs))
                 (with_rec (rec t) (GapUnrecovered (flowType fs))) t
          else if MaxRetries (cfg t) <=? retries e
          then set_pending hk fs (delete seq (pending fs))
                 (with_rec (rec t) (GapUnrecovered (flowType fs))) t
          else if nextAttempt e <? now
          then
            let t := Nat.iter (drain hk seq) dispatch t in
            let stamped := with_nextAttempt e (now + (respTimeout t + 100 * Millisecond)) in
            if (length (nackQueue t) <? queueCap)%nat
            then set_pending hk fs (<[seq := stamped]> (pending fs)) (rec t)
                   (with_dispatch t (nackQueue t ++ [stamped]) (waiting t) (flights t))
            else set_pending hk fs (<[seq := with_nextAttempt e now]> (pending fs)) (rec t) t
          else t
      end
  end.

Definition keys {A} (m : gmap Z A) : list Z := (map_to_list m).*1.

Definition flowTTL (c : TrackerConfig) : Z := if TailTTL c <=? 0 then GapTTL c else TailTTL c.

(** The eviction of an idle flow at the end of its turn. *)
Definition retire_flow (now : Z) (hk : Z) (t : Tracker) : Tracker :=
  match flows t !! hk with
  | None => t
  | Some fs =>
      if (size (pending fs) =? 0)%nat && (flowTTL (cfg t) <? now - lastSeen fs)
      then with_flows t (delete hk (flows t)) (rec t) else t
  end.

(** The order in which Go walks the maps: the flows, and each flow's gaps. *)
Record walk := mkWalk { walk_flows : list Z -> list Z; walk_gaps : Z -> list Z -> list Z }.

Definition sweep_flow (w : walk) (now : Z) (drain : Z -> Z -> nat) (t : Tracker) (hk : Z) : Tracker :=
  match flows t !! hk with
  | None => t
  | Some fs =>
      retire_flow now hk (foldl (sweep_gap now drain hk) t (walk_gaps w hk (keys (pending fs))))
  end.

Definition sweepOnce (w : walk) (now : Z) (drain : Z -> Z -> nat) (t : Tracker) : Tracker :=
  foldl (sweep_flow w now drain) t (walk_flows w (keys (flows t))).

(** ** Retry state *)

(** [1 << uint(n)] on an int64, times 500 ms. *)
Definition backoff (n : Z) : Z := i64 (i64 (2 ^ n) * (500 * Millisecond)).

Definition advanced (c : TrackerConfig) (now : Z) (immediate : bool) (numEndpoints : Z)
    (e : gapEntry) : gapEntry :=
  let r := retries e + 1 in
  let idx := endpointIdx e + 1 in
  let exhausted := (0 <? numEndpoints) && (numEndpoints <=? idx) in
  let next :=
    if immediate && negb exhausted then now
    else now + (if BackoffMax c <? backoff r then BackoffMax c else backoff r) in
  {| g_hashKey := g_hashKey e; g_seqNum := g_seqNum e; g_groupIdx := g_groupIdx e;
     g_subtreeID := g_subtreeID e; retries := r; nextAttempt := next;
     deadline := deadline e; endpointIdx := idx |}.

Definition advanceEndpoint (now : Z) (e : gapEntry) (immediate : bool) (numEndpoints : Z)
    (t : Tracker) : Tracker :=
  match flows t !! g_hashKey e with
  | Some fs =>
      match pending fs !! g_seqNum e with
      | Some entry =>
          set_pending (g_hashKey e) fs
            (<[g_seqNum e := advanced (cfg t) now immediate numEndpoints entry]> (pending fs))
            (rec t) t
      | None => t
      end
  | None => t
  end.

(** ** The NACK exchange *)

(** What the network does to one attempt: whether the endpoint resolves,
    whether the socket opens, and the response ([None]: deadline or error). *)
Record Network := mkNetwork {
  resolves : string -> bool;
  listens : bool;
  response : option bytes;
}.

Definition with_sent (t : Tracker) (reg : Registry) (r : option Recorder)
    (w : list (string * bytes)) : Tracker :=
  {| cfg := cfg t; rec := r; registry := reg; respTimeout := respTimeout t;
     flows := flows t; nackQueue := nackQueue t; waiting := waiting t; flights := flights t;
     wire := w |}.

Definition clamp (idx : Z) (n : Z) : Z := if n <=? idx then n - 1 else idx.

Definition nack_for (e : gapEntry) : NACK :=
  {| n_MsgType := MsgTypeNACK; n_HashKey := g_hashKey e; n_StartSeq := g_seqNum e;
     n_EndSeq := g_seqNum e; n_SubtreeID := g_subtreeID e |}.

Definition dummy_endpoint : EndpointEntry := mkEndpoint "" 0 0 0 0 0 false.

(** [sendNACK] up to the send. The second component is the number of endpoints
    of the snapshot when a response is awaited. *)
Definition send_request (iter : list EndpointEntry -> list EndpointEntry) (now : Z)
    (net : Network) (e : gapEntry) (t : Tracker) : Tracker * option Z :=
  let '(snap, reg) := Snapshot iter (registry t) in
  let t := with_sent t reg (rec t) (wire t) in
  let n := Z.of_nat (length snap) in
  if n =? 0 then (t, None)
  else
    let endpoint := nth (Z.to_nat (clamp (endpointIdx e) n)) snap dummy_endpoint in
    if negb (resolves net (Addr endpoint)) then (advanceEndpoint now e false 0 t, None)
    else if negb (listens net) then (advanceEndpoint now e false 0 t, None)
    else
      let buf := default [] (Encode (nack_for e) (zeros NACKSize)) in
      (with_sent t (registry t) (with_rec (rec t) (NACKDispatched (flowLabel (g_groupIdx e))))
         (wire t ++ [(Addr endpoint, buf)]), Some n).

(** [sendNACK] from the read on; the buffer holds 32 bytes. *)
Definition send_response (now : Z) (net : Network) (e : gapEntry) (n : Z) (t : Tracker) : Tracker :=
  match response net with
  | None => advanceEndpoint now e false 0 t
  | Some datagram =>
      match DecodeResponse (take (ResponseSize + 16) datagram) with
      | inr _ => advanceEndpoint now e false 0 t
      | inl resp =>
          if r_MsgType resp =? MsgTypeACK then cancelGap e t
          else if r_MsgType resp =? MsgTypeMISS then advanceEndpoint now e true n t
          else t
      end
  end.

(** [sendNACK] run without interruption. *)
Definition sendNACK (iter : list EndpointEntry -> list EndpointEntry) (now : Z)
    (net : Network) (e : gapEntry) (t : Tracker) : Tracker :=
  match send_request iter now net e t with
  | (t, None) => t
  | (t, Some n) => send_response now net e n t
  end.

(** ** Diagnostics *)

Definition PendingGaps (t : Tracker) : Z :=
  map_fold (fun _ fs total => Z.of_nat (size (pending fs)) + total) 0 (flows t).

Definition ActiveFlows (t : Tracker) : Z := Z.of_nat (size (flows t)).
