(* ===== verification/NackSteps.v ===== *)
(** The gap tracker as a transition system: every interleaving of the workers,
    the sweeper, the dispatcher, the NACK goroutines and the discovery
    listeners, and what holds in every reachable state. *)
From Stdlib Require Import ZArith Lia.
From S2P Require Import Prelude Metrics Wire Discovery Nack.

(** ** Steps *)

Definition fair_walk (w : walk) : Prop :=
  (forall l, walk_flows w l ≡ₚ l) /\ forall hk l, walk_gaps w hk l ≡ₚ l.

Definition with_registry (t : Tracker) (reg : Registry) : Tracker :=
  with_sent t reg (rec t) (wire t).

(** The goroutine at index [i] goes on, or ends and releases its slot. *)
Definition settle (i : nat) (fl : option flight) (t : Tracker) : Tracker :=
  with_dispatch t (nackQueue t) (waiting t)
    (match fl with Some f => <[i := f]> (flights t) | None => delete i (flights t) end).

(** Each method that takes the lock is one step; a [sendNACK] goroutine is two,
    since other steps may come between its NACK and the response. *)
Inductive step : Tracker -> Tracker -> Prop :=
  | step_observe now rnd g sid hk seq t t' :
      0 <= seq < 2 ^ 64 -> Observe now rnd g sid hk seq t = Some t' -> step t t'
  | step_fill hk seq t : step t (Fill hk seq t)
  | step_sweep w now drain t : fair_walk w -> step t (sweepOnce w now drain t)
  | step_dispatch t : step t (dispatch t)
  | step_request i iter now net e t t' n :
      flights t !! i = Some (Launched e) -> send_request iter now net e t = (t', n) ->
      step t (settle i (Awaiting e <$> n) t')
  | step_response i now net e n t :
      flights t !! i = Some (Awaiting e n) ->
      step t (settle i None (send_response now net e n t))
  | step_registry o t : step t (with_registry t (run_op (registry t) o)).

Definition reachable (t0 t : Tracker) : Prop := rtc step t0 t.

(** ** The invariant *)

Record gap_ok (hk m : Z) (e : gapEntry) : Prop := {
  go_seq : g_seqNum e = m;
  go_key : g_hashKey e = hk;
  go_retries : 0 <= retries e;
  go_index : endpointIdx e = retries e;
}.

Record flow_ok (hk : Z) (fs : flowState) : Prop := {
  fo_last : 0 < lastSeqNum fs < 2 ^ 64;
  fo_gaps : forall m e, pending fs !! m = Some e -> 0 < m < lastSeqNum fs /\ gap_ok hk m e;
}.

Record tracker_ok (t : Tracker) : Prop := {
  tk_flows : forall hk fs, flows t !! hk = Some fs -> flow_ok hk fs;
  tk_queue : (length (nackQueue t) <= queueCap)%nat;
  tk_flights : (length (flights t) <= maxConcurrent)%nat;
}.

(** Only the parts the invariant mentions matter. *)
Lemma tracker_ok_ext t t' :
  flows t' = flows t -> nackQueue t' = nackQueue t ->
  (length (flights t') <= length (flights t))%nat -> tracker_ok t -> tracker_ok t'.
Proof. intros E1 E2 Hle [H1 H2 H3]. split; rewrite ?E1, ?E2; [done..|lia]. Qed.

Lemma with_flows_ok t hk fs r :
  tracker_ok t -> flow_ok hk fs -> tracker_ok (with_flows t (<[hk := fs]> (flows t)) r).
Proof.
  intros [H1 H2 H3] Hf. split; [|done..]. intros hk' fs'. simpl.
  rewrite lookup_insert. case_decide as E; [|apply H1]. subst hk'. by intros [= <-].
Qed.

(** A change of some pending entries of a flow. *)
Lemma set_pending_ok t hk fs p r :
  tracker_ok t -> flows t !! hk = Some fs ->
  (forall m e, p !! m = Some e ->
     exists e0, pending fs !! m = Some e0 /\ (gap_ok hk m e0 -> gap_ok hk m e)) ->
  tracker_ok (set_pending hk fs p r t).
Proof.
  intros Hok Hfs Hp. apply with_flows_ok; [done|].
  destruct (tk_flows t Hok hk fs Hfs) as [Hl Hg]. split; [done|].
  intros m e Hm. simpl in Hm. destruct (Hp m e Hm) as (e0 & He0 & Himp).
  destruct (Hg m e0 He0) as [Hr Ho]. split; [done|auto].
Qed.

Lemma delete_gap_ok t hk fs m r :
  tracker_ok t -> flows t !! hk = Some fs ->
  tracker_ok (set_pending hk fs (delete m (pending fs)) r t).
Proof.
  intros Hok Hfs. apply set_pending_ok; [done..|]. intros m' e.
  rewrite lookup_delete. case_decide; [done|]. eauto.
Qed.

Lemma update_gap_ok t hk fs m e e' r :
  tracker_ok t -> flows t !! hk = Some fs -> pending fs !! m = Some e ->
  (gap_ok hk m e -> gap_ok hk m e') ->
  tracker_ok (set_pending hk fs (<[m := e']> (pending fs)) r t).
Proof.
  intros Hok Hfs He Himp. apply set_pending_ok; [done..|]. intros m' e''.
  rewrite lookup_insert. case_decide as E; [subst m'; intros [= <-]|]; eauto.
Qed.

Lemma dispatch_flows t : flows (dispatch t) = flows t.
Proof. unfold dispatch. by destruct (waiting t); [destruct (Nat.ltb _ _)|destruct (nackQueue t)]. Qed.

Lemma iter_dispatch_flows n t : flows (Nat.iter n dispatch t) = flows t.
Proof. induction n as [|n IH]; [done|]. simpl. by rewrite dispatch_flows. Qed.

Lemma dispatch_ok t : tracker_ok t -> tracker_ok (dispatch t).
Proof.
  intros [H1 H2 H3]. unfold dispatch. destruct (waiting t).
  - destruct (Nat.ltb_spec (length (flights t)) maxConcurrent); [|by split].
    split; simpl; [done..|]. rewrite length_app. simpl. lia.
  - destruct (nackQueue t) as [|e q] eqn:Eq; [by split; rewrite ?Eq|].
    split; simpl in *; [done|lia|done].
Qed.

Lemma iter_dispatch_ok n t : tracker_ok t -> tracker_ok (Nat.iter n dispatch t).
Proof. intros. induction n; [done|]. by apply dispatch_ok. Qed.

Lemma restamp_ok hk m e next : gap_ok hk m e -> gap_ok hk m (with_nextAttempt e next).
Proof. by intros []; split. Qed.

Lemma advanced_ok c now imm n hk m e : gap_ok hk m e -> gap_ok hk m (advanced c now imm n e).
Proof. intros []. split; simpl; [done..|lia|lia]. Qed.

Lemma sweep_gap_ok now drain hk t seq : tracker_ok t -> tracker_ok (sweep_gap now drain hk t seq).
Proof.
  intros Hok. unfold sweep_gap. destruct (flows t !! hk) as [fs|] eqn:Hfs; [|done].
  destruct (pending fs !! seq) as [e|] eqn:He; [|done].
  destruct (_ <? now); [by apply delete_gap_ok|].
  destruct (_ <=? _); [by apply delete_gap_ok|]. destruct (_ <? now); [|done].
  pose proof (iter_dispatch_ok (drain hk seq) t Hok) as Hok'.
  pose proof (iter_dispatch_flows (drain hk seq) t) as Hf.
  set (t1 := Nat.iter (drain hk seq) dispatch t) in *.
  destruct (Nat.ltb_spec (length (nackQueue t1)) queueCap) as [Hl|].
  - apply (update_gap_ok _ _ _ _ e); [|by simpl; rewrite Hf|done|apply restamp_ok].
    destruct Hok' as [H1 H2 H3]. split; simpl; [done| |done].
    rewrite length_app. simpl. lia.
  - apply (update_gap_ok _ _ _ _ e); [done|by rewrite Hf|done|apply restamp_ok].
Qed.

Lemma retire_ok now hk t : tracker_ok t -> tracker_ok (retire_flow now hk t).
Proof.
  intros Hok. unfold retire_flow. destruct (flows t !! hk); [|done].
  destruct (_ && _); [|done]. destruct Hok as [H1 H2 H3]. split; [|done..].
  intros hk' fs'. simpl. rewrite lookup_delete. case_decide; [done|apply H1].
Qed.

Lemma foldl_pres {A B} (P : A -> Prop) (f : A -> B -> A) l a :
  (forall a b, P a -> P (f a b)) -> P a -> P (foldl f a l).
Proof. intros Hf. revert a. induction l; simpl; auto. Qed.

Lemma sweepOnce_pres (P : Tracker -> Prop) w now drain t :
  (forall hk t seq, P t -> P (sweep_gap now drain hk t seq)) ->
  (forall hk t, P t -> P (retire_flow now hk t)) ->
  P t -> P (sweepOnce w now drain t).
Proof.
  intros Hg Hr. apply foldl_pres. intros t' hk Ht'. unfold sweep_flow.
  destruct (flows t' !! hk); [|done]. apply Hr. apply foldl_pres; [|done]. intros. by apply Hg.
Qed.

(** ** [Observe] and the retry updates keep it *)

Section GapLoop.
Context (c : TrackerConfig) (now : Z) (rnd : Z -> Z) (hk g : Z) (sid : bytes) (label : string).

(** What the registration loop leaves: the old gaps, and a fresh one for every
    missing number. *)
Lemma gap_loop_spec n m p r p' r' :
  gap_loop c now rnd hk g sid label n m p r = Some (p', r') ->
  (forall k, p' !! k = match p !! k with
     | Some e => Some e
     | None => if decide (m <= k < m + Z.of_nat n)
               then Some (new_gap c now (rnd k `mod` i64 (JitterMax c + 1)) hk g sid k) else None
     end) /\
  r' = Nat.iter (size p' - size p) (fun r => with_rec r (GapDetected label)) r /\
  (size p <= size p')%nat.
Proof.
  revert m p r. induction n as [|n IH]; intros m p r; cbn [gap_loop].
  - intros [= <- <-]. split_and!; [|by rewrite Nat.sub_diag|done].
    intros k. destruct (p !! k); [done|]. by rewrite decide_False by lia.
  - destruct (p !! m) as [e|] eqn:Hm.
    + intros H. apply IH in H as (H1 & H2 & H3). split_and!; [|done..].
      intros k. rewrite H1. destruct (p !! k) eqn:Hk; [done|].
      destruct (decide (k = m)) as [->|]; [congruence|]. repeat case_decide; try done; lia.
    + intros (j & Hj & H)%bind_Some. unfold Int64N in Hj.
      destruct (_ <=? 0); [done|]. injection Hj as <-.
      apply IH in H as (H1 & H2 & H3). rewrite map_size_insert_None in H2, H3 by done.
      split_and!; [| |lia].
      * intros k. rewrite H1, lookup_insert. destruct (decide (m = k)) as [<-|].
        -- rewrite Hm. by rewrite decide_True by lia.
        -- destruct (p !! k); [done|]. repeat case_decide; try done; lia.
      * rewrite H2. replace (size p' - size p)%nat with (S (size p' - S (size p)))%nat by lia.
        by rewrite Nat.iter_succ_r.
Qed.

(** The loop panics only when the jitter bound is not positive. *)
Lemma gap_loop_total n m p r :
  0 < i64 (JitterMax c + 1) -> is_Some (gap_loop c now rnd hk g sid label n m p r).
Proof.
  intros Hj. revert m p r. induction n as [|n IH]; intros m p r; cbn [gap_loop]; [done|].
  destruct (p !! m); [apply IH|]. unfold Int64N. rewrite (proj2 (Z.leb_gt _ _)) by done.
  apply IH.
Qed.
End GapLoop.

Lemma auto_fill_flow seq fs r :
  lastSeqNum (auto_fill seq fs r).1 = lastSeqNum fs /\
  flowType (auto_fill seq fs r).1 = flowType fs /\
  pending (auto_fill seq fs r).1 = delete seq (pending fs).
Proof.
  unfold auto_fill. destruct (pending fs !! seq) eqn:E; [done|].
  simpl. by rewrite delete_id.
Qed.

(** ** Accounting: detected = suppressed + unrecovered + pending *)

Definition has (r : option Recorder) : Z := match r with Some _ => 1 | None => 0 end.

Definition net (r : option Recorder) : Z :=
  match r with
  | Some x => value gapsDetected x - value gapsSuppressed x - value nacksUnrecovered x
  | None => 0
  end.

Lemma has_with_rec r m : has (with_rec r m) = has r.
Proof. by destruct r. Qed.

Lemma net_detected r l : net (with_rec r (GapDetected l)) = net r + has r.
Proof. destruct r; [|done]. simpl. unfold GapDetected. rewrite !value_add. simpl. lia. Qed.

Lemma net_suppressed r l : net (with_rec r (GapSuppressed l)) = net r - has r.
Proof. destruct r; [|done]. simpl. unfold GapSuppressed. rewrite !value_add. simpl. lia. Qed.

Lemma net_unrecovered r l : net (with_rec r (GapUnrecovered l)) = net r - has r.
Proof. destruct r; [|done]. simpl. unfold GapUnrecovered. rewrite !value_add. simpl. lia. Qed.

Lemma net_dispatched r l : net (with_rec r (NACKDispatched l)) = net r.
Proof. destruct r; [|done]. simpl. unfold NACKDispatched. rewrite !value_add. simpl. lia. Qed.

Lemma has_iter n m r : has (Nat.iter n (fun r => with_rec r m) r) = has r.
Proof. induction n as [|n IH]; simpl; [done|]. by rewrite has_with_rec. Qed.

Lemma net_iter n m r d :
  (forall r, net (with_rec r m) = net r + d * has r) ->
  net (Nat.iter n (fun r => with_rec r m) r) = net r + Z.of_nat n * d * has r.
Proof.
  intros Hm. induction n as [|n IH]; [simpl; lia|].
  change (Nat.iter (S n) (fun r => with_rec r m) r)
    with (with_rec (Nat.iter n (fun r => with_rec r m) r) m).
  rewrite Hm, IH, has_iter. lia.
Qed.

Definition gaps_in (fl : gmap Z flowState) : Z :=
  map_fold (fun _ fs total => Z.of_nat (size (pending fs)) + total) 0 fl.

Definition gaps_of (o : option flowState) : Z :=
  match o with Some fs => Z.of_nat (size (pending fs)) | None => 0 end.

Lemma gaps_insert_new fl hk fs :
  fl !! hk = None -> gaps_in (<[hk := fs]> fl) = Z.of_nat (size (pending fs)) + gaps_in fl.
Proof. intros. unfold gaps_in. rewrite map_fold_insert_L; [done| |done]. intros. lia. Qed.

Lemma gaps_delete fl hk : gaps_in (delete hk fl) = gaps_in fl - gaps_of (fl !! hk).
Proof.
  destruct (fl !! hk) as [fs|] eqn:E; simpl.
  - rewrite <- (insert_delete_id fl hk fs E) at 2. rewrite gaps_insert_new; [lia|].
    by rewrite lookup_delete_eq.
  - rewrite delete_id by done. lia.
Qed.

Lemma gaps_insert fl hk fs :
  gaps_in (<[hk := fs]> fl) = gaps_in fl - gaps_of (fl !! hk) + Z.of_nat (size (pending fs)).
Proof.
  rewrite <- insert_delete_eq, gaps_insert_new, gaps_delete by (by rewrite lookup_delete_eq). lia.
Qed.

Definition balance (t : Tracker) : Z := net (rec t) - has (rec t) * gaps_in (flows t).

(** A step keeps the balance and does not gain or lose the recorder. *)
Definition balanced (t t' : Tracker) : Prop :=
  balance t' = balance t /\ has (rec t') = has (rec t).

#[export] Instance balanced_po : PreOrder balanced.
Proof. split; [done|]. intros a b c [??] [??]. split; congruence. Qed.

Lemma balanced_same t t' : rec t' = rec t -> flows t' = flows t -> balanced t t'.
Proof. unfold balanced, balance. by intros -> ->. Qed.

Lemma balanced_flow t hk fs r :
  has r = has (rec t) ->
  net r - has r * Z.of_nat (size (pending fs)) =
    net (rec t) - has (rec t) * gaps_of (flows t !! hk) ->
  balanced t (with_flows t (<[hk := fs]> (flows t)) r).
Proof.
  intros Hh Hn. split; [|done]. unfold balance. simpl. rewrite gaps_insert, Hh in *. lia.
Qed.

Lemma delete_gap_balanced t hk fs m e r :
  flows t !! hk = Some fs -> pending fs !! m = Some e ->
  has r = has (rec t) -> net r = net (rec t) - has (rec t) ->
  balanced t (set_pending hk fs (delete m (pending fs)) r t).
Proof.
  intros Hf He Hh Hn. apply balanced_flow; [done|]. rewrite Hf. simpl.
  rewrite (map_size_delete_Some m (pending fs)), Hn, Hh by (by rewrite He).
  assert (size (pending fs) <> 0%nat) by (apply (map_size_ne_0_lookup_2 _ m); by rewrite He).
  replace (Z.of_nat (Nat.pred (size (pending fs)))) with (Z.of_nat (size (pending fs)) - 1) by lia.
  lia.
Qed.

Lemma update_gap_balanced t hk fs m e e' :
  flows t !! hk = Some fs -> pending fs !! m = Some e ->
  balanced t (set_pending hk fs (<[m := e']> (pending fs)) (rec t) t).
Proof.
  intros Hf He. apply balanced_flow; [done|]. rewrite Hf. simpl.
  by rewrite map_size_insert_Some by (by rewrite He).
Qed.

Lemma drop_gap_balanced label hk m t : balanced t (drop_gap label hk m t).
Proof.
  unfold drop_gap. destruct (flows t !! hk) as [fs|] eqn:Hf; [|done].
  destruct (pending fs !! m) as [e|] eqn:He; [|done].
  apply (delete_gap_balanced t hk fs m e); [done..| |]; [apply has_with_rec|apply net_suppressed].
Qed.

Lemma advance_balanced now e imm n t : balanced t (advanceEndpoint now e imm n t).
Proof.
  unfold advanceEndpoint. destruct (flows t !! g_hashKey e) as [fs|] eqn:Hf; [|done].
  destruct (pending fs !! g_seqNum e) eqn:He; [|done]. by eapply update_gap_balanced.
Qed.

Lemma iter_dispatch_balanced n t : balanced t (Nat.iter n dispatch t).
Proof.
  induction n as [|n IH]; [done|]. simpl. etrans; [done|]. apply balanced_same; [|apply dispatch_flows].
  unfold dispatch. destruct (waiting _); [destruct (Nat.ltb _ _)|destruct (nackQueue _)]; done.
Qed.

Lemma sweep_gap_balanced now drain hk t seq : balanced t (sweep_gap now drain hk t seq).
Proof.
  unfold sweep_gap. destruct (flows t !! hk) as [fs|] eqn:Hfs; [|done].
  destruct (pending fs !! seq) as [e|] eqn:He; [|done].
  destruct (_ <? now); [eapply delete_gap_balanced; [done..| |];
                        [apply has_with_rec|apply net_unrecovered]|].
  destruct (_ <=? _); [eapply delete_gap_balanced; [done..| |];
                       [apply has_with_rec|apply net_unrecovered]|].
  destruct (_ <? now); [|done].
  pose proof (iter_dispatch_balanced (drain hk seq) t) as Hb.
  pose proof (iter_dispatch_flows (drain hk seq) t) as Hf.
  set (t1 := Nat.iter (drain hk seq) dispatch t) in *.
  etrans; [exact Hb|]. rewrite <- Hf in Hfs.
  destruct (Nat.ltb _ _); [|by eapply update_gap_balanced].
  set (t2 := with_dispatch t1 _ _ _). change (rec t1) with (rec t2).
  trans t2; [by apply balanced_same|]. by eapply update_gap_balanced.
Qed.

Lemma retire_balanced now hk t : balanced t (retire_flow now hk t).
Proof.
  unfold retire_flow. destruct (flows t !! hk) as [fs|] eqn:Hf; [|done].
  destruct (Nat.eqb_spec (size (pending fs)) 0) as [E|]; [|done]. simpl.
  destruct (_ <? _); [|done]. split; [|done]. unfold balance. simpl.
  rewrite gaps_delete, Hf. simpl. rewrite E. lia.
Qed.

(** A flow on entry to [observe_flow]: a new one has no number yet. *)
Definition flow_pre (hk : Z) (fs : flowState) : Prop :=
  0 <= lastSeqNum fs < 2 ^ 64 /\
  forall m e, pending fs !! m = Some e -> 0 < m < lastSeqNum fs /\ gap_ok hk m e.

(** The same measure on one flow and a recorder. *)
Definition flow_balanced (fs : flowState) (r : option Recorder) (fs' : flowState)
    (r' : option Recorder) : Prop :=
  has r' = has r /\
  net r' - has r * Z.of_nat (size (pending fs')) = net r - has r * Z.of_nat (size (pending fs)).

Lemma flow_balanced_trans f1 r1 f2 r2 f3 r3 :
  flow_balanced f1 r1 f2 r2 -> flow_balanced f2 r2 f3 r3 -> flow_balanced f1 r1 f3 r3.
Proof. intros [H1 H2] [H3 H4]. unfold flow_balanced. rewrite H1 in *. split; [done|lia]. Qed.

Lemma auto_fill_balanced seq fs r :
  let q := auto_fill seq fs r in flow_balanced fs r q.1 q.2.
Proof.
  unfold auto_fill, flow_balanced. destruct (pending fs !! seq) as [e|] eqn:He; [|done]. simpl.
  rewrite has_with_rec, net_suppressed, (map_size_delete_Some seq (pending fs)) by (by rewrite He).
  assert (size (pending fs) <> 0%nat) by (apply (map_size_ne_0_lookup_2 _ seq); by rewrite He).
  replace (Z.of_nat (Nat.pred (size (pending fs)))) with (Z.of_nat (size (pending fs)) - 1) by lia.
  split; [done|lia].
Qed.

Lemma observe_flow_ok c now rnd g sid hk seq fs r fs' r' :
  0 < seq < 2 ^ 64 -> flow_pre hk fs ->
  observe_flow c now rnd g sid hk seq fs r = Some (fs', r') ->
  flow_ok hk fs' /\ flow_balanced fs r fs' r'.
Proof.
  intros Hs [Hl Hg] Ho. unfold observe_flow in Ho.
  pose proof (auto_fill_balanced seq fs r) as Hb.
  destruct (auto_fill_flow seq fs r) as (E1 & E2 & E3).
  destruct (auto_fill seq fs r) as [f1 r1]. cbn [fst snd] in *.
  assert (forall m e, pending f1 !! m = Some e -> 0 < m < lastSeqNum f1 /\ gap_ok hk m e) as Hg1.
  { intros m e. rewrite E3, lookup_delete. case_decide; [done|]. rewrite E1. apply Hg. }
  assert (forall f2, pending f2 = pending f1 -> flow_balanced fs r f2 r1) as Hsame
    by (intros f2 E; unfold flow_balanced in *; by rewrite E).
  rewrite <- E1 in Hl. destruct (Z.eqb_spec (lastSeqNum f1) 0) as [E0|].
  { injection Ho as <- <-. split; [|by apply Hsame]. split; [done|].
    intros m e Hm. simpl in *. apply Hg1 in Hm as [? _]. lia. }
  destruct (Z.leb_spec seq (lastSeqNum f1)).
  { destruct (_ && _); injection Ho as <- <-.
    - split; [split; [done|]; simpl; intros m e Hm; by rewrite lookup_empty in Hm|].
      eapply flow_balanced_trans; [exact Hb|]. unfold flow_balanced. cbn [pending with_last with_pending].
      rewrite has_iter, (net_iter _ _ _ (-1)) by (intros; rewrite net_unrecovered; lia).
      rewrite map_size_empty. split; [done|lia].
    - split; [split; [lia|done]|by apply Hsame]. }
  destruct (Z.eqb_spec seq (u64 (lastSeqNum f1 + 1))) as [_|_].
  { injection Ho as <- <-. split; [|by apply Hsame]. split; [done|].
    intros m e Hm. simpl in *. apply Hg1 in Hm as [? ?]. split; [lia|done]. }
  apply bind_Some in Ho as ([p r2] & Hloop & [= <- <-]).
  apply gap_loop_spec in Hloop as (Hp & -> & Hsz). split.
  - split; [done|]. intros m e. simpl. rewrite Hp.
    destruct (pending f1 !! m) eqn:Em.
    + intros [= <-]. apply Hg1 in Em as [? ?]. split; [lia|done].
    + case_decide; [|done]. intros [= <-]. split; [lia|]. split; simpl; done.
  - eapply flow_balanced_trans; [exact Hb|]. unfold flow_balanced. cbn [pending with_last with_pending].
    rewrite has_iter, (net_iter _ _ _ 1) by (intros; rewrite net_detected; lia).
    split; [done|]. rewrite Nat2Z.inj_sub by done. lia.
Qed.

Lemma Observe_step_ok now rnd g sid hk seq t t' :
  0 <= seq < 2 ^ 64 -> tracker_ok t -> Observe now rnd g sid hk seq t = Some t' ->
  tracker_ok t' /\ balanced t t'.
Proof.
  intros Hs Hok. unfold Observe. destruct (Z.eqb_spec seq 0); [by intros [= <-]|].
  set (fs := default (new_flow g sid) (flows t !! hk)). cbn zeta.
  set (fs0 := mkFlow (lastSeqNum fs) (f_groupIdx fs) (f_subtreeID fs) (flowType fs) (pending fs) now).
  intros ([fs' r'] & Ho & [= <-])%bind_Some.
  assert (flow_pre hk fs0) as Hpre.
  { subst fs0 fs. destruct (flows t !! hk) as [fs|] eqn:Hf; simpl.
    - destruct (tk_flows t Hok hk fs Hf) as [Hl Hg]. split; simpl; [lia|done].
    - split; simpl; [lia|]. intros m e Hm. by rewrite lookup_empty in Hm. }
  assert (0 < seq < 2 ^ 64) as Hs' by lia.
  destruct (observe_flow_ok _ _ _ _ _ _ _ _ _ _ _ Hs' Hpre Ho) as [Hok' [Hh Hn]].
  split; [by apply with_flows_ok|]. apply balanced_flow; [done|].
  assert (gaps_of (flows t !! hk) = Z.of_nat (size (pending fs0))) as ->
    by (subst fs0 fs; by destruct (flows t !! hk)). rewrite Hh. done.
Qed.

(** ** Every step *)

Lemma drop_gap_ok label hk m t : tracker_ok t -> tracker_ok (drop_gap label hk m t).
Proof.
  intros Hok. unfold drop_gap. destruct (flows t !! hk) as [fs|] eqn:Hf; [|done].
  destruct (pending fs !! m); [|done]. by apply (delete_gap_ok t hk fs m).
Qed.

Lemma advance_ok now e imm n t : tracker_ok t -> tracker_ok (advanceEndpoint now e imm n t).
Proof.
  intros Hok. unfold advanceEndpoint. destruct (flows t !! g_hashKey e) as [fs|] eqn:Hf; [|done].
  destruct (pending fs !! g_seqNum e) as [e0|] eqn:He; [|done].
  eapply update_gap_ok; [done..|]. apply advanced_ok.
Qed.

(** What the network half of a NACK can do to the gaps and the dispatcher. *)
Lemma send_request_ok iter now net e t t' n :
  send_request iter now net e t = (t', n) ->
  tracker_ok t -> tracker_ok t' /\ balanced t t' /\ flights t' = flights t /\
                  nackQueue t' = nackQueue t.
Proof.
  intros Hs Hok. unfold send_request in Hs. destruct (Snapshot iter (registry t)) as [snap reg].
  set (t1 := with_sent t reg (rec t) (wire t)) in *.
  assert (tracker_ok t1 /\ balanced t t1) as [Hok1 Hb1]
    by (split; [by apply (tracker_ok_ext t)|by apply balanced_same]).
  assert (forall imm k, flights (advanceEndpoint now e imm k t1) = flights t /\
                        nackQueue (advanceEndpoint now e imm k t1) = nackQueue t) as Hadv.
  { intros. unfold advanceEndpoint. destruct (flows t1 !! _) as [fs|]; [|done].
    by destruct (pending fs !! _). }
  destruct (_ =? 0); [by injection Hs as <- <-|].
  destruct (negb _); [|destruct (negb _)].
  1,2: injection Hs as <- <-; split_and!; [by apply advance_ok| |apply Hadv..];
       etrans; [exact Hb1|apply advance_balanced].
  injection Hs as <- <-. split_and!; [by apply (tracker_ok_ext t)| |done..].
  split; [|apply has_with_rec]. unfold balance. simpl. by rewrite has_with_rec, net_dispatched.
Qed.

Lemma send_response_ok now net e n t :
  tracker_ok t -> let t' := send_response now net e n t in
  tracker_ok t' /\ balanced t t' /\ flights t' = flights t /\ nackQueue t' = nackQueue t.
Proof.
  intros Hok. cbn zeta. unfold send_response.
  assert (forall imm k, let t' := advanceEndpoint now e imm k t in
    tracker_ok t' /\ balanced t t' /\ flights t' = flights t /\ nackQueue t' = nackQueue t) as Hadv.
  { intros. split_and!; [by apply advance_ok|apply advance_balanced| |];
      subst t'; unfold advanceEndpoint; destruct (flows t !! _) as [fs|]; try done;
      by destruct (pending fs !! _). }
  destruct (response net); [|apply Hadv]. destruct (DecodeResponse _) as [resp|]; [|apply Hadv].
  destruct (_ =? _); [|destruct (_ =? _); [apply Hadv|done]].
  split_and!; [by apply drop_gap_ok|apply drop_gap_balanced| |];
    unfold cancelGap, drop_gap; destruct (flows t !! _) as [fs|]; try done;
    by destruct (pending fs !! _).
Qed.

Lemma settle_ok i f t : tracker_ok t -> tracker_ok (settle i f t).
Proof.
  apply tracker_ok_ext; [done..|]. simpl. destruct f; [by rewrite length_insert|].
  generalize (flights t) as l. clear. intros l. revert i.
  induction l as [|x l IH]; intros [|i]; simpl; [lia..|]. specialize (IH i). lia.
Qed.

Lemma step_pres t t' : step t t' -> tracker_ok t -> tracker_ok t' /\ balanced t t'.
Proof.
  intros Hstep Hok.
  destruct Hstep as [now rnd g sid hk seq t t' Hs Ho|hk seq t|w now drain t _|t
                    |i iter now nt e t t' n Hi Hr|i now nt e n t Hi|o t].
  - by eapply Observe_step_ok.
  - unfold Fill. destruct (seq =? 0); [done|].
    split; [by apply drop_gap_ok|apply drop_gap_balanced].
  - apply (sweepOnce_pres (fun t' => tracker_ok t' /\ balanced t t')); [| |done].
    + intros hk t' seq [H1 H2]. split; [by apply sweep_gap_ok|].
      etrans; [exact H2|apply sweep_gap_balanced].
    + intros hk t' [H1 H2]. split; [by apply retire_ok|]. etrans; [exact H2|apply retire_balanced].
  - split; [by apply dispatch_ok|apply (iter_dispatch_balanced 1)].
  - apply send_request_ok in Hr as (H1 & H2 & _); [|done]. split; [by apply settle_ok|].
    etrans; [exact H2|]. by apply balanced_same.
  - destruct (send_response_ok now nt e n t Hok) as (H1 & H2 & _).
    split; [by apply settle_ok|]. etrans; [exact H2|]. by apply balanced_same.
  - split; [by apply (tracker_ok_ext t)|by apply balanced_same].
Qed.

Lemma reachable_pres t0 t : tracker_ok t0 -> reachable t0 t -> tracker_ok t /\ balanced t0 t.
Proof.
  intros Hok Hr. induction Hr as [t|t1 t2 t3 Hs _ IH]; [done|].
  destruct (step_pres _ _ Hs Hok) as [Hok2 Hb]. destruct (IH Hok2) as [H1 H2].
  split; [done|]. etrans; [exact Hb|exact H2].
Qed.

Lemma New_tracker_ok c seeds r reg : tracker_ok (Nack.New c seeds r reg).
Proof. split; simpl; [|lia..]. intros hk fs H. by rewrite lookup_empty in H. Qed.

(** ** What no step touches

    The configuration is never written, and the recorder only gains counts. *)
Definition keeps (t t' : Tracker) : Prop := cfg t' = cfg t /\ grows (rec t) (rec t').

#[export] Instance keeps_po : PreOrder keeps.
Proof.
  split; [done|]. intros a b c [E1 G1] [E2 G2]. split; [congruence|]. etrans; [exact G1|exact G2].
Qed.

Lemma keeps_same t t' : cfg t' = cfg t -> rec t' = rec t -> keeps t t'.
Proof. intros E1 E2. split; [done|]. by rewrite E2. Qed.

Ltac counted := apply grows_with_rec; intros; apply add_only.

Lemma iter_grows n (f : option Recorder -> option Recorder) r :
  (forall r, grows r (f r)) -> grows r (Nat.iter n f r).
Proof. intros Hf. induction n as [|n IH]; [done|]. simpl. etrans; [exact IH|apply Hf]. Qed.

Lemma gap_loop_grows c now rnd hk g sid label n m p r p' r' :
  gap_loop c now rnd hk g sid label n m p r = Some (p', r') -> grows r r'.
Proof.
  revert m p r. induction n as [|n IH]; intros m p r; simpl; [by intros [= <- <-]|].
  destruct (p !! m); [apply IH|]. intros (j & _ & H)%bind_Some.
  etrans; [|exact (IH _ _ _ H)]. counted.
Qed.

Lemma observe_flow_grows c now rnd g sid hk seq fs r fs' r' :
  observe_flow c now rnd g sid hk seq fs r = Some (fs', r') -> grows r r'.
Proof.
  unfold observe_flow. destruct (auto_fill seq fs r) as [f1 r1] eqn:E.
  assert (grows r r1) as H1.
  { revert E. unfold auto_fill. destruct (pending fs !! seq); intros [= <- <-]; [counted|done]. }
  case_match; [by intros [= <- <-]|]. case_match.
  { case_match; intros [= <- <-]; [|done]. etrans; [exact H1|]. apply iter_grows. intros. counted. }
  case_match; [by intros [= <- <-]|]. intros ([p r2] & Hl & [= <- <-])%bind_Some.
  etrans; [exact H1|]. by eapply gap_loop_grows.
Qed.

Lemma Observe_keeps now rnd g sid hk seq t t' :
  Observe now rnd g sid hk seq t = Some t' -> keeps t t'.
Proof.
  unfold Observe. case_match; [by intros [= <-]|]. intros ([fs' r'] & Ho & [= <-])%bind_Some.
  split; [done|]. by eapply observe_flow_grows.
Qed.

Lemma dispatch_keeps t : keeps t (dispatch t).
Proof. unfold dispatch. by destruct (waiting t); [destruct (Nat.ltb _ _)|destruct (nackQueue t)]. Qed.

Lemma drop_gap_keeps label hk m t : keeps t (drop_gap label hk m t).
Proof.
  unfold drop_gap. destruct (flows t !! hk) as [fs|]; [|done]. destruct (pending fs !! m); [|done].
  split; [done|]. counted.
Qed.

Lemma advance_keeps now e imm n t : keeps t (advanceEndpoint now e imm n t).
Proof.
  unfold advanceEndpoint. destruct (flows t !! _) as [fs|]; [|done]. by destruct (pending fs !! _).
Qed.

Lemma sweep_gap_keeps now drain hk t seq : keeps t (sweep_gap now drain hk t seq).
Proof.
  unfold sweep_gap. destruct (flows t !! hk) as [fs|]; [|done]. destruct (pending fs !! seq); [|done].
  case_match; [split; [done|counted]|]. case_match; [split; [done|counted]|]. case_match; [|done].
  assert (keeps t (Nat.iter (drain hk seq) dispatch t)) as [Hc Hr].
  { induction (drain hk seq) as [|n IH]; [done|]. etrans; [exact IH|apply dispatch_keeps]. }
  cbn zeta. by case_match.
Qed.

Lemma retire_keeps now hk t : keeps t (retire_flow now hk t).
Proof. unfold retire_flow. repeat case_match; done. Qed.

Lemma send_request_keeps iter now net e t t' n :
  send_request iter now net e t = (t', n) -> keeps t t'.
Proof.
  unfold send_request. destruct (Snapshot _ _) as [snap reg]. set (t1 := with_sent _ _ _ _).
  assert (keeps t t1) as H1 by done.
  repeat case_match; intros [= <- <-]; try done;
    try (etrans; [exact H1|apply advance_keeps]). split; [done|]. counted.
Qed.

Lemma send_response_keeps now net e n t : keeps t (send_response now net e n t).
Proof.
  unfold send_response. repeat case_match; try apply advance_keeps; [|done]. apply drop_gap_keeps.
Qed.

Lemma step_keeps t t' : step t t' -> keeps t t'.
Proof.
  intros Hstep. destruct Hstep as [now rnd g sid hk seq t t' Hs Ho|hk seq t|w now drain t _|t
                    |i iter now nt e t t' n Hi Hr|i now nt e n t Hi|o t].
  - by eapply Observe_keeps.
  - unfold Fill. case_match; [done|]. apply drop_gap_keeps.
  - apply (sweepOnce_pres (keeps t)); [| |done].
    + intros hk t' seq H. etrans; [exact H|apply sweep_gap_keeps].
    + intros hk t' H. etrans; [exact H|apply retire_keeps].
  - apply dispatch_keeps.
  - etrans; [by eapply send_request_keeps|by apply keeps_same].
  - etrans; [apply (send_response_keeps now nt e n)|by apply keeps_same].
  - by apply keeps_same.
Qed.

Lemma steps_keep t t' : rtc step t t' -> keeps t t'.
Proof. induction 1 as [|a b c Hs _ IH]; [done|]. etrans; [by apply step_keeps|exact IH]. Qed.
