(* ===== verification/NackSweep.v ===== *)
(** The sweep of the gap tracker, gap by gap and flow by flow: what one
    [sweepOnce] leaves, whatever order Go walks the maps in and however far the
    dispatcher gets meanwhile. *)
From Stdlib Require Import ZArith Lia.
From S2P Require Import Prelude Metrics Discovery Nack NackSteps.

Definition gap_at (t : Tracker) (hk m : Z) : option gapEntry :=
  fs ← flows t !! hk; pending fs !! m.

(** A gap survives the sweep when it is neither too old nor out of retries. *)
Definition alive (c : TrackerConfig) (now : Z) (e : gapEntry) : Prop :=
  now <= deadline e /\ retries e < MaxRetries c.

#[export] Instance alive_dec c now e : Decision (alive c now e).
Proof. unfold alive. apply _. Defined.

(** What becomes of one gap: it is dropped, or kept with its attempt time, or,
    when it was due, with a new one: after the response timeout if it was
    queued, at once if the queue was full. *)
Definition swept (c : TrackerConfig) (timeout now : Z) (e : gapEntry) (o : option gapEntry) : Prop :=
  if decide (alive c now e)
  then exists next, o = Some (with_nextAttempt e next) /\
       (now <= nextAttempt e -> next = nextAttempt e) /\
       (nextAttempt e < now -> next = now + (timeout + 100 * Millisecond) \/ next = now)
  else o = None.

Definition swept_pending (c : TrackerConfig) (timeout now : Z) (p p' : gmap Z gapEntry) : Prop :=
  forall m, match p !! m with
            | Some e => swept c timeout now e (p' !! m)
            | None => p' !! m = None
            end.

(** What becomes of a flow: it is dropped once it has no gaps and is idle. *)
Definition swept_flow (c : TrackerConfig) (timeout now : Z) (fs : flowState)
    (o : option flowState) : Prop :=
  exists p', swept_pending c timeout now (pending fs) p' /\
    o = if decide (p' = ∅ /\ flowTTL c < now - lastSeen fs) then None
        else Some (with_pending fs p').

Lemma swept_dead c timeout now e : ~ alive c now e -> swept c timeout now e None.
Proof. intros. unfold swept. by rewrite decide_False. Qed.

Lemma swept_alive c timeout now e next :
  alive c now e ->
  (now <= nextAttempt e -> next = nextAttempt e) ->
  (nextAttempt e < now -> next = now + (timeout + 100 * Millisecond) \/ next = now) ->
  swept c timeout now e (Some (with_nextAttempt e next)).
Proof. intros. unfold swept. rewrite decide_True by done. eauto. Qed.

Section Sweep.
Context (w : walk) (now : Z) (drain : Z -> Z -> nat).

Lemma dispatch_config t :
  cfg (dispatch t) = cfg t /\ respTimeout (dispatch t) = respTimeout t.
Proof. unfold dispatch. by destruct (waiting t); [destruct (Nat.ltb _ _)|destruct (nackQueue t)]. Qed.

Lemma iter_dispatch_config n t :
  cfg (Nat.iter n dispatch t) = cfg t /\ respTimeout (Nat.iter n dispatch t) = respTimeout t.
Proof.
  induction n as [|n [<- <-]]; [done|]. apply dispatch_config.
Qed.

Lemma with_nextAttempt_id e : with_nextAttempt e (nextAttempt e) = e.
Proof. by destruct e. Qed.

(** One gap. *)
Lemma sweep_gap_one hk t fs m :
  flows t !! hk = Some fs ->
  let t' := sweep_gap now drain hk t m in
  cfg t' = cfg t /\ respTimeout t' = respTimeout t /\
  exists p', flows t' = <[hk := with_pending fs p']> (flows t) /\
    (forall m', m' <> m -> p' !! m' = pending fs !! m') /\
    match pending fs !! m with
    | Some e => swept (cfg t) (respTimeout t) now e (p' !! m)
    | None => p' !! m = None
    end.
Proof.
  intros Hf. cbn zeta. unfold sweep_gap. rewrite Hf.
  assert (flows t = <[hk := with_pending fs (pending fs)]> (flows t)) as Hsame.
  { rewrite insert_id; [done|]. rewrite Hf. by destruct fs. }
  destruct (pending fs !! m) as [e|] eqn:He; [|by split_and!; [..|exists (pending fs)]].
  assert (forall r, ~ alive (cfg t) now e ->
    let t' := set_pending hk fs (delete m (pending fs)) r t in
    cfg t' = cfg t /\ respTimeout t' = respTimeout t /\
    exists p', flows t' = <[hk := with_pending fs p']> (flows t) /\
      (forall m', m' <> m -> p' !! m' = pending fs !! m') /\
      swept (cfg t) (respTimeout t) now e (p' !! m)) as Hdel.
  { intros r Hdead. split_and!; [done..|]. exists (delete m (pending fs)). split_and!; [done| |].
    - intros m' Hm'. by rewrite lookup_delete_ne.
    - rewrite lookup_delete_eq. by apply swept_dead. }
  destruct (Z.ltb_spec (deadline e) now); [apply Hdel; unfold alive; lia|].
  destruct (Z.leb_spec (MaxRetries (cfg t)) (retries e)); [apply Hdel; unfold alive; lia|].
  assert (alive (cfg t) now e) as Hal by (split; lia).
  destruct (Z.ltb_spec (nextAttempt e) now).
  - pose proof (iter_dispatch_config (drain hk m) t) as [Ec Er].
    pose proof (iter_dispatch_flows (drain hk m) t) as Ef.
    destruct (Nat.ltb _ _); simpl; rewrite Ec, ?Er, Ef; (split_and!; [done..|]);
      (eexists; split_and!; [done|intros; by rewrite lookup_insert_ne|]);
      rewrite lookup_insert_eq; apply swept_alive; auto; lia.
  - split_and!; [done..|]. exists (pending fs). split_and!; [done..|].
    rewrite He. replace (Some e) with (Some (with_nextAttempt e (nextAttempt e)))
      by (by rewrite with_nextAttempt_id). apply swept_alive; auto; lia.
Qed.

(** The gaps of one flow, in any order without repetition. *)
Lemma sweep_gaps hk l t fs :
  NoDup l -> flows t !! hk = Some fs ->
  let t' := foldl (sweep_gap now drain hk) t l in
  cfg t' = cfg t /\ respTimeout t' = respTimeout t /\
  exists p', flows t' = <[hk := with_pending fs p']> (flows t) /\
    forall m, if decide (m ∈ l)
      then match pending fs !! m with
           | Some e => swept (cfg t) (respTimeout t) now e (p' !! m)
           | None => p' !! m = None
           end
      else p' !! m = pending fs !! m.
Proof.
  revert t fs. induction l as [|x l IH]; intros t fs Hnd Hf.
  - split_and!; [done..|]. exists (pending fs). split;
      [|intros m; by rewrite decide_False by apply not_elem_of_nil].
    simpl. rewrite insert_id; [done|]. rewrite Hf. by destruct fs.
  - apply NoDup_cons in Hnd as [Hx Hnd]. simpl.
    destruct (sweep_gap_one hk t fs x Hf) as (E1 & E2 & p1 & E3 & Ho & Hx1).
    set (t1 := sweep_gap now drain hk t x) in *.
    destruct (IH t1 (with_pending fs p1) Hnd) as (F1 & F2 & p' & F3 & Hp);
      [by rewrite E3, lookup_insert_eq|].
    rewrite F1, F2, E1, E2, F3, E3, insert_insert_eq. split_and!; [done..|].
    exists p'. split; [done|]. intros m. specialize (Hp m). simpl in Hp. rewrite E1, E2 in Hp.
    destruct (decide (m = x)) as [->|Hne].
    + rewrite decide_False in Hp by done. rewrite decide_True by (by left). by rewrite Hp.
    + rewrite (Ho m Hne) in Hp. destruct (decide (m ∈ l)).
      * by rewrite decide_True by (by right).
      * by rewrite decide_False by (by intros [?|?]%elem_of_cons).
Qed.

Lemma elem_of_keys {A} (m : gmap Z A) k : k ∈ keys m <-> is_Some (m !! k).
Proof.
  unfold keys. rewrite list_elem_of_fmap. split.
  - intros ([k' x] & -> & H%elem_of_map_to_list). by exists x.
  - intros [x H]. exists (k, x). split; [done|]. by apply elem_of_map_to_list.
Qed.

Lemma NoDup_keys {A} (m : gmap Z A) : NoDup (keys m).
Proof. apply NoDup_fst_map_to_list. Qed.

(** One flow. *)
Lemma sweep_flow_one hk t fs :
  fair_walk w -> flows t !! hk = Some fs ->
  let t' := sweep_flow w now drain t hk in
  cfg t' = cfg t /\ respTimeout t' = respTimeout t /\
  (forall hk', hk' <> hk -> flows t' !! hk' = flows t !! hk') /\
  swept_flow (cfg t) (respTimeout t) now fs (flows t' !! hk).
Proof.
  intros [_ Hw] Hf. cbn zeta. unfold sweep_flow. rewrite Hf.
  set (l := walk_gaps w hk (keys (pending fs))).
  assert (NoDup l) as Hnd by (unfold l; rewrite (Hw hk); apply NoDup_keys).
  assert (forall m, m ∈ l <-> is_Some (pending fs !! m)) as Hin
    by (intros m; unfold l; rewrite (Hw hk); apply elem_of_keys).
  destruct (sweep_gaps hk l t fs Hnd Hf) as (E1 & E2 & p' & E3 & Hp).
  set (t1 := foldl (sweep_gap now drain hk) t l) in *.
  assert (swept_pending (cfg t) (respTimeout t) now (pending fs) p') as Hsp.
  { intros m. specialize (Hp m). destruct (pending fs !! m) as [e|] eqn:He.
    - by rewrite decide_True in Hp by (apply Hin; by rewrite He).
    - rewrite decide_False in Hp; [done|]. rewrite Hin, He. by intros [? [=]]. }
  unfold retire_flow. rewrite E3, lookup_insert_eq, E1. cbn [pending with_pending lastSeen].
  assert ((size p' =? 0)%nat && (flowTTL (cfg t) <? now - lastSeen fs) =
          bool_decide (p' = ∅ /\ flowTTL (cfg t) < now - lastSeen fs)) as ->.
  { destruct (Nat.eqb_spec (size p') 0) as [E|E]; [rewrite map_size_empty_iff in E|].
    - subst p'. destruct (Z.ltb_spec (flowTTL (cfg t)) (now - lastSeen fs));
        symmetry; [apply bool_decide_eq_true_2|apply bool_decide_eq_false_2]; [done|lia].
    - symmetry. apply bool_decide_eq_false_2. intros [-> _]. by rewrite map_size_empty in E. }
  split_and!; [by case_bool_decide|by case_bool_decide| |].
  - intros hk' Hne. case_bool_decide; simpl;
      rewrite ?E3, ?lookup_delete_ne, lookup_insert_ne by done; done.
  - exists p'. split; [done|]. case_bool_decide as Hd.
    + rewrite decide_True by done. simpl. by rewrite lookup_delete_eq.
    + rewrite decide_False by done. by rewrite E3, lookup_insert_eq.
Qed.

Lemma sweep_flows l t :
  fair_walk w -> NoDup l -> (forall hk, hk ∈ l -> is_Some (flows t !! hk)) ->
  let t' := foldl (sweep_flow w now drain) t l in
  cfg t' = cfg t /\ respTimeout t' = respTimeout t /\
  forall hk, if decide (hk ∈ l)
    then exists fs, flows t !! hk = Some fs /\
         swept_flow (cfg t) (respTimeout t) now fs (flows t' !! hk)
    else flows t' !! hk = flows t !! hk.
Proof.
  intros Hw. revert t. induction l as [|x l IH]; intros t Hnd Hin.
  - split_and!; [done..|]. intros hk. by rewrite decide_False by apply not_elem_of_nil.
  - apply NoDup_cons in Hnd as [Hx Hnd]. simpl.
    destruct (Hin x) as [fs Hfs]; [by left|].
    destruct (sweep_flow_one x t fs Hw Hfs) as (E1 & E2 & Ho & Hsw).
    set (t1 := sweep_flow w now drain t x) in *.
    destruct (IH t1 Hnd) as (F1 & F2 & Hall).
    { intros hk Hk. rewrite Ho by (by intros ->). apply Hin. by right. }
    rewrite F1, F2, E1, E2. split_and!; [done..|]. intros hk. specialize (Hall hk).
    rewrite E1, E2 in Hall. destruct (decide (hk = x)) as [->|Hne].
    + rewrite decide_False in Hall by done. rewrite decide_True by (by left).
      rewrite Hall. eauto.
    + rewrite (Ho hk Hne) in Hall. destruct (decide (hk ∈ l)).
      * by rewrite decide_True by (by right).
      * by rewrite decide_False by (by intros [?|?]%elem_of_cons).
Qed.

Lemma sweepOnce_flows t hk :
  fair_walk w ->
  match flows t !! hk with
  | Some fs => swept_flow (cfg t) (respTimeout t) now fs (flows (sweepOnce w now drain t) !! hk)
  | None => flows (sweepOnce w now drain t) !! hk = None
  end.
Proof.
  intros Hw. pose proof Hw as [Hwf _]. unfold sweepOnce.
  destruct (sweep_flows (walk_flows w (keys (flows t))) t Hw) as (_ & _ & Hall).
  - rewrite Hwf. apply NoDup_keys.
  - intros hk'. rewrite Hwf. apply elem_of_keys.
  - specialize (Hall hk). destruct (flows t !! hk) as [fs|] eqn:Hf.
    + rewrite decide_True in Hall by (rewrite Hwf; apply elem_of_keys; by rewrite Hf).
      destruct Hall as (fs' & [= <-] & Hs). done.
    + rewrite decide_False in Hall; [done|]. rewrite Hwf, elem_of_keys, Hf. by intros [? [=]].
Qed.

Lemma sweep_gap_at t hk m :
  fair_walk w ->
  match gap_at t hk m with
  | Some e => swept (cfg t) (respTimeout t) now e (gap_at (sweepOnce w now drain t) hk m)
  | None => gap_at (sweepOnce w now drain t) hk m = None
  end.
Proof.
  intros Hw. pose proof (sweepOnce_flows t hk Hw) as Hs. unfold gap_at.
  destruct (flows t !! hk) as [fs|]; simpl; [|by rewrite Hs].
  destruct Hs as (p' & Hp & ->). specialize (Hp m).
  case_decide as Hd; [|done]. destruct Hd as [-> _]. rewrite lookup_empty in Hp.
  by destruct (pending fs !! m).
Qed.
End Sweep.
