(* ===== verification/NackProps.v ===== *)
(** What the gap tracker promises: accounting over every interleaving, exact
    gap detection, the sweep, the retry schedule and the exchange with the
    retry endpoints, and the two places where it does something else than it
    means to. *)
From Stdlib Require Import ZArith Lia.
From S2P Require Import Prelude Metrics Wire Advert Discovery Nack NackSteps NackSweep.

(** ** Every interleaving *)

(** C11: in every state reachable from a new tracker, by any interleaving of
    frames, fills, sweeps, NACK attempts and endpoint updates, a pending gap
    lies strictly below the last number of its flow, is filed under its own
    flow and number, and has been escalated as often as it was retried; the
    NACK queue and the running attempts stay within their capacity. *)
Theorem tracker_invariant c seeds r reg t :
  reachable (Nack.New c seeds r reg) t ->
  (forall hk fs, flows t !! hk = Some fs -> 0 < lastSeqNum fs < 2 ^ 64 /\
     forall m e, pending fs !! m = Some e ->
       0 < m < lastSeqNum fs /\ g_seqNum e = m /\ g_hashKey e = hk /\
       0 <= retries e /\ endpointIdx e = retries e) /\
  (length (nackQueue t) <= 4096)%nat /\ (length (flights t) <= 64)%nat.
Proof.
  intros Hr. destruct (reachable_pres _ _ (New_tracker_ok c seeds r reg) Hr) as [[H1 H2 H3] _].
  split_and!; try done. intros hk fs Hf. destruct (H1 hk fs Hf) as [Hl Hg].
  split; [done|]. intros m e He. destruct (Hg m e He) as [? []]. done.
Qed.

(** No gap is lost from the accounts. In every reachable state the gaps
    ever detected are those suppressed (filled or acknowledged), those given
    up, and those still pending, on any mix of flows. *)
Theorem gap_accounting c seeds n reg t :
  reachable (Nack.New c seeds (Some (Metrics.New n)) reg) t ->
  exists r, rec t = Some r /\
    value gapsDetected r =
      value gapsSuppressed r + value nacksUnrecovered r + PendingGaps t.
Proof.
  intros Hr. destruct (reachable_pres _ _ (New_tracker_ok c seeds _ reg) Hr) as [_ [Hb Hh]].
  simpl in Hh. destruct (rec t) as [r|] eqn:E; [|done]. exists r. split; [done|].
  unfold balance in Hb. rewrite E in Hb.
  change (PendingGaps t) with (gaps_in (flows t)).
  unfold has, net, Nack.New in Hb. cbn [rec flows] in Hb.
  change (gaps_in ∅) with 0 in Hb. unfold value at 4 5 6 in Hb. simpl in Hb. lia.
Qed.

(** ** Gap detection *)

(** The frames of one flow: when they come, the random source, the number. *)
Definition frame_run (g : Z) (sid : bytes) (hk : Z) (l : list (Z * (Z -> Z) * Z))
    (t : Tracker) : option Tracker :=
  foldl (fun acc f => acc ≫= Observe f.1.1 f.1.2 g sid hk f.2) (Some t) l.

Definition max_seq (l : list Z) : Z := foldr Z.max 0 l.

(** No frame looks like a proxy restart when it comes. *)
Definition no_restart (thr : Z) (l : list Z) : Prop :=
  forall l1 s l2, l = l1 ++ s :: l2 -> ~ (s <= thr < max_seq l1).

Lemma no_restart_snoc thr l s :
  no_restart thr (l ++ [s]) -> no_restart thr l /\ ~ (s <= thr < max_seq l).
Proof.
  intros H. split; [|by apply (H l s [])].
  intros l1 s' l2 ->. apply (H l1 s' (l2 ++ [s])). by rewrite <- app_assoc.
Qed.

Lemma max_seq_snoc l s : max_seq (l ++ [s]) = Z.max (max_seq l) (Z.max s 0).
Proof. unfold max_seq. induction l as [|x l IH]; simpl in *; [lia|]. rewrite IH. lia. Qed.

(** What [observe_flow] does to a flow when no restart is seen. *)
Lemma observe_flow_spec c now rnd g sid hk seq fs r :
  0 < seq < 2 ^ 64 -> 0 < lastSeqNum fs < 2 ^ 64 ->
  (forall m, is_Some (pending fs !! m) -> m < lastSeqNum fs) ->
  ~ (seq <= threshold c < lastSeqNum fs) -> 0 < i64 (JitterMax c + 1) ->
  exists fs' r', observe_flow c now rnd g sid hk seq fs r = Some (fs', r') /\
    lastSeqNum fs' = Z.max (lastSeqNum fs) seq /\
    forall m, is_Some (pending fs' !! m) <->
      (is_Some (pending fs !! m) /\ m <> seq) \/ lastSeqNum fs < m < seq.
Proof.
  intros Hs Hl Hp Hn Hj. unfold observe_flow.
  destruct (auto_fill_flow seq fs r) as (E1 & _ & E3).
  destruct (auto_fill seq fs r) as [f1 r1]. cbn [fst] in *.
  assert (forall m, is_Some (pending f1 !! m) <-> is_Some (pending fs !! m) /\ m <> seq) as Hd.
  { intros m. rewrite E3, lookup_delete_is_Some. naive_solver. }
  rewrite E1. rewrite (proj2 (Z.eqb_neq _ _)) by lia.
  destruct (Z.leb_spec seq (lastSeqNum fs)).
  - assert ((seq <=? threshold c) && (threshold c <? lastSeqNum fs) = false) as ->
      by (zcases; tauto).
    exists f1, r1. split_and!; [done|lia|]. intros m. rewrite Hd. split; [by left|].
    intros [?|?]; [done|lia].
  - rewrite u64_id by lia. destruct (Z.eqb_spec seq (lastSeqNum fs + 1)).
    + exists (with_last f1 seq), r1. split_and!; [done|simpl; lia|]. intros m.
      simpl. rewrite Hd. split; [by left|]. intros [?|?]; [done|lia].
    + destruct (gap_loop_total c now rnd hk g sid (flowType f1)
        (Z.to_nat (seq - (lastSeqNum fs + 1))) (lastSeqNum fs + 1) (pending f1) r1 Hj)
        as [[p r2] Hg]. rewrite Hg. eexists _, r2. split_and!; [done|simpl; lia|].
      apply gap_loop_spec in Hg as (Hg & _ & _). intros m. simpl. rewrite Hg, <- Hd.
      destruct (pending f1 !! m) eqn:Em; [split; [by left|done]|].
      case_decide; split; try done; [right; lia|intros [Hx|?]; [by destruct Hx|lia]].
Qed.

Lemma Observe_spec now rnd g sid hk seq t fs :
  flows t !! hk = Some fs -> 0 < seq < 2 ^ 64 -> 0 < lastSeqNum fs < 2 ^ 64 ->
  (forall m, is_Some (pending fs !! m) -> m < lastSeqNum fs) ->
  ~ (seq <= threshold (cfg t) < lastSeqNum fs) -> 0 < i64 (JitterMax (cfg t) + 1) ->
  exists t' fs', Observe now rnd g sid hk seq t = Some t' /\ cfg t' = cfg t /\
    flows t' = <[hk := fs']> (flows t) /\ lastSeqNum fs' = Z.max (lastSeqNum fs) seq /\
    forall m, is_Some (pending fs' !! m) <->
      (is_Some (pending fs !! m) /\ m <> seq) \/ lastSeqNum fs < m < seq.
Proof.
  intros Hf Hs Hl Hp Hn Hj. unfold Observe. rewrite (proj2 (Z.eqb_neq _ _)) by lia.
  rewrite Hf. assert (default (new_flow g sid) (Some fs) = fs) as -> by done. cbn zeta.
  set (fs0 := mkFlow (lastSeqNum fs) (f_groupIdx fs) (f_subtreeID fs) (flowType fs) (pending fs) now).
  destruct (observe_flow_spec (cfg t) now rnd g sid hk seq fs0 (rec t)) as (fs' & r' & Ho & H1 & H2);
    [done..|]. rewrite Ho. simpl.
  by exists (with_flows t (<[hk:=fs']> (flows t)) r'), fs'.
Qed.

Lemma max_seq_in l : l <> [] -> Forall (fun s => 0 < s < 2 ^ 64) l -> max_seq l ∈ l /\ 0 < max_seq l < 2 ^ 64.
Proof.
  induction l as [|x l IH]; [done|]. intros _ [Hx Hl]%Forall_cons.
  destruct l as [|y l]; [simpl; rewrite Z.max_l by lia; split; [by left|lia]|].
  destruct (IH ltac:(done) Hl) as [Hin Hr].
  change (max_seq (x :: y :: l)) with (Z.max x (max_seq (y :: l))).
  destruct (Z.max_spec x (max_seq (y :: l))) as [[_ ->]|[_ ->]]; split; try lia; [by right|by left].
Qed.

(** C6: gap detection is exact and does not depend on the order of arrival. As
    long as no frame looks like a proxy restart, after any non-empty sequence
    of frames of a new flow its last number is the largest one seen, and the
    pending gaps are exactly the numbers between the first and the largest
    that have not arrived; no other flow is touched and nothing panics. *)
Theorem gap_detection_exact g sid hk t s0 l :
  let seqs := s0.2 :: l.*2 in
  flows t !! hk = None -> 0 < i64 (JitterMax (cfg t) + 1) ->
  Forall (fun s => 0 < s < 2 ^ 64) seqs -> no_restart (threshold (cfg t)) seqs ->
  exists t' fs, frame_run g sid hk (s0 :: l) t = Some t' /\ cfg t' = cfg t /\
    flows t' !! hk = Some fs /\ delete hk (flows t') = flows t /\
    lastSeqNum fs = max_seq seqs /\
    forall m, is_Some (pending fs !! m) <-> s0.2 < m < max_seq seqs /\ m ∉ seqs.
Proof.
  cbn zeta. intros Hnone Hj. induction l as [|f l IH] using rev_ind; intros Hall Hn.
  - unfold frame_run. simpl. unfold Observe. apply Forall_cons in Hall as [Hs _].
    rewrite (proj2 (Z.eqb_neq _ _)), Hnone by lia. simpl.
    eexists _, _. do 2 (split; [done|]). split; [apply lookup_insert_eq|].
    split_and!; [simpl; by rewrite delete_insert_eq, delete_id|simpl; lia|].
    intros m. simpl. rewrite lookup_empty. split; [by intros [? [=]]|]. simpl. lia.
  - rewrite fmap_app in *. simpl in Hall, Hn |- *.
    change (s0.2 :: l.*2 ++ [f.2]) with ((s0.2 :: l.*2) ++ [f.2]) in *.
    set (seqs := s0.2 :: l.*2) in *.
    apply Forall_app in Hall as [Hall [Hf _]%Forall_cons].
    apply no_restart_snoc in Hn as [Hn Hr].
    destruct (IH Hall Hn) as (t1 & fs & Hrun & Hc & Hfs & Hdel & Hlast & Hpend).
    destruct (max_seq_in seqs) as [Hin Hmax]; [done..|].
    destruct (Observe_spec f.1.1 f.1.2 g sid hk f.2 t1 fs) as (t2 & fs2 & Ho & Hc2 & Hf2 & Hl2 & Hp2);
      rewrite ?Hlast, ?Hc; try done; [intros m [? _]%Hpend; lia|].
    exists t2, fs2. split.
    { rewrite app_comm_cons. unfold frame_run. rewrite foldl_snoc.
      fold (frame_run g sid hk (s0 :: l) t). by rewrite Hrun. }
    change (s0.2 `max` max_seq (l.*2 ++ [f.2])) with (max_seq (seqs ++ [f.2])).
    rewrite Hf2, Hc2, lookup_insert_eq, delete_insert_eq, Hl2, Hlast.
    split_and!; [done..|rewrite max_seq_snoc; lia|].
    intros m. rewrite Hp2, Hpend, Hlast, max_seq_snoc, not_elem_of_app, list_elem_of_singleton.
    assert (s0.2 <= max_seq seqs) by (unfold seqs; simpl; lia).
    assert (max_seq seqs < m -> m ∉ seqs) as Hbig.
    { intros Hlt Hm. assert (forall x, x ∈ seqs -> x <= max_seq seqs) as Hub; [|apply Hub in Hm; lia].
      generalize seqs. clear. induction seqs as [|x l IH]; intros y; [by intros ?%elem_of_nil|].
      intros [->|Hy]%elem_of_cons; simpl; [lia|]. apply IH in Hy. lia. }
    destruct (Z.lt_trichotomy m (max_seq seqs)) as [Hlt|[->|Hgt]].
    + split; [intros [[[? ?] ?]|?]; [split_and!; try done; lia|lia]|].
      intros [? [? ?]]. left. split_and!; try done; lia.
    + split; [intros [[[? ?] ?]|?]; lia|]. by intros [_ [? _]].
    + specialize (Hbig Hgt). split; [intros [[[? ?] ?]|?]; [lia|split_and!; try done; lia]|].
      intros [? [_ ?]]. right. lia.
Qed.

(** ** The sweep *)

(** C13: a sweep gives up exactly the gaps that are past their deadline or out of
    retries, keeps every other gap with its retry state (a due one is queued and
    put off until after the response timeout, or left due when the queue is
    full), and drops exactly the flows left without gaps and idle for longer
    than the tail TTL (the gap TTL when there is no positive tail TTL); whatever
    the order of the walk and the speed of the dispatcher. *)
Theorem sweep_spec w now drain t :
  fair_walk w ->
  let t' := sweepOnce w now drain t in
  (forall hk m, match gap_at t hk m with
                | Some e => swept (cfg t) (respTimeout t) now e (gap_at t' hk m)
                | None => gap_at t' hk m = None
                end) /\
  (forall hk fs, flows t !! hk = Some fs ->
     (flows t' !! hk = None <->
      (forall m, gap_at t' hk m = None) /\
      (if decide (0 < TailTTL (cfg t)) then TailTTL (cfg t) else GapTTL (cfg t)) < now - lastSeen fs)).
Proof.
  intros Hw t'.
  assert (flowTTL (cfg t) = if decide (0 < TailTTL (cfg t)) then TailTTL (cfg t) else GapTTL (cfg t))
    as <- by (unfold flowTTL; case_decide; zcases; lia).
  split.
  - intros hk m. by apply sweep_gap_at.
  - unfold gap_at. intros hk fs Hf. pose proof (sweepOnce_flows w now drain t hk Hw) as Hs. fold t' in Hs.
    rewrite Hf in Hs. destruct Hs as (p' & Hp & ->). case_decide as Hd; simpl.
    + split; [by intros _; split; [|apply Hd]|done].
    + split; [done|]. intros [Hn Ht]. destruct Hd. split; [|done]. by apply map_empty.
Qed.

(** ** The retry schedule *)

(** C32: after a failed attempt the gap is retried at once when a MISS leaves
    untried endpoints, and otherwise after 500 ms times two to the number of
    attempts, capped by the configured maximum; so for the first 34 attempts. *)
Theorem backoff_schedule c now imm n e :
  0 <= retries e <= 33 ->
  let e' := advanced c now imm n e in
  retries e' = retries e + 1 /\ endpointIdx e' = endpointIdx e + 1 /\
  deadline e' = deadline e /\
  nextAttempt e' =
    if imm && negb ((0 <? n) && (n <=? endpointIdx e + 1)) then now
    else now + Z.min (2 ^ (retries e + 1) * (500 * Millisecond)) (BackoffMax c).
Proof.
  intros Hr. cbn zeta. split_and!; [done..|]. unfold advanced. cbn [nextAttempt].
  destruct (imm && _); [done|]. f_equal.
  assert (1 <= 2 ^ (retries e + 1) <= 2 ^ 34) as Hp.
  { split; [change 1 with (2 ^ 0)|]; apply Z.pow_le_mono_r; lia. }
  assert (backoff (retries e + 1) = 2 ^ (retries e + 1) * (500 * Millisecond)) as ->.
  { unfold backoff, Millisecond. rewrite (i64_id (2 ^ (retries e + 1))) by lia.
    apply i64_id. lia. }
  zcases.
Qed.

(** The 35th failed attempt overflows the shift and the product: the next
    attempt is scheduled 40 years in the past, whatever the (non-negative)
    cap, so that the following sweep queues it again without any hold-off. *)
Theorem backoff_wraps c now n e :
  retries e = 34 -> 0 <= BackoffMax c ->
  nextAttempt (advanced c now false n e) = now - 1266874889709551616.
Proof.
  intros Hr Hb. unfold advanced. cbn [nextAttempt andb]. rewrite Hr.
  change (backoff (34 + 1)) with (-1266874889709551616). zcases.
Qed.

(** ** The exchange with an endpoint *)

Definition entry_wf (e : gapEntry) : Prop :=
  0 <= g_hashKey e < 2 ^ 64 /\ 0 <= g_seqNum e < 2 ^ 64 /\
  length (g_subtreeID e) = 32%nat /\ Forall is_byte (g_subtreeID e).

(** The endpoint of the attempt with index [k]. *)
Definition target (snap : list EndpointEntry) (k : Z) : EndpointEntry :=
  nth (Z.to_nat (clamp k (Z.of_nat (length snap)))) snap dummy_endpoint.

Lemma target_lookup snap k :
  0 <= k -> snap <> [] ->
  snap !! Z.to_nat (Z.min k (Z.of_nat (length snap) - 1)) = Some (target snap k).
Proof.
  intros Hk Hs. assert (length snap <> 0%nat) by (by destruct snap). unfold target, clamp.
  rewrite nth_lookup.
  assert (Z.to_nat (if Z.of_nat (length snap) <=? k then Z.of_nat (length snap) - 1 else k) =
          Z.to_nat (Z.min k (Z.of_nat (length snap) - 1))) as -> by zcases.
  destruct (lookup_lt_is_Some_2 snap (Z.to_nat (Z.min k (Z.of_nat (length snap) - 1))))
    as [x Hx]; [lia|]. by rewrite Hx.
Qed.

(** C30: one attempt sends one NACK, to the endpoint its escalation count points
    at and never past the last one, and the 64 bytes it sends decode to a NACK
    (type 0x10) whose range is exactly the missing number, under the hash key
    and the subtree of the flow. Without endpoints nothing is sent. *)
Theorem nack_request_spec iter now net e t :
  entry_wf e -> 0 <= endpointIdx e -> listens net = true -> (forall a, resolves net a = true) ->
  let snap := (Snapshot iter (registry t)).1 in
  let q := send_request iter now net e t in
  if decide (snap = []) then q.2 = None /\ wire q.1 = wire t /\ flows q.1 = flows t
  else q.2 = Some (Z.of_nat (length snap)) /\ flows q.1 = flows t /\
       rec q.1 = with_rec (rec t) (NACKDispatched (flowLabel (g_groupIdx e))) /\
       exists endpoint buf, wire q.1 = wire t ++ [(Addr endpoint, buf)] /\
         snap !! Z.to_nat (Z.min (endpointIdx e) (Z.of_nat (length snap) - 1)) = Some endpoint /\
         length buf = 64%nat /\
         Decode buf = inl {| n_MsgType := 0x10; n_HashKey := g_hashKey e;
                             n_StartSeq := g_seqNum e; n_EndSeq := g_seqNum e;
                             n_SubtreeID := g_subtreeID e |}.
Proof.
  intros (Hk & Hs & Hl & Hb) Hidx Hli Hre. cbn zeta. unfold send_request.
  destruct (Snapshot iter (registry t)) as [snap reg]. cbn [fst].
  case_decide as Hd; [by subst snap|].
  assert (Z.of_nat (length snap) <> 0) by (destruct snap; simpl; [done|lia]).
  rewrite (proj2 (Z.eqb_neq _ _)) by done. rewrite Hre, Hli. cbn [negb fst snd].
  split_and!; [done..|].
  destruct (Encode_decodes (nack_for e) (zeros NACKSize)) as (buf & He & Hdec & Hlen).
  - repeat split; simpl; lia || done.
  - vm_compute. lia.
  - exists (target snap (endpointIdx e)), buf. rewrite He.
    split_and!; [done|by apply target_lookup|done|exact Hdec].
Qed.

(** Attempts escalate through the tiers. Over a snapshot of the registry, a
    later attempt never goes to a lower tier than an earlier one, and once
    every endpoint has been tried all further attempts go to the last one. *)
Theorem attempts_escalate ops iter i j :
  Forall op_fair ops -> fair iter -> 0 <= i <= j ->
  let snap := (Snapshot iter (Discovery.run ops NewRegistry)).1 in
  snap <> [] ->
  e_Tier (target snap i) <= e_Tier (target snap j) /\
  (Z.of_nat (length snap) - 1 <= i -> target snap i = target snap j) /\
  (i < Z.of_nat (length snap) -> snap !! Z.to_nat i = Some (target snap i)).
Proof.
  intros Hops Hi Hij snap Hne.
  destruct (Snapshot_ok iter _ Hi (run_cache ops Hops)) as (_ & Hsort & _). fold snap in Hsort.
  pose proof (target_lookup snap i ltac:(lia) Hne) as Li.
  pose proof (target_lookup snap j ltac:(lia) Hne) as Lj.
  split_and!.
  - destruct (decide (Z.min i (Z.of_nat (length snap) - 1) = Z.min j (Z.of_nat (length snap) - 1)))
      as [E|Hn]; [rewrite E in Li; rewrite Li in Lj; by injection Lj as ->|].
    assert (length snap <> 0%nat) by (by destruct snap).
    eapply sorted_lookup in Hsort; [|..|exact Li|exact Lj]; [|lia].
    unfold before, less in Hsort. revert Hsort. zcases.
  - intros Hlast. assert (length snap <> 0%nat) by (by destruct snap).
    rewrite Z.min_r in Li, Lj by lia. rewrite Li in Lj. by injection Lj as ->.
  - intros Hlt. by rewrite Z.min_l in Li by lia.
Qed.

Lemma gap_at_drop label hk m t fs e :
  flows t !! hk = Some fs -> pending fs !! m = Some e ->
  let t' := drop_gap label hk m t in
  gap_at t' hk m = None /\ rec t' = with_rec (rec t) (GapSuppressed (label fs)) /\
  forall hk' m', (hk', m') <> (hk, m) -> gap_at t' hk' m' = gap_at t hk' m'.
Proof.
  intros Hf He. cbn zeta. unfold drop_gap, gap_at. rewrite Hf, He. split_and!; simpl.
  - by rewrite lookup_insert_eq; simpl; rewrite lookup_delete_eq.
  - done.
  - intros hk' m' Hne. rewrite lookup_insert. case_decide as E; [|done]. subst hk'. rewrite Hf. simpl.
    rewrite lookup_delete_ne; [done|]. by intros ->.
Qed.

Lemma gap_at_advance now e imm n t fs e0 :
  flows t !! g_hashKey e = Some fs -> pending fs !! g_seqNum e = Some e0 ->
  let t' := advanceEndpoint now e imm n t in
  gap_at t' (g_hashKey e) (g_seqNum e) = Some (advanced (cfg t) now imm n e0) /\
  rec t' = rec t /\
  forall hk' m', (hk', m') <> (g_hashKey e, g_seqNum e) -> gap_at t' hk' m' = gap_at t hk' m'.
Proof.
  intros Hf He. cbn zeta. unfold advanceEndpoint, gap_at. rewrite Hf, He. split_and!; simpl.
  - by rewrite lookup_insert_eq; simpl; rewrite lookup_insert_eq.
  - done.
  - intros hk' m' Hne. rewrite lookup_insert. case_decide as E; [|done]. subst hk'. rewrite Hf. simpl.
    rewrite lookup_insert_ne; [done|]. intros E. by rewrite E in Hne.
Qed.

(** What the response to a NACK says. *)
Inductive verdict := VAck | VMiss | VNone.

Definition verdict_of (resp : option bytes) : verdict :=
  match resp with
  | None => VNone
  | Some d =>
      match DecodeResponse (take (ResponseSize + 16) d) with
      | inl r => if r_MsgType r =? MsgTypeACK then VAck else VMiss
      | inr _ => VNone
      end
  end.

(** C31: the response settles the gap it was asked for and no other. An ACK
    closes it, a MISS moves it to the next endpoint, and silence or a
    datagram that is neither backs it off; if the gap was closed in the
    meantime, nothing at all happens. *)
Theorem nack_response_spec now net e n t :
  let t' := send_response now net e n t in
  match gap_at t (g_hashKey e) (g_seqNum e) with
  | None => t' = t
  | Some e0 =>
      gap_at t' (g_hashKey e) (g_seqNum e) =
        match verdict_of (response net) with
        | VAck => None
        | VMiss => Some (advanced (cfg t) now true n e0)
        | VNone => Some (advanced (cfg t) now false 0 e0)
        end /\
      rec t' = (if verdict_of (response net) is VAck
                then with_rec (rec t) (GapSuppressed (flowLabel (g_groupIdx e))) else rec t) /\
      forall hk m, (hk, m) <> (g_hashKey e, g_seqNum e) -> gap_at t' hk m = gap_at t hk m
  end.
Proof.
  cbn zeta. unfold send_response, verdict_of.
  destruct (gap_at t (g_hashKey e) (g_seqNum e)) as [e0|] eqn:Hg.
  - unfold gap_at in Hg. apply bind_Some in Hg as (fs & Hf & He).
    destruct (response net) as [d|]; [|by eapply gap_at_advance].
    destruct (DecodeResponse _) as [r|] eqn:Hd; [|by eapply gap_at_advance].
    apply DecodeResponse_type in Hd as [->| ->]; simpl; [by eapply gap_at_advance|].
    by eapply (gap_at_drop (fun _ => flowLabel (g_groupIdx e))).
  - assert (forall imm k, advanceEndpoint now e imm k t = t) as Ha.
    { intros. unfold advanceEndpoint, gap_at in *. destruct (flows t !! g_hashKey e) as [fs|] eqn:E; [|done].
      simpl in Hg. by rewrite Hg. }
    assert (cancelGap e t = t) as Hc.
    { unfold cancelGap, drop_gap, gap_at in *. destruct (flows t !! g_hashKey e) as [fs|] eqn:E; [|done].
      simpl in Hg. by rewrite Hg. }
    destruct (response net); [|done]. destruct (DecodeResponse _); [|done].
    destruct (_ =? _); [done|]. by destruct (_ =? _).
Qed.

(** ** Panics and resets *)

(** [Observe] panics exactly when a frame leaves a gap while the jitter
    bound is negative (or its successor overflows): the configuration is not
    checked for that. *)
Theorem observe_panics_iff now rnd g sid hk seq t :
  tracker_ok t -> 0 <= seq < 2 ^ 64 ->
  Observe now rnd g sid hk seq t = None <->
  i64 (JitterMax (cfg t) + 1) <= 0 /\
  exists fs, flows t !! hk = Some fs /\ lastSeqNum fs + 1 < seq.
Proof.
  intros Hok Hs. unfold Observe. destruct (Z.eqb_spec seq 0) as [->|H0].
  { split; [done|]. intros (_ & fs & Hf & Hlt). destruct (tk_flows t Hok hk fs Hf) as [Hl _]. lia. }
  cbn zeta. destruct (flows t !! hk) as [fs|] eqn:Hf; simpl.
  2: { split; [done|]. by intros (_ & fs & ? & _). }
  destruct (tk_flows t Hok hk fs Hf) as [Hl Hg].
  set (fs0 := mkFlow _ _ _ _ _ _). unfold observe_flow.
  destruct (auto_fill_flow seq fs0 (rec t)) as (E1 & _ & E3).
  destruct (auto_fill seq fs0 (rec t)) as [f1 r1]. cbn [fst] in *.
  rewrite E1. cbn [lastSeqNum fs0]. rewrite (proj2 (Z.eqb_neq _ _)) by lia.
  destruct (Z.leb_spec seq (lastSeqNum fs)).
  { destruct (_ && _); (split; [done|]); intros (_ & fs' & [= <-] & ?); lia. }
  rewrite u64_id by lia. destruct (Z.eqb_spec seq (lastSeqNum fs + 1)).
  { split; [done|]. intros (_ & fs' & [= <-] & ?). lia. }
  destruct (Z.leb_spec (i64 (JitterMax (cfg t) + 1)) 0) as [Hj|Hj].
  - split; [intros _; split; [done|]; exists fs; split; [done|lia]|]. intros _.
    replace (Z.to_nat (seq - (lastSeqNum fs + 1)))
      with (S (Z.to_nat (seq - (lastSeqNum fs + 1) - 1))) by lia.
    cbn [gap_loop]. rewrite E3. cbn [pending fs0].
    destruct (delete seq (pending fs) !! (lastSeqNum fs + 1)) eqn:Hm.
    { apply lookup_delete_Some in Hm as [_ Hm]. apply Hg in Hm as [? _]. lia. }
    unfold Int64N. by rewrite (proj2 (Z.leb_le _ _)).
  - split; [|intros [? _]; lia].
    destruct (gap_loop_total (cfg t) now rnd hk g sid (flowType f1)
      (Z.to_nat (seq - (lastSeqNum fs + 1))) (lastSeqNum fs + 1) (pending f1) r1 Hj)
      as [[p r2] ->]. done.
Qed.

(** A frame whose number is at most the reset threshold, on a flow beyond
    it, resets the flow whatever the frame is: the last number goes back to it
    and every other pending gap is given up, counted as unrecovered. *)
Theorem low_number_resets_flow now rnd g sid hk seq t fs :
  flows t !! hk = Some fs -> 0 < seq <= threshold (cfg t) -> threshold (cfg t) < lastSeqNum fs ->
  exists t' fs', Observe now rnd g sid hk seq t = Some t' /\
    flows t' = <[hk := fs']> (flows t) /\ lastSeqNum fs' = seq /\ pending fs' = ∅ /\
    let others := delete seq (pending fs) in
    rec t' = Nat.iter (size others) (fun r => with_rec r (GapUnrecovered (flowType fs)))
               (if pending fs !! seq is Some _ then with_rec (rec t) (GapSuppressed (flowType fs)) else rec t).
Proof.
  intros Hf Hs Ht. unfold Observe. rewrite (proj2 (Z.eqb_neq _ _)), Hf by lia.
  cbn zeta. simpl. unfold observe_flow, auto_fill. cbn [pending].
  destruct (pending fs !! seq) eqn:Hp; cbn [lastSeqNum with_pending];
    rewrite (proj2 (Z.eqb_neq _ _)), (proj2 (Z.leb_le seq (lastSeqNum fs))),
      (proj2 (Z.leb_le seq _)), (proj2 (Z.ltb_lt _ _)) by lia; cbn [andb];
    eexists _, _; split_and!; try done.
  by rewrite delete_id.
Qed.

(** ** Examples and witnesses *)

Definition ex_cfg : TrackerConfig :=
  mkConfig (200 * Millisecond) (5 * Second) 5 (10 * Minute) 0 100.

Definition ex_sub : bytes := zeros 32.
Definition ex_tracker : Tracker := Nack.New ex_cfg ["[fd20::24]:9300"%string] (Some (Metrics.New 1)) None.
Definition no_rnd : Z -> Z := fun _ => 0.

(** Frames of flow 7 one millisecond apart. *)
Definition ex_frames (seqs : list Z) : list (Z * (Z -> Z) * Z) :=
  imap (fun i s => (Z.of_nat i * Millisecond, no_rnd, s)) seqs.

Definition run7 (seqs : list Z) : option Tracker := frame_run 3 ex_sub 7 (ex_frames seqs) ex_tracker.

Definition missing (t : Tracker) (hk : Z) : list Z :=
  match flows t !! hk with Some fs => keys (pending fs) | None => [] end.

(** A retransmit can be taken for a proxy restart. Numbers 99 and 101
    arrive, and 100 is requested; when the retransmitted 100 arrives, it fills
    the gap and then resets the flow to 100 because it is not above the
    threshold, so the next frame 102 makes the tracker report 101, which had
    arrived, as missing. *)
Theorem retransmit_taken_for_restart :
  (t ← run7 [99; 101]; Some (missing t 7)) = Some [100] /\
  (t ← run7 [99; 101; 100]; fs ← flows t !! 7; Some (lastSeqNum fs, missing t 7)) = Some (100, []) /\
  (t ← run7 [99; 101; 100; 102]; Some (missing t 7)) = Some [101].
Proof. split_and!; vm_compute; reflexivity. Qed.

Lemma run7_reachable now1 now2 s1 s2 t1 t2 :
  0 <= s1 < 2 ^ 64 -> 0 <= s2 < 2 ^ 64 ->
  Observe now1 no_rnd 3 ex_sub 7 s1 ex_tracker = Some t1 ->
  Observe now2 no_rnd 3 ex_sub 7 s2 t1 = Some t2 -> reachable ex_tracker t2.
Proof.
  intros H1 H2 E1 E2. eapply rtc_l; [exact (step_observe _ _ _ _ _ _ _ _ H1 E1)|].
  apply rtc_once. exact (step_observe _ _ _ _ _ _ _ _ H2 E2).
Defined.

Definition state_58 : Tracker := default ex_tracker (run7 [5; 8]).

Lemma state_58_reachable : reachable ex_tracker state_58.
Proof.
  eapply (run7_reachable 0 Millisecond 5 8); [lia|lia|vm_compute; reflexivity|vm_compute; reflexivity].
Defined.

Lemma tracker_invariant_witness :
  missing state_58 7 = [7; 6] /\ (length (nackQueue state_58) <= 4096)%nat.
Proof.
  split; [vm_compute; reflexivity|].
  apply (tracker_invariant ex_cfg ["[fd20::24]:9300"%string] (Some (Metrics.New 1)) None state_58
           state_58_reachable).
Defined.

Lemma gap_accounting_witness :
  PendingGaps state_58 = 2 /\
  exists r, rec state_58 = Some r /\
    value gapsDetected r = value gapsSuppressed r + value nacksUnrecovered r + PendingGaps state_58.
Proof.
  split; [vm_compute; reflexivity|].
  apply (gap_accounting ex_cfg ["[fd20::24]:9300"%string] 1 None state_58 state_58_reachable).
Defined.

Lemma gap_detection_exact_witness :
  exists t' fs, frame_run 3 ex_sub 7 (ex_frames [205; 201; 208; 206]) ex_tracker = Some t' /\
    flows t' !! 7 = Some fs /\ lastSeqNum fs = 208 /\ is_Some (pending fs !! 207).
Proof.
  destruct (gap_detection_exact 3 ex_sub 7 ex_tracker (0, no_rnd, 205)
    [(Millisecond, no_rnd, 201); (2 * Millisecond, no_rnd, 208); (3 * Millisecond, no_rnd, 206)])
    as (t' & fs & Hr & _ & Hf & _ & Hl & Hp).
  - reflexivity.
  - vm_compute. reflexivity.
  - repeat constructor; vm_compute; congruence.
  - intros l1 s l2 E. assert (s ∈ [205; 201; 208; 206]) as Hin.
    { simpl in E. rewrite E. apply elem_of_app. right. by left. }
    intros [Hs _]. change (threshold (cfg ex_tracker)) with 100 in Hs.
    repeat (apply elem_of_cons in Hin as [->|Hin]; [lia|]). by apply elem_of_nil in Hin.
  - exists t', fs. split; [exact Hr|]. split; [exact Hf|]. split; [exact Hl|].
    apply Hp. split; [vm_compute; done|]. by apply (bool_decide_unpack _).
Defined.

Definition plain_walk : walk := mkWalk (fun l => l) (fun _ l => l).

Lemma sweep_spec_witness :
  let t' := sweepOnce plain_walk Second (fun _ _ => 0%nat) state_58 in
  length (nackQueue t') = 2%nat /\
  match gap_at state_58 7 6 with
  | Some e => swept (cfg state_58) (respTimeout state_58) Second e (gap_at t' 7 6)
  | None => gap_at t' 7 6 = None
  end.
Proof.
  split; [vm_compute; reflexivity|].
  destruct (sweep_spec plain_walk Second (fun _ _ => 0%nat) state_58) as [H _]; [by split|].
  exact (H 7 6).
Defined.

Definition ex_gap (r : Z) : gapEntry := mkGap 7 6 3 ex_sub r 0 Minute r.

Lemma backoff_schedule_witness :
  nextAttempt (advanced ex_cfg 0 false 0 (ex_gap 2)) = 4 * Second.
Proof.
  destruct (backoff_schedule ex_cfg 0 false 0 (ex_gap 2)) as (_ & _ & _ & E); [simpl; lia|].
  rewrite E. vm_compute. reflexivity.
Defined.

Lemma backoff_wraps_witness :
  nextAttempt (advanced ex_cfg 0 false 0 (ex_gap 34)) = 0 - 1266874889709551616.
Proof. apply (backoff_wraps ex_cfg 0 0 (ex_gap 34)); [reflexivity|vm_compute; congruence]. Defined.

Lemma nack_request_spec_witness :
  let q := send_request reverse_walk 0 (mkNetwork (fun _ => true) true None) (ex_gap 3) state_58 in
  exists endpoint buf, wire q.1 = [("[fd20::24]:9300"%string, buf)] /\
    (Snapshot reverse_walk (registry state_58)).1 !! 0%nat = Some endpoint /\
    Decode buf = inl (mkNACK 0x10 7 6 6 ex_sub).
Proof.
  pose proof (nack_request_spec reverse_walk 0 (mkNetwork (fun _ => true) true None) (ex_gap 3)
    state_58) as H. cbv zeta in H.
  destruct (decide ((Snapshot reverse_walk (registry state_58)).1 = [])) as [E|_];
    [vm_compute in E; discriminate|].
  destruct H as (_ & _ & _ & endpoint & buf & Hw & Hep & _ & Hd).
  - repeat split; simpl; try lia. apply Forall_replicate. by split.
  - simpl. lia.
  - reflexivity.
  - reflexivity.
  - exists endpoint, buf. split; [|split; [exact Hep|exact Hd]]. rewrite Hw.
    vm_compute in Hep. injection Hep as <-. reflexivity.
Defined.

Lemma attempts_escalate_witness :
  let snap := (Snapshot reverse_walk (Discovery.run (take 5 ex_ops) NewRegistry)).1 in
  length snap = 2%nat /\ e_Tier (target snap 0) <= e_Tier (target snap 9).
Proof.
  split; [vm_compute; reflexivity|].
  apply (attempts_escalate (take 5 ex_ops) reverse_walk 0 9).
  - repeat constructor; apply reverse_walk_fair.
  - apply reverse_walk_fair.
  - lia.
  - intros E. vm_compute in E. discriminate.
Defined.

Lemma observe_panics_iff_witness :
  let t := with_flows (Nack.New (mkConfig (-2) 0 0 0 0 0) [] None None)
             {[ 7 := mkFlow 5 3 ex_sub "brc124" ∅ 0 ]} None in
  Observe 0 no_rnd 3 ex_sub 7 8 t = None.
Proof.
  apply observe_panics_iff.
  - split; simpl; [|lia..]. intros hk fs [<- <-]%lookup_singleton_Some.
    split; simpl; [lia|]. intros m e H. by rewrite lookup_empty in H.
  - lia.
  - split; [vm_compute; congruence|]. eexists. split; [reflexivity|]. simpl. lia.
Defined.

Lemma low_number_resets_flow_witness :
  exists t' fs', Observe 0 no_rnd 3 ex_sub 7 60
      (default ex_tracker (run7 [99; 101])) = Some t' /\
    flows t' !! 7 = Some fs' /\ lastSeqNum fs' = 60 /\ pending fs' = ∅.
Proof.
  destruct (flows (default ex_tracker (run7 [99; 101])) !! 7) as [fs|] eqn:E;
    [|vm_compute in E; discriminate].
  destruct (low_number_resets_flow 0 no_rnd 3 ex_sub 7 60 (default ex_tracker (run7 [99; 101])) fs)
    as (t' & fs' & H1 & H2 & H3 & H4 & _).
  - exact E.
  - split; [lia|]. vm_compute. congruence.
  - vm_compute in E. injection E as <-. vm_compute. reflexivity.
  - exists t', fs'. split; [exact H1|]. split; [|done]. rewrite H2. apply lookup_insert_eq.
Defined.
