(* ===== verification/NackLive.v ===== *)
(** What the gap tracker gets done: the dispatcher and the NACK goroutines empty
    the queue in a bounded number of steps, and no gap outlives the first sweep
    after its deadline. *)
From Stdlib Require Import ZArith Lia.
From S2P Require Import Prelude Metrics Wire Discovery Nack NackSteps NackSweep NackProps.

(** ** The work the goroutines do by themselves *)

(** The steps of [dispatchLoop] and of the [sendNACK] goroutines that change
    something; [iter], [net] and the answers are whatever they may be. *)
Inductive work : Tracker -> Tracker -> Prop :=
  | work_dispatch t : dispatch t <> t -> work t (dispatch t)
  | work_request i iter now net e t t' n :
      flights t !! i = Some (Launched e) -> send_request iter now net e t = (t', n) ->
      work t (settle i (Awaiting e <$> n) t')
  | work_response i now net e n t :
      flights t !! i = Some (Awaiting e n) ->
      work t (settle i None (send_response now net e n t)).

Lemma work_step t t' : work t t' -> step t t'.
Proof. intros []; by econstructor. Qed.

(** Nothing queued, nothing waiting for a slot, no attempt running. *)
Definition idle (t : Tracker) : Prop :=
  nackQueue t = [] /\ waiting t = None /\ flights t = [].

(** ** A measure *)

Definition flight_cost (f : flight) : nat :=
  match f with Launched _ => 2 | Awaiting _ _ => 1 end.
Definition cost (l : list flight) : nat := sum_list_with flight_cost l.

Definition todo (t : Tracker) : nat :=
  4 * length (nackQueue t) + (match waiting t with Some _ => 3 | None => 0 end) + cost (flights t).

Lemma cost_insert l i f g :
  l !! i = Some f -> (cost (<[i := g]> l) + flight_cost f = cost l + flight_cost g)%nat.
Proof.
  revert i. induction l as [|x l IH]; intros [|i]; try done; simpl.
  - intros [= ->]. unfold cost. simpl. lia.
  - intros H%IH. unfold cost in *. simpl. lia.
Qed.

Lemma cost_delete l i f : l !! i = Some f -> (cost (delete i l) + flight_cost f = cost l)%nat.
Proof.
  revert i. induction l as [|x l IH]; intros [|i]; try done; simpl.
  - intros [= ->]. unfold cost. simpl. lia.
  - intros H%IH. unfold cost in *. simpl. lia.
Qed.

(** The network half of an attempt does not touch the dispatcher. *)
Definition same_dispatch (t t' : Tracker) : Prop :=
  nackQueue t' = nackQueue t /\ waiting t' = waiting t /\ flights t' = flights t.

Lemma advance_dispatch now e imm n t : same_dispatch t (advanceEndpoint now e imm n t).
Proof.
  unfold advanceEndpoint. destruct (flows t !! _) as [fs|]; [|done]. by destruct (pending fs !! _).
Qed.

Lemma request_dispatch iter now net e t t' n :
  send_request iter now net e t = (t', n) -> same_dispatch t t'.
Proof.
  unfold send_request. destruct (Snapshot _ _) as [snap reg].
  repeat case_match; intros [= <- <-]; try done;
    exact (advance_dispatch now e false 0 (with_sent t reg (rec t) (wire t))).
Qed.

Lemma response_dispatch now net e n t : same_dispatch t (send_response now net e n t).
Proof.
  unfold send_response. repeat case_match; try apply advance_dispatch; [|done].
  unfold cancelGap, drop_gap. repeat case_match; done.
Qed.

Lemma todo_settle i o t t' f :
  same_dispatch t t' -> flights t !! i = Some f ->
  (match o with Some g => flight_cost g | None => 0 end < flight_cost f)%nat ->
  (todo (settle i o t') < todo t)%nat.
Proof.
  intros (E1 & E2 & E3) Hi Hlt. unfold todo, settle. cbn [nackQueue waiting flights with_dispatch].
  rewrite E1, E2, E3. destruct o as [g|].
  - pose proof (cost_insert _ _ _ g Hi). lia.
  - pose proof (cost_delete _ _ _ Hi). lia.
Qed.

Lemma work_decreases t t' : work t t' -> (todo t' < todo t)%nat.
Proof.
  intros [t0 Hd|i iter now net e t0 t0' n Hi Hr|i now net e n t0 Hi].
  - revert Hd. unfold dispatch, todo. destruct (waiting t0) as [e|] eqn:Ew.
    + destruct (length (flights t0) <? maxConcurrent)%nat; [|done]. intros _. simpl.
      unfold cost. rewrite sum_list_with_app. simpl. lia.
    + destruct (nackQueue t0) as [|e q]; [done|]. intros _. simpl. lia.
  - eapply todo_settle; [by eapply request_dispatch|exact Hi|]. destruct n; simpl; lia.
  - eapply todo_settle; [apply response_dispatch|exact Hi|]. simpl. lia.
Qed.

(** A state that is not idle can always go on. *)
Lemma work_progress t : ~ idle t -> exists t', work t t'.
Proof.
  intros Hni. destruct (flights t) as [|[e|e n] l] eqn:Ef.
  - exists (dispatch t). constructor. intros E. apply Hni. unfold dispatch in E.
    destruct (waiting t) as [e|] eqn:Ew.
    + rewrite Ef in E. simpl in E. apply (f_equal waiting) in E. simpl in E. congruence.
    + destruct (nackQueue t) as [|e q] eqn:Eq; [done|].
      apply (f_equal waiting) in E. simpl in E. congruence.
  - destruct (send_request (fun l => l) 0 (mkNetwork (fun _ => false) false None) e t) as [t' n] eqn:E.
    eexists. eapply (work_request 0); [by rewrite Ef|exact E].
  - eexists. apply (work_response 0 0 (mkNetwork (fun _ => false) false None) e n). by rewrite Ef.
Qed.

Lemma work_bounded n t t' : nsteps work n t t' -> (n + todo t' <= todo t)%nat.
Proof.
  induction 1 as [t|n t1 t2 t3 Hw _ IH]; [lia|]. apply work_decreases in Hw. lia.
Qed.


Lemma work_drains t : exists t', rtc work t t' /\ idle t'.
Proof.
  remember (todo t) as k eqn:Hk. revert t Hk. induction (lt_wf k) as [k _ IH]. intros t ->.
  destruct (decide (nackQueue t = [] /\ waiting t = None /\ flights t = [])) as [Hi|Hi]; [by exists t|].
  destruct (work_progress t Hi) as [t1 Hw].
  destruct (IH (todo t1) (work_decreases _ _ Hw) t1 eq_refl) as (t' & Hr & Hi').
  exists t'. split; [by eapply rtc_l|done].
Qed.

(** C10: the dispatcher and the NACK goroutines always finish their work, whatever
    the endpoints and the network do. From any state, no run of their own steps
    is longer than four per queued gap, three for the one waiting for a slot and
    two per attempt; a run that has not emptied everything can go on; so every
    run can be, and every maximal run is, one that ends with nothing queued and
    no attempt running. *)
Theorem nack_work_terminates t :
  (forall n t', nsteps work n t t' ->
     (n <= 4 * length (nackQueue t) + 3 + 2 * length (flights t))%nat) /\
  (exists t', rtc work t t' /\ idle t') /\
  (forall t', rtc work t t' -> (forall t'', ~ work t' t'') -> idle t').
Proof.
  split_and!.
  - intros n t' Hn. pose proof (work_bounded n t t' Hn) as Hb. unfold todo at 2 in Hb.
    assert (cost (flights t) <= 2 * length (flights t))%nat.
    { clear. induction (flights t) as [|[] l IH]; unfold cost in *; simpl in *; lia. }
    destruct (waiting t); lia.
  - apply work_drains.
  - intros t' _ Hmax.
    destruct (decide (nackQueue t' = [] /\ waiting t' = None /\ flights t' = [])) as [Hi|Hi]; [done|].
    destruct (work_progress t' Hi) as [t'' Hw]. by destruct (Hmax t'').
Qed.

(** ** Deadlines *)

(** Every gap after was there before, with the same deadline. *)
Definition derives (t t' : Tracker) : Prop :=
  forall hk m e', gap_at t' hk m = Some e' -> exists e, gap_at t hk m = Some e /\ deadline e' = deadline e.

#[export] Instance derives_po : PreOrder derives.
Proof.
  split; [intros t hk m e H; eauto|]. intros t1 t2 t3 H1 H2 hk m e3 He3.
  destruct (H2 hk m e3 He3) as (e2 & He2 & E2). destruct (H1 hk m e2 He2) as (e1 & He1 & E1).
  exists e1. split; [done|congruence].
Qed.

Lemma same_flows_derives t t' : flows t' = flows t -> derives t t'.
Proof. intros E hk m e. unfold gap_at. rewrite E. eauto. Qed.

Lemma set_flow_derives t hk fs p r :
  flows t !! hk = Some fs ->
  (forall m e', p !! m = Some e' -> exists e, pending fs !! m = Some e /\ deadline e' = deadline e) ->
  derives t (set_pending hk fs p r t).
Proof.
  intros Hf Hp hk' m e'. unfold gap_at. simpl. rewrite lookup_insert. case_decide as E; [|eauto].
  subst hk'. rewrite Hf. simpl. apply Hp.
Qed.

Lemma drop_derives label hk m t : derives t (drop_gap label hk m t).
Proof.
  unfold drop_gap. destruct (flows t !! hk) as [fs|] eqn:Hf; [|done].
  destruct (pending fs !! m); [|done]. apply set_flow_derives; [done|].
  intros m' e'. rewrite lookup_delete. case_decide; [done|eauto].
Qed.

Lemma advance_derives now e imm n t : derives t (advanceEndpoint now e imm n t).
Proof.
  unfold advanceEndpoint. destruct (flows t !! _) as [fs|] eqn:Hf; [|done].
  destruct (pending fs !! _) as [e0|] eqn:He; [|done]. apply set_flow_derives; [done|].
  intros m' e'. rewrite lookup_insert. case_decide as E; [subst m'; intros [= <-]|]; eauto.
Qed.

Lemma sweep_derives w now drain t : fair_walk w -> derives t (sweepOnce w now drain t).
Proof.
  intros Hw hk m e' He'. pose proof (sweep_gap_at w now drain t hk m Hw) as Hs.
  destruct (gap_at t hk m) as [e|]; [|congruence]. unfold swept in Hs. case_decide; [|congruence].
  destruct Hs as (next & Hs & _). rewrite He' in Hs. injection Hs as ->. eauto.
Qed.

Lemma request_derives iter now net e t t' n :
  send_request iter now net e t = (t', n) -> derives t t'.
Proof.
  unfold send_request. destruct (Snapshot _ _) as [snap reg].
  set (t1 := with_sent t reg (rec t) (wire t)).
  repeat case_match; intros [= <- <-]; try by apply same_flows_derives.
  all: etrans; [by apply (same_flows_derives t t1)|apply advance_derives].
Qed.

Lemma response_derives now net e n t : derives t (send_response now net e n t).
Proof. unfold send_response. repeat case_match; try apply advance_derives; [apply drop_derives|done]. Qed.

(** A frame only adds gaps that were not pending. *)
Lemma Observe_deadlines now rnd g sid hk seq t t' hk' m e e' :
  Observe now rnd g sid hk seq t = Some t' ->
  gap_at t hk' m = Some e -> gap_at t' hk' m = Some e' -> deadline e' = deadline e.
Proof.
  unfold Observe. destruct (seq =? 0); [by intros [= <-] -> [= ->]|].
  intros ([fs' r'] & Ho & [= <-])%bind_Some. unfold gap_at. simpl. rewrite lookup_insert.
  destruct (decide (hk = hk')) as [<-|]; [|by intros -> [= ->]].
  destruct (flows t !! hk) as [fs|]; [|done]. simpl in *. intros He He'.
  assert (pending fs' !! m = Some e -> deadline e' = deadline e) as Hsame by congruence.
  revert Ho. unfold observe_flow. destruct (auto_fill seq _ _) as [f1 r1] eqn:Ea.
  match type of Ea with auto_fill _ ?fs0 _ = _ =>
    destruct (auto_fill_flow seq fs0 (rec t)) as (_ & _ & Hp) end.
  rewrite Ea in Hp. cbn [fst pending] in Hp.
  assert (pending f1 !! m = Some e \/ (pending f1 !! m = None /\ m = seq)) as Hf1
    by (rewrite Hp, lookup_delete; case_decide; auto).
  assert (forall fs2, pending fs2 = pending f1 -> Some fs2 = Some fs' -> deadline e' = deadline e) as Hold.
  { intros fs2 E2 [= ->]. destruct Hf1 as [Hf1|[Hf1 _]]; congruence. }
  case_match; [intros [= <- _]; by refine (Hold _ _ eq_refl)|]. case_match.
  { case_match; intros [= <- _]; [|by refine (Hold _ _ eq_refl)]. simpl in He'. by rewrite lookup_empty in He'. }
  case_match; [intros [= <- _]; by refine (Hold _ _ eq_refl)|].
  intros ([p r2] & Hl & [= <- _])%bind_Some. simpl in *.
  destruct (gap_loop_spec _ _ _ _ _ _ _ _ _ _ _ _ _ Hl) as [Hq _]. rewrite Hq in He'.
  destruct Hf1 as [Hf1|[Hf1 ->]]; rewrite Hf1 in He'; [congruence|].
  case_decide; [|done]. exfalso. lia.
Qed.

Lemma step_deadlines t t' hk m e e' :
  step t t' -> gap_at t hk m = Some e -> gap_at t' hk m = Some e' -> deadline e' = deadline e.
Proof.
  intros Hstep He He'.
  assert (derives t t' -> deadline e' = deadline e) as Hd.
  { intros Hder. destruct (Hder hk m e' He') as (e0 & He0 & ->). congruence. }
  destruct Hstep as [now rnd g sid hk0 seq t t' Hs Ho|hk0 seq t|w now drain t Hw|t
                    |i iter now nt e0 t t' n Hi Hr|i now nt e0 n t Hi|o t].
  - by eapply Observe_deadlines.
  - apply Hd. unfold Fill. case_match; [done|]. apply drop_derives.
  - by apply Hd, sweep_derives.
  - apply Hd, same_flows_derives, dispatch_flows.
  - apply Hd. etrans; [by eapply request_derives|by apply same_flows_derives].
  - apply Hd. etrans; [apply response_derives|by apply same_flows_derives].
  - by apply Hd, same_flows_derives.
Qed.

(** A gap a frame opens gets its deadline from the clock of that frame. *)
Lemma Observe_new_deadline now rnd g sid hk seq t t' m e :
  Observe now rnd g sid hk seq t = Some t' ->
  gap_at t hk m = None -> gap_at t' hk m = Some e -> deadline e = now + GapTTL (cfg t).
Proof.
  unfold Observe. destruct (seq =? 0); [by intros [= <-] ->|].
  intros ([fs' r'] & Ho & [= <-])%bind_Some. unfold gap_at. simpl. rewrite lookup_insert_eq. simpl.
  intros Hn He. revert Ho. unfold observe_flow. destruct (auto_fill seq _ _) as [f1 r1] eqn:Ea.
  match type of Ea with auto_fill _ ?fs0 _ = _ =>
    destruct (auto_fill_flow seq fs0 (rec t)) as (_ & _ & Hp) end.
  rewrite Ea in Hp. cbn [fst pending] in Hp.
  assert (pending f1 !! m = None) as Hf1.
  { rewrite Hp, lookup_delete. case_decide; [done|].
    destruct (flows t !! hk) as [fs|]; simpl in *; [exact Hn|apply lookup_empty]. }
  assert (forall fs2, pending fs2 = pending f1 -> Some fs2 = Some fs' -> deadline e = now + GapTTL (cfg t))
    as Hold by (intros fs2 E2 [= ->]; congruence).
  case_match; [intros [= <- _]; by refine (Hold _ _ eq_refl)|]. case_match.
  { case_match; intros [= <- _]; [|by refine (Hold _ _ eq_refl)]. simpl in He. by rewrite lookup_empty in He. }
  case_match; [intros [= <- _]; by refine (Hold _ _ eq_refl)|].
  intros ([p r2] & Hl & [= <- _])%bind_Some. simpl in *.
  destruct (gap_loop_spec _ _ _ _ _ _ _ _ _ _ _ _ _ Hl) as [Hq _]. rewrite Hq, Hf1 in He.
  case_decide; [|done]. by injection He as <-.
Qed.

(** Steps during which gap [m] of flow [hk] stays pending. *)
Inductive stays_pending (hk m : Z) : Tracker -> Tracker -> Prop :=
  | pending_now t : is_Some (gap_at t hk m) -> stays_pending hk m t t
  | pending_step t1 t2 t3 :
      stays_pending hk m t1 t2 -> step t2 t3 -> is_Some (gap_at t3 hk m) -> stays_pending hk m t1 t3.

Lemma pending_deadline hk m t t' e :
  stays_pending hk m t t' -> gap_at t hk m = Some e ->
  exists e', gap_at t' hk m = Some e' /\ deadline e' = deadline e.
Proof.
  intros Hp He. induction Hp as [t [e' He']|t1 t2 t3 _ IH Hs [e3 He3]].
  - exists e. split; [exact He|done].
  - destruct (IH He) as (e2 & He2 & E2). exists e3. split; [done|].
    rewrite <- E2. by eapply step_deadlines.
Qed.

(** C9: no gap outlives its deadline. A gap is given its deadline when it is
    found, one gap TTL later; no frame, retry, response or sweep ever moves it;
    and the first sweep after it, however long the gap was retried and whatever
    else happened meanwhile, no longer leaves it pending. *)
Theorem gap_settled_by_deadline now rnd g sid hk seq m t0 t1 t2 w now' drain :
  Observe now rnd g sid hk seq t0 = Some t1 ->
  gap_at t0 hk m = None -> stays_pending hk m t1 t2 ->
  fair_walk w -> now + GapTTL (cfg t0) < now' ->
  gap_at (sweepOnce w now' drain t2) hk m = None.
Proof.
  intros Ho Hn Hp Hw Hlt.
  assert (exists e, gap_at t1 hk m = Some e) as [e He] by (induction Hp as [t [e He]|]; eauto).
  assert (deadline e = now + GapTTL (cfg t0)) as Hd by (by eapply Observe_new_deadline).
  destruct (pending_deadline hk m t1 t2 e Hp He) as (e2 & He2 & E2).
  pose proof (sweep_gap_at w now' drain t2 hk m Hw) as Hs. rewrite He2 in Hs. unfold swept in Hs.
  rewrite decide_False in Hs; [exact Hs|]. unfold alive. lia.
Qed.

(** ** Witnesses *)

(** The gaps found between 5 and 8 are gone after a sweep past their deadline. *)
Lemma gap_settled_by_deadline_witness :
  exists t1, Observe 2 no_rnd 3 ex_sub 7 8 (default ex_tracker (run7 [5])) = Some t1 /\
    gap_at t1 7 6 <> None /\
    gap_at (sweepOnce plain_walk (3 + GapTTL ex_cfg) (fun _ _ => 0%nat) (Fill 7 7 t1)) 7 6 = None.
Proof.
  destruct (Observe 2 no_rnd 3 ex_sub 7 8 (default ex_tracker (run7 [5]))) as [t1|] eqn:E;
    [|vm_compute in E; discriminate E].
  assert (is_Some (gap_at t1 7 6) /\ is_Some (gap_at (Fill 7 7 t1) 7 6)) as [H1 H2].
  { vm_compute in E. injection E as <-. split; vm_compute; eexists; reflexivity. }
  exists t1. split; [reflexivity|]. split; [destruct H1 as [e ->]; discriminate|].
  apply (gap_settled_by_deadline 2 no_rnd 3 ex_sub 7 8 6 (default ex_tracker (run7 [5])) t1).
  - exact E.
  - vm_compute. reflexivity.
  - eapply pending_step; [apply pending_now; exact H1|apply step_fill|exact H2].
  - split; intros; reflexivity.
  - vm_compute. reflexivity.
Defined.

(** A sweep queues the two gaps of that flow; from there at most eleven steps. *)
Lemma nack_work_terminates_witness :
  let t := sweepOnce plain_walk (2 * Second) (fun _ _ => 0%nat) state_58 in
  length (nackQueue t) = 2%nat /\ (forall n t', nsteps work n t t' -> (n <= 11)%nat) /\
  exists t', rtc work t t' /\ idle t'.
Proof.
  cbn zeta.
  destruct (nack_work_terminates (sweepOnce plain_walk (2 * Second) (fun _ _ => 0%nat) state_58))
    as (H1 & H2 & _).
  split; [vm_compute; reflexivity|]. split; [|exact H2].
  intros n t' Hn. specialize (H1 n t' Hn). vm_compute in H1. vm_compute. exact H1.
Defined.
