(* ===== verification/Egress.v ===== *)
(** The sinks of [egress/egress.go] and [egress/mcast.go]: the unicast sender
    over UDP or a re-dialled TCP connection, and the multicast sender. What the
    kernel answers is an argument of each call, and depends on the connection
    the call is made on; what it accepted is a log. *)
From Stdlib Require Import ZArith Lia.
From S2P Require Import Prelude Frame.

(** ** Unicast *)

(** The answers of the network to one send: whether a dial succeeds (TCP, when
    there is no connection), and for each connection whether the deadline (TCP)
    and the write on it succeed. Connections are told apart by a number: the
    UDP socket is 0, and the TCP connections are 1, 2, ... in the order in which
    they were dialled. A broken connection is one whose writes go on failing,
    whatever a connection dialled later answers. *)
Record IO := mkIO { dial_ok : bool; deadline_ok : nat -> bool; write_ok : nat -> bool }.

Definition io_fine : IO := mkIO true (fun _ => true) (fun _ => true).

(** The errors a send can return. *)
Inductive SendErr := ErrProto | ErrDial | ErrDeadline | ErrWrite.

(** [Sender]: the TCP connection in use, whether the UDP socket is open, how
    many TCP connections were dialled so far (the number the next one gets is
    one more), and the buffers written without error so far. *)
Record Sender := mkSender {
  addr : string;
  proto : string;
  stripHeader : bool;
  tcpConn : option nat;
  udpConn : bool;
  dials : nat;
  sent : list bytes;
}.

(** [New]: a UDP socket is opened at once, a TCP connection is not. *)
Definition New (addr_ proto_ : string) (strip resolve_ok dial_ok_ : bool) : option Sender :=
  if String.eqb proto_ "udp" then
    if resolve_ok && dial_ok_ then Some (mkSender addr_ proto_ strip None true 0 []) else None
  else Some (mkSender addr_ proto_ strip None false 0 []).

Definition with_tcp (s : Sender) (conn : option nat) (n : nat) : Sender :=
  mkSender (addr s) (proto s) (stripHeader s) conn (udpConn s) n (sent s).

Definition wrote (s : Sender) (buf : bytes) : Sender :=
  mkSender (addr s) (proto s) (stripHeader s) (tcpConn s) (udpConn s) (dials s) (sent s ++ [buf]).

Definition closeTCP (s : Sender) : Sender :=
  match tcpConn s with Some _ => with_tcp s None (dials s) | None => s end.

Definition sendUDP (io : IO) (buf : bytes) (s : Sender) : option SendErr * Sender :=
  if udpConn s && write_ok io 0 then (None, wrote s buf) else (Some ErrWrite, s).

(** A successful dial: the new connection becomes the one in use. *)
Definition dialled (s : Sender) : Sender := with_tcp s (Some (S (dials s))) (S (dials s)).

Definition sendTCP (io : IO) (buf : bytes) (s : Sender) : option SendErr * Sender :=
  let s' := match tcpConn s with
            | None => if dial_ok io then dialled s else s
            | Some _ => s
            end in
  match tcpConn s' with
  | None => (Some ErrDial, s')
  | Some c =>
      if negb (deadline_ok io c) then (Some ErrDeadline, closeTCP s')
      else if negb (write_ok io c) then (Some ErrWrite, closeTCP s')
      else (None, wrote s' buf)
  end.

(** The switch on the protocol that ends every send. *)
Definition SendRaw (io : IO) (buf : bytes) (s : Sender) : option SendErr * Sender :=
  if String.eqb (proto s) "udp" then sendUDP io buf s
  else if String.eqb (proto s) "tcp" then sendTCP io buf s
  else (Some ErrProto, s).

Definition Send (io : IO) (raw : bytes) (f : Frame) (s : Sender) : option SendErr * Sender :=
  let buf := if stripHeader s then Payload f else raw in SendRaw io buf s.

Definition SendBlock (io : IO) (raw : bytes) (bf : BlockFrame) (s : Sender)
    : option SendErr * Sender :=
  let buf := if stripHeader s then bf_Payload bf else raw in SendRaw io buf s.

Definition SendSubtreeData (io : IO) (raw : bytes) (sf : SubtreeDataFrame) (s : Sender)
    : option SendErr * Sender :=
  let buf := if stripHeader s then sf_Payload sf else raw in SendRaw io buf s.

Definition Proto (s : Sender) : string := proto s.

Definition Close (s : Sender) : Sender :=
  if udpConn s
  then mkSender (addr s) (proto s) (stripHeader s) (tcpConn s) false (dials s) (sent s)
  else closeTCP s.

(** ** Multicast *)

(** [MCastSender]: the log holds destination, port and bytes. *)
Record MCastSender := mkMCast {
  addrTemplate : bytes;
  egressPort : Z;
  m_stripHeader : bool;
  m_sent : list (bytes * Z * bytes);
}.

(** [NewMCast]; the arguments are the answers to the socket calls. *)
Definition NewMCast (mcPrefix groupID port : Z) (strip : bool)
    (socket_ok if_ok hops_ok loop_ok : bool) : option MCastSender :=
  if socket_ok && if_ok && hops_ok && loop_ok then
    let t := put_at 0 (be_put 2 mcPrefix) (zeros 16) in
    Some (mkMCast (put_at 12 (be_put 2 groupID) t) port strip [])
  else None.

(** [SendToGroup]: the group index goes into bytes 14 and 15 of the template,
    which keeps it; [ok] is the answer of [sendto]. *)
Definition SendToGroup (ok : bool) (buf : bytes) (groupIdx : Z) (s : MCastSender)
    : bool * MCastSender :=
  let t := put_at 14 [u8 (Z.shiftr groupIdx 8)] (addrTemplate s) in
  let t := put_at 15 [u8 groupIdx] t in
  (ok, mkMCast t (egressPort s) (m_stripHeader s)
         (if ok then m_sent s ++ [(t, egressPort s, buf)] else m_sent s)).

(** [Send]: [true] when the error is nil. *)
Definition MCSend (ok : bool) (raw : bytes) (f : Frame) (groupIdx : Z) (s : MCastSender)
    : bool * MCastSender :=
  SendToGroup ok (if m_stripHeader s then Payload f else raw) groupIdx s.

Definition MCProto : string := "udp-mcast".

(** ** What a run of sends delivers *)

(** A buffer goes out exactly when no error is reported. *)
Definition went_out (r : option SendErr) (buf : bytes) : list bytes :=
  match r with None => [buf] | Some _ => [] end.

Lemma SendRaw_spec io buf s :
  let q := SendRaw io buf s in
  sent q.2 = sent s ++ went_out q.1 buf /\
  proto q.2 = proto s /\ stripHeader q.2 = stripHeader s /\ addr q.2 = addr s /\
  udpConn q.2 = udpConn s /\
  (proto s <> "udp"%string -> proto s <> "tcp"%string -> q.1 = Some ErrProto).
Proof.
  cbn zeta. unfold SendRaw, sendUDP, sendTCP, closeTCP.
  destruct (String.eqb_spec (proto s) "udp") as [E|E].
  { destruct (udpConn s && write_ok io 0); simpl; rewrite ?app_nil_r; by split_and!. }
  destruct (String.eqb_spec (proto s) "tcp") as [E'|E'].
  2: { simpl. rewrite app_nil_r. by split_and!. }
  destruct (tcpConn s) as [c|] eqn:Ec, (dial_ok io); simpl; rewrite ?Ec; simpl;
    repeat (match goal with |- context [negb ?b] => destruct b end; simpl);
    rewrite ?Ec; simpl; rewrite ?app_nil_r; by split_and!.
Qed.

(** What a TCP send does to the connection: a send that fails leaves none, one
    that succeeds leaves the connection it was made on, which is the one in use
    before or, without one, a fresh one. *)
Lemma sendTCP_conn io buf s :
  let q := sendTCP io buf s in
  match q.1 with
  | Some _ => tcpConn q.2 = None
  | None =>
      match tcpConn s with
      | Some c => tcpConn q.2 = Some c /\ dials q.2 = dials s
      | None => tcpConn q.2 = Some (S (dials s)) /\ dials q.2 = S (dials s)
      end
  end.
Proof.
  cbn zeta. unfold sendTCP, closeTCP.
  destruct (tcpConn s) as [c|] eqn:Ec, (dial_ok io); simpl; rewrite ?Ec; simpl;
    repeat (match goal with |- context [negb ?b] => destruct b end; simpl);
    rewrite ?Ec; by try split.
Qed.

(** A run of sends: the answers of the network, one per send, and the results. *)
Fixpoint send_run (l : list (IO * bytes)) (s : Sender) : list (option SendErr) * Sender :=
  match l with
  | [] => ([], s)
  | (io, buf) :: l' =>
      let '(r, s1) := SendRaw io buf s in
      let '(rs, s2) := send_run l' s1 in (r :: rs, s2)
  end.

Lemma send_run_spec l : forall s, let q := send_run l s in
  sent q.2 = sent s ++ concat (zip_with (fun r d => went_out r d.2) q.1 l) /\
  length q.1 = length l /\ proto q.2 = proto s /\ udpConn q.2 = udpConn s.
Proof.
  induction l as [|[io buf] l IH]; intros s; simpl; [by rewrite app_nil_r|].
  destruct (SendRaw_spec io buf s) as (E1 & E2 & _ & _ & E3 & _).
  destruct (SendRaw io buf s) as [r s1]. specialize (IH s1).
  destruct (send_run l s1) as [rs s2]. simpl in *.
  destruct IH as (-> & -> & -> & ->). rewrite E1, E2, E3, app_assoc. by split_and!.
Qed.

(** The connection a TCP sender is left with, from the result of its last send. *)
Definition conn_after (r : option (option SendErr)) (s : Sender) : Prop :=
  match r with
  | Some None => exists c, tcpConn s = Some c /\ (c <= dials s)%nat
  | _ => tcpConn s = None
  end.

Lemma send_run_conn l : forall r s, proto s = "tcp"%string -> conn_after r s ->
  let q := send_run l s in
  conn_after (match last q.1 with Some r' => Some r' | None => r end) q.2.
Proof.
  induction l as [|[io buf] l IH]; intros r s Hp Hc; [done|]. simpl.
  destruct (SendRaw_spec io buf s) as (_ & E2 & _).
  assert (SendRaw io buf s = sendTCP io buf s) as E by (unfold SendRaw; by rewrite Hp).
  rewrite E in *. pose proof (sendTCP_conn io buf s) as H1.
  destruct (sendTCP io buf s) as [r1 s1]. cbn [fst snd] in *.
  assert (conn_after (Some r1) s1) as Hc1.
  { unfold conn_after in *. destruct r1; [done|].
    destruct (tcpConn s) as [c|], H1 as [Ht Hd]; [|by eexists; split; [done|lia]].
    exists c. split; [done|]. rewrite Hd. destruct r as [[]|]; [done|..|done].
    by destruct Hc as (c' & [= <-] & ?). }
  specialize (IH (Some r1) s1 ltac:(congruence) Hc1). cbn zeta in IH.
  destruct (send_run l s1) as [rs s2]. cbn [fst snd] in *. rewrite last_cons.
  by destruct (last rs).
Qed.

(** C35: the sender reports faithfully and recovers. Over any run, whatever the
    network answers on each connection, the buffers that went out are exactly
    those whose send returned nil, each once and in order. After a failed TCP
    send, and before the first, the next send goes out as soon as dials succeed
    and a connection not dialled before accepts it, even if every connection
    dialled before goes on refusing; after a send that succeeded, the next goes
    out if the connection in use accepts it, without a dial. A UDP send goes out
    whenever the socket accepts it. *)
Theorem sender_faithful l addr_ proto_ strip s buf :
  New addr_ proto_ strip true true = Some s ->
  let q := send_run l s in
  let goes_out io := (SendRaw io buf q.2).1 = None /\
                     sent (SendRaw io buf q.2).2 = sent q.2 ++ [buf] in
  sent q.2 = concat (zip_with (fun r d => went_out r d.2) q.1 l) /\
  length q.1 = length l /\
  (proto_ = "udp"%string -> forall io, write_ok io 0 = true -> goes_out io) /\
  (proto_ = "tcp"%string -> last q.1 <> Some None -> forall io,
     dial_ok io = true ->
     (forall c, (dials q.2 < c)%nat -> deadline_ok io c = true /\ write_ok io c = true) ->
     goes_out io) /\
  (proto_ = "tcp"%string -> last q.1 = Some None -> exists c,
     tcpConn q.2 = Some c /\ (c <= dials q.2)%nat /\ forall io,
     deadline_ok io c = true -> write_ok io c = true ->
     goes_out io /\ dials (SendRaw io buf q.2).2 = dials q.2).
Proof.
  intros Hn. cbn zeta.
  destruct (send_run_spec l s) as (E1 & E2 & E3 & E4).
  assert (sent s = [] /\ proto s = proto_ /\ (proto_ = "udp"%string -> udpConn s = true) /\
    conn_after None s) as (Hs & Hp & Hu & Hc).
  { unfold New in Hn. destruct (String.eqb_spec proto_ "udp"); simpl in Hn; injection Hn as <-;
      by split_and!. }
  pose proof (fun E => send_run_conn l None s E Hc) as Hl. cbn zeta in Hl.
  rewrite Hs in E1. rewrite Hp in E3, Hl.
  destruct (send_run l s) as [rs s2]. cbn [fst snd] in *.
  split_and!; [done..| | |]; intros ->.
  - intros io Hw. unfold SendRaw, sendUDP. rewrite E3, E4, (Hu eq_refl), Hw. done.
  - intros Hr io Hd Hnew. destruct (Hnew (S (dials s2)) ltac:(lia)) as [Hdl Hw].
    assert (tcpConn s2 = None) as Hno.
    { specialize (Hl eq_refl). unfold conn_after in Hl. destruct (last rs) as [[]|]; done. }
    unfold SendRaw, sendTCP. rewrite E3, Hno, Hd. simpl. by rewrite Hdl, Hw.
  - intros Hr. specialize (Hl eq_refl). rewrite Hr in Hl. destruct Hl as (c & Hc2 & Hle).
    exists c. split; [done|]. split; [done|]. intros io Hdl Hw.
    unfold SendRaw, sendTCP. rewrite E3, Hc2. simpl. by rewrite Hc2, Hdl, Hw.
Qed.

(** ** Multicast addresses *)

(** The group address: scope prefix, zeros, IANA group-id, shard group. *)
Definition group_addr (mcPrefix groupID g : Z) : bytes :=
  be_put 2 mcPrefix ++ zeros 10 ++ be_put 2 groupID ++ be_put 2 (g `mod` 65536).

Fixpoint mc_run (l : list (bool * bytes * Z)) (s : MCastSender) : MCastSender :=
  match l with
  | [] => s
  | (ok, buf, g) :: l' => mc_run l' (SendToGroup ok buf g s).2
  end.

Lemma group_bytes g : [u8 (Z.shiftr g 8); u8 g] = be_put 2 (g `mod` 65536).
Proof.
  unfold u8, wrapu. rewrite Z.shiftr_div_pow2 by lia. cbn [be_put app].
  change (2 ^ 8) with 256.
  assert ((g `mod` 65536) `mod` 256 = g `mod` 256 /\
          (g `mod` 65536) `div` 256 `mod` 256 = (g `div` 256) `mod` 256) as [-> ->]; [|done].
  Z.to_euclidean_division_equations. lia.
Qed.

Lemma set_group g t :
  length t = 16%nat ->
  put_at 15 [u8 g] (put_at 14 [u8 (Z.shiftr g 8)] t) = take 14 t ++ be_put 2 (g `mod` 65536).
Proof.
  intros Hl. rewrite <- group_bytes.
  do 17 (destruct t as [|? t]; try discriminate Hl). done.
Qed.

(** Every datagram that goes out goes to the configured port at the group
    address of its own shard group, whatever groups were sent to before: the
    template that the sends overwrite in place leaks nothing from one to the
    next. Groups are told apart modulo 65536. *)
Theorem mcast_address mcPrefix groupID port strip l s :
  NewMCast mcPrefix groupID port strip true true true true = Some s ->
  m_sent (mc_run l s) =
    concat ((fun d : bool * bytes * Z =>
      if d.1.1 then [(group_addr mcPrefix groupID d.2, port, d.1.2)] else []) <$> l).
Proof.
  intros [= <-].
  set (t0 := put_at 12 (be_put 2 groupID) (put_at 0 (be_put 2 mcPrefix) (zeros 16))).
  assert (take 14 t0 = be_put 2 mcPrefix ++ zeros 10 ++ be_put 2 groupID) as Ht0 by done.
  assert (forall t acc, length t = 16%nat -> take 14 t = take 14 t0 ->
    m_sent (mc_run l (mkMCast t port strip acc)) = acc ++ concat ((fun d : bool * bytes * Z =>
      if d.1.1 then [(group_addr mcPrefix groupID d.2, port, d.1.2)] else []) <$> l)) as H;
    [|by rewrite H].
  induction l as [|[[ok buf] g] l IH]; intros t acc Hl Ht; [simpl; by rewrite app_nil_r|].
  cbn [mc_run SendToGroup snd addrTemplate egressPort m_stripHeader m_sent].
  assert (take 14 t ++ be_put 2 (g `mod` 65536) = group_addr mcPrefix groupID g) as Hg
    by (rewrite Ht, Ht0; unfold group_addr; by rewrite <- !app_assoc).
  rewrite set_group, Hg by done. rewrite IH; [|done..].
  rewrite fmap_cons. cbn [concat fst snd]. destruct ok; [|done]. by rewrite <- app_assoc.
Qed.

(** ** Witnesses *)

(** Connection 1 breaks at the second send and stays broken; the third send
    cannot dial; the fourth goes out on connection 2. *)
Definition ex_broken : IO := mkIO true (fun _ => true) (fun c => negb (c =? 1)%nat).

Definition ex_sends : list (IO * bytes) :=
  [(io_fine, [1]); (ex_broken, [2]); (mkIO false (fun _ => true) (fun _ => true), [3])].

Lemma sender_faithful_witness :
  exists s, New "[fd00::1]:9000" "tcp" false true true = Some s /\
    (send_run ex_sends s).1 = [None; Some ErrWrite; Some ErrDial] /\
    sent (send_run ex_sends s).2 = [[1]] /\
    sent (SendRaw ex_broken [4] (send_run ex_sends s).2).2 = [[1]; [4]].
Proof.
  eexists. split; [reflexivity|].
  match goal with |- (send_run _ ?s).1 = _ /\ _ =>
    destruct (sender_faithful ex_sends "[fd00::1]:9000" "tcp" false s [4] eq_refl)
      as (Es & _ & _ & Hre & _)
  end.
  split; [reflexivity|]. split; [rewrite Es; reflexivity|].
  destruct (Hre eq_refl) with (io := ex_broken) as [_ ->]; [discriminate|reflexivity| |reflexivity].
  intros c Hlt. change (1 < c)%nat in Hlt. destruct c as [|[|c]]; [lia..|]. split; reflexivity.
Defined.

Lemma mcast_address_witness :
  exists s, NewMCast 0xFF05 0x000B 9001 false true true true true = Some s /\
    m_sent (mc_run [(true, [7], 0xABCD); (false, [8], 1); (true, [9], 2)] s) =
      [(group_addr 0xFF05 0x000B 0xABCD, 9001, [7]); (group_addr 0xFF05 0x000B 2, 9001, [9])].
Proof.
  eexists. split; [reflexivity|].
  rewrite (mcast_address 0xFF05 0x000B 9001 false _ _ eq_refl). reflexivity.
Defined.
