(* ===== verification/Listener.v ===== *)
(** The receive worker of [listener/listener.go]: it takes each datagram
    through decoding, the hash check, the filter, egress deduplication, the
    unicast and multicast sinks and the gap tracker, and it is the owner the
    reassembly buffer calls back. *)
From Stdlib Require Import ZArith Lia.
From S2P Require Import Prelude Sha256 Frame Metrics Net Reassembly Dedup.
From S2P Require Import SubtreeGroup Filter Nack Egress.

Section Listener.
Context `{FL : FrameLib}.

(** What the world answers during the handling of one datagram: the clock
    readings, the random source, and the results of the sends (each sink is
    used at most once per datagram). *)
Record Env := mkEnv {
  now_buffer : Z;
  now_dedup : Z;
  now_tracker : Z;
  clock : bytes -> Z;
  rnd : Z -> Z;
  io_egr : IO;
  io_mcast : bool;
  io_header : IO;
  io_header_mcast : bool;
}.

(** [Worker] without its reassembly buffer, which calls back into it. [w_rec] is
    the recorder; the tracker holds the same one by pointer. *)
Record Core := mkCore {
  env : Env;
  id : Z;
  iface : string;
  filt : Filter.Filter SubtreeGroup.Registry;
  egr : Sender;
  mcastEgr : option MCastSender;
  headerEgr : option Sender;
  headerMCastEgr : option MCastSender;
  tracker : option Tracker;
  w_rec : option Recorder;
  verifyPayloadHash : bool;
  dedupSet : option DSet;
}.

(** [New], before the setters. *)
Definition New (e : Env) (id_ : Z) (iface_ : string) (f : Filter.Filter SubtreeGroup.Registry)
    (egr_ : Sender) (mc : option MCastSender) (tr : option Tracker) (r : option Recorder) : Core :=
  mkCore e id_ iface_ f egr_ mc None None tr r false None.

Definition set_env (c : Core) (e : Env) : Core :=
  mkCore e (id c) (iface c) (filt c) (egr c) (mcastEgr c) (headerEgr c) (headerMCastEgr c)
    (tracker c) (w_rec c) (verifyPayloadHash c) (dedupSet c).
Definition set_egr (c : Core) (s : Sender) : Core :=
  mkCore (env c) (id c) (iface c) (filt c) s (mcastEgr c) (headerEgr c) (headerMCastEgr c)
    (tracker c) (w_rec c) (verifyPayloadHash c) (dedupSet c).
Definition set_mcast (c : Core) (s : MCastSender) : Core :=
  mkCore (env c) (id c) (iface c) (filt c) (egr c) (Some s) (headerEgr c) (headerMCastEgr c)
    (tracker c) (w_rec c) (verifyPayloadHash c) (dedupSet c).
Definition set_tracker (c : Core) (t : Tracker) (r : option Recorder) : Core :=
  mkCore (env c) (id c) (iface c) (filt c) (egr c) (mcastEgr c) (headerEgr c) (headerMCastEgr c)
    (Some t) r (verifyPayloadHash c) (dedupSet c).
Definition set_rec (c : Core) (r : option Recorder) : Core :=
  mkCore (env c) (id c) (iface c) (filt c) (egr c) (mcastEgr c) (headerEgr c) (headerMCastEgr c)
    (tracker c) r (verifyPayloadHash c) (dedupSet c).
Definition SetHeaderEgress (s : option Sender) (c : Core) : Core :=
  mkCore (env c) (id c) (iface c) (filt c) (egr c) (mcastEgr c) s (headerMCastEgr c)
    (tracker c) (w_rec c) (verifyPayloadHash c) (dedupSet c).
Definition SetHeaderMCastEgress (s : option MCastSender) (c : Core) : Core :=
  mkCore (env c) (id c) (iface c) (filt c) (egr c) (mcastEgr c) (headerEgr c) s
    (tracker c) (w_rec c) (verifyPayloadHash c) (dedupSet c).
Definition SetVerifyPayloadHash (v : bool) (c : Core) : Core :=
  mkCore (env c) (id c) (iface c) (filt c) (egr c) (mcastEgr c) (headerEgr c) (headerMCastEgr c)
    (tracker c) (w_rec c) v (dedupSet c).
Definition SetEgressDedup (s : option DSet) (c : Core) : Core :=
  mkCore (env c) (id c) (iface c) (filt c) (egr c) (mcastEgr c) (headerEgr c) (headerMCastEgr c)
    (tracker c) (w_rec c) (verifyPayloadHash c) s.

(** [if w.rec != nil { w.rec.M(..) }]. *)
Definition emit (m : Recorder -> Recorder) (c : Core) : Core := set_rec c (with_rec (w_rec c) m).

(** ** The steps the handlers share *)

(** The unicast sink and its two counters. *)
Definition unicast (send : Sender -> option SendErr * Sender) (c : Core) : Core :=
  let '(err, s) := send (egr c) in
  let c := set_egr c s in
  match err with
  | Some _ => emit (EgressError (id c)) c
  | None => emit (FrameForwarded (id c) (Proto (egr c))) c
  end.

(** The multicast fan-out, whatever the unicast outcome was. *)
Definition multicast (raw : bytes) (f : Frame) (groupIdx : Z) (c : Core) : Core :=
  match mcastEgr c with
  | None => c
  | Some m =>
      let '(ok, m) := MCSend (io_mcast (env c)) raw f groupIdx m in
      let c := set_mcast c m in
      if ok then emit (FrameForwarded (id c) MCProto) c else emit (MCEgressError (id c)) c
  end.

(** [w.tracker.Observe(..)] when there is a tracker; the recorder is shared. *)
Definition track (groupIdx : Z) (sub : bytes) (hashKey seqNum : Z) (c : Core) : option Core :=
  match tracker c with
  | None => Some c
  | Some t =>
      t ← Nack.Observe (now_tracker (env c)) (rnd (env c)) groupIdx sub hashKey seqNum
            (with_flows t (flows t) (w_rec c));
      Some (set_tracker c t (rec t))
  end.

(** ** Data frames *)

Definition is_v2 (f : Frame) : bool := Version f =? FrameVerV2.

(** The duplicate check before egress. *)
Definition dedup_check (groupIdx : Z) (f : Frame) (c : Core) : bool * Core :=
  match dedupSet c with
  | None => (false, c)
  | Some s =>
      if is_v2 f && negb (SeqNum f =? 0) then
        let '(seen, s) := SeenAndAdd (now_dedup (env c)) (mkKey groupIdx (SubtreeID f) (SeqNum f)) s in
        (seen, SetEgressDedup (Some s) c)
      else (false, c)
  end.

(** [processFrame] from the decoding of a data frame on. *)
Definition process_data (raw : bytes) (c : Core) : option Core :=
  match DecodeFrame raw with
  | None => Some (emit (FrameDropped (id c) "decode_error") c)
  | Some f =>
      let ver := if is_v2 f then "brc124"%string else "brc12"%string in
      let c := emit (FrameReceived (id c) (iface c) ver) c in
      if verifyPayloadHash c && is_v2 f && negb (bool_decide (sha256d (Payload f) = TxID f))
      then Some (emit (FrameInvalidPayload (id c)) c)
      else
        let groupIdx := GroupIndex (TxID f) in
        match Allow (clock (env c)) groupIdx f (filt c) with
        | (false, reason) => Some (emit (FrameDropped (id c) reason) c)
        | (true, _) =>
            let '(seen, c) := dedup_check groupIdx f c in
            if seen
            then track groupIdx (SubtreeID f) (HashKey f) (SeqNum f) (emit (FrameDeduped (id c)) c)
            else
              let c := unicast (Send (io_egr (env c)) raw f) c in
              let c := multicast raw f groupIdx c in
              if is_v2 f && negb (SeqNum f =? 0)
              then track groupIdx (SubtreeID f) (HashKey f) (SeqNum f) c
              else Some c
        end
  end.

(** ** Block control frames *)

Definition emitBlockHeader (bf : BlockFrame) (c : Core) : Core :=
  if negb (bf_MsgType bf =? BlockMsgAnnounce) then c
  else if (length (bf_Payload bf) <? BlockHeaderSize)%nat then c
  else
    let stripped := {| bf_MsgType := bf_MsgType bf; bf_ContentID := bf_ContentID bf;
                       bf_HashKey := bf_HashKey bf; bf_SeqNum := bf_SeqNum bf;
                       bf_Payload := take BlockHeaderSize (bf_Payload bf) |} in
    match EncodeBlock stripped (zeros (HeaderSize + BlockHeaderSize)) with
    | None => c
    | Some buf =>
        let c :=
          match headerEgr c with
          | None => c
          | Some s =>
              let '(err, s) := SendRaw (io_header (env c)) buf s in
              let c := SetHeaderEgress (Some s) c in
              match err with
              | Some _ => emit (HeaderEgressError (id c)) c
              | None => emit (HeaderForwarded (id c)) c
              end
          end in
        match headerMCastEgr c with
        | None => c
        | Some m =>
            let '(ok, m) := SendToGroup (io_header_mcast (env c)) buf CtrlGroupBlockHeader m in
            let c := SetHeaderMCastEgress (Some m) c in
            if ok then emit (HeaderForwarded (id c)) c else emit (HeaderEgressError (id c)) c
        end
    end.

Definition has_header_egress (c : Core) : bool :=
  match headerEgr c, headerMCastEgr c with None, None => false | _, _ => true end.

(** What happens to a block frame once it is decoded and counted. *)
Definition forward_block (raw : bytes) (bf : BlockFrame) (c : Core) : option Core :=
  let c := unicast (SendBlock (io_egr (env c)) raw bf) c in
  let c := if has_header_egress c then emitBlockHeader bf c else c in
  if negb (bf_SeqNum bf =? 0)
  then track CtrlGroupControl (zeros 32) (bf_HashKey bf) (bf_SeqNum bf) c
  else Some c.

Definition processBlockFrame (raw : bytes) (c : Core) : option Core :=
  match DecodeBlock raw with
  | None => Some (emit (FrameDropped (id c) "decode_error") c)
  | Some bf => forward_block raw bf (emit (FrameReceived (id c) (iface c) "brc131") c)
  end.

Definition DeliverReassembledBlock (payload : bytes) (bf : BlockFrame) (c : Core) : option Core :=
  let c := emit ReassemblyCompleted c in
  match EncodeBlock bf (zeros (HeaderSize + length payload)) with
  | None => Some c
  | Some raw => forward_block raw bf (emit (FrameReceived (id c) (iface c) "brc131_reassembled") c)
  end.

(** ** Subtree data frames *)

Definition forward_subtree_data (raw : bytes) (sf : SubtreeDataFrame) (c : Core) : option Core :=
  let c := unicast (SendSubtreeData (io_egr (env c)) raw sf) c in
  if negb (sf_SeqNum sf =? 0)
  then track CtrlGroupSubtreeAnnounce (sf_SubtreeID sf) (sf_HashKey sf) (sf_SeqNum sf) c
  else Some c.

Definition processSubtreeDataFrame (raw : bytes) (c : Core) : option Core :=
  match DecodeSubtreeData raw with
  | None => Some (emit (FrameDropped (id c) "decode_error") c)
  | Some sf => forward_subtree_data raw sf (emit (FrameReceived (id c) (iface c) "brc132") c)
  end.

Definition DeliverReassembledSubtreeData (payload : bytes) (sf : SubtreeDataFrame) (c : Core)
    : option Core :=
  let c := emit ReassemblyCompleted c in
  match EncodeSubtreeData sf (zeros (HeaderSize + length payload)) with
  | None => Some c
  | Some raw =>
      forward_subtree_data raw sf (emit (FrameReceived (id c) (iface c) "brc132_reassembled") c)
  end.

(** ** Reassembled data frames *)

Definition DeliverReassembled (payload : bytes) (f : Frame) (c : Core) : option Core :=
  let groupIdx := GroupIndex (TxID f) in
  let c := emit ReassemblyCompleted c in
  match Allow (clock (env c)) groupIdx f (filt c) with
  | (false, reason) => Some (emit (FrameDropped (id c) reason) c)
  | (true, _) =>
      let c := emit (FrameReceived (id c) (iface c) "brc130") c in
      match EncodeFrame f (zeros (HeaderSize + length payload)) with
      | None => Some c
      | Some raw =>
          let c := unicast (Send (io_egr (env c)) raw f) c in
          let c := multicast raw f groupIdx c in
          if negb (SeqNum f =? 0)
          then track groupIdx (SubtreeID f) (HashKey f) (SeqNum f) c
          else Some c
      end
  end.

(** ** The worker *)

(** A panic of a callback is a panic of the worker. *)
Definition WState := option Core.

Record Worker := mkWorker { core : Core; reassemBuf : option (Buffer WState) }.

Definition SetReassemblyBuffer (b : option (Buffer WState)) (w : Worker) : Worker :=
  mkWorker (core w) b.

(** The buffer as [main] wires it to its worker. *)
Definition worker_buffer (verifyHash verifyMerkle : bool) : Buffer WState :=
  let b := Reassembly.New DefaultMaxSlots DefaultTTL verifyHash
             (Some (fun payload f w => w ≫= DeliverReassembled payload f)) in
  let b := SetStartedHook (fun w => emit ReassemblyStarted <$> w) b in
  let b := SetAbandonedHook (fun w => emit ReassemblyAbandoned <$> w) b in
  let b := SetHashMismatchHook (fun w => emit ReassemblyHashMismatch <$> w) b in
  let b := SetBlockCallback (fun payload bf w => w ≫= DeliverReassembledBlock payload bf) b in
  let b := SetSubtreeDataCallback
             (fun payload sf w => w ≫= DeliverReassembledSubtreeData payload sf) b in
  if verifyMerkle then SetVerifyMerkle true b else b.

Definition with_core (w : Worker) (c : Core) : Worker := mkWorker c (reassemBuf w).

(** [processFrame]; [None] is a panic. *)
Definition processFrame (e : Env) (raw : bytes) (w : Worker) : option Worker :=
  let c := set_env (core w) e in
  if IsBlockFrame raw then with_core w <$> processBlockFrame raw c
  else if IsSubtreeDataFrame raw then with_core w <$> processSubtreeDataFrame raw c
  else if IsFragment raw then
    match reassemBuf w with
    | None => Some (with_core w (emit (FrameDropped (id c) "no_reassembly_buffer") c))
    | Some b =>
        match DecodeFragment raw with
        | None => Some (with_core w (emit (FrameDropped (id c) "frag_decode_error") c))
        | Some ff =>
            let '(b, s) := Reassembly.Observe (now_buffer e) ff b (Some c) in
            (fun c => mkWorker c (Some b)) <$> s
        end
    end
  else with_core w <$> process_data raw c.

(** One tick of the goroutine that [main] starts for the buffer. *)
Definition buffer_tick (now : Z) (w : Worker) : option Worker :=
  match reassemBuf w with
  | None => Some w
  | Some b =>
      let '(b, s) := Reassembly.Tick now b (Some (core w)) in
      (fun c => mkWorker c (Some b)) <$> s
  end.

(** One round of the receive loop of [Run]: [true] when the loop goes on. A
    datagram is shorter than the 4 MiB buffer, so it is never truncated. *)
Definition worker_recv (e : Env) (ctx_done : bool) (o : Recv) (w : Worker)
    : option (bool * Worker) :=
  match o with
  | RecvErr (EAGAIN | EWOULDBLOCK) => Some (negb ctx_done, w)
  | RecvErr (EBADF | EINVAL) => Some (false, w)
  | RecvErr EINTR => Some (true, w)
  | RecvErr EOTHER => Some (negb ctx_done, w)
  | RecvData raw _ =>
      if (0 <? length raw)%nat then w ← processFrame e raw w; Some (true, w) else Some (true, w)
  end.
End Listener.

Arguments DeliverReassembled : simpl never.
