(* ===== verification/ListenerProps.v ===== *)
(** What the worker promises over every run: nothing leaves it that the hash
    check or the filter refused, no datagram crashes it, duplicates stop before
    egress, and every datagram is counted once. *)
From Stdlib Require Import ZArith Lia.
From S2P Require Import Prelude Sha256 Frame FrameExample Metrics Net Reassembly.
From S2P Require Import Dedup SubtreeGroup Filter Nack NackSteps Egress Listener.

Section Runs.
Context `{FL : FrameLib}.

(** What happens to one worker, in order: the datagrams it handles, the ticks of
    its buffer, and what the other goroutines do to the objects it shares with
    them: the announcement listener leaves the group registry in another state,
    the tracker makes steps (of other workers, of its sweeper and its
    dispatcher), and other counters of the recorder grow. *)
Inductive WOp :=
  | WData (e : Env) (raw : bytes)
  | WTick (now : Z)
  | WGroups (r : SubtreeGroup.Registry)
  | WTrack (g : Tracker -> Tracker)
  | WCount (m : Recorder -> Recorder).

(** The filter holds the registry by pointer, when there is one. *)
Definition with_groups (r : SubtreeGroup.Registry) (f : Filter.Filter SubtreeGroup.Registry)
    : Filter.Filter SubtreeGroup.Registry :=
  mkFilter (shardInclude f) (subtreeInclude f) (subtreeExclude f)
    (match groupReg f with Some _ => Some r | None => None end).

Definition groups_of (f : Filter.Filter SubtreeGroup.Registry) : SubtreeGroup.Registry :=
  default (SubtreeGroup.New [] 0) (groupReg f).

Lemma with_groups_same f : with_groups (groups_of f) f = f.
Proof. destruct f as [si inc exc [r|]]; done. Qed.

Lemma with_groups_twice r r' f : with_groups r (with_groups r' f) = with_groups r f.
Proof. destruct f as [si inc exc [r0|]]; done. Qed.

Definition set_groups (r : SubtreeGroup.Registry) (c : Core) : Core :=
  mkCore (env c) (id c) (iface c) (with_groups r (filt c)) (egr c) (mcastEgr c) (headerEgr c) (headerMCastEgr c) (tracker c) (w_rec c)
    (verifyPayloadHash c) (dedupSet c).

(** The tracker as the worker shares it: with the worker's recorder. *)
Definition move_tracker (g : Tracker -> Tracker) (c : Core) : Core :=
  match tracker c with
  | None => c
  | Some t => let t := g (with_flows t (flows t) (w_rec c)) in set_tracker c t (rec t)
  end.

Definition run_wop (o : WOp) (w : Worker) : option Worker :=
  match o with
  | WData e raw => processFrame e raw w
  | WTick now => buffer_tick now w
  | WGroups r => Some (with_core w (set_groups r (core w)))
  | WTrack g => Some (with_core w (move_tracker g (core w)))
  | WCount m => Some (with_core w (emit m (core w)))
  end.

(** A worker keeps its buffer. *)
Lemma run_wop_buffer o w w' b :
  reassemBuf w = Some b -> run_wop o w = Some w' -> is_Some (reassemBuf w').
Proof.
  intros Hb. destruct o as [e raw|now|r|g|mt]; cbn [run_wop];
    [| |intros [= <-]; simpl; by rewrite Hb..].
  - unfold processFrame. rewrite Hb.
    assert (forall o, with_core w <$> o = Some w' -> is_Some (reassemBuf w')) as Hw
      by (intros o (c & _ & ->)%fmap_Some; simpl; by rewrite Hb).
    destruct (IsBlockFrame raw); [apply Hw|]. destruct (IsSubtreeDataFrame raw); [apply Hw|].
    destruct (IsFragment raw); [|apply Hw].
    destruct (DecodeFragment raw) as [ff|]; [|intros [= <-]; simpl; by rewrite Hb].
    destruct (Reassembly.Observe _ _ _ _) as [b' [c|]]; [|done]. by intros [= <-].
  - unfold buffer_tick. rewrite Hb. destruct (Tick _ _ _) as [b' [c|]]; [|done].
    by intros [= <-].
Qed.

Definition worker_run (ops : list WOp) (w : Worker) : option Worker :=
  foldl (fun acc o => acc ≫= run_wop o) (Some w) ops.

Lemma worker_run_buffer ops w w' b :
  reassemBuf w = Some b -> worker_run ops w = Some w' -> is_Some (reassemBuf w').
Proof.
  intros Hb. revert w'. induction ops as [|o ops IH] using rev_ind.
  - intros w' [= <-]. by eexists.
  - intros w'. unfold worker_run. rewrite foldl_snoc. fold (worker_run ops w).
    intros (w1 & Hw1 & Ho)%bind_Some. destruct (IH w1 Hw1) as [b1 Hb1]. by eapply run_wop_buffer.
Qed.

(** The library returns fragments whose fields have their Go types. *)
Definition fragments_typed : Prop :=
  forall raw ff, Forall is_byte raw -> DecodeFragment raw = Some ff -> frag_ok ff.

(** A counter that does not take part in the accounts of the gaps. *)
Definition neutral (m : Recorder -> Recorder) : Prop :=
  forall r, net (Some (m r)) = net (Some r) /\ only_adds r (m r).

Lemma add_neutral ct v l :
  ct <> gapsDetected -> ct <> gapsSuppressed -> ct <> nacksUnrecovered -> neutral (add ct v l).
Proof.
  intros H1 H2 H3 r. split; [|apply add_only]. unfold net. rewrite !value_add.
  rewrite !decide_False by done. lia.
Qed.

(** A datagram that is decoded as a data frame. *)
Definition plain (raw : bytes) : bool :=
  negb (IsBlockFrame raw) && negb (IsSubtreeDataFrame raw) && negb (IsFragment raw).

Definition wop_ok (o : WOp) : Prop :=
  match o with
  | WData _ raw => Forall is_byte raw
  | WTrack g => forall t, rtc step t (g t)
  | WCount m => neutral m
  | _ => True
  end.


(** Every counter of the handlers is one. *)
Ltac is_neutral := by apply add_neutral.

(** ** An induction principle for runs

    A predicate [Q] on the core holds along a run when the handlers keep it;
    [Panic] says whether they may panic. *)
Section Principle.
Context (Q : Core -> Prop) (Panic : Prop) (Reg : SubtreeGroup.Registry -> Prop).
Context (Moves : (Tracker -> Tracker) -> Prop) (Data : bytes -> Prop) (v m : bool).

Definition holds (o : option Core) : Prop := match o with Some c => Q c | None => Panic end.

Context (Q_env : forall c e, Q c -> Q (set_env c e)).
Context (Q_emit : forall c mt, neutral mt -> Q c -> Q (emit mt c)).
Context (Q_groups : forall r c, Reg r -> Q c -> Q (set_groups r c)).
Context (Q_track : forall g c, Moves g -> Q c -> Q (move_tracker g c)).
Context (Q_data : forall raw c, Data raw -> Q c -> holds (process_data raw c)).
Context (Q_block : forall raw c,
  Forall is_byte raw -> Q c -> IsBlockFrame raw = true -> holds (processBlockFrame raw c)).
Context (Q_subtree : forall raw c, Forall is_byte raw ->
  Q c -> IsSubtreeDataFrame raw = true -> holds (processSubtreeDataFrame raw c)).
Context (Q_deliver : forall f c, 0 <= SeqNum f < 2 ^ 64 ->
  Q c -> Version f = FrameVerV2 -> (v = true -> sha256d (Payload f) = TxID f) ->
  holds (DeliverReassembled (Payload f) f c)).
Context (Q_deliver_block : forall bf c, 0 <= bf_SeqNum bf < 2 ^ 64 ->
  Q c -> holds (DeliverReassembledBlock (bf_Payload bf) bf c)).
Context (Q_deliver_subtree : forall sf c, 0 <= sf_SeqNum sf < 2 ^ 64 ->
  Q c -> holds (DeliverReassembledSubtreeData (sf_Payload sf) sf c)).

Definition worker_inv (w : Worker) : Prop :=
  Q (core w) /\
  forall b, reassemBuf w = Some b -> buf_ok b /\ same_config (worker_buffer v m) b.

Lemma wired b :
  same_config (worker_buffer v m) b ->
  verifyHash b = v /\
  onComplete b = Some (fun payload f w => w ≫= DeliverReassembled payload f) /\
  onCompleteBlock b = Some (fun payload bf w => w ≫= DeliverReassembledBlock payload bf) /\
  onCompleteSubtree b =
    Some (fun payload sf w => w ≫= DeliverReassembledSubtreeData payload sf) /\
  onStarted b = Some (fun w : WState => emit ReassemblyStarted <$> w) /\
  onAbandoned b = Some (fun w : WState => emit ReassemblyAbandoned <$> w) /\
  onHashMismatch b = Some (fun w : WState => emit ReassemblyHashMismatch <$> w).
Proof. intros ->. unfold worker_buffer. by destruct m. Qed.

Lemma holds_emit mt o : neutral mt -> holds o -> holds (emit mt <$> o).
Proof. destruct o; [apply Q_emit|done]. Qed.

Lemma complete_holds s b (w : WState) :
  0 <= seqNum s < 2 ^ 64 -> same_config (worker_buffer v m) b -> holds w -> holds (complete s b w).2.
Proof.
  intros Hs Hc Hw. destruct (wired b Hc) as (Hv & H1 & H2 & H3 & _ & _ & H4).
  unfold complete. set (p := assemble (frags s)). destruct (_ =? FrameVerV4).
  { cbn [removeSlot onCompleteBlock with_slots]. rewrite H2. destruct w as [c|]; [|done].
    by apply (Q_deliver_block (mkBlockFrame _ _ (hashKey s) (seqNum s) p)). }
  destruct (_ =? FrameVerV5).
  { cbn [removeSlot onCompleteSubtree with_slots]. rewrite H3. destruct w as [c|]; [|done].
    by apply (Q_deliver_subtree (mkSubtreeDataFrame _ _ (hashKey s) (seqNum s) p)). }
  destruct (verifyHash b && negb (bool_decide (sha256d p = txID s))) eqn:E.
  { cbn [snd]. rewrite H4. apply holds_emit; [is_neutral|done]. }
  cbn [removeSlot onComplete with_slots]. rewrite H1. destruct w as [c|]; [|done].
  apply (Q_deliver (mkFrame _ _ _ _ _ p)); [done..|]. intros ->.
  rewrite Hv in E. apply negb_false_iff, bool_decide_eq_true in E. exact E.
Qed.

Lemma hooks_hold b (w : WState) :
  same_config (worker_buffer v m) b -> holds w ->
  holds (call (onAbandoned b) w) /\ holds (call (onStarted b) w).
Proof.
  intros Hc Hw. destruct (wired b Hc) as (_ & _ & _ & _ & H1 & H2 & _).
  rewrite H1, H2. split; (apply holds_emit; [is_neutral|done]).
Qed.

Ltac keep_buffer :=
  match goal with
  | Eb : reassemBuf ?w = _, Hb : forall b, _ = Some b -> _ |- _ =>
      let b' := fresh in let H := fresh in
      intros b' H; change (reassemBuf w = Some b') in H; rewrite Eb in H; exact (Hb b' H)
  end.

Lemma run_wop_inv o w :
  fragments_typed -> wop_ok o -> (forall r, o = WGroups r -> Reg r) ->
  (forall g, o = WTrack g -> Moves g) ->
  (forall e raw, o = WData e raw -> plain raw = true -> Data raw) -> worker_inv w ->
  match run_wop o w with Some w' => worker_inv w' | None => Panic end.
Proof.
  intros Hft Ho Hreg Hmv Hdat [Hq Hb]. destruct o as [e raw|now|r|g|mt]; cbn [run_wop]; cycle 2.
  { split; [by apply Q_groups; [apply Hreg|]|exact Hb]. }
  { split; [by apply Q_track; [apply Hmv|]|exact Hb]. }
  { split; [by apply Q_emit|exact Hb]. }
  - unfold processFrame. pose proof (Q_env _ e Hq) as Hqe. set (c := set_env (core w) e) in *.
    assert (forall o, holds o -> match with_core w <$> o with Some w' => worker_inv w' | None => Panic end)
      as Hwrap by (intros [c'|] Hh; [by split|exact Hh]).
    destruct (IsBlockFrame raw) eqn:E1; [by apply Hwrap, Q_block|].
    destruct (IsSubtreeDataFrame raw) eqn:E2; [by apply Hwrap, Q_subtree|].
    destruct (IsFragment raw) eqn:E3;
      [|by apply Hwrap, Q_data; [apply (Hdat e raw eq_refl); unfold plain; rewrite E1, E2, E3|]].
    destruct (reassemBuf w) as [b|] eqn:Eb; [|by split; [apply Q_emit; [is_neutral|done]|keep_buffer]].
    destruct (DecodeFragment raw) as [ff|] eqn:Ef; [|by split; [apply Q_emit; [is_neutral|done]|keep_buffer]].
    destruct (Hb b eq_refl) as [Hok Hc]. pose proof (Hft raw ff Ho Ef) as Hff.
    assert (holds (Reassembly.Observe (now_buffer e) ff b (Some c)).2) as Hh.
    { apply Observe_w_pres; [done|done|..|done].
      - intros. by apply hooks_hold.
      - intros. by apply hooks_hold.
      - intros s b' w' Hc' _ Hs Hw'. apply complete_holds; [done| |done].
        by eapply same_config_trans. }
    pose proof (Observe_ok (now_buffer e) ff b (Some c) Hok Hff) as Hok'.
    pose proof (Observe_config (now_buffer e) ff b (Some c)) as Hc'.
    destruct (Reassembly.Observe (now_buffer e) ff b (Some c)) as [b' [c'|]]; [|exact Hh].
    split; [exact Hh|]. intros b'' [= <-]. split; [done|]. by eapply same_config_trans.
  - unfold buffer_tick. destruct (reassemBuf w) as [b|] eqn:Eb; [|by split; [|keep_buffer]].
    destruct (Hb b eq_refl) as [Hok Hc].
    assert (holds (Reassembly.Tick now b (Some (core w))).2) as Hh.
    { apply evictExpired_w_pres; [|done]. intros. by apply hooks_hold. }
    pose proof (evictExpired_ok now b (Some (core w)) Hok) as [Hok' _].
    pose proof (evictExpired_config now b (Some (core w))) as Hc'.
    unfold Tick in *.
    destruct (evictExpired now b (Some (core w))) as [b' [c'|]]; [|exact Hh].
    split; [exact Hh|]. intros b'' [= <-]. split; [done|]. by eapply same_config_trans.
Qed.

Lemma worker_run_inv ops w :
  fragments_typed -> Forall wop_ok ops -> (forall r, WGroups r ∈ ops -> Reg r) ->
  (forall g, WTrack g ∈ ops -> Moves g) -> (forall raw, Forall is_byte raw -> Data raw) ->
  worker_inv w ->
  match worker_run ops w with Some w' => worker_inv w' | None => Panic end.
Proof.
  intros Hft. induction ops as [|o ops IH] using rev_ind; [done|].
  intros [Hl [Ho _]%Forall_cons]%Forall_app Hreg Hmv Hdat Hw. unfold worker_run. rewrite foldl_snoc.
  fold (worker_run ops w).
  specialize (IH Hl (fun r Hr => Hreg r (proj2 (elem_of_app _ _ _) (or_introl Hr)))
    (fun g Hg => Hmv g (proj2 (elem_of_app _ _ _) (or_introl Hg))) Hdat Hw).
  destruct (worker_run ops w) as [w1|]; [|exact IH].
  apply run_wop_inv; [done..| | | |exact IH].
  - intros r ->. apply Hreg, elem_of_app. right. by left.
  - intros g ->. apply Hmv, elem_of_app. right. by left.
  - intros e raw -> _. by apply Hdat.
Qed.

Lemma worker_buffer_inv : buf_ok (worker_buffer v m) /\ same_config (worker_buffer v m) (worker_buffer v m).
Proof.
  split; [|apply same_config_refl]. unfold worker_buffer.
  pose proof (New_buf_ok (W := WState) DefaultMaxSlots DefaultTTL v
    (Some (fun payload f w => w ≫= DeliverReassembled payload f))) as [].
  by destruct m; split.
Qed.
End Principle.

(** ** Nothing refused leaves the worker *)

Section Safety.
Context (c0 : Core) (Reg : SubtreeGroup.Registry -> Prop).

(** What the worker's policy admits, in one of the states [Reg] of the group
    registry. *)
Definition admitted (f : Frame) : Prop :=
  (exists clk r, Reg r /\
     (Allow clk (GroupIndex (TxID f)) f (with_groups r (filt c0))).1 = true) /\
  (verifyPayloadHash c0 = true -> Version f = FrameVerV2 -> sha256d (Payload f) = TxID f).

(** The wire form of a data frame: as received, or re-encoded. *)
Definition data_wire (f : Frame) (raw : bytes) : Prop :=
  DecodeFrame raw = Some f \/ exists n, EncodeFrame f (zeros n) = Some raw.
Definition block_wire (bf : BlockFrame) (raw : bytes) : Prop :=
  (IsBlockFrame raw = true /\ DecodeBlock raw = Some bf) \/
  exists n, EncodeBlock bf (zeros n) = Some raw.
Definition subtree_wire (sf : SubtreeDataFrame) (raw : bytes) : Prop :=
  (IsSubtreeDataFrame raw = true /\ DecodeSubtreeData raw = Some sf) \/
  exists n, EncodeSubtreeData sf (zeros n) = Some raw.

(** A data output: an admitted frame, whole or stripped of its header. *)
Definition data_output (strip : bool) (buf : bytes) : Prop :=
  exists f raw, data_wire f raw /\ admitted f /\ buf = if strip then Payload f else raw.

Definition output (strip : bool) (buf : bytes) : Prop :=
  data_output strip buf \/
  (exists bf raw, block_wire bf raw /\ buf = if strip then bf_Payload bf else raw) \/
  (exists sf raw, subtree_wire sf raw /\ buf = if strip then sf_Payload sf else raw).

(** A header output: the announcement of a block, re-encoded with only the
    block header as its payload. *)
Definition header_output (buf : bytes) : Prop :=
  exists bf raw, block_wire bf raw /\ bf_MsgType bf = BlockMsgAnnounce /\
    (BlockHeaderSize <= length (bf_Payload bf))%nat /\
    EncodeBlock (mkBlockFrame BlockMsgAnnounce (bf_ContentID bf) (bf_HashKey bf) (bf_SeqNum bf)
                   (take BlockHeaderSize (bf_Payload bf)))
      (zeros (HeaderSize + BlockHeaderSize)) = Some buf.

(** A sink sends, and keeps its options and its UDP socket. *)
Definition same_sink (s s' : Sender) : Prop :=
  stripHeader s' = stripHeader s /\ proto s' = proto s /\ udpConn s' = udpConn s.

Record core_inv (c : Core) : Prop := {
  ci_filt : exists r, Reg r /\ filt c = with_groups r (filt c0);
  ci_verify : verifyPayloadHash c = verifyPayloadHash c0;
  ci_sink : same_sink (egr c0) (egr c);
  ci_sent : Forall (output (stripHeader (egr c))) (sent (egr c));
  ci_mcast : forall mc, mcastEgr c = Some mc ->
    Forall (fun d => data_output (m_stripHeader mc) d.2) (m_sent mc) /\
    Some (m_stripHeader mc) = m_stripHeader <$> mcastEgr c0;
  ci_header : forall s, headerEgr c = Some s ->
    Forall (fun b => b ∈ default [] (sent <$> headerEgr c0) \/ header_output b) (sent s);
  ci_header_mcast : forall mc, headerMCastEgr c = Some mc ->
    Forall (fun d => d ∈ default [] (m_sent <$> headerMCastEgr c0) \/ header_output d.2) (m_sent mc);
}.

(** The parts of the core the invariant does not mention. *)
Lemma core_inv_ext c c' :
  filt c' = filt c -> verifyPayloadHash c' = verifyPayloadHash c -> egr c' = egr c ->
  mcastEgr c' = mcastEgr c -> headerEgr c' = headerEgr c ->
  headerMCastEgr c' = headerMCastEgr c -> core_inv c -> core_inv c'.
Proof.
  intros E1 E2 E3 E4 E5 E6 [H1 H2 H3 H4 H5 H6 H7].
  split; by rewrite ?E1, ?E2, ?E3, ?E4, ?E5, ?E6.
Qed.

Lemma groups_inv r c : Reg r -> core_inv c -> core_inv (set_groups r c).
Proof.
  intros Hr [(r0 & _ & E) H2 H3 H4 H5 H6 H7]. split; [|done..]. exists r. split; [done|]. simpl.
  by rewrite E, with_groups_twice.
Qed.

Lemma move_inv g c : core_inv c -> core_inv (move_tracker g c).
Proof. intros Hc. unfold move_tracker. destruct (tracker c); [by eapply core_inv_ext; [..|exact Hc]|done]. Qed.

(** A frame that passes the filter as it is now. *)
Lemma allow_admitted f c :
  core_inv c -> (Allow (clock (env c)) (GroupIndex (TxID f)) f (filt c)).1 = true ->
  (verifyPayloadHash c0 = true -> Version f = FrameVerV2 -> sha256d (Payload f) = TxID f) ->
  admitted f.
Proof.
  intros Hc Ha Hh. split; [|done]. destruct (ci_filt c Hc) as (r & Hr & E).
  exists (clock (env c)), r. by rewrite <- E.
Qed.

Lemma emit_inv mt c : core_inv c -> core_inv (emit mt c).
Proof. by apply core_inv_ext. Qed.

Lemma track_inv g sid hk seq c : core_inv c -> holds core_inv True (track g sid hk seq c).
Proof.
  intros Hc. unfold track. destruct (tracker c) as [t|]; [|exact Hc].
  destruct (Nack.Observe _ _ _ _ _ _ _) as [t'|]; [|exact I].
  simpl. by eapply core_inv_ext; [..|exact Hc].
Qed.

Lemma unicast_inv io raw payload send c :
  (forall s, send s = SendRaw io (if stripHeader s then payload else raw) s) ->
  output (stripHeader (egr c)) (if stripHeader (egr c) then payload else raw) ->
  core_inv c -> core_inv (unicast send c).
Proof.
  intros Hs Ho [H1 H2 H3 H4 H5 H6 H7]. unfold unicast. rewrite Hs.
  destruct (SendRaw_spec io (if stripHeader (egr c) then payload else raw) (egr c))
    as (E1 & E3 & E2 & _ & E4 & _).
  destruct (SendRaw io _ (egr c)) as [r s]. cbn [fst snd] in *.
  assert (core_inv (set_egr c s)) as Hc.
  { split; [done..| | |done|done|done]; unfold same_sink; simpl; rewrite ?E1, ?E2, ?E3, ?E4; [done|]. apply Forall_app. split; [done|].
    destruct r as [err|]; [constructor|]. apply Forall_cons. split; [exact Ho|constructor]. }
  destruct r; by apply emit_inv.
Qed.

Lemma multicast_inv raw f g c :
  data_wire f raw -> admitted f -> core_inv c -> core_inv (multicast raw f g c).
Proof.
  intros Hw Ha Hc. unfold multicast. destruct (mcastEgr c) as [mc|] eqn:E; [|done].
  unfold MCSend, SendToGroup. set (t := put_at 15 _ _).
  destruct (ci_mcast c Hc mc E) as [H5 H6].
  destruct (io_mcast (env c)); apply emit_inv; destruct Hc as [H1 H2 H3 H4 _ H7 H8];
    split; try done; intros mc' [= <-]; simpl; (split; [|exact H6]); [|exact H5].
  apply Forall_app. split; [exact H5|].
  apply Forall_cons. split; [by exists f, raw|constructor].
Qed.

Lemma header_inv raw bf c : block_wire bf raw -> core_inv c -> core_inv (emitBlockHeader bf c).
Proof.
  intros Hw Hc. unfold emitBlockHeader.
  destruct (Z.eqb_spec (bf_MsgType bf) BlockMsgAnnounce) as [Hty|]; [|done]. cbn [negb].
  destruct (Nat.ltb_spec (length (bf_Payload bf)) BlockHeaderSize) as [|Hlen]; [done|].
  destruct (EncodeBlock _ _) as [buf|] eqn:He; [|done]. rewrite Hty in He.
  assert (header_output buf) as Hout by (by exists bf, raw).
  set (c1 := match headerEgr c with Some _ => _ | None => _ end).
  assert (core_inv c1) as Hc1.
  { subst c1. destruct (headerEgr c) as [s|] eqn:Es; [|done].
    destruct (SendRaw_spec (io_header (env c)) buf s) as (E & _).
    destruct (SendRaw _ buf s) as [err s']. cbn [fst snd] in E.
    assert (core_inv (SetHeaderEgress (Some s') c)) as Hc'.
    { destruct Hc as [H1 H2 H3 H4 H5 H6 H7]. split; try done. simpl. intros ? [= <-]. rewrite E.
      apply Forall_app. split; [by apply H6|].
      destruct err; [constructor|apply Forall_singleton; by right]. }
    by destruct err; apply emit_inv. }
  destruct (headerMCastEgr c1) as [mc|] eqn:Em; [|done]. unfold SendToGroup. set (t := put_at 15 _ _).
  destruct (io_header_mcast (env c1)); apply emit_inv; destruct Hc1 as [H1 H2 H3 H4 H5 H6 H7];
    split; try done; simpl; intros ? [= <-]; simpl; [|by apply H7].
  apply Forall_app. split; [by apply H7|]. apply Forall_singleton. by right.
Qed.

Lemma forward_data_inv io raw f c :
  data_wire f raw -> admitted f -> core_inv c ->
  core_inv (multicast raw f (GroupIndex (TxID f)) (unicast (Send io raw f) c)).
Proof.
  intros Hw Ha Hc. apply multicast_inv; [done..|].
  apply (unicast_inv io raw (Payload f)); [done| |done]. left. by exists f, raw.
Qed.

Lemma data_inv raw c : core_inv c -> holds core_inv True (process_data raw c).
Proof.
  intros Hc. unfold process_data. destruct (DecodeFrame raw) as [f|] eqn:Hd; [|by apply emit_inv].
  set (c1 := emit (FrameReceived _ _ _) c). assert (core_inv c1) as Hc1 by (by apply emit_inv).
  destruct (verifyPayloadHash c1 && _ && _) eqn:Hv; [by apply emit_inv|].
  destruct (Allow (clock (env c1)) _ f (filt c1)) as [ok reason] eqn:Ha.
  destruct ok; [|by apply emit_inv].
  assert (admitted f) as Hadm.
  { apply (allow_admitted f c1 Hc1); [by rewrite Ha|]. intros Hver Hv2. rewrite (ci_verify c1 Hc1), Hver in Hv. unfold is_v2 in Hv.
    rewrite Hv2, Z.eqb_refl in Hv. simpl in Hv.
    apply negb_false_iff, bool_decide_eq_true in Hv. exact Hv. }
  destruct (dedup_check _ f c1) as [seen c2] eqn:Hdd.
  assert (core_inv c2) as Hc2.
  { revert Hdd. unfold dedup_check. destruct (dedupSet c1) as [ds|]; [|by intros [= <- <-]].
    destruct (is_v2 f && negb (SeqNum f =? 0)); [|by intros [= <- <-]].
    destruct (SeenAndAdd _ _ _) as [sn ds']. intros [= <- <-]. by eapply core_inv_ext; [..|exact Hc1]. }
  destruct seen; [by apply track_inv, emit_inv|].
  pose proof (forward_data_inv (io_egr (env c2)) raw f c2 (or_introl Hd) Hadm Hc2) as Hf.
  destruct (is_v2 f && negb (SeqNum f =? 0)); [by apply track_inv|exact Hf].
Qed.

Lemma forward_block_inv raw bf c :
  block_wire bf raw -> core_inv c -> holds core_inv True (forward_block raw bf c).
Proof.
  intros Hw Hc. unfold forward_block.
  set (c1 := unicast _ c). assert (core_inv c1) as Hc1.
  { apply (unicast_inv (io_egr (env c)) raw (bf_Payload bf)); [done| |done].
    right. left. by exists bf, raw. }
  assert (core_inv (if has_header_egress c1 then emitBlockHeader bf c1 else c1)) as Hc2
    by (destruct (has_header_egress c1); [by apply (header_inv raw)|done]).
  destruct (negb (bf_SeqNum bf =? 0)); [by apply track_inv|exact Hc2].
Qed.

Lemma forward_subtree_inv raw sf c :
  subtree_wire sf raw -> core_inv c -> holds core_inv True (forward_subtree_data raw sf c).
Proof.
  intros Hw Hc. unfold forward_subtree_data.
  set (c1 := unicast _ c). assert (core_inv c1) as Hc1.
  { apply (unicast_inv (io_egr (env c)) raw (sf_Payload sf)); [done| |done].
    right. right. by exists sf, raw. }
  destruct (negb (sf_SeqNum sf =? 0)); [by apply track_inv|exact Hc1].
Qed.

Lemma deliver_inv f c :
  core_inv c -> Version f = FrameVerV2 ->
  (verifyPayloadHash c0 = true -> sha256d (Payload f) = TxID f) ->
  holds core_inv True (DeliverReassembled (Payload f) f c).
Proof.
  intros Hc Hver Hh. unfold DeliverReassembled.
  set (c1 := emit ReassemblyCompleted c). assert (core_inv c1) as Hc1 by (by apply emit_inv).
  destruct (Allow (clock (env c1)) _ f (filt c1)) as [ok reason] eqn:Ha.
  destruct ok; [|by apply emit_inv].
  set (c2 := emit (FrameReceived _ _ _) c1). assert (core_inv c2) as Hc2 by (by apply emit_inv).
  destruct (EncodeFrame f _) as [raw|] eqn:He; [|exact Hc2].
  assert (admitted f) as Hadm.
  { apply (allow_admitted f c1 Hc1); [by rewrite Ha|auto]. }
  assert (data_wire f raw) as Hw by (right; by eexists).
  pose proof (forward_data_inv (io_egr (env c2)) raw f c2 Hw Hadm Hc2) as Hf.
  destruct (negb (SeqNum f =? 0)); [by apply track_inv|exact Hf].
Qed.

Lemma set_env_inv c e : core_inv c -> core_inv (set_env c e).
Proof. by apply core_inv_ext. Qed.

Lemma block_inv raw c :
  core_inv c -> IsBlockFrame raw = true -> holds core_inv True (processBlockFrame raw c).
Proof.
  intros Hc Hi. unfold processBlockFrame. destruct (DecodeBlock raw) eqn:E; [|by apply emit_inv].
  apply forward_block_inv; [by left|by apply emit_inv].
Qed.

Lemma subtree_inv raw c :
  core_inv c -> IsSubtreeDataFrame raw = true ->
  holds core_inv True (processSubtreeDataFrame raw c).
Proof.
  intros Hc Hi. unfold processSubtreeDataFrame.
  destruct (DecodeSubtreeData raw) eqn:E; [|by apply emit_inv].
  apply forward_subtree_inv; [by left|by apply emit_inv].
Qed.

Lemma deliver_block_inv bf c :
  core_inv c -> holds core_inv True (DeliverReassembledBlock (bf_Payload bf) bf c).
Proof.
  intros Hc. unfold DeliverReassembledBlock.
  destruct (EncodeBlock bf _) eqn:E; [|by apply emit_inv].
  apply forward_block_inv; [right; by eexists|by apply emit_inv, emit_inv].
Qed.

Lemma deliver_subtree_inv sf c :
  core_inv c -> holds core_inv True (DeliverReassembledSubtreeData (sf_Payload sf) sf c).
Proof.
  intros Hc. unfold DeliverReassembledSubtreeData.
  destruct (EncodeSubtreeData sf _) eqn:E; [|by apply emit_inv].
  apply forward_subtree_inv; [right; by eexists|by apply emit_inv, emit_inv].
Qed.
End Safety.

(** What a run keeps, from a worker whose unicast and multicast sinks are fresh. *)
Lemma run_keeps m ops c w' :
  fragments_typed -> Forall wop_ok ops ->
  sent (egr c) = [] -> (forall mc, mcastEgr c = Some mc -> m_sent mc = []) ->
  worker_run ops (mkWorker c (Some (worker_buffer (verifyPayloadHash c) m))) = Some w' ->
  worker_inv (core_inv c (fun r => r = groups_of (filt c) \/ WGroups r ∈ ops))
    (verifyPayloadHash c) m w'.
Proof.
  intros Hft Hops Hs Hm Hrun. set (v := verifyPayloadHash c) in *.
  set (w := mkWorker c _) in Hrun. set (Reg := fun r => _).
  assert (core_inv c Reg (core w)) as Hc0.
  { split; [|done|done|simpl; rewrite Hs; constructor|..].
    - exists (groups_of (filt c)). split; [by left|]. by rewrite with_groups_same.
    - intros mc Hmc. rewrite (Hm mc Hmc). split; [constructor|]. simpl in Hmc. by rewrite Hmc.
    - intros s E. simpl in E. rewrite E. apply Forall_forall. by left.
    - intros mc E. simpl in E. rewrite E. apply Forall_forall. by left. }
  assert (forall b, reassemBuf w = Some b -> buf_ok b /\ same_config (worker_buffer v m) b) as Hb0
    by (intros b [= <-]; apply worker_buffer_inv).
  pose proof (worker_run_inv (core_inv c Reg) True Reg (fun _ => True) (Forall is_byte) v m
    (set_env_inv c Reg) (fun c1 mt _ H => emit_inv c Reg mt c1 H)
    (groups_inv c Reg) (fun g c1 _ H => move_inv c Reg g c1 H)
    (fun raw c1 _ H => data_inv c Reg raw c1 H) (fun raw c1 _ => block_inv c Reg raw c1)
    (fun raw c1 _ => subtree_inv c Reg raw c1) (fun f c1 _ => deliver_inv c Reg f c1)
    (fun bf c1 _ => deliver_block_inv c Reg bf c1) (fun sf c1 _ => deliver_subtree_inv c Reg sf c1)
    ops w Hft Hops (fun r Hr => or_intror Hr) (fun _ _ => I) (fun _ H => H) (conj Hc0 Hb0)) as Hinv.
  rewrite Hrun in Hinv. exact Hinv.
Qed.

(** No sink has sent anything. *)
Definition fresh_sinks (c : Core) : Prop :=
  sent (egr c) = [] /\ (forall mc, mcastEgr c = Some mc -> m_sent mc = []) /\
  (forall s, headerEgr c = Some s -> sent s = []) /\
  (forall mc, headerMCastEgr c = Some mc -> m_sent mc = []).

(** What the header sinks send: nothing but the headers of announced blocks. *)
Definition sends_headers (c : Core) : Prop :=
  (forall s, headerEgr c = Some s -> Forall header_output (sent s)) /\
  (forall mc, headerMCastEgr c = Some mc -> Forall (fun d => header_output d.2) (m_sent mc)).

(** What a run sends. *)
Lemma run_sends m ops c w' :
  fragments_typed -> Forall wop_ok ops -> fresh_sinks c ->
  worker_run ops (mkWorker c (Some (worker_buffer (verifyPayloadHash c) m))) = Some w' ->
  core_inv c (fun r => r = groups_of (filt c) \/ WGroups r ∈ ops) (core w') /\
  sends_headers (core w').
Proof.
  intros Hft Hops (Hs & Hm & Hh & Hhm) Hrun.
  destruct (run_keeps m ops c w' Hft Hops Hs Hm Hrun) as [Hc _]. split; [done|].
  destruct Hc as [_ _ _ _ _ H6 H7]. split; intros s E.
  - eapply Forall_impl; [by apply H6|]. intros b [Hb|Hb]; [|done].
    destruct (headerEgr c) as [s0|]; simpl in Hb; [rewrite (Hh s0 eq_refl) in Hb|];
      by apply elem_of_nil in Hb.
  - eapply Forall_impl; [by apply H7|]. intros d [Hd|Hd]; [|done].
    destruct (headerMCastEgr c) as [mc0|]; simpl in Hd; [rewrite (Hhm mc0 eq_refl) in Hd|];
      by apply elem_of_nil in Hd.
Qed.

(** Nothing the policy refuses leaves the worker. Over any run of datagrams
    and ticks, interleaved with any changes the other goroutines make to the
    shared group registry and tracker, whatever the network and the clocks do,
    every buffer the unicast sink sent is the (whole or stripped) wire form of
    a block frame, of a subtree data frame, or of a data frame that the filter
    allows in one of the states its registry was in and, when verification is
    on, whose payload double-hashes to its TxID, whether it came in one
    datagram or was reassembled; the multicast sink only ever sends such data
    frames, and the two header sinks only the headers of announced blocks. *)
Theorem outputs_are_admitted m ops c w' :
  fragments_typed -> Forall wop_ok ops -> fresh_sinks c ->
  worker_run ops (mkWorker c (Some (worker_buffer (verifyPayloadHash c) m))) = Some w' ->
  let Reg := fun r => r = groups_of (filt c) \/ WGroups r ∈ ops in
  Forall (output c Reg (stripHeader (egr (core w')))) (sent (egr (core w'))) /\
  (forall mc, mcastEgr (core w') = Some mc ->
    Forall (fun d => data_output c Reg (m_stripHeader mc) d.2) (m_sent mc)) /\
  sends_headers (core w').
Proof.
  intros Hft Hops Hs Hrun.
  destruct (run_sends m ops c w' Hft Hops Hs Hrun) as [[_ _ _ H4 H5 _ _] Hh].
  split; [done|]. split; [|done]. intros mc Hmc. apply H5, Hmc.
Qed.

(** What the handlers leave alone. *)
Lemma unicast_frame send c :
  let c' := unicast send c in
  tracker c' = tracker c /\ mcastEgr c' = mcastEgr c /\ dedupSet c' = dedupSet c /\ env c' = env c.
Proof. unfold unicast. by destruct (send (egr c)) as [[err|] s]. Qed.

Lemma multicast_frame raw f g c :
  let c' := multicast raw f g c in
  tracker c' = tracker c /\ egr c' = egr c /\ dedupSet c' = dedupSet c /\ env c' = env c.
Proof.
  unfold multicast. destruct (mcastEgr c); [|done]. unfold MCSend, SendToGroup.
  by destruct (io_mcast (env c)).
Qed.

(** ** What the worker does to the gap accounts

    The handlers reach the tracker only through [track], and the recorder
    through neutral counters besides; a predicate on both that [Observe] keeps
    is kept by a whole run. *)
Definition frames_typed : Prop :=
  forall raw, Forall is_byte raw ->
    (forall f, DecodeFrame raw = Some f -> 0 <= SeqNum f < 2 ^ 64) /\
    (forall bf, DecodeBlock raw = Some bf -> 0 <= bf_SeqNum bf < 2 ^ 64) /\
    (forall sf, DecodeSubtreeData raw = Some sf -> 0 <= sf_SeqNum sf < 2 ^ 64).

Section Tracking.
Context (TQ : option Tracker -> option Recorder -> Prop) (Panic : Prop) (Seq : Z -> Prop).
Context (Moves : (Tracker -> Tracker) -> Prop).
Context (seq_range : forall s, 0 <= s < 2 ^ 64 -> Seq s).
Context (seq_data : forall raw f, Forall is_byte raw -> DecodeFrame raw = Some f -> Seq (SeqNum f)).
Context (seq_block : forall raw bf,
  Forall is_byte raw -> DecodeBlock raw = Some bf -> Seq (bf_SeqNum bf)).
Context (seq_subtree : forall raw sf,
  Forall is_byte raw -> DecodeSubtreeData raw = Some sf -> Seq (sf_SeqNum sf)).
Context (TQ_emit : forall t r mt, neutral mt -> TQ t r -> TQ t (with_rec r mt)).
Context (TQ_observe : forall now rnd g sid hk seq t r, Seq seq -> TQ (Some t) r ->
  match Nack.Observe now rnd g sid hk seq (with_flows t (flows t) r) with
  | Some t' => TQ (Some t') (rec t')
  | None => Panic
  end).
Context (TQ_move : forall (g : Tracker -> Tracker) t r, Moves g ->
  TQ (Some t) r -> TQ (Some (g (with_flows t (flows t) r))) (rec (g (with_flows t (flows t) r)))).

Definition tq (c : Core) : Prop := TQ (tracker c) (w_rec c).

Lemma emit_tq mt c : neutral mt -> tq c -> tq (emit mt c).
Proof. intros. by apply TQ_emit. Qed.

Lemma unicast_tq send c : tq c -> tq (unicast send c).
Proof.
  intros Hc. unfold unicast. destruct (send (egr c)) as [[err|] s]; (apply emit_tq; [is_neutral|done]).
Qed.

Lemma multicast_tq raw f g c : tq c -> tq (multicast raw f g c).
Proof.
  intros Hc. unfold multicast. destruct (mcastEgr c); [|done].
  destruct (MCSend _ _ _ _ _) as [[] mc]; (apply emit_tq; [is_neutral|done]).
Qed.

Lemma header_tq bf c : tq c -> tq (emitBlockHeader bf c).
Proof.
  intros Hc. unfold emitBlockHeader. destruct (negb _); [done|]. destruct (_ <? _)%nat; [done|].
  destruct (EncodeBlock _ _) as [buf|]; [|done].
  set (c1 := match headerEgr c with Some _ => _ | None => _ end).
  assert (tq c1) as Hc1.
  { subst c1. destruct (headerEgr c) as [s|]; [|done].
    destruct (SendRaw _ _ _) as [[err|] s']; (apply emit_tq; [is_neutral|done]). }
  destruct (headerMCastEgr c1) as [mc|]; [|done].
  destruct (SendToGroup _ _ _ _) as [[] mc']; (apply emit_tq; [is_neutral|done]).
Qed.

Lemma track_tq g sid hk seq c : Seq seq -> tq c -> holds tq Panic (track g sid hk seq c).
Proof.
  intros Hs Hc. unfold track. destruct (tracker c) as [t|] eqn:Et; [|exact Hc].
  unfold tq in Hc. rewrite Et in Hc.
  pose proof (TQ_observe (now_tracker (env c)) (rnd (env c)) g sid hk seq t (w_rec c) Hs Hc) as H.
  by destruct (Nack.Observe _ _ _ _ _ _ _).
Qed.

(** The end of every handler: the frame is tracked when it has a number. *)
Lemma track_if_tq (b : bool) g sid hk seq c :
  Seq seq -> tq c -> holds tq Panic (if b then track g sid hk seq c else Some c).
Proof. intros. destruct b; [by apply track_tq|done]. Qed.

Lemma data_tq raw c : Forall is_byte raw -> tq c -> holds tq Panic (process_data raw c).
Proof.
  intros Hb Hc. unfold process_data.
  destruct (DecodeFrame raw) as [f|] eqn:Hd; [|by apply emit_tq; [is_neutral|]].
  pose proof (seq_data raw f Hb Hd) as Hs.
  set (c1 := emit _ c). assert (tq c1) as Hc1 by (by apply emit_tq; [is_neutral|]).
  destruct (verifyPayloadHash c1 && _ && _); [by apply emit_tq; [is_neutral|]|].
  destruct (Allow _ _ _ _) as [[] reason]; [|by apply emit_tq; [is_neutral|]].
  destruct (dedup_check _ f c1) as [seen c2] eqn:Hdd.
  assert (tq c2) as Hc2.
  { revert Hdd. unfold dedup_check. destruct (dedupSet c1) as [ds|]; [|by intros [= <- <-]].
    destruct (is_v2 f && negb (SeqNum f =? 0)); [|by intros [= <- <-]].
    destruct (SeenAndAdd _ _ _) as [sn ds']. by intros [= <- <-]. }
  destruct seen; [by apply track_tq; [|apply emit_tq; [is_neutral|]]|].
  by apply track_if_tq; [|apply multicast_tq, unicast_tq].
Qed.

Lemma forward_block_tq raw bf c :
  Seq (bf_SeqNum bf) -> tq c -> holds tq Panic (forward_block raw bf c).
Proof.
  intros Hs Hc. unfold forward_block. apply track_if_tq; [done|].
  destruct (has_header_egress _); [apply header_tq|]; by apply unicast_tq.
Qed.

Lemma forward_subtree_tq raw sf c :
  Seq (sf_SeqNum sf) -> tq c -> holds tq Panic (forward_subtree_data raw sf c).
Proof. intros Hs Hc. by apply track_if_tq; [|apply unicast_tq]. Qed.

Lemma block_tq raw c : Forall is_byte raw -> tq c -> holds tq Panic (processBlockFrame raw c).
Proof.
  intros Hb Hc. unfold processBlockFrame.
  destruct (DecodeBlock raw) eqn:E; [|by apply emit_tq; [is_neutral|]].
  by apply forward_block_tq; [eapply seq_block|apply emit_tq; [is_neutral|]].
Qed.

Lemma subtree_tq raw c : Forall is_byte raw -> tq c -> holds tq Panic (processSubtreeDataFrame raw c).
Proof.
  intros Hb Hc. unfold processSubtreeDataFrame.
  destruct (DecodeSubtreeData raw) eqn:E; [|by apply emit_tq; [is_neutral|]].
  by apply forward_subtree_tq; [eapply seq_subtree|apply emit_tq; [is_neutral|]].
Qed.

Lemma deliver_tq p f c :
  0 <= SeqNum f < 2 ^ 64 -> tq c -> holds tq Panic (DeliverReassembled p f c).
Proof.
  intros Hs Hc. unfold DeliverReassembled.
  set (c1 := emit ReassemblyCompleted c). assert (tq c1) as Hc1 by (by apply emit_tq; [is_neutral|]).
  destruct (Allow _ _ _ _) as [[] reason]; [|by apply emit_tq; [is_neutral|]].
  set (c2 := emit _ c1). assert (tq c2) as Hc2 by (by apply emit_tq; [is_neutral|]).
  destruct (EncodeFrame f _) as [raw|]; [|exact Hc2].
  by apply track_if_tq; [apply seq_range|apply multicast_tq, unicast_tq].
Qed.

Lemma deliver_block_tq bf c :
  0 <= bf_SeqNum bf < 2 ^ 64 -> tq c ->
  holds tq Panic (DeliverReassembledBlock (bf_Payload bf) bf c).
Proof.
  intros Hs Hc. unfold DeliverReassembledBlock.
  destruct (EncodeBlock bf _); [|by apply emit_tq; [is_neutral|]].
  by apply forward_block_tq; [apply seq_range|do 2 (apply emit_tq; [is_neutral|])].
Qed.

Lemma deliver_subtree_tq sf c :
  0 <= sf_SeqNum sf < 2 ^ 64 -> tq c ->
  holds tq Panic (DeliverReassembledSubtreeData (sf_Payload sf) sf c).
Proof.
  intros Hs Hc. unfold DeliverReassembledSubtreeData.
  destruct (EncodeSubtreeData sf _); [|by apply emit_tq; [is_neutral|]].
  by apply forward_subtree_tq; [apply seq_range|do 2 (apply emit_tq; [is_neutral|])].
Qed.

Lemma move_tq g c : Moves g -> tq c -> tq (move_tracker g c).
Proof.
  intros Hg Hc. unfold move_tracker. destruct (tracker c) as [t|] eqn:Et; [|done].
  unfold tq in *. rewrite Et in Hc. by apply TQ_move.
Qed.

Lemma run_tq_from v m ops w :
  fragments_typed -> Forall wop_ok ops -> (forall g, WTrack g ∈ ops -> Moves g) ->
  worker_inv tq v m w ->
  match worker_run ops w with
  | Some w' => worker_inv tq v m w'
  | None => Panic
  end.
Proof.
  intros Hft Hops Hmv Hw.
  apply (worker_run_inv tq Panic (fun _ => True) Moves (Forall is_byte) v m); try done.
  - exact (fun c mt H => emit_tq mt c H).
  - exact move_tq.
  - exact data_tq.
  - intros. by apply block_tq.
  - intros. by apply subtree_tq.
  - intros. by apply deliver_tq.
  - exact deliver_block_tq.
  - exact deliver_subtree_tq.
Qed.

Lemma run_tq v m ops c :
  (forall g, (forall t, rtc step t (g t)) -> Moves g) ->
  fragments_typed -> Forall wop_ok ops -> tq c ->
  match worker_run ops (mkWorker c (Some (worker_buffer v m))) with
  | Some w' => worker_inv tq v m w'
  | None => Panic
  end.
Proof.
  intros Hmv Hft Hops Hc. apply run_tq_from; [done..| |].
  { intros g Hg. apply Hmv. rewrite Forall_forall in Hops. by apply (Hops (WTrack g)). }
  split; [done|].
  intros b [= <-]. apply worker_buffer_inv.
Qed.
End Tracking.

(** ** No crash *)

Lemma Observe_total now rnd g sid hk seq t :
  0 < i64 (JitterMax (cfg t) + 1) ->
  exists t', Nack.Observe now rnd g sid hk seq t = Some t' /\ cfg t' = cfg t.
Proof.
  intros Hj. unfold Nack.Observe. destruct (seq =? 0); [by exists t|].
  set (fs := default _ _). cbn zeta. set (fs0 := mkFlow _ _ _ _ _ _).
  assert (is_Some (observe_flow (cfg t) now rnd g sid hk seq fs0 (rec t))) as [[fs' r'] ->].
  { unfold observe_flow. destruct (auto_fill seq fs0 (rec t)) as [f1 r1].
    destruct (_ =? 0); [done|]. destruct (_ <=? _); [by case_match|].
    destruct (_ =? _); [done|].
    destruct (gap_loop_total (cfg t) now rnd hk g sid (flowType f1)
      (Z.to_nat (seq - (lastSeqNum f1 + 1))) (lastSeqNum f1 + 1) (pending f1) r1 Hj)
      as [[p r2] ->]. done. }
  simpl. by eexists.
Qed.

Definition jitter_ok (c : Core) : Prop :=
  forall t, tracker c = Some t -> 0 < i64 (JitterMax (cfg t) + 1).

Lemma run_total v m ops c :
  fragments_typed -> Forall wop_ok ops -> jitter_ok c ->
  match worker_run ops (mkWorker c (Some (worker_buffer v m))) with
  | Some w' => worker_inv jitter_ok v m w'
  | None => False
  end.
Proof.
  apply (run_tq (fun t _ => forall t0, t = Some t0 -> 0 < i64 (JitterMax (cfg t0) + 1))
    False (fun _ => True) (fun g => forall t, rtc step t (g t))); try done.
  - intros now rnd g sid hk seq t r _ Hj.
    destruct (Observe_total now rnd g sid hk seq (with_flows t (flows t) r)) as (t' & -> & Hcfg).
    { exact (Hj t eq_refl). }
    intros t0 [= <-]. rewrite Hcfg. exact (Hj t eq_refl).
  - intros g t r Hg Hj t0 [= <-].
    destruct (steps_keep _ _ (Hg (with_flows t (flows t) r))) as [-> _]. exact (Hj t eq_refl).
Qed.

(** No datagram crashes the worker. When the jitter bound is not negative
    (nor the largest int64), any run of datagrams and ticks, interleaved with
    any steps of the goroutines that share its tracker and group registry, ends
    in a state: whatever arrives, from a single frame to the completion of a
    reassembly, no handler and no callback panics. *)
Theorem worker_never_panics v m ops c :
  fragments_typed -> Forall wop_ok ops -> jitter_ok c ->
  exists w', worker_run ops (mkWorker c (Some (worker_buffer v m))) = Some w' /\
    jitter_ok (core w') /\ exists b, reassemBuf w' = Some b /\ buf_ok b.
Proof.
  intros Hft Hops Hc. pose proof (run_total v m ops c Hft Hops Hc) as Hinv.
  set (w := mkWorker c _) in *.
  destruct (worker_run ops w) as [w'|] eqn:Hrun; [|done]. destruct Hinv as [Hj Hb].
  exists w'. split_and!; [done..|].
  destruct (worker_run_buffer ops w w' (worker_buffer v m) eq_refl Hrun) as [b Hbw].
  exists b. split; [done|]. by apply Hb.
Qed.

(** ** The accounts of the gaps *)

(** The tracker, with the recorder it shares with the worker. *)
Definition accounts_ok (t : option Tracker) (r : option Recorder) : Prop :=
  exists t0 r0, t = Some t0 /\ r = Some r0 /\
    let t1 := with_flows t0 (flows t0) (Some r0) in tracker_ok t1 /\ NackSteps.balance t1 = 0.

Lemma accounts_ext t t' r :
  tracker_ok t' -> balanced t t' -> rec t = Some r -> NackSteps.balance t = 0 ->
  accounts_ok (Some t') (rec t').
Proof.
  intros Hok [Hb Hh] Hr H0. rewrite Hr in Hh. destruct (rec t') as [r'|] eqn:E; [|done].
  exists t', r'. split; [done|]. split; [done|]. split.
  - by apply (tracker_ok_ext t').
  - rewrite <- H0, <- Hb. unfold NackSteps.balance. simpl. by rewrite E.
Qed.

Lemma run_accounts v m ops c :
  fragments_typed -> frames_typed -> Forall wop_ok ops -> accounts_ok (tracker c) (w_rec c) ->
  match worker_run ops (mkWorker c (Some (worker_buffer v m))) with
  | Some w' => worker_inv (tq accounts_ok) v m w'
  | None => True
  end.
Proof.
  intros Hft Hty. apply (run_tq accounts_ok True (fun s => 0 <= s < 2 ^ 64) (fun g => forall t, rtc step t (g t))); try done.
  1-3: intros raw f Hb; apply Hty, Hb.
  - intros t r mt Hm (t0 & r0 & -> & -> & Hok & Hb). exists t0, (mt r0).
    cbn zeta. split_and!; [done|done|by apply (tracker_ok_ext (with_flows t0 (flows t0) (Some r0)))|].
    rewrite <- Hb. unfold NackSteps.balance. cbn [rec with_flows flows]. by rewrite (proj1 (Hm r0)).
  - intros now rnd g sid hk seq t r Hs (t0 & r0 & [= <-] & -> & Hok & Hb).
    destruct (Nack.Observe _ _ _ _ _ _ _) as [t'|] eqn:Ho; [|done].
    destruct (Observe_step_ok _ _ _ _ _ _ _ _ Hs Hok Ho) as [Hok' Hbal].
    by apply (accounts_ext (with_flows t (flows t) (Some r0)) t' r0).
  - intros g t r Hg (t0 & r0 & [= <-] & -> & Hok & Hb).
    destruct (reachable_pres _ _ Hok (Hg _)) as [Hok' Hbal].
    by apply (accounts_ext (with_flows t (flows t) (Some r0)) _ r0).
Qed.

(** No gap a worker meets is lost from the accounts. A worker starts with a
    new tracker and recorder; over any run, in which other goroutines fill,
    sweep and request at will, whenever it does not stop, the gaps ever counted
    as detected are those suppressed, those given up, and those still pending
    in the tracker: the receive path and the retry path agree. *)
Theorem worker_gap_accounting v m ops c t0 n w' :
  fragments_typed -> frames_typed -> Forall wop_ok ops ->
  tracker c = Some t0 -> flows t0 = ∅ -> nackQueue t0 = [] -> flights t0 = [] ->
  w_rec c = Some (Metrics.New n) ->
  worker_run ops (mkWorker c (Some (worker_buffer v m))) = Some w' ->
  exists t r, tracker (core w') = Some t /\ w_rec (core w') = Some r /\
    value gapsDetected r = value gapsSuppressed r + value nacksUnrecovered r + PendingGaps t.
Proof.
  intros Hft Hty Hops Ht Hf Hq Hl Hr Hrun.
  pose proof (run_accounts v m ops c Hft Hty Hops) as Hinv. rewrite Hrun, Ht, Hr in Hinv.
  destruct Hinv as [(t & r & Et & Er & _ & Hb) _].
  { exists t0, (Metrics.New n). cbn zeta. split_and!; [done|done| |].
    - split; simpl; rewrite ?Hf, ?Hq, ?Hl; simpl; [|lia..]. intros hk fs H. by rewrite lookup_empty in H.
    - unfold NackSteps.balance. simpl. by rewrite Hf. }
  exists t, r. split_and!; [done..|]. change (PendingGaps t) with (gaps_in (flows t)).
  unfold NackSteps.balance, net, has in Hb. simpl in Hb. lia.
Qed.
End Runs.
