(* ===== verification/Fragmented.v ===== *)
(** A fragmented transaction fares like the same transaction in one datagram:
    the fragments may arrive in any order, duplicated, mixed with whatever else
    the worker handles; the datagram that completes the message does to the
    sinks and the gap tracker what the whole frame would have done. *)
From Stdlib Require Import ZArith Lia.
From S2P Require Import Prelude Sha256 Frame FrameExample Metrics Net Reassembly.
From S2P Require Import ReassemblyProps Dedup SubtreeGroup Filter Nack NackSteps Egress.
From S2P Require Import Listener ListenerProps.

(** ** The worker but for what it counts

    [erase] forgets the recorder, the tracker's pointer to it, and the duplicate
    set; everything that decides or carries output stays. *)
Section Alike.
Context `{FL : FrameLib}.

Definition forget (t : Tracker) : Tracker := with_flows t (flows t) None.

Definition erase (c : Core) : Core :=
  mkCore (env c) (id c) (iface c) (filt c) (egr c) (mcastEgr c) (headerEgr c)
    (headerMCastEgr c) (forget <$> tracker c) None (verifyPayloadHash c) None.

Definition alike (c c' : Core) : Prop := erase c = erase c'.

#[export] Instance alike_equiv : Equivalence alike.
Proof. unfold alike. split; congruence. Qed.

Lemma alike_emit m c : alike (emit m c) c.
Proof. done. Qed.

Lemma alike_dedup s c : alike (SetEgressDedup s c) c.
Proof. done. Qed.

#[export] Instance emit_proper m : Proper (alike ==> alike) (emit m).
Proof. intros c c' H. exact H. Qed.

#[export] Instance set_egr_proper : Proper (alike ==> eq ==> alike) set_egr.
Proof. intros [] [] [=] s ? <-. unfold alike, erase. simpl in *. congruence. Qed.

#[export] Instance set_mcast_proper : Proper (alike ==> eq ==> alike) set_mcast.
Proof. intros [] [] [=] s ? <-. unfold alike, erase. simpl in *. congruence. Qed.

#[export] Instance set_env_proper : Proper (alike ==> eq ==> alike) set_env.
Proof. intros [] [] [=] s ? <-. unfold alike, erase. simpl in *. congruence. Qed.

Lemma alike_fields c c' :
  alike c c' ->
  env c = env c' /\ filt c = filt c' /\ egr c = egr c' /\ mcastEgr c = mcastEgr c' /\
  verifyPayloadHash c = verifyPayloadHash c' /\ forget <$> tracker c = forget <$> tracker c'.
Proof. intros H. injection H as ?????????. by split_and!. Qed.

#[export] Instance unicast_proper send : Proper (alike ==> alike) (unicast send).
Proof.
  intros c c' H. destruct (alike_fields _ _ H) as (_ & _ & E & _). unfold unicast. rewrite E.
  destruct (send (egr c')) as [[err|] s]; by rewrite !alike_emit, H.
Qed.

#[export] Instance multicast_proper raw f g : Proper (alike ==> alike) (multicast raw f g).
Proof.
  intros c c' H. destruct (alike_fields _ _ H) as (Ee & _ & _ & E & _). unfold multicast.
  rewrite E, Ee. destruct (mcastEgr c') as [m|]; [|exact H].
  destruct (MCSend _ _ _ _ m) as [[] m']; by rewrite !alike_emit, H.
Qed.

(** The gap tracker's decisions do not depend on the recorder. *)
Lemma auto_fill_rec seq fs r r' : (auto_fill seq fs r).1 = (auto_fill seq fs r').1.
Proof. unfold auto_fill. by destruct (pending fs !! seq). Qed.

Lemma gap_loop_rec c now rnd hk g sid label n missing p r r' :
  fst <$> gap_loop c now rnd hk g sid label n missing p r =
  fst <$> gap_loop c now rnd hk g sid label n missing p r'.
Proof.
  revert missing p r r'. induction n as [|n IH]; intros missing p r r'; [done|]. simpl.
  destruct (p !! missing); [apply IH|]. destruct (Int64N _ _); [apply IH|done].
Qed.

Lemma observe_flow_rec c now rnd g sid hk seq fs r r' :
  fst <$> observe_flow c now rnd g sid hk seq fs r =
  fst <$> observe_flow c now rnd g sid hk seq fs r'.
Proof.
  unfold observe_flow. pose proof (auto_fill_rec seq fs r r') as E.
  destruct (auto_fill seq fs r) as [f1 r1], (auto_fill seq fs r') as [f2 r2].
  cbn [fst] in E. subst f2. destruct (_ =? 0); [done|].
  destruct (seq <=? _); [by destruct (_ && _)|]. destruct (seq =? _); [done|].
  match goal with |- fst <$> (gap_loop ?c ?now ?rnd ?hk ?g ?sid ?lb ?n ?m ?p _ ≫= _) = _ =>
    pose proof (gap_loop_rec c now rnd hk g sid lb n m p r1 r2) as E;
    destruct (gap_loop c now rnd hk g sid lb n m p r1) as [[]|],
             (gap_loop c now rnd hk g sid lb n m p r2) as [[]|]; by simplify_eq/=
  end.
Qed.

Lemma Observe_rec now rnd g sid hk seq t t' :
  forget t = forget t' ->
  forget <$> Nack.Observe now rnd g sid hk seq t =
  forget <$> Nack.Observe now rnd g sid hk seq t'.
Proof.
  destruct t, t'. unfold forget, with_flows. simpl. intros [= <- <- <- <- <- <- <- <-].
  unfold Nack.Observe. cbn [Nack.flows Nack.cfg Nack.rec].
  destruct (seq =? 0); [done|]. cbn zeta.
  match goal with |- context [observe_flow ?c ?n ?rn ?g ?s ?h ?q ?fs ?r] =>
    match goal with |- context [observe_flow c n rn g s h q fs ?r'] =>
      assert_fails (constr_eq r r'); pose proof (observe_flow_rec c n rn g s h q fs r r') as E;
      destruct (observe_flow c n rn g s h q fs r) as [[]|],
               (observe_flow c n rn g s h q fs r') as [[]|]; by simplify_eq/=
    end
  end.
Qed.

Lemma set_tracker_alike c c' t t' r r' :
  alike c c' -> forget t = forget t' -> alike (set_tracker c t r) (set_tracker c' t' r').
Proof.
  intros H E. injection H as ?????????. unfold alike, erase. cbn. congruence.
Qed.

Lemma track_alike g sid hk seq c c' :
  alike c c' -> erase <$> track g sid hk seq c = erase <$> track g sid hk seq c'.
Proof.
  intros H. destruct (alike_fields _ _ H) as (Ee & _ & _ & _ & _ & Et). unfold track.
  rewrite Ee. destruct (tracker c) as [t|], (tracker c') as [t'|]; [|done..|by simpl; f_equal].
  assert (forget t = forget t') as E by (cbn in Et; congruence).
  change (forget t) with (forget (with_flows t (flows t) (w_rec c))) in E.
  change (forget t') with (forget (with_flows t' (flows t') (w_rec c'))) in E.
  apply (Observe_rec (now_tracker (env c')) (rnd (env c')) g sid hk seq) in E.
  destruct (Nack.Observe _ _ _ _ _ _ (with_flows t _ _)) as [t1|],
           (Nack.Observe _ _ _ _ _ _ (with_flows t' _ _)) as [t2|]; try done.
  cbn in *. f_equal. apply set_tracker_alike; [done|congruence].
Qed.

(** ** One frame, both ways *)

Lemma dedup_check_alike g f c : alike (dedup_check g f c).2 c.
Proof.
  unfold dedup_check. destruct (dedupSet c); [|done]. destruct (_ && _); [|done].
  by destruct (SeenAndAdd _ _ _).
Qed.

Lemma dedup_check_emit g f m c : (dedup_check g f (emit m c)).1 = (dedup_check g f c).1.
Proof.
  unfold dedup_check. change (dedupSet (emit m c)) with (dedupSet c).
  destruct (dedupSet c); [|done]. destruct (_ && _); [|done].
  change (env (emit m c)) with (env c). by destruct (SeenAndAdd _ _ _).
Qed.

(** A data frame the worker reassembled is handled like its encoding received
    as one datagram, unless the hash check or the duplicate check, which the
    reassembled frame does not pass through, would stop the latter. *)
Lemma deliver_like_inline raw f c c' :
  alike c c' -> is_v2 f = true ->
  EncodeFrame f (zeros (HeaderSize + length (Payload f))) = Some raw ->
  DecodeFrame raw = Some f ->
  (verifyPayloadHash c' = true -> sha256d (Payload f) = TxID f) ->
  (dedup_check (GroupIndex (TxID f)) f c').1 = false ->
  erase <$> DeliverReassembled (Payload f) f c = erase <$> process_data raw c'.
Proof.
  intros H Hv He Hd Hh Hs. destruct (alike_fields _ _ H) as (Ee & Ef & Eg & Em & Ev & Et).
  unfold DeliverReassembled, process_data. rewrite Hd, He, Hv.
  change (verifyPayloadHash (emit _ c')) with (verifyPayloadHash c').
  change (clock (env (emit _ c))) with (clock (env c)). change (filt (emit _ c)) with (filt c).
  change (clock (env (emit _ c'))) with (clock (env c')). change (filt (emit _ c')) with (filt c').
  assert (verifyPayloadHash c' && true && negb (bool_decide (sha256d (Payload f) = TxID f)) = false)
    as ->.
  { destruct (verifyPayloadHash c'); [|done]. by rewrite bool_decide_eq_true_2 by auto. }
  rewrite Ee, Ef. destruct (Allow _ _ f (filt c')) as [[] reason]; [|cbn; f_equal; exact H].
  set (c1 := emit _ (emit _ c)). set (c1' := emit _ c').
  assert (alike c1 c1') as H1 by exact H. clearbody c1.
  pose proof (dedup_check_alike (GroupIndex (TxID f)) f c1') as Ha.
  pose proof (dedup_check_emit (GroupIndex (TxID f)) f
    (FrameReceived (id c') (iface c') "brc124") c') as Hs'. fold c1' in Hs'. rewrite Hs in Hs'.
  destruct (dedup_check _ f c1') as [seen c2]. cbn [fst snd] in *. subst seen.
  rewrite <- H1 in Ha. clear H1 c1'. symmetry in Ha.
  destruct (alike_fields _ _ Ha) as (E1 & _). rewrite E1. cbn [andb].
  destruct (negb (SeqNum f =? 0)); [apply track_alike|cbn; f_equal; change (alike
    (multicast raw f (GroupIndex (TxID f)) (unicast (Send (io_egr (env c2)) raw f) c1))
    (multicast raw f (GroupIndex (TxID f)) (unicast (Send (io_egr (env c2)) raw f) c2)))];
    by rewrite Ha.
Qed.
End Alike.

(** ** Buffers with different owners

    What a buffer holds does not depend on who it calls back. *)
Section Shape.
Context `{FL : FrameLib} {W W' : Type}.

Definition shape {W} (b : Buffer W) := (slots b, insertOrder b, maxSlots b, Reassembly.ttl b).

Definition shadow (b : Buffer W) (b' : Buffer W') : Prop := shape b = shape b'.

Lemma shadow_fields b b' :
  shadow b b' <-> slots b = slots b' /\ insertOrder b = insertOrder b' /\
    maxSlots b = maxSlots b' /\ Reassembly.ttl b = Reassembly.ttl b'.
Proof.
  unfold shadow, shape. split; [by intros [= -> -> -> ->]|]. by intros (-> & -> & -> & ->).
Qed.

Lemma shadow_slots b b' m o : shadow b b' -> shadow (with_slots b m o) (with_slots b' m o).
Proof. rewrite !shadow_fields. by intros (_ & _ & ? & ?). Qed.

Lemma evictExpired_shadow now b b' w w' :
  shadow b b' -> shadow (evictExpired now b w).1 (evictExpired now b' w').1.
Proof.
  intros H. rewrite !evictExpired_survivors. cbn [fst]. destruct (proj1 (shadow_fields _ _) H) as (E1 & E2 & _).
  rewrite E1, E2. by apply shadow_slots.
Qed.

Lemma add_fragment_shadow ff s b b' w w' :
  shadow b b' -> shadow (add_fragment ff s b w).1 (add_fragment ff s b' w').1.
Proof.
  intros H. unfold add_fragment. destruct (_ || _); [done|].
  destruct (frags s !! _) as [[]|]; [done| |done]. destruct (proj1 (shadow_fields _ _) H) as (E1 & E2 & _).
  rewrite E1, E2. destruct (_ <? _); [by apply shadow_slots|].
  rewrite !complete_fst. by apply shadow_slots, shadow_slots.
Qed.

Lemma Observe_shadow now ff b b' w w' :
  shadow b b' -> shadow (Reassembly.Observe now ff b w).1 (Reassembly.Observe now ff b' w').1.
Proof.
  intros H. unfold Reassembly.Observe. pose proof (evictExpired_shadow now b b' w w' H) as H1.
  destruct (evictExpired now b w) as [b1 w1], (evictExpired now b' w') as [b1' w1'].
  cbn [fst] in H1.
  destruct (proj1 (shadow_fields _ _) H1) as (E1 & E2 & E3 & E4). rewrite E1.
  destruct (slots b1' !! ff_TxID ff); [by apply add_fragment_shadow|].
  unfold open_slot, evictOldest. destruct (bad_metadata ff); [done|]. rewrite E1, E2, E3.
  destruct (_ <=? _); [destruct (oldest_live _ _) as [[]|]|];
    cbn [slots insertOrder Reassembly.ttl with_slots]; rewrite ?E1, ?E2, ?E4;
    by apply add_fragment_shadow; repeat apply shadow_slots.
Qed.

Lemma run_op_shadow o b b' w w' :
  shadow b b' -> shadow (Reassembly.run_op (b, w) o).1 (Reassembly.run_op (b', w') o).1.
Proof.
  intros H. destruct o; [by apply Observe_shadow|by apply evictExpired_shadow|by apply shadow_slots].
Qed.

Lemma shadow_ok b b' : shadow b b' -> buf_ok b -> buf_ok b'.
Proof.
  intros (E1 & E2 & E3 & E4)%shadow_fields [H1 H2 H3 H4 H5]. rewrite E1, E2, E3 in *. by split.
Qed.
End Shape.

(** ** The buffer of a run *)

Section Run.
Context `{FL : FrameLib}.

(** What an event of the worker is to its buffer. *)
Definition buffer_op (o : WOp) : option Reassembly.Op :=
  match o with
  | WData e raw =>
      if IsBlockFrame raw || IsSubtreeDataFrame raw || negb (IsFragment raw) then None
      else OObserve (now_buffer e) <$> DecodeFragment raw
  | WTick now => Some (OTick now)
  | _ => None
  end.

Definition observed (o : Reassembly.Op) : option (Z * FragFrame) :=
  match o with OObserve now ff => Some (now, ff) | _ => None end.

(** The fragments a run shows its buffer, with the clock readings. *)
Definition observations (ops : list WOp) : list (Z * FragFrame) :=
  omap observed (omap buffer_op ops).

(** A fragment reaches the buffer, with the worker as its owner. *)
Lemma processFrame_fragment e raw w b ff :
  reassemBuf w = Some b -> buffer_op (WData e raw) = Some (OObserve (now_buffer e) ff) ->
  processFrame e raw w =
    let q := Reassembly.Observe (now_buffer e) ff b (Some (set_env (core w) e)) in
    (fun c => mkWorker c (Some q.1)) <$> q.2.
Proof.
  intros Hb. unfold buffer_op, processFrame.
  destruct (IsBlockFrame raw); [done|]. destruct (IsSubtreeDataFrame raw); [done|].
  destruct (IsFragment raw); [|done]. rewrite Hb.
  destruct (DecodeFragment raw); [|done]. intros [= ->]. cbn zeta.
  by destruct (Reassembly.Observe _ _ _ _).
Qed.

(** The buffer after an event is the buffer after the operation it stands for,
    whoever owns the buffer that follows along. *)
Lemma run_wop_shadow {W} o w w' b (b' : Buffer W) (x : W) :
  reassemBuf w = Some b -> shadow b b' -> run_wop o w = Some w' ->
  exists b1, reassemBuf w' = Some b1 /\ same_config b b1 /\
    shadow b1 (Reassembly.run (option_list (buffer_op o)) b' x).1.
Proof.
  intros Hb Hs.
  assert (forall c, with_core w <$> c = Some w' -> exists b1, reassemBuf w' = Some b1 /\
    same_config b b1 /\ shadow b1 (Reassembly.run [] b' x).1) as Hsame.
  { intros c (c' & _ & ->)%fmap_Some. exists b. unfold with_core. rewrite Hb.
    split_and!; [done|apply same_config_refl|done]. }
  destruct o as [e raw|now|r|g|mt]; cbn [run_wop];
    [| |intros H; exact (Hsame (Some _) H)..].
  - destruct (buffer_op (WData e raw)) as [o|] eqn:Eo.
    + pose proof Eo as Eo'. unfold buffer_op in Eo'. destruct (_ || _ || _); [done|].
      destruct (DecodeFragment raw) as [ff|]; [|done]. injection Eo' as <-.
      rewrite (processFrame_fragment e raw w b ff Hb Eo).
      intros (c & Hc & ->)%fmap_Some. eexists. split; [done|].
      split; [apply Observe_config|by apply Observe_shadow].
    + cbn [option_list]. revert Eo. unfold buffer_op, processFrame.
      destruct (IsBlockFrame raw); [by intros _ H; apply Hsame in H|].
      destruct (IsSubtreeDataFrame raw); [by intros _ H; apply Hsame in H|].
      destruct (IsFragment raw); [|by intros _ H; apply Hsame in H].
      rewrite Hb. destruct (DecodeFragment raw); [done|]. intros _ H. exact (Hsame (Some _) H).
  - unfold buffer_tick. rewrite Hb.
    pose proof (evictExpired_shadow now b b' (Some (core w)) x Hs) as H1.
    pose proof (evictExpired_config now b (Some (core w))) as H2. unfold Tick in *.
    destruct (evictExpired now b (Some (core w))) as [b1 [c|]]; [|done]. intros [= <-].
    exists b1. by split_and!.
Qed.

Lemma worker_run_shadow {W} ops w w' b (b' : Buffer W) (x : W) :
  reassemBuf w = Some b -> shadow b b' -> worker_run ops w = Some w' ->
  exists b1, reassemBuf w' = Some b1 /\ same_config b b1 /\
    shadow b1 (Reassembly.run (omap buffer_op ops) b' x).1.
Proof.
  intros Hb Hs. revert w'. induction ops as [|o ops IH] using rev_ind.
  - intros w' [= <-]. exists b. split_and!; [done|apply same_config_refl|done].
  - intros w'. unfold worker_run. rewrite foldl_snoc. fold (worker_run ops w).
    intros (w1 & Hw1 & Ho)%bind_Some. destruct (IH w1 Hw1) as (b1 & Hb1 & Hc1 & Hs1).
    destruct (Reassembly.run (omap buffer_op ops) b' x) as [b1' x1] eqn:E.
    destruct (run_wop_shadow o w1 w' b1 b1' x1 Hb1 Hs1 Ho) as (b2 & Hb2 & Hc2 & Hs2).
    exists b2. split_and!; [done|by eapply same_config_trans|].
    rewrite omap_app. unfold Reassembly.run in *. rewrite foldl_app, E. simpl.
    by destruct (buffer_op o).
Qed.
End Run.

(** ** The message *)

Section Message.
Context `{FL : FrameLib} (T : bytes) (pieces : list bytes).

(** The fragments of the message are true to it, and everything that involves
    the buffer falls within one TTL of [t0]. *)
Definition punctual (t0 : Z) (o : Reassembly.Op) : Prop :=
  match o with
  | OObserve now ff =>
      frag_ok ff /\ fragment_of T pieces ff /\ t0 <= now <= t0 + Reassembly.DefaultTTL
  | OTick now => t0 <= now <= t0 + Reassembly.DefaultTTL
  | OPurge => False
  end.

Lemma punctual_past t0 ops :
  Forall (punctual t0) ops -> Forall (fun o : Z * FragFrame => t0 <= o.1) (omap observed ops).
Proof.
  induction 1 as [|[now ff|now|] ops Ho _ IH]; [constructor|constructor; [simpl in *; lia|done]|done..].
Qed.

(** A logging buffer with the limits of the worker's, to follow the message in. *)
Abbreviation logb v := (log_buffer Reassembly.DefaultMaxSlots Reassembly.DefaultTTL v).
Abbreviation tracked v := (tracking Reassembly.DefaultMaxSlots Reassembly.DefaultTTL v T pieces).

(** An expiry pass in between does not touch the message. *)
Lemma tracking_tick v t0 b0 w0 l b w now :
  tracked v b0 w0 l b w -> Forall (fun o : Z * FragFrame => t0 <= o.1) l ->
  t0 <= now <= t0 + Reassembly.DefaultTTL ->
  Z.of_nat (size (slots b0) + length l) < Reassembly.DefaultMaxSlots ->
  tracked v b0 w0 l (Tick now b w).1 (Tick now b w).2.
Proof.
  intros Ht Hp Hn Hr. set (other := mkFragFrame (0 :: T) [] 0 0 0 0 0 0 0 []).
  destruct (tracking_evict _ _ _ _ _ t0 _ _ _ (now, other) _ _ Ht) as [H _]; [|exact H].
  split; [unfold frag_ok; simpl; lia| |exact Hn|exact Hr|exact Hp].
  intros E. exfalso. by apply (f_equal length) in E; simpl in E; lia.
Qed.

Lemma tracking_ops v t0 b0 w0 ops i :
  buf_ok b0 -> same_config (logb v) b0 -> slots b0 !! T = None -> Forall (punctual t0) ops ->
  Z.of_nat (size (slots b0) + length (omap observed ops)) < Reassembly.DefaultMaxSlots ->
  K pieces < 65536 -> (i < length pieces)%nat -> i ∉ indices T (omap observed ops) ->
  tracked v b0 w0 (omap observed ops) (Reassembly.run ops b0 w0).1 (Reassembly.run ops b0 w0).2.
Proof.
  intros Hok Hlog Hnone. induction ops as [|o ops IH] using rev_ind; intros Hall Hroom HK Hi Hni.
  - split; simpl; try done; lia.
  - apply Forall_app in Hall as [Hall [Ho _]%Forall_cons]. pose proof (punctual_past _ _ Hall) as Hpast.
    rewrite omap_app in *. unfold Reassembly.run in *. rewrite foldl_app. cbn [foldl].
    destruct o as [now ff|now|]; [| |done].
    + change (omap observed [OObserve now ff]) with [(now, ff)] in *. rewrite length_app in Hroom.
      cbn [length] in Hroom. destruct Ho as (Hff & Hof & Hnow).
      assert (timely Reassembly.DefaultMaxSlots Reassembly.DefaultTTL v T pieces t0 b0
                (omap observed ops) (now, ff)) as Hti
        by (split; [done..| |exact Hpast]; change (maxSlots _) with Reassembly.DefaultMaxSlots; lia).
      assert (i ∉ indices T (omap observed ops)) as Hni'.
      { unfold indices, mine in *. rewrite filter_app, fmap_app in Hni. set_solver. }
      specialize (IH Hall ltac:(lia) HK Hi Hni'). destruct (decide (ff_TxID ff = T)) as [HT|HT].
      * by eapply (tracking_mine _ _ _ _ _ t0 b0 w0 _ (now, ff)).
      * by apply (tracking_other _ _ _ _ _ t0 b0 w0 _ (now, ff)).
    + change (omap observed [OTick now]) with (@nil (Z * FragFrame)) in *.
      rewrite app_nil_r in *. eapply tracking_tick; [by apply IH|done..].
Qed.

(** The observation that brings the last missing piece: after the expiry pass,
    and the opening of the slot when it is the only one, the buffer completes
    the slot that holds every piece. *)
Lemma Observe_completes {W} now ff l (b : Buffer W) (w : W) :
  buf_ok b ->
  slots b !! T = match mine T l with
                 | [] => None
                 | o1 :: _ => Some (slot_after T pieces (Reassembly.ttl b) o1 (indices T l))
                 end ->
  unexpired now (slots b) !! T = slots b !! T -> Z.of_nat (size (slots b)) < maxSlots b ->
  frag_ok ff -> fragment_of T pieces ff -> ff_TxID ff = T -> K pieces < 65536 ->
  Z.to_nat (ff_FragIndex ff) ∉ indices T l ->
  (forall i, (i < length pieces)%nat -> i ∈ indices T (l ++ [(now, ff)])) ->
  exists b1 w1,
    Reassembly.Observe now ff b w =
      complete (slot_after T pieces (Reassembly.ttl b) (first_of T l (now, ff))
                  (indices T l ++ [Z.to_nat (ff_FragIndex ff)])) b1 w1 /\
    same_config b b1 /\
    (forall P : W -> Prop, (forall w, P w -> P (call (onAbandoned b) w)) ->
       (forall w, P w -> P (call (onStarted b) w)) -> P w -> P w1).
Proof.
  intros Hok Hslot Hun Hroom Hff Hof HT HK Hnew Hall. rewrite indices_snoc in Hall by done.
  unfold Reassembly.Observe. rewrite evictExpired_eq by done.
  set (b1 := with_slots b (unexpired now (slots b)) _). set (w1 := Nat.iter _ _ w).
  assert (forall P : W -> Prop, (forall w, P w -> P (call (onAbandoned b) w)) -> P w -> P w1) as Hw1
    by (intros P Ha Hw; by apply call_iter_pres).
  rewrite HT. change (slots b1 !! T) with (unexpired now (slots b) !! T). rewrite Hun, Hslot.
  change (Reassembly.ttl b) with (Reassembly.ttl b1).
  unfold first_of, indices in *. destruct (mine T l) as [|o1 l'].
  - destruct (Hof HT) as (Htot & _ & Hbad).
    assert (Z.of_nat (size (slots b1)) < maxSlots b1) as Hroom1
      by (pose proof (unexpired_size now (slots b)); simpl; lia).
    rewrite open_slot_below by done. rewrite (fresh_slot_table T pieces) by done.
    set (b2 := with_slots b1 _ _). change (Reassembly.ttl b1) with (Reassembly.ttl b2).
    rewrite add_fragment_last by done. eexists _, _. split; [done|].
    split; [done|]. intros P Ha Hs Hw. by apply Hs, Hw1.
  - rewrite add_fragment_last by done. eexists _, _. split; [done|]. split; [done|].
    intros P Ha Hs Hw. by apply Hw1.
Qed.
(** The frame that was cut up, under the metadata of the fragment [ff]. *)
Definition message (ff : FragFrame) : Frame :=
  mkFrame FrameVerV2 T (ff_HashKey ff) (ff_SeqNum ff) (ff_SubtreeID ff) (mjoin pieces).

(** A buffer wired to its worker hands the full slot to [DeliverReassembled]. *)
Lemma complete_delivers v mk o l (b : Buffer WState) x :
  same_config (worker_buffer v mk) b -> (forall i, (i < length pieces)%nat -> i ∈ l) ->
  ff_OrigFrameVer o.2 <> FrameVerV4 -> ff_OrigFrameVer o.2 <> FrameVerV5 ->
  (v = true -> sha256d (mjoin pieces) = T) ->
  (complete (slot_after T pieces (Reassembly.ttl b) o l) b x).2 =
    (x ≫= DeliverReassembled (mjoin pieces) (message o.2)).
Proof.
  intros Hc Hall H4 H5 Hv. destruct (wired v mk b Hc) as (Hb & H1 & _).
  unfold complete. cbn [slot_after frags txID msgType hashKey seqNum subtreeID origFrameVer].
  rewrite table_full, assemble_full by done.
  rewrite (proj2 (Z.eqb_neq _ _) H4), (proj2 (Z.eqb_neq _ _) H5), Hb.
  assert (v && negb (bool_decide (sha256d (mjoin pieces) = T)) = false) as ->
    by (destruct v; [rewrite bool_decide_eq_true_2 by auto|]; done).
  cbn [onComplete removeSlot with_slots]. by rewrite H1.
Qed.

(** One datagram that carries the whole of a data frame. *)
Definition datagram_of (f : Frame) (raw : bytes) : Prop :=
  EncodeFrame f (zeros (HeaderSize + length (Payload f))) = Some raw /\
  DecodeFrame raw = Some f /\ IsBlockFrame raw = false /\ IsSubtreeDataFrame raw = false /\
  IsFragment raw = false.

Definition open_slots (w : Worker) : gmap bytes slot :=
  match reassemBuf w with Some b => slots b | None => ∅ end.

(** What a worker that holds all pieces but one does with the last. *)
Lemma last_piece v mk e last now ff l b w raw :
  reassemBuf w = Some b -> same_config (worker_buffer v mk) b -> buf_ok b ->
  slots b !! T = match mine T l with
                 | [] => None
                 | o1 :: _ => Some (slot_after T pieces (Reassembly.ttl b) o1 (indices T l))
                 end ->
  unexpired now (slots b) !! T = slots b !! T -> Z.of_nat (size (slots b)) < maxSlots b ->
  now = now_buffer e -> buffer_op (WData e last) = Some (OObserve now ff) ->
  frag_ok ff -> fragment_of T pieces ff -> ff_TxID ff = T ->
  Z.to_nat (ff_FragIndex ff) ∉ indices T l ->
  (forall i, (i < length pieces)%nat -> i ∈ indices T (l ++ [(now, ff)])) ->
  let first := (first_of T l (now, ff)).2 in
  ff_OrigFrameVer first <> FrameVerV4 -> ff_OrigFrameVer first <> FrameVerV5 ->
  (v = true \/ verifyPayloadHash (core w) = true -> sha256d (mjoin pieces) = T) ->
  datagram_of (message first) raw ->
  (dedup_check (GroupIndex T) (message first) (set_env (core w) e)).1 = false ->
  erase ∘ core <$> processFrame e last w = erase ∘ core <$> processFrame e raw w.
Proof.
  intros Hb Hc Hok Hslot Hun Hroom -> Hop Hff Hof HT Hnew Hall first H4 H5 Hv
    (He & Hd & N1 & N2 & N3) Hs.
  destruct (Hof HT) as (Htot & Hp & _). destruct Hff as (Hi & Ht & Hff).
  assert (K pieces < 65536) as HK by lia.
  set (c := set_env (core w) e) in *.
  destruct (Observe_completes (now_buffer e) ff l b (Some c) Hok Hslot Hun Hroom
    (conj Hi (conj Ht Hff)) Hof HT HK Hnew Hall) as (b1 & x & Hobs & Hc1 & Hx).
  rewrite (processFrame_fragment e last w b ff Hb Hop). cbn zeta. fold c. rewrite Hobs.
  destruct (Hx (fun x => exists c', x = Some c' /\ alike c' c)) as (c' & -> & Ha).
  { destruct (wired v mk b Hc) as (_ & _ & _ & _ & _ & -> & _). by intros ? (c' & -> & ?); exists (emit ReassemblyAbandoned c'). }
  { destruct (wired v mk b Hc) as (_ & _ & _ & _ & -> & _). by intros ? (c' & -> & ?); exists (emit ReassemblyStarted c'). }
  { by exists c. }
  rewrite indices_snoc in Hall by done.
  assert (Reassembly.ttl b = Reassembly.ttl b1) as -> by (by rewrite Hc1).
  rewrite (complete_delivers v mk) by (auto || by eapply same_config_trans).
  unfold processFrame. rewrite N1, N2, N3. fold c. fold first.
  pose proof (deliver_like_inline raw (message first) c' c Ha (Z.eqb_refl _) He Hd
    (fun E => Hv (or_intror E)) Hs) as E.
  change (Payload (message first)) with (mjoin pieces) in E. cbn [mbind option_bind].
  destruct (DeliverReassembled _ _ c') as [c1|], (process_data raw c) as [c2|]; done.
Qed.

(** C8: a fragmented transaction fares like the same transaction sent whole. A
    fresh worker runs on anything until a moment when it holds no fragment of
    the transaction, and from then on, within one TTL and with room in its
    buffer, on anything again, in which all pieces of the transaction but one
    arrive, in any order and any number of times. The datagram with the missing
    piece then does to the sinks, to the gap tracker and to the filter exactly
    what the one datagram with the whole frame, under the metadata of the
    fragment that came first, would do in its place; only the counters and the
    duplicate set, which a reassembled frame does not consult, may differ. *)
Theorem fragmented_like_inline mk ops0 ops t0 c w0 w e last ff raw :
  let v := verifyPayloadHash c in
  fragments_typed -> Forall wop_ok ops0 -> Forall wop_ok ops ->
  sent (egr c) = [] -> (forall mc, mcastEgr c = Some mc -> m_sent mc = []) ->
  worker_run ops0 (mkWorker c (Some (worker_buffer v mk))) = Some w0 ->
  worker_run ops w0 = Some w ->
  let l := observations ops in
  let now := now_buffer e in
  open_slots w0 !! T = None ->
  Z.of_nat (size (open_slots w0) + length l) < Reassembly.DefaultMaxSlots ->
  Forall (punctual t0) (omap buffer_op ops) -> punctual t0 (OObserve now ff) ->
  buffer_op (WData e last) = Some (OObserve now ff) ->
  ff_TxID ff = T -> Z.to_nat (ff_FragIndex ff) ∉ indices T l ->
  (forall i, (i < length pieces)%nat -> i ∈ indices T (l ++ [(now, ff)])) ->
  let first := (first_of T l (now, ff)).2 in
  ff_OrigFrameVer first <> FrameVerV4 -> ff_OrigFrameVer first <> FrameVerV5 ->
  (v = true -> sha256d (mjoin pieces) = T) ->
  datagram_of (message first) raw ->
  (dedup_check (GroupIndex T) (message first) (set_env (core w) e)).1 = false ->
  erase ∘ core <$> processFrame e last w = erase ∘ core <$> processFrame e raw w.
Proof.
  cbn zeta. intros Hft Hops0 Hops Hs Hm Hrun0 Hrun Hnone Hroom Hall (Hff & Hof & Hnow) Hop HT Hnew Hmiss
    H4 H5 Hv Hraw Hseen.
  destruct (run_keeps mk ops0 c w0 Hft Hops0 Hs Hm Hrun0) as [_ Hinv0].
  assert (worker_run (ops0 ++ ops) (mkWorker c (Some (worker_buffer (verifyPayloadHash c) mk))) = Some w)
    as Hrun' by (unfold worker_run in *; by rewrite foldl_app, Hrun0).
  assert (Forall wop_ok (ops0 ++ ops)) as Hops' by (by apply Forall_app).
  destruct (run_keeps mk (ops0 ++ ops) c w Hft Hops' Hs Hm Hrun') as [Hcore Hinv].
  destruct (worker_run_buffer ops0 (mkWorker c (Some (worker_buffer (verifyPayloadHash c) mk))) w0
    (worker_buffer (verifyPayloadHash c) mk) eq_refl Hrun0) as [b0 Hb0].
  destruct (Hinv0 b0 Hb0) as [Hok0 Hc0]. unfold open_slots in Hnone, Hroom. rewrite Hb0 in Hnone, Hroom.
  set (v := verifyPayloadHash c) in *. set (b0' := with_slots (logb v) (slots b0) (insertOrder b0)).
  assert (shadow b0 b0') as Hs0
    by (apply shadow_fields; rewrite Hc0; unfold worker_buffer; destruct mk; done).
  destruct (worker_run_shadow ops w0 w b0 b0' [] Hb0 Hs0 Hrun) as (b & Hb & _ & Hsh).
  destruct (Hof HT) as (Htot & Hp & _). pose proof Hff as (_ & Ht & _).
  pose proof (tracking_ops v t0 b0' [] (omap buffer_op ops) _ (shadow_ok _ _ Hs0 Hok0)
    (same_config_with_slots _ _ _ _ (same_config_refl _)) Hnone Hall Hroom ltac:(lia)
    (lookup_lt_Some _ _ _ Hp) Hnew) as Htr.
  set (bl := Reassembly.run _ b0' []) in *.
  destruct (proj1 (shadow_fields _ _) Hsh) as (E1 & _ & E3 & E4).
  assert (timely Reassembly.DefaultMaxSlots Reassembly.DefaultTTL v T pieces t0 b0' (observations ops)
    (now_buffer e, ff)) as Hti by (split; [done..|by apply punctual_past]).
  destruct (Hinv b Hb) as [Hok Hc].
  eapply (last_piece v mk e last (now_buffer e) ff (observations ops) b w raw); try done.
  - rewrite E1, E4. apply Htr.
  - rewrite E1. by apply (unexpired_tracked _ _ _ _ _ _ _ _ _ _ _ _ Htr Hti).
  - rewrite E1, E3. by apply (tracking_room _ _ _ _ _ _ _ _ _ _ _ _ Htr Hti).
  - rewrite (ci_verify _ _ _ Hcore). by intros [H|H]; apply Hv.
Qed.
End Message.
