(* ===== verification/Run.v ===== *)
(** [Worker.Run] of [listener/listener.go] from its set-up to its return: the
    receive loop with its error handling, and the readiness counter around it. *)
From Stdlib Require Import ZArith Lia.
From S2P Require Import Prelude Frame FrameExample Metrics Net Sockets Reassembly.
From S2P Require Import SubtreeGroup Filter Nack NackSteps Egress Listener ListenerProps.

Section Run.
Context `{FL : FrameLib}.

(** One round of the loop: what [recvfrom] answers, whether the context is
    cancelled when the code looks, and the world during the handling. *)
Record Turn := mkTurn { t_env : Env; t_done : bool; t_recv : Recv }.

(** The receive loop over a run of answers: [None] is a panic, [true] that it
    is still running after them. *)
Fixpoint recv_loop (l : list Turn) (w : Worker) : option (bool * Worker) :=
  match l with
  | [] => Some (true, w)
  | t :: l' =>
      match worker_recv (t_env t) (t_done t) (t_recv t) w with
      | None => None
      | Some (true, w) => recv_loop l' w
      | Some (false, w) => Some (false, w)
      end
  end.

(** How far [Run] got. *)
Inductive RunState :=
  | SetupFailed (w : Worker)
  | Receiving (fd : Z) (w : Worker)
  | Returned (fd : Z) (w : Worker)
  | Panicked.

(** [Run] in the answers [l]; [WorkerDone] is deferred from where the worker
    counts as ready. *)
Definition Run (port ifindex : Z) (groups : list bytes) (l : list Turn) (w : Worker)
    : Sys RunState :=
  bind (run_setup port ifindex groups) (fun r =>
  match r with
  | None => ret (SetupFailed w)
  | Some fd =>
      let w := with_core w (emit WorkerReady (core w)) in
      match recv_loop l w with
      | None => ret Panicked
      | Some (true, w) => ret (Receiving fd w)
      | Some (false, w) => ret (Returned fd (with_core w (emit WorkerDone (core w))))
      end
  end).

(** The goroutine that closes the socket when the context is cancelled. *)
Definition close_on_cancel (fd : Z) : Sys (option Z) := Sockets.call (CloseFd fd).

(** ** The loop is a run of the worker *)

Definition datagram (t : Turn) : list WOp :=
  match t_recv t with
  | RecvData raw _ => if (0 <? length raw)%nat then [WData (t_env t) raw] else []
  | RecvErr _ => []
  end.

Lemma worker_run_cons o ops w :
  worker_run (o :: ops) w = run_wop o w ≫= worker_run ops.
Proof.
  unfold worker_run. simpl. destruct (run_wop o w) as [w'|]; [done|]. simpl.
  by induction ops.
Qed.

Lemma recv_run l w :
  exists ops, Forall (fun o => exists t, t ∈ l /\ o ∈ datagram t) ops /\
    match recv_loop l w with
    | Some (_, w') => worker_run ops w = Some w'
    | None => worker_run ops w = None
    end.
Proof.
  revert w. induction l as [|t l IH]; intros w; [by exists []|]. simpl.
  assert (forall w0, exists ops, Forall (fun o => exists t', t' ∈ t :: l /\ o ∈ datagram t') ops /\
    match recv_loop l w0 with
    | Some (_, w') => worker_run ops w0 = Some w'
    | None => worker_run ops w0 = None
    end) as IH'.
  { intros w0. destruct (IH w0) as (ops & Hops & Hr). exists ops. split; [|done].
    eapply Forall_impl; [exact Hops|]. intros o (t' & Ht & Ho). exists t'. split; [by right|done]. }
  unfold worker_recv. destruct (t_recv t) as [raw from|err] eqn:Er.
  - destruct (0 <? length raw)%nat eqn:El; [|apply IH'].
    destruct (processFrame (t_env t) raw w) as [w1|] eqn:Ep; simpl.
    + destruct (IH' w1) as (ops & Hops & Hr). exists (WData (t_env t) raw :: ops). split.
      * constructor; [|done]. exists t. split; [by left|]. unfold datagram. rewrite Er, El. by left.
      * rewrite worker_run_cons. simpl. by rewrite Ep.
    + exists [WData (t_env t) raw]. split; [|by rewrite worker_run_cons; simpl; rewrite Ep].
      constructor; [|done]. exists t. split; [by left|]. unfold datagram. rewrite Er, El. by left.
  - destruct err; simpl; try apply IH'; try (destruct (negb (t_done t)); [apply IH'|]);
      by exists [].
Qed.

(** ** Readiness *)

(** The recorder only gains counts over a run. *)
Lemma run_grows v m ops c base :
  fragments_typed -> Forall wop_ok ops -> grows base (w_rec c) ->
  match worker_run ops (mkWorker c (Some (worker_buffer v m))) with
  | Some w' => grows base (w_rec (core w'))
  | None => True
  end.
Proof.
  intros Hft Hops Hc.
  pose proof (run_tq (fun _ r => grows base r) True (fun _ => True)
    (fun g => forall t, rtc step t (g t))) as Hrun.
  specialize (Hrun ltac:(done) ltac:(done) ltac:(done) ltac:(done)).
  assert (forall (t : option Tracker) r mt, neutral mt -> grows base r -> grows base (with_rec r mt)) as H1.
  { intros _ r mt Hm Hg. etrans; [exact Hg|]. apply grows_with_rec. intros r0. apply (Hm r0). }
  assert (forall now rnd g sid hk seq t r, True -> grows base r ->
    match Nack.Observe now rnd g sid hk seq (with_flows t (flows t) r) with
    | Some t' => grows base (rec t') | None => True end) as H2.
  { intros now rnd g sid hk seq t r _ Hg. destruct (Nack.Observe _ _ _ _ _ _ _) eqn:E; [|done].
    apply Observe_keeps in E as [_ Hk]. etrans; [exact Hg|exact Hk]. }
  assert (forall (g : Tracker -> Tracker) t r, (forall t, rtc step t (g t)) -> grows base r ->
    grows base (rec (g (with_flows t (flows t) r)))) as H3.
  { intros g t r Hg Hb. destruct (steps_keep _ _ (Hg (with_flows t (flows t) r))) as [_ Hk].
    etrans; [exact Hb|exact Hk]. }
  specialize (Hrun H1 H2 H3 v m ops c (fun _ H => H) Hft Hops Hc).
  destruct (worker_run ops _); [apply Hrun|done].
Qed.

Lemma loop_grows v m l c :
  fragments_typed -> Forall (fun t => Forall wop_ok (datagram t)) l ->
  match recv_loop l (mkWorker c (Some (worker_buffer v m))) with
  | Some (_, w') => grows (w_rec c) (w_rec (core w'))
  | None => True
  end.
Proof.
  intros Hft Hl. destruct (recv_run l (mkWorker c (Some (worker_buffer v m)))) as (ops & Hops & Hr).
  assert (Forall wop_ok ops) as Hok.
  { eapply Forall_impl; [exact Hops|]. intros o (t & Ht & Ho). rewrite Forall_forall in Hl.
    specialize (Hl t Ht). rewrite Forall_forall in Hl. by apply Hl. }
  pose proof (run_grows v m ops c (w_rec c) Hft Hok (reflexivity _)) as Hg.
  destruct (recv_loop _ _) as [[b w']|]; [|done]. by rewrite Hr in Hg.
Qed.

(** [Run] keeps the readiness count balanced. Starting from a recorder with
    [k] ready workers, whatever arrives: a set-up that fails leaves the recorder
    as it was; while the loop runs the worker counts once; when [Run] returns it
    no longer does, and the flags of the recorder are untouched. *)
Theorem run_readiness v m port ifx groups l c r ker h :
  fragments_typed -> Forall (fun t => Forall wop_ok (datagram t)) l ->
  w_rec c = Some r -> - 2 ^ 31 <= readyCount r < 2 ^ 31 - 1 ->
  let ready_is w k := exists r', w_rec (core w) = Some r' /\ readyCount r' = k /\
    draining r' = draining r /\ numWorkers r' = numWorkers r in
  match (Run port ifx groups l (mkWorker c (Some (worker_buffer v m))) ker h).1 with
  | SetupFailed w => w_rec (core w) = Some r
  | Receiving _ w => ready_is w (readyCount r + 1)
  | Returned _ w => ready_is w (readyCount r)
  | Panicked => True
  end.
Proof.
  intros Hft Hl Hr Hk. cbn zeta. unfold Run. rewrite run_bind.
  destruct (run_setup port ifx groups ker h).1 as [fd|]; [|exact Hr].
  change (with_core (mkWorker c (Some (worker_buffer v m))) _)
    with (mkWorker (emit WorkerReady c) (Some (worker_buffer v m))).
  pose proof (loop_grows v m l (emit WorkerReady c) Hft Hl) as Hg.
  cbn [w_rec emit set_rec] in Hg.
  assert (forall w', grows (with_rec (w_rec c) WorkerReady) (w_rec (core w')) ->
    exists r', w_rec (core w') = Some r' /\ readyCount r' = readyCount r + 1 /\
      draining r' = draining r /\ numWorkers r' = numWorkers r) as Hone.
  { intros w'. rewrite Hr. intros H. inversion H as [a b (adds' & se & be & ->) Ha Hb|].
    eexists. split; [done|]. simpl. by rewrite i32_id by lia. }
  destruct (recv_loop _ _) as [[[] w']|]; simpl; [by apply Hone| |done].
  destruct (Hone w' Hg) as (r' & -> & Hc & Hd & Hw). eexists. split; [done|]. simpl.
  rewrite Hc, i32_id by lia. split_and!; [lia|done..].
Qed.

(** ** Stopping *)

(** The answer that ends the loop: an error other than an interruption, once the
    context is cancelled or the descriptor is gone. *)
Definition stops (t : Turn) : Prop :=
  match t_recv t with
  | RecvErr (EBADF | EINVAL) => True
  | RecvErr (EAGAIN | EWOULDBLOCK | EOTHER) => t_done t = true
  | _ => False
  end.

(** The loop over answers that do not panic the worker. *)
Lemma recv_stops l w :
  recv_loop l w <> None -> (exists w', recv_loop l w = Some (false, w')) <-> Exists stops l.
Proof.
  revert w. induction l as [|t l IH]; intros w; cbn [recv_loop].
  { intros _. split; [by intros (w' & [=])|]. intros H. by apply Exists_nil in H. }
  rewrite Exists_cons. unfold stops at 1, worker_recv. destruct (t_recv t) as [raw from|err].
  - destruct (0 <? length raw)%nat.
    + destruct (processFrame _ raw w) as [w1|]; [|done]. simpl. intros Hn. rewrite (IH w1 Hn). tauto.
    + intros Hn. rewrite (IH w Hn). tauto.
  - destruct err; simpl; try (intros Hn; rewrite (IH w Hn); tauto);
      try (intros _; split; [by left|by eexists]);
      destruct (t_done t); simpl; try (intros _; split; [by left|by eexists]);
      intros Hn; rewrite (IH w Hn); intuition congruence.
Qed.

(** C25: a cancelled worker returns at the first quiet moment, and only then. For
    a jitter bound that cannot panic, the loop never panics, and it has returned
    after the answers [l] exactly when one of them was an error seen with the
    context cancelled (the 200 ms timeout is one) or the answer of a closed
    descriptor. A cancelled worker that keeps receiving datagrams goes on. *)
Theorem run_returns_iff v m port ifx groups l c ker h fd h1 :
  fragments_typed -> Forall (fun t => Forall wop_ok (datagram t)) l -> jitter_ok c ->
  run_setup port ifx groups ker h = (Some fd, h1) ->
  let r := (Run port ifx groups l (mkWorker c (Some (worker_buffer v m))) ker h).1 in
  (Exists stops l -> exists w, r = Returned fd w) /\
  (~ Exists stops l -> exists w, r = Receiving fd w).
Proof.
  intros Hft Hl Hj Hs. cbn zeta. unfold Run. rewrite run_bind, Hs.
  set (w0 := with_core _ _).
  assert (recv_loop l w0 <> None) as Hn.
  { destruct (recv_run l w0) as (ops & Hops & Hr).
    assert (Forall wop_ok ops) as Hok.
    { eapply Forall_impl; [exact Hops|]. intros o (t & Ht & Ho). rewrite Forall_forall in Hl.
      specialize (Hl t Ht). rewrite Forall_forall in Hl. by apply Hl. }
    pose proof (run_total v m ops (emit WorkerReady c) Hft Hok Hj) as Ht.
    intros E. rewrite E in Hr. change w0 with (mkWorker (emit WorkerReady c) (Some (worker_buffer v m))) in Hr.
    by rewrite Hr in Ht. }
  pose proof (recv_stops l w0 Hn) as Hst.
  destruct (recv_loop l w0) as [[[] w']|]; [| |done]; simpl; split; intros H; try by eexists.
  - apply Hst in H as (w'' & [=]).
  - exfalso. apply H, Hst. by eexists.
Qed.

(** [Run] leaves no descriptor behind. Once the cancelled context has closed
    the socket of a worker that returned, the open descriptors are those there
    were before; a set-up that fails needs no such help. *)
Theorem run_closes_socket port ifx groups l w ker h :
  fresh_sockets ker ->
  let '(r, h') := Run port ifx groups l w ker h in
  match r with
  | SetupFailed w' => w' = w /\ opened h' = opened h
  | Receiving fd _ | Returned fd _ =>
      opened (close_on_cancel fd ker h').2 = opened h
  | Panicked => True
  end.
Proof.
  intros Hf. unfold Run. pose proof (run_setup_accounted ker Hf port ifx groups h) as Ha.
  unfold bind. destruct (run_setup port ifx groups ker h) as [[fd|] h1]; [|done].
  destruct Ha as [Hn Ho]. cbn zeta.
  assert (opened (close_on_cancel fd ker h1).2 = opened h) as Hc
    by (simpl; rewrite opened_snoc; simpl; rewrite Ho; set_solver).
  by destruct (recv_loop _ _) as [[[] w']|].
Qed.
End Run.
