(* ===== verification/Main.v ===== *)
(** The wiring of [main.go]: the groups to join, the shared objects, the workers
    with their sinks, and the shutdown, all from one configuration. *)
From Stdlib Require Import ZArith Lia.
From S2P Require Import Prelude Frame Metrics Net Sockets Reassembly Dedup SubtreeGroup.
From S2P Require Import Discovery Announce Nack Egress Listener Filter Config.

(** [net.UDPAddr]. *)
Record UDPAddr := mkUDPAddr { ua_IP : bytes; ua_Port : Z }.

(** The package [shard] of bitcoin-shard-common: engines and group addresses. *)
Class ShardLib := {
  Engine : Type;
  shard_New : Z -> Z -> Z -> Engine;
  Addr : Engine -> Z -> Z -> UDPAddr;
  ControlGroupAddr : Z -> Z -> Z -> bytes;
  CtrlGroupBeacon : Z;
}.

Section Main.
Context `{FL : FrameLib} `{SL : ShardLib}.

(** ** The groups *)

(** [buildGroups]; its error is always nil. *)
Definition shard_indices (cfg : Config) : list Z :=
  if (0 <? length (ShardInclude cfg))%nat then ShardInclude cfg
  else u32 <$> seqZ 0 (NumGroups cfg).

Definition buildGroups (cfg : Config) (engine : Engine) : list UDPAddr :=
  let groups := (fun idx => Addr engine idx (ListenPort cfg)) <$> shard_indices cfg in
  let ctrlIP := ControlGroupAddr (MCPrefix cfg) (MCGroupID cfg) CtrlGroupControl in
  let groups := groups ++ [mkUDPAddr ctrlIP (ListenPort cfg)] in
  if SubtreeDataEnabled cfg then
    let subtreeDataIP := ControlGroupAddr (MCPrefix cfg) (MCGroupID cfg) CtrlGroupSubtreeAnnounce in
    groups ++ [mkUDPAddr subtreeDataIP (ListenPort cfg)]
  else groups.

Definition make_engine (cfg : Config) : Engine :=
  shard_New (MCPrefix cfg) (MCGroupID cfg) (ShardBits cfg).

(** The groups of the announcement listener; an unknown scope name would give
    the zero prefix of a missing map key. *)
Definition announceGroups (cfg : Config) : list UDPAddr :=
  (fun scopeName =>
     let scopePrefix := default 0 (scope_prefix scopeName) in
     mkUDPAddr (ControlGroupAddr scopePrefix (MCGroupID cfg) CtrlGroupSubtreeAnnounce)
       (ListenPort cfg)) <$> AnnounceScopes cfg.

(** The group of the beacon listener. *)
Definition beaconGrp (cfg : Config) : UDPAddr :=
  let beaconScopePrefix := default 0xFF05 (scope_prefix (BeaconScope cfg)) in
  mkUDPAddr (ControlGroupAddr beaconScopePrefix (MCGroupID cfg) CtrlGroupBeacon) (BeaconPort cfg).

(** ** The shared objects *)

Definition make_rec (cfg : Config) : Recorder := Metrics.New (NumWorkers cfg).

Definition make_groupReg (cfg : Config) : option SubtreeGroup.Registry :=
  if (0 <? length (SubtreeGroups cfg))%nat
  then Some (SubtreeGroup.New (SubtreeGroups cfg) (SubtreeGroupDefaultTTL cfg)) else None.

Definition make_filter (cfg : Config) : Filter.Filter SubtreeGroup.Registry :=
  Filter.New (ShardInclude cfg) (SubtreeInclude cfg) (SubtreeExclude cfg) (make_groupReg cfg).

(** The fields [run] does not set are zero: [Observe] and the sweep replace them
    by 100 and by the gap TTL. *)
Definition make_tracker (cfg : Config) : Tracker :=
  Nack.New
    {| JitterMax := NACKJitterMax cfg; BackoffMax := NACKBackoffMax cfg;
       MaxRetries := NACKMaxRetries cfg; GapTTL := NACKGapTTL cfg;
       TailTTL := 0; SeqResetThreshold := 0 |}
    (RetryEndpoints cfg) (Some (make_rec cfg)) (Some NewRegistry).

(** The announcement listener, started only when there is a registry. *)
Definition make_announce (cfg : Config) : option (Announce.Listener * list UDPAddr) :=
  match make_groupReg cfg with
  | Some r =>
      Some (mkListener r (SubtreeGroupDefaultTTL cfg) (Config.SenderInclude cfg)
              (Config.SenderExclude cfg) (Some (make_rec cfg)), announceGroups cfg)
  | None => None
  end.

(** The groups of the beacon listener, when it is started. *)
Definition make_beacon (cfg : Config) : option (list UDPAddr) :=
  if BeaconEnabled cfg then Some [beaconGrp cfg] else None.

(** ** The workers *)

(** What the network answers when the sinks of one worker are opened. *)
Record SinkIO := mkSinkIO {
  udp_resolves : bool; udp_dials : bool;
  mc_socket : bool; mc_if : bool; mc_hops : bool; mc_loop : bool;
}.

Inductive StartErr := ErrEgress | ErrMCEgress | ErrHeaderEgress | ErrHeaderMCEgress.

(** [x, err = f(); if err != nil { return .. }] under [if enabled]. *)
Definition when {A} (enabled : bool) (o : option A) (err : StartErr) : option A + StartErr :=
  if enabled then match o with Some a => inl (Some a) | None => inr err end else inl None.

(** One turn of the loop over the workers, up to the start of its goroutines:
    [io] answers for the frame sinks, [hio] for the header sinks, and [e] is
    only a place holder until the first datagram. *)
Definition start_worker (cfg : Config) (io hio : SinkIO) (e : Env) (i : Z) : Worker + StartErr :=
  let! egr := require (Egress.New (EgressAddr cfg) (EgressProto cfg) (StripHeader cfg)
                         (udp_resolves io) (udp_dials io)) ErrEgress in
  let! mcastEgr := when (MCEgressEnabled cfg)
    (NewMCast (MCEgressPrefix cfg) (MCEgressGroupID cfg) (MCEgressPort cfg) (StripHeader cfg)
       (mc_socket io) (mc_if io) (mc_hops io) (mc_loop io)) ErrMCEgress in
  let! headerEgr := when (HeaderEgressEnabled cfg)
    (Egress.New (HeaderEgressAddr cfg) (HeaderEgressProto cfg) false
       (udp_resolves hio) (udp_dials hio)) ErrHeaderEgress in
  let! headerMCastEgr := when (HeaderMCEgressEnabled cfg)
    (NewMCast (HeaderMCEgressPrefix cfg) (HeaderMCEgressGroupID cfg) (HeaderMCEgressPort cfg) false
       (mc_socket hio) (mc_if hio) (mc_hops hio) (mc_loop hio)) ErrHeaderMCEgress in
  let w := Listener.New e i (if_Name (Iface cfg)) (make_filter cfg) egr mcastEgr
             (Some (make_tracker cfg)) (Some (make_rec cfg)) in
  let w := match headerEgr with Some _ => SetHeaderEgress headerEgr w | None => w end in
  let w := match headerMCastEgr with Some _ => SetHeaderMCastEgress headerMCastEgr w | None => w end in
  let w := SetVerifyPayloadHash (VerifyPayloadHash cfg) w in
  let w := if 0 <? EgressDedupCap cfg
           then SetEgressDedup (Some (Dedup.New (EgressDedupCap cfg) (EgressDedupTTL cfg))) w else w in
  let buf := worker_buffer (VerifyPayloadHash cfg) (SubtreeDataVerifyMerkle cfg) in
  inl (SetReassemblyBuffer (Some buf) (mkWorker w None)).

(** The system calls a worker makes before it receives. *)
Definition worker_setup (cfg : Config) : Sys (option Z) :=
  run_setup (ListenPort cfg) (if_Index (Iface cfg)) (ua_IP <$> buildGroups cfg (make_engine cfg)).

(** ** Shutdown *)

(** What the recorder sees of the end of [run]: the drain. *)
Definition shutdown (cfg : Config) (r : Recorder) : Recorder :=
  if 0 <? DrainTimeout cfg then SetDraining r else r.
End Main.
