(* ===== verification/Process.v ===== *)
(** The running process: the workers, the gap tracker and its goroutines, the
    announcement listener and the beacon listener, on the objects [main] makes
    them share. A run is a list of events, in the order in which the goroutines
    reach the shared objects; every run of the process looks to each worker
    like one of the runs of [ListenerProps]. *)
From Stdlib Require Import ZArith Lia.
From S2P Require Import Prelude Sha256 Frame Metrics Net Reassembly Dedup SubtreeGroup Wire Discovery.
From S2P Require Import Announce Nack NackSteps Egress Listener ListenerProps Filter Config Main.

Section Process.
Context `{FL : FrameLib} `{SL : ShardLib}.

(** The objects behind pointers are kept once: [shared] is the tracker, with the
    recorder everybody counts in and the endpoint registry, and [announcer]
    holds the group registry. A worker in [workers] owns its sinks, its
    duplicate set and its buffer; its filter holds the group registry as the
    worker last saw it. *)
Record Process := mkProcess {
  workers : list Worker;
  shared : Tracker;
  announcer : option Announce.Listener;
}.

(** A worker steps up to the shared objects, and leaves them as it made them. *)
Definition join (t : Tracker) (w : Worker) : Worker :=
  with_core w (set_tracker (core w) t (rec t)).
Definition leave (c : Core) (t : Tracker) : Tracker :=
  match tracker c with Some t' => with_flows t' (flows t') (w_rec c) | None => t end.

Definition on_worker (i : nat) (f : Worker -> option Worker) (p : Process) : option Process :=
  match workers p !! i with
  | None => Some p
  | Some w =>
      w ← f (join (shared p) w);
      Some (mkProcess (<[i := w]> (workers p)) (leave (core w) (shared p)) (announcer p))
  end.

Definition on_tracker (f : Tracker -> Tracker) (p : Process) : Process :=
  mkProcess (workers p) (f (shared p)) (announcer p).

(** The recorder behind the tracker's pointer. *)
Definition with_recorder (t : Tracker) (r : option Recorder) : Tracker := with_flows t (flows t) r.

Definition set_Rec (al : Announce.Listener) (r : option Recorder) : Announce.Listener :=
  {| Registry_ := Registry_ al; Announce.DefaultTTL := Announce.DefaultTTL al;
     Announce.SenderInclude := Announce.SenderInclude al;
     Announce.SenderExclude := Announce.SenderExclude al; Rec := r |}.

Definition on_announcer (f : Announce.Listener -> option Announce.Listener) (p : Process)
    : option Process :=
  match announcer p with
  | None => Some p
  | Some al =>
      al ← f (set_Rec al (rec (shared p)));
      Some (mkProcess (workers p) (with_recorder (shared p) (Rec al)) (Some al))
  end.

Definition on_beacon (f : BeaconListener -> BeaconListener) (t : Tracker) : Tracker :=
  let bl := f (mkBeaconListener (registry t) (rec t)) in
  with_sent t (bl_Registry bl) (bl_Rec bl) (wire t).

(** A [sendNACK] goroutine, the one at index [i], up to its send and from its
    read on. *)
Definition request (i : nat) iter (now : Z) (net : Network) (t : Tracker) : Tracker :=
  match flights t !! i with
  | Some (Launched e) => let '(t', n) := send_request iter now net e t in settle i (Awaiting e <$> n) t'
  | _ => t
  end.
Definition respond (i : nat) (now : Z) (net : Network) (t : Tracker) : Tracker :=
  match flights t !! i with
  | Some (Awaiting e n) => settle i None (send_response now net e n t)
  | _ => t
  end.

(** What can happen next. Worker [i] reads the group registry at some moment
    ([PView]) and reaches the tracker at another ([PData], [PTick]), with
    steps of the others in between. *)
Inductive PEvent :=
  | PView (i : nat)
  | PData (i : nat) (e : Env) (raw : bytes)
  | PTick (i : nat) (now : Z)
  | PSweep (w : walk) (now : Z) (drain : Z -> Z -> nat)
  | PDispatch
  | PRequest (i : nat) (iter : list EndpointEntry -> list EndpointEntry) (now : Z) (net : Network)
  | PResponse (i : nat) (now : Z) (net : Network)
  | PAnnounce (now : Z) (datagram : bytes) (from : Sockaddr)
  | PAnnounceTick (now : Z)
  | PBeacon (now : Z) (datagram : bytes)
  | PBeaconTick (now : Z).

(** Worker [i] looks at the group registry, when there is one. *)
Definition view (i : nat) (p : Process) : option Process :=
  match announcer p with
  | None => Some p
  | Some al => on_worker i (run_wop (WGroups (Registry_ al))) p
  end.

(** [None] is a panic. *)
Definition pstep (ev : PEvent) (p : Process) : option Process :=
  match ev with
  | PView i => view i p
  | PData i e raw => on_worker i (processFrame e raw) p
  | PTick i now => on_worker i (buffer_tick now) p
  | PSweep w now drain => Some (on_tracker (sweepOnce w now drain) p)
  | PDispatch => Some (on_tracker dispatch p)
  | PRequest i iter now net => Some (on_tracker (request i iter now net) p)
  | PResponse i now net => Some (on_tracker (respond i now net) p)
  | PAnnounce now d from => on_announcer (announce_datagram now d from) p
  | PAnnounceTick now => on_announcer (fun al => Some (announce_tick now al)) p
  | PBeacon now d => Some (on_tracker (on_beacon (beacon_datagram now d)) p)
  | PBeaconTick now => Some (on_tracker (on_beacon (beacon_tick now)) p)
  end.

Definition prun (evs : list PEvent) (p : Process) : option Process :=
  foldl (fun acc ev => acc ≫= pstep ev) (Some p) evs.

(** What the runtime guarantees: datagrams are bytes, and a map is walked over
    its keys. *)
Definition pevent_ok (ev : PEvent) : Prop :=
  match ev with
  | PData _ _ raw => Forall is_byte raw
  | PSweep w _ _ => fair_walk w
  | PRequest _ iter _ _ => fair iter
  | _ => True
  end.

(** ** The start *)

(** The loop of [run] over the workers: the first failure ends the process. *)
Fixpoint start_workers (cfg : Config) (io hio : nat -> SinkIO) (e : Env) (n i : nat)
    : list Worker + StartErr :=
  match n with
  | O => inl []
  | S n' =>
      let! w := start_worker cfg (io i) (hio i) e (Z.of_nat i) in
      let! ws := start_workers cfg io hio e n' (S i) in
      inl (w :: ws)
  end.

(** [run] up to the wait for a signal, when every set-up succeeds. *)
Definition start_process (cfg : Config) (io hio : nat -> SinkIO) (e : Env) : Process + StartErr :=
  let! ws := start_workers cfg io hio e (Z.to_nat (NumWorkers cfg)) 0 in
  inl (mkProcess ws (make_tracker cfg) (fst <$> make_announce cfg)).
End Process.
