(* ===== verification/MainProps.v ===== *)
(** From the configuration to what leaves the process: the groups that are
    joined are those the filter admits, a shard listed twice keeps every worker
    from starting, and a configured worker enforces the configured policy on
    every run. *)
From Stdlib Require Import ZArith Lia.
From S2P Require Import Prelude Sha256 Frame FrameExample Metrics Net NetParse Sockets Reassembly.
From S2P Require Import Dedup SubtreeGroup Filter Discovery Announce Nack NackSteps Egress Listener.
From S2P Require Import ListenerProps Run Config ConfigProps Main.

Section Props.
Context `{FL : FrameLib} `{SL : ShardLib}.

(** What the addresses of the package [shard] are relied on to be: one group per
    shard index, apart from the control groups; and [GroupIndex] is a shard
    index. *)
Record shard_addresses (cfg : Config) : Prop := {
  sh_distinct : forall i j, 0 <= i < NumGroups cfg -> 0 <= j < NumGroups cfg ->
    mreq_addr (ua_IP (Addr (make_engine cfg) i (ListenPort cfg))) =
    mreq_addr (ua_IP (Addr (make_engine cfg) j (ListenPort cfg))) -> i = j;
  sh_control : forall i ctl, 0 <= i < NumGroups cfg ->
    ctl = CtrlGroupControl \/ ctl = CtrlGroupSubtreeAnnounce ->
    mreq_addr (ua_IP (Addr (make_engine cfg) i (ListenPort cfg))) <>
    mreq_addr (ControlGroupAddr (MCPrefix cfg) (MCGroupID cfg) ctl);
  sh_controls :
    mreq_addr (ControlGroupAddr (MCPrefix cfg) (MCGroupID cfg) CtrlGroupControl) <>
    mreq_addr (ControlGroupAddr (MCPrefix cfg) (MCGroupID cfg) CtrlGroupSubtreeAnnounce);
  sh_index : forall id, Forall is_byte id -> 0 <= GroupIndex id < NumGroups cfg;
}.

(** ** The groups *)

Definition ctrl_groups (cfg : Config) : list UDPAddr :=
  mkUDPAddr (ControlGroupAddr (MCPrefix cfg) (MCGroupID cfg) CtrlGroupControl) (ListenPort cfg) ::
  if SubtreeDataEnabled cfg
  then [mkUDPAddr (ControlGroupAddr (MCPrefix cfg) (MCGroupID cfg) CtrlGroupSubtreeAnnounce)
          (ListenPort cfg)] else [].

Lemma buildGroups_split cfg eng :
  buildGroups cfg eng =
    ((fun idx => Addr eng idx (ListenPort cfg)) <$> shard_indices cfg) ++ ctrl_groups cfg.
Proof.
  unfold buildGroups, ctrl_groups. destruct (SubtreeDataEnabled cfg); [|done]. by rewrite <- app_assoc.
Qed.

Lemma all_indices cfg :
  valid cfg -> u32 <$> seqZ 0 (NumGroups cfg) = seqZ 0 (NumGroups cfg).
Proof.
  intros Hv. rewrite <- (list_fmap_id (seqZ 0 (NumGroups cfg))) at 2.
  apply list_fmap_ext. intros k i Hi%list_elem_of_lookup_2. apply elem_of_seqZ in Hi.
  unfold Datatypes.id. apply u32_id. pose proof (va_bits cfg Hv). rewrite (va_groups cfg Hv) in Hi.
  assert (2 ^ ShardBits cfg <= 2 ^ 15) by (apply Z.pow_le_mono_r; lia). lia.
Qed.

Lemma shard_indices_spec cfg i :
  valid cfg -> i ∈ shard_indices cfg <-> 0 <= i < NumGroups cfg /\ shard_allowed (ShardInclude cfg) i.
Proof.
  intros Hv. unfold shard_indices, shard_allowed. pose proof (va_shards cfg Hv) as Hs.
  rewrite Forall_forall in Hs. destruct (ShardInclude cfg) as [|x l] eqn:E.
  - cbn [length Nat.ltb Nat.leb]. rewrite all_indices, elem_of_seqZ by done.
    split; [intros ?; split; [lia|by left]|intros [? _]; lia].
  - cbn [length Nat.ltb Nat.leb]. naive_solver.
Qed.

Lemma shard_joined cfg i :
  valid cfg -> shard_addresses cfg -> 0 <= i < NumGroups cfg ->
  Addr (make_engine cfg) i (ListenPort cfg) ∈ buildGroups cfg (make_engine cfg) <->
  shard_allowed (ShardInclude cfg) i.
Proof.
  intros Hv Hsh Hi. rewrite buildGroups_split, elem_of_app, list_elem_of_fmap. split.
  - intros [(j & Ha & Hj)|Hc].
    + apply shard_indices_spec in Hj as [Hr Hj]; [|done].
      by rewrite (sh_distinct cfg Hsh i j Hi Hr) by (by rewrite Ha).
    + exfalso. unfold ctrl_groups in Hc. apply elem_of_cons in Hc as [Hc|Hc].
      * apply (sh_control cfg Hsh i CtrlGroupControl Hi); [by left|]. by rewrite Hc.
      * destruct (SubtreeDataEnabled cfg); [|by apply elem_of_nil in Hc].
        apply list_elem_of_singleton in Hc.
        apply (sh_control cfg Hsh i CtrlGroupSubtreeAnnounce Hi); [by right|]. by rewrite Hc.
  - intros Ha. left. exists i. split; [done|]. by apply shard_indices_spec.
Qed.

(** C23: the process joins exactly the groups its filter lets through. For every
    configuration [Load] returns, the group address of a frame's shard is among
    those a worker joins exactly when the filter does not refuse the frame for
    its shard: nothing wanted is missed for want of a join, and no joined shard
    is all refused. *)
Theorem joined_groups_match_filter getenv byname NumCPU parse cfg clk f :
  0 < NumCPU -> Load getenv byname NumCPU parse = inl cfg -> shard_addresses cfg ->
  Forall is_byte (TxID f) ->
  Addr (make_engine cfg) (GroupIndex (TxID f)) (ListenPort cfg) ∈ buildGroups cfg (make_engine cfg) <->
  (Allow clk (GroupIndex (TxID f)) f (make_filter cfg)).2 <> "shard_filter"%string.
Proof.
  intros Hcpu Hl Hsh Hb. apply validate_valid in Hl; [|done].
  rewrite shard_joined by (try done; by apply (sh_index cfg Hsh)).
  destruct (Allow_spec (ShardInclude cfg) (SubtreeInclude cfg) (SubtreeExclude cfg)
    (make_groupReg cfg) clk (GroupIndex (TxID f)) f) as (H1 & H2 & H3 & H4).
  fold (make_filter cfg) in *.
  destruct (Allow_verdict clk (GroupIndex (TxID f)) f (make_filter cfg)) as [E|[E|[E|E]]];
    rewrite E in *; simpl; intuition congruence.
Qed.

(** C24: a shard listed twice stops every worker. [Load] accepts a repeated entry
    of -shard-include; the worker then joins the same group twice, which the
    kernel refuses. On a kernel that refuses nothing else, the set-up of a
    worker succeeds exactly when no shard is repeated. *)
Theorem workers_start_iff_shards_distinct getenv byname NumCPU parse cfg ker h :
  0 < NumCPU -> Load getenv byname NumCPU parse = inl cfg -> shard_addresses cfg ->
  fresh_sockets ker -> joins_once ker -> obliging ker ->
  (worker_setup cfg ker h).1 <> None <-> NoDup (ShardInclude cfg).
Proof.
  intros Hcpu Hl Hsh Hf Ho Hob. apply validate_valid in Hl; [|done].
  unfold worker_setup. rewrite run_setup_distinct by done.
  rewrite buildGroups_split, !fmap_app, NoDup_app, <- !list_fmap_compose.
  set (addr := fun idx : Z => mreq_addr (ua_IP (Addr (make_engine cfg) idx (ListenPort cfg)))).
  change (_ ∘ _ <$> shard_indices cfg) with (addr <$> shard_indices cfg).
  assert (forall i, i ∈ shard_indices cfg -> 0 <= i < NumGroups cfg) as Hin
    by (intros i Hi; apply (shard_indices_spec cfg i Hl), Hi).
  assert (NoDup (addr <$> shard_indices cfg) <-> NoDup (shard_indices cfg)) as ->.
  { split; [apply NoDup_fmap_1|]. apply NoDup_fmap_2_strong. intros i j Hi Hj. apply (sh_distinct cfg Hsh); auto. }
  assert (NoDup (shard_indices cfg) <-> NoDup (ShardInclude cfg)) as ->.
  { unfold shard_indices. destruct (ShardInclude cfg); [|done]. cbn [length Nat.ltb Nat.leb].
    rewrite all_indices by done. split; [constructor|]. intros _. apply NoDup_seqZ. }
  assert (forall a, a ∈ mreq_addr ∘ ua_IP <$> ctrl_groups cfg ->
            exists ctl, (ctl = CtrlGroupControl \/ ctl = CtrlGroupSubtreeAnnounce) /\
              a = mreq_addr (ControlGroupAddr (MCPrefix cfg) (MCGroupID cfg) ctl)) as Hctl.
  { intros a. unfold ctrl_groups. destruct (SubtreeDataEnabled cfg); simpl;
      rewrite ?elem_of_cons, elem_of_nil; naive_solver. }
  split; [by intros [? _]|]. intros Hd. split_and!; [done| |].
  - intros a (i & -> & Hi)%list_elem_of_fmap Ha. apply Hctl in Ha as (ctl & Hc & Ha).
    by apply (sh_control cfg Hsh i ctl (Hin i Hi) Hc).
  - unfold ctrl_groups. destruct (SubtreeDataEnabled cfg); simpl; [|apply NoDup_singleton].
    apply NoDup_cons. split; [|apply NoDup_singleton].
    intros H%list_elem_of_singleton. by apply (sh_controls cfg Hsh).
Qed.
(** ** A configured worker *)

(** What [start_worker] hands on. *)
Record started (cfg : Config) (w : Worker) : Prop := {
  st_buffer : w = mkWorker (core w)
    (Some (worker_buffer (verifyPayloadHash (core w)) (SubtreeDataVerifyMerkle cfg)));
  st_verify : verifyPayloadHash (core w) = VerifyPayloadHash cfg;
  st_filt : filt (core w) = make_filter cfg;
  st_strip : stripHeader (egr (core w)) = StripHeader cfg;
  st_sent : sent (egr (core w)) = [];
  st_mcast : forall mc, mcastEgr (core w) = Some mc ->
    m_sent mc = [] /\ m_stripHeader mc = StripHeader cfg;
  st_header : (forall s, headerEgr (core w) = Some s -> sent s = []) /\
    (forall mc, headerMCastEgr (core w) = Some mc -> m_sent mc = []);
  st_tracker : tracker (core w) = Some (make_tracker cfg);
  st_rec : w_rec (core w) = Some (make_rec cfg);
  st_link : proto (egr (core w)) = EgressProto cfg /\
    (EgressProto cfg = "udp"%string -> udpConn (egr (core w)) = true);
}.

Lemma start_worker_started cfg io hio e i w :
  start_worker cfg io hio e i = inl w -> started cfg w.
Proof.
  unfold start_worker. intros H. ok_steps H. injection H as <-.
  apply require_inl in Ha. unfold Egress.New in Ha.
  assert (stripHeader a = StripHeader cfg /\ sent a = [] /\ proto a = EgressProto cfg /\
    (EgressProto cfg = "udp"%string -> udpConn a = true)) as (Es & Et & El).
  { destruct (String.eqb_spec (EgressProto cfg) "udp"); [destruct (_ && _); [|done]|];
      by injection Ha as <-. }
  assert (forall mc, a0 = Some mc -> m_sent mc = [] /\ m_stripHeader mc = StripHeader cfg) as Hm.
  { intros mc ->. unfold when in Ha0. destruct (MCEgressEnabled cfg); [|done].
    unfold NewMCast in Ha0.
    destruct (mc_socket io && mc_if io && mc_hops io && mc_loop io); [|done]. by injection Ha0 as <-. }
  assert (forall s, a1 = Some s -> sent s = []) as Hh.
  { intros s ->. unfold when, Egress.New in Ha1. destruct (HeaderEgressEnabled cfg); [|done].
    destruct (String.eqb (HeaderEgressProto cfg) "udp"); [destruct (udp_resolves hio && udp_dials hio); [|done]|];
      by injection Ha1 as <-. }
  assert (forall mc, a2 = Some mc -> m_sent mc = []) as Hhm.
  { intros mc ->. unfold when, NewMCast in Ha2. destruct (HeaderMCEgressEnabled cfg); [|done].
    destruct (mc_socket hio && mc_if hio && mc_hops hio && mc_loop hio); [|done]. by injection Ha2 as <-. }
  destruct a1, a2, (0 <? EgressDedupCap cfg); by split.
Qed.

Lemma started_fresh cfg w : started cfg w -> fresh_sinks (core w).
Proof.
  intros Hst. split; [apply (st_sent cfg w Hst)|]. split; [|apply (st_header cfg w Hst)].
  intros mc E. apply (st_mcast cfg w Hst mc E).
Qed.

(** Every registry state the filter meets comes from announcements and
    evictions on the configured registry. *)
Definition announced (cfg : Config) (hist : list SubtreeGroup.Op) (r : SubtreeGroup.Registry) : Prop :=
  SubtreeGroup.run hist (SubtreeGroup.New (SubtreeGroups cfg) (SubtreeGroupDefaultTTL cfg)) = Some r.

(** The configured policy, for a data frame: its shard is included, its subtree
    is not excluded, and is listed or was announced for a subscribed group, in
    one of the histories [Hist] the group registry went through. *)
Definition policy_admits (cfg : Config) (Hist : list SubtreeGroup.Op -> Prop) (f : Frame) : Prop :=
  shard_allowed (ShardInclude cfg) (GroupIndex (TxID f)) /\
  SubtreeID f ∉ SubtreeExclude cfg /\
  ((SubtreeInclude cfg = [] /\ SubtreeGroups cfg = []) \/
   SubtreeID f ∈ SubtreeInclude cfg \/
   exists g hist e, g ∈ SubtreeGroups cfg /\ Hist hist /\
     promised (SubtreeGroupDefaultTTL cfg) g (SubtreeID f) hist = Some e) /\
  (VerifyPayloadHash cfg = true -> Version f = FrameVerV2 -> sha256d (Payload f) = TxID f).

Lemma not_after_some hist : exists t, Forall (not_after t) hist.
Proof.
  induction hist as [|o hist [t IH]]; [by exists 0|].
  exists (match o with SubtreeGroup.OpEvict now => Z.max now t | _ => t end). constructor.
  - destruct o; simpl; lia.
  - eapply Forall_impl; [exact IH|]. intros [] Ho; simpl in *; try done. destruct o; lia.
Qed.

(** A subtree seen in a registry was announced for a subscribed group. *)
Lemma announced_member cfg hist r clk sid :
  announced cfg hist r -> Contains clk r sid = true ->
  exists g e, g ∈ SubtreeGroups cfg /\ promised (SubtreeGroupDefaultTTL cfg) g sid hist = Some e.
Proof.
  intros Hr (g & e & Hs & _)%Contains_stored. destruct (not_after_some hist) as [t Ht].
  destruct (run_promised (SubtreeGroups cfg) (SubtreeGroupDefaultTTL cfg) hist t Ht)
    as (r' & Hr' & _ & _ & _ & Hp).
  unfold announced in Hr. rewrite Hr in Hr'. injection Hr' as <-.
  destruct (Hp g sid) as [H1 _]. exists g, e. by apply H1.
Qed.

Lemma admitted_policy cfg Hist (ops : list WOp) w f :
  started cfg w ->
  (forall r, WGroups r ∈ ops -> exists hist, Hist hist /\ announced cfg hist r) ->
  admitted (core w) (fun r => r = groups_of (filt (core w)) \/ WGroups r ∈ ops) f ->
  policy_admits cfg Hist f.
Proof.
  intros Hst Hann [(clk & r & Hr & Ha) Hh]. rewrite (st_filt cfg w Hst) in *.
  rewrite (st_verify cfg w Hst) in Hh.
  assert (with_groups r (make_filter cfg) =
    Filter.New (ShardInclude cfg) (SubtreeInclude cfg) (SubtreeExclude cfg)
      (match make_groupReg cfg with Some _ => Some r | None => None end)) as E
    by (unfold with_groups, make_filter, Filter.New; simpl; by destruct (make_groupReg cfg)).
  rewrite E in Ha. set (reg := match make_groupReg cfg with Some _ => Some r | None => None end) in Ha.
  destruct (Allow_spec (ShardInclude cfg) (SubtreeInclude cfg) (SubtreeExclude cfg) reg clk
    (GroupIndex (TxID f)) f) as [H1 _].
  destruct (Allow_verdict clk (GroupIndex (TxID f)) f
    (Filter.New (ShardInclude cfg) (SubtreeInclude cfg) (SubtreeExclude cfg) reg))
    as [Ev|[Ev|[Ev|Ev]]]; rewrite Ev in Ha; try done.
  apply H1 in Ev as (Hs & He & Hi). split_and!; [done..| |done].
  destruct Hi as [[Hi Hn]|[Hi|(r1 & Hreg & Hc)]]; [left|by right; left|right; right].
  { split; [done|]. subst reg. unfold make_groupReg in Hn. by destruct (SubtreeGroups cfg). }
  assert (r1 = r) as -> by (subst reg; destruct (make_groupReg cfg); congruence).
  destruct Hr as [->|Hr].
  - destruct (announced_member cfg [] (groups_of (make_filter cfg)) clk (SubtreeID f))
      as (g & e & _ & Hp); [|exact Hc|done].
    unfold groups_of, make_filter, Filter.New, announced. simpl. subst reg.
    revert Hreg. unfold make_groupReg. by destruct (0 <? length (SubtreeGroups cfg))%nat.
  - destruct (Hann r Hr) as (hist & Hin & Hh').
    destruct (announced_member cfg hist r clk _ Hh' Hc) as (g & e & Hg & Hp). by exists g, hist, e.
Qed.

(** What may leave, when [Adm] are the data frames the policy admits: one of
    them, or a block or subtree data frame; whole, or stripped of its header
    when the configuration says so. *)
Definition configured_data (cfg : Config) (Adm : Frame -> Prop) (buf : bytes) : Prop :=
  exists f raw, data_wire f raw /\ Adm f /\
    buf = if StripHeader cfg then Payload f else raw.

Definition configured_output (cfg : Config) (Adm : Frame -> Prop) (buf : bytes) : Prop :=
  configured_data cfg Adm buf \/
  (exists bf raw, block_wire bf raw /\ buf = if StripHeader cfg then bf_Payload bf else raw) \/
  (exists sf raw, subtree_wire sf raw /\ buf = if StripHeader cfg then sf_Payload sf else raw).

(** A configured worker enforces its configuration, end to end. Take any
    configuration whose jitter bound is not negative, and any worker [main]
    starts from it. Over every run of
    datagrams, ticks and concurrent steps of the other goroutines, the worker
    does not panic, its unicast sink only sends what the configuration admits,
    in the form it asks for, its multicast sink only admitted data frames, and
    its header sinks only the headers of announced blocks. *)
Theorem configured_worker cfg Hist io hio e i w (ops : list WOp) :
  0 <= NACKJitterMax cfg < 2 ^ 63 - 1 ->
  start_worker cfg io hio e i = inl w ->
  fragments_typed -> Forall wop_ok ops ->
  (forall r, WGroups r ∈ ops -> exists hist, Hist hist /\ announced cfg hist r) ->
  exists w', worker_run ops w = Some w' /\
    Forall (configured_output cfg (policy_admits cfg Hist)) (sent (egr (core w'))) /\
    (forall mc, mcastEgr (core w') = Some mc ->
      Forall (fun d => configured_data cfg (policy_admits cfg Hist) d.2) (m_sent mc)) /\
    sends_headers (core w').
Proof.
  intros Hj Hw Hft Hops Hann. apply start_worker_started in Hw as Hst.
  assert (jitter_ok (core w)) as Hjit.
  { intros t. rewrite (st_tracker cfg w Hst). intros [= <-]. simpl. rewrite i64_id; lia. }
  pose proof (run_total (verifyPayloadHash (core w)) (SubtreeDataVerifyMerkle cfg) ops (core w)
    Hft Hops Hjit) as Htot.
  rewrite <- (st_buffer cfg w Hst) in Htot.
  destruct (worker_run ops w) as [w'|] eqn:Hrun; [|done]. exists w'. split; [done|]. clear Htot.
  rewrite (st_buffer cfg w Hst) in Hrun.
  destruct (run_sends (SubtreeDataVerifyMerkle cfg) ops (core w) w' Hft Hops
    (started_fresh cfg w Hst) Hrun) as [[_ _ (Hs & _) Hsent Hmc _ _] Hhd].
  rewrite (st_strip cfg w Hst) in Hs. rewrite Hs in Hsent. split; [|split; [|done]].
  - eapply Forall_impl; [exact Hsent|]. intros buf [(f & raw & H1 & H2 & H3)|H]; [left|by right].
    exists f, raw. split_and!; [done| |done]. by eapply admitted_policy.
  - intros mc Emc. destruct (Hmc mc Emc) as [Hd Hstrip].
    eapply Forall_impl; [exact Hd|]. intros d (f & raw & H1 & H2 & H3).
    exists f, raw. split_and!; [done|by eapply admitted_policy|]. rewrite H3.
    destruct (mcastEgr (core w)) as [mc0|] eqn:E0; [|done]. injection Hstrip as ->.
    by rewrite (proj2 (st_mcast cfg w Hst mc0 E0)).
Qed.
End Props.
