(* ===== verification/ProcessProps.v ===== *)
(** What holds of the process as a whole. Each worker sees the others only as
    moves of the shared objects, so what is proved of one worker among
    arbitrary moves holds of every worker of the process. *)
From Stdlib Require Import ZArith Lia.
From S2P Require Import Prelude Sha256 Frame Metrics Net Reassembly Dedup SubtreeGroup Wire Advert Discovery.
From S2P Require Import Announce Nack NackSteps Egress Listener ListenerProps Filter Config Main.
From S2P Require Import Process MainProps.

(** ** Moves of the shared tracker *)

Section Moves.
Context `{FL : FrameLib}.

Definition counted (m : Recorder -> Recorder) (t : Tracker) : Tracker :=
  with_recorder t (with_rec (rec t) m).

(** Between two steps of a worker, the shared tracker makes steps of its own
    and the recorder behind it counts. *)
Inductive move : Tracker -> Tracker -> Prop :=
  | move_count m t : neutral m -> move t (counted m t)
  | move_step t t' : step t t' -> move t t'.

(** Those a worker is the author of: it counts, and it observes. *)
Inductive worker_move : Tracker -> Tracker -> Prop :=
  | worker_count m t : neutral m -> worker_move t (counted m t)
  | worker_observe now rnd g sid hk seq t t' :
      0 <= seq < 2 ^ 64 -> Nack.Observe now rnd g sid hk seq t = Some t' -> worker_move t t'.

Lemma worker_move_move t t' : worker_move t t' -> move t t'.
Proof.
  destruct 1 as [m t Hm|now rnd g sid hk seq t t' Hs Ho]; [by apply move_count|].
  eapply move_step, step_observe; [exact Hs|exact Ho].
Qed.

(** What a worker is never the author of. *)
Definition foreign (o : WOp) : Prop :=
  match o with WTrack _ | WCount _ => True | _ => False end.

(** A step that happens in one state, as a function of any. *)
Lemma step_function t t' : step t t' -> exists g, g t = t' /\ forall t0, rtc step t0 (g t0).
Proof.
  destruct 1 as [now rnd g sid hk seq t t' Hs Ho|hk seq t|w now drain t Hw|t
                |i iter now net e t t' n Hf Hr|i now net e n t Hf|o t].
  - exists (fun t0 => default t0 (Nack.Observe now rnd g sid hk seq t0)). split; [by rewrite Ho|].
    intros t0. destruct (Nack.Observe _ _ _ _ _ _ t0) eqn:E; [|done].
    eapply rtc_once, step_observe; [exact Hs|exact E].
  - exists (Fill hk seq). split; [done|]. intros t0. apply rtc_once, step_fill.
  - exists (sweepOnce w now drain). split; [done|]. intros t0. by apply rtc_once, step_sweep.
  - exists dispatch. split; [done|]. intros t0. apply rtc_once, step_dispatch.
  - exists (request i iter now net). unfold request. split; [by rewrite Hf, Hr|]. intros t0.
    destruct (flights t0 !! i) as [[e0|]|] eqn:E; try done.
    destruct (send_request iter now net e0 t0) eqn:Er. eapply rtc_once, step_request; [exact E|exact Er].
  - exists (respond i now net). unfold respond. split; [by rewrite Hf|]. intros t0.
    destruct (flights t0 !! i) as [[|e0 n0]|] eqn:E; try done. eapply rtc_once, step_response, E.
  - exists (fun t0 => NackSteps.with_registry t0 (Discovery.run_op (registry t0) o)). split; [done|].
    intros t0. apply rtc_once, step_registry.
Qed.

(** A worker sees a move as foreign events. *)
Lemma move_ops t t' :
  move t t' ->
  exists ops, Forall wop_ok ops /\ Forall foreign ops /\
    forall w, worker_run ops (join t w) = Some (join t' w).
Proof.
  destruct 1 as [m t Hm|t t' Hs].
  - exists [WCount m; WTrack (fun t => t)]. split_and!; [|by repeat constructor|done].
    apply Forall_cons_2; [exact Hm|]. apply Forall_singleton. intros t0. apply rtc_refl.
  - destruct (step_function t t' Hs) as (g & <- & Hg). exists [WTrack g].
    split_and!; [by apply Forall_singleton|by apply Forall_singleton|].
    intros w. by destruct t.
Qed.

Lemma moves_ops t t' :
  rtc move t t' ->
  exists ops, Forall wop_ok ops /\ Forall foreign ops /\
    forall w, worker_run ops (join t w) = Some (join t' w).
Proof.
  induction 1 as [t|t1 t2 t3 Hm _ (ops2 & H1 & H2 & H3)]; [by exists []|].
  destruct (move_ops t1 t2 Hm) as (ops1 & H4 & H5 & H6). exists (ops1 ++ ops2).
  split_and!; [by apply Forall_app|by apply Forall_app|]. intros w.
  unfold worker_run in *. by rewrite foldl_app, H6.
Qed.

(** Moves leave the configuration alone, and keep the accounts. *)
Lemma move_keeps t t' : move t t' -> cfg t' = cfg t.
Proof. destruct 1; [done|]. by apply step_keeps. Qed.

Lemma moves_keep t t' : rtc move t t' -> cfg t' = cfg t.
Proof. induction 1 as [|??? H _ IH]; [done|]. by rewrite IH, (move_keeps _ _ H). Qed.

Lemma move_balanced t t' : move t t' -> tracker_ok t -> tracker_ok t' /\ balanced t t'.
Proof.
  destruct 1 as [m t Hm|t t' Hs]; [|by apply step_pres]. intros Hok.
  split; [by apply (tracker_ok_ext t)|]. unfold balanced, NackSteps.balance, counted.
  cbn [with_recorder with_flows rec flows]. rewrite has_with_rec. split; [|done].
  destruct (rec t) as [r|]; [|done]. change (with_rec (Some r) m) with (Some (m r)).
  by rewrite (proj1 (Hm r)).
Qed.

Lemma moves_balanced t t' : rtc move t t' -> tracker_ok t -> tracker_ok t' /\ balanced t t'.
Proof.
  induction 1 as [|t1 t2 t3 H _ IH]; [done|]. intros Hok.
  destruct (move_balanced _ _ H Hok) as [Hok2 H12]. destruct (IH Hok2) as [Hok3 H23].
  split; [done|]. by etrans.
Qed.
End Moves.

(** ** What each goroutine does to the shared objects *)

Section Parts.
Context `{FL : FrameLib} `{SL : ShardLib}.
Context (fragments_ok : fragments_typed) (frames_ok : frames_typed) (v mk : bool).

Definition jitter_fine (t : Tracker) : Prop := 0 < i64 (JitterMax (cfg t) + 1).

Definition buffer_fine (w : Worker) : Prop :=
  forall b, reassemBuf w = Some b -> buf_ok b /\ same_config (worker_buffer v mk) b.

(** The tracker as the worker leaves it, seen from the one it found. *)
Definition moved (t0 : Tracker) (t : option Tracker) (r : option Recorder) : Prop :=
  exists t1, t = Some t1 /\ rtc worker_move t0 (with_recorder t1 r).

Lemma worker_moves_keep t t' : rtc worker_move t t' -> cfg t' = cfg t.
Proof. intros H. apply moves_keep. eapply rtc_subrel; [exact worker_move_move|exact H]. Qed.

Lemma moved_run o t w :
  wop_ok o -> (forall g, o <> WTrack g) -> jitter_fine t -> buffer_fine w ->
  exists w', run_wop o (join t w) = Some w' /\ buffer_fine w' /\
    moved t (tracker (core w')) (w_rec (core w')).
Proof.
  intros Ho Hno Hj Hb.
  pose proof (run_tq_from (moved t) False (fun s => 0 <= s < 2 ^ 64) (fun _ => False) ltac:(done)
    (fun raw f H => proj1 (frames_ok raw H) f) (fun raw f H => proj1 (proj2 (frames_ok raw H)) f)
    (fun raw f H => proj2 (proj2 (frames_ok raw H)) f)) as Hrun.
  assert (forall t1 r mt, neutral mt -> moved t t1 r -> moved t t1 (with_rec r mt)) as H1.
  { intros t1 r mt Hm (t2 & -> & Hr). exists t2. split; [done|].
    eapply rtc_r; [exact Hr|]. exact (worker_count mt (with_recorder t2 r) Hm). }
  assert (forall now rnd g sid hk seq t1 r, 0 <= seq < 2 ^ 64 -> moved t (Some t1) r ->
    match Nack.Observe now rnd g sid hk seq (with_flows t1 (flows t1) r) with
    | Some t' => moved t (Some t') (rec t') | None => False end) as H2.
  { intros now rnd g sid hk seq t1 r Hs (t2 & [= <-] & Hr).
    destruct (Observe_total now rnd g sid hk seq (with_flows t1 (flows t1) r)) as (t' & Hobs & _).
    { change (cfg _) with (cfg (with_recorder t1 r)). by rewrite (worker_moves_keep _ _ Hr). }
    rewrite Hobs. exists t'. split; [done|]. eapply rtc_r; [exact Hr|].
    destruct t'. by eapply worker_observe. }
  specialize (Hrun H1 H2 ltac:(done) v mk [o] (join t w) fragments_ok).
  rewrite Forall_singleton in Hrun. specialize (Hrun Ho).
  change (worker_run [o] (join t w)) with (run_wop o (join t w)) in Hrun.
  assert (forall g, WTrack g ∈ [o] -> False) as Hn
    by (intros g Hg%list_elem_of_singleton; by apply (Hno g)).
  assert (worker_inv (tq (moved t)) v mk (join t w)) as Hinv
    by (split; [exists t; split; [done|by destruct t]|exact Hb]).
  specialize (Hrun Hn Hinv). destruct (run_wop o (join t w)) as [w'|]; [|done].
  exists w'. destruct Hrun as [Ht Hb']. done.
Qed.

(** A worker's turn: it succeeds, and the others see moves. *)
Lemma on_worker_spec i o p :
  wop_ok o -> (forall g, o <> WTrack g) -> jitter_fine (shared p) -> Forall buffer_fine (workers p) ->
  exists p', on_worker i (run_wop o) p = Some p' /\ Forall buffer_fine (workers p') /\
    length (workers p') = length (workers p) /\
    announcer p' = announcer p /\ rtc worker_move (shared p) (shared p') /\
    (forall j, j <> i -> workers p' !! j = workers p !! j) /\
    forall w, workers p !! i = Some w -> exists w', workers p' !! i = Some w' /\
      worker_run [o; WTrack (fun t => t)] (join (shared p) w) = Some (join (shared p') w').
Proof.
  intros Ho Hno Hj Hbs. unfold on_worker.
  destruct (workers p !! i) as [w|] eqn:Ei; [|exists p; split_and!; done].
  assert (buffer_fine w) as Hb by (by apply (Forall_lookup_1 _ _ _ _ Hbs Ei)).
  destruct (moved_run o (shared p) w Ho Hno Hj Hb) as (w' & Hrun & Hb' & t' & Ht & Hm).
  rewrite Hrun. eexists. split; [done|]. cbn [workers shared announcer].
  split; [by apply Forall_insert|]. split; [apply length_insert|]. split; [done|].
  unfold leave. rewrite Ht. split; [exact Hm|].
  split; [intros j Hne; by apply list_lookup_insert_ne|].
  intros w0 [= <-]. exists w'. split; [apply list_lookup_insert_eq; by eapply lookup_lt_Some|].
  unfold worker_run. cbn [foldl mbind option_bind]. rewrite Hrun. cbn [run_wop mbind option_bind].
  unfold move_tracker. rewrite Ht. done.
Qed.

(** ** The announcement listener *)

(** What an event is to the group registry. *)
Definition announce_op (al : Announce.Listener) (ev : PEvent) : option SubtreeGroup.Op :=
  match ev with
  | PAnnounce now d from =>
      '(g, sid, secs) ← (announce_outcome d from al).2;
      Some (SubtreeGroup.OpAdd now g sid
              (if 0 <? secs then secs * Second else Announce.DefaultTTL al))
  | PAnnounceTick now => Some (SubtreeGroup.OpEvict now)
  | _ => None
  end.

Definition same_policy (al al' : Announce.Listener) : Prop :=
  Announce.DefaultTTL al' = Announce.DefaultTTL al /\
  Announce.SenderInclude al' = Announce.SenderInclude al /\
  Announce.SenderExclude al' = Announce.SenderExclude al.

Lemma announce_op_same al al' ev : same_policy al al' -> announce_op al' ev = announce_op al ev.
Proof.
  intros (E1 & E2 & E3). destruct ev; [done..| |done|done|done]. unfold announce_op, announce_outcome.
  destruct (_ <? _)%nat; [done|].
  assert (forall ip, senderAllowed al' ip = senderAllowed al ip) as ->
    by (intros ip; unfold senderAllowed; by rewrite E2, E3).
  destruct (negb _); [done|]. destruct (DecodeSubtreeAnnounce _); [|done]. simpl. by rewrite E1.
Qed.

(** It counts, and does to its registry what the announcement says. *)
Definition announced_as (al : Announce.Listener) (o : option SubtreeGroup.Op)
    (al' : Announce.Listener) : Prop :=
  same_policy al al' /\
  SubtreeGroup.run (option_list o) (Registry_ al) = Some (Registry_ al') /\
  exists m, neutral m /\ Rec al' = with_rec (Rec al) m.

Lemma rejected_neutral reason : neutral (SubtreeAnnounceRejected reason).
Proof. by apply add_neutral. Qed.

Lemma datagram_announced now d from al :
  reg_ok (Registry_ al) ->
  exists al', announce_datagram now d from al = Some al' /\ reg_ok (Registry_ al') /\
    announced_as al (announce_op al (PAnnounce now d from)) al'.
Proof.
  intros Hok. unfold announce_op, announce_outcome, announce_datagram.
  assert (forall reason, exists al', Some (with_rec_field al (SubtreeAnnounceRejected reason)) = Some al' /\
    reg_ok (Registry_ al') /\ announced_as al None al') as Hrej.
  { intros reason. eexists. split; [done|]. split; [done|]. split_and!; [done|done|].
    exists (SubtreeAnnounceRejected reason). split; [apply rejected_neutral|done]. }
  destruct (_ <? _)%nat; [apply Hrej|]. destruct (negb _); [apply Hrej|].
  destruct (DecodeSubtreeAnnounce _) as [ann|]; [|apply Hrej]. cbn zeta.
  destruct (Add_ok now (sa_GroupID ann) (sa_SubtreeID ann)
    (if 0 <? sa_TTL ann then sa_TTL ann * Second else Announce.DefaultTTL al) _ Hok)
    as (r & Hr & Hok' & _). rewrite Hr. eexists. split; [done|]. split; [done|].
  split; [done|]. split; [by cbn; rewrite Hr|]. exists SubtreeAnnounceReceived. split; [|done].
  by apply add_neutral.
Qed.

Lemma tick_announced now al :
  reg_ok (Registry_ al) ->
  reg_ok (Registry_ (announce_tick now al)) /\
  announced_as al (announce_op al (PAnnounceTick now)) (announce_tick now al).
Proof.
  intros Hok. destruct (Evict_ok now _ Hok) as [Hok' _]. unfold announced_as, announce_tick.
  destruct (SubtreeGroup.Evict now (Registry_ al)) as [n r] eqn:E. cbn [snd] in Hok'. split; [done|].
  split; [done|]. split; [change (Some (SubtreeGroup.Evict now (Registry_ al)).2 = Some r); by rewrite E|].
  exists (SubtreeGroupEvicted n (SubtreeGroup.Len r)).
  split; [|done]. intros r0. unfold SubtreeGroupEvicted. destruct (0 <? n).
  - split; [|by eexists _, _, _].
    by destruct (add_neutral subtreeGroupEvictions n [] ltac:(done) ltac:(done) ltac:(done) r0).
  - split; [done|]. eexists [], _, _. by rewrite app_nil_r.
Qed.

(** ** The beacon listener *)

Lemma datagram_moves now d t : rtc move t (on_beacon (beacon_datagram now d) t).
Proof.
  unfold on_beacon, beacon_datagram. destruct (DecodeADVERT _) as [a|]; [|by destruct t].
  destruct (has_flag _ _); [by destruct t|]. cbn [bl_Registry bl_Rec].
  eapply rtc_l; [apply move_step, (step_registry (Discovery.OpUpsert now a))|].
  eapply rtc_l; [apply (move_count BeaconAdvertReceived)|by destruct t].
  by apply add_neutral.
Qed.

Lemma beacon_tick_moves now t : rtc move t (on_beacon (beacon_tick now) t).
Proof.
  unfold on_beacon, beacon_tick. cbn [bl_Registry bl_Rec].
  eapply rtc_l; [apply move_step, (step_registry (Discovery.OpEvict now))|].
  eapply rtc_l; [apply (move_count (SetBeaconRegistryEndpoints (Discovery.Len (Discovery.Evict now (registry t)))))|by destruct t].
  intros r. split; [done|]. eexists [], _, _. by rewrite app_nil_r.
Qed.

(** ** Projection on a worker *)

Record process_ok (p : Process) : Prop := {
  po_jitter : jitter_fine (shared p);
  po_buffers : Forall buffer_fine (workers p);
  po_groups : forall al, announcer p = Some al -> reg_ok (Registry_ al);
}.

(** The datagrams and ticks of worker [i], as events of the process and as
    events of the worker. *)
Definition own (i : nat) (ev : PEvent) : option WOp :=
  match ev with
  | PData j e raw => if decide (j = i) then Some (WData e raw) else None
  | PTick j now => if decide (j = i) then Some (WTick now) else None
  | _ => None
  end.
Definition local (o : WOp) : option WOp :=
  match o with WData _ _ | WTick _ => Some o | _ => None end.

Lemma foreign_local ops : Forall foreign ops -> omap local ops = [].
Proof. by induction 1 as [|[] ops H _ IH]. Qed.

(** The registry after the announcements and evictions among [evs]. *)
Definition groups_after (p0 : Process) (evs : list PEvent) (r : SubtreeGroup.Registry) : Prop :=
  exists al, announcer p0 = Some al /\
    SubtreeGroup.run (omap (announce_op al) evs) (Registry_ al) = Some r.

(** Worker [i] has come from [w0] by a run of its own in which the registry is
    only ever seen in states it was in. *)
Definition projects (p0 : Process) (evs : list PEvent) (p : Process) (i : nat) (w0 : Worker) : Prop :=
  exists w ops, workers p !! i = Some w /\ Forall wop_ok ops /\
    worker_run ops (join (shared p0) w0) = Some (join (shared p) w) /\
    omap local ops = omap (own i) evs /\
    forall r, WGroups r ∈ ops -> exists evs1, evs1 `prefix_of` evs /\ groups_after p0 evs1 r.

Lemma projects_step p0 evs ev p p' i w0 w w' ops :
  projects p0 evs p i w0 -> workers p !! i = Some w -> workers p' !! i = Some w' ->
  Forall wop_ok ops -> worker_run ops (join (shared p) w) = Some (join (shared p') w') ->
  omap local ops = option_list (own i ev) ->
  (forall r, WGroups r ∈ ops -> groups_after p0 evs r) ->
  projects p0 (evs ++ [ev]) p' i w0.
Proof.
  intros (w1 & ops1 & Hw1 & Hops1 & Hrun1 & Hloc & Hseen) Hw Hw' Hops Hrun Hown Hgr.
  rewrite Hw in Hw1. injection Hw1 as <-. exists w', (ops1 ++ ops). split; [done|].
  split; [by apply Forall_app|]. split; [unfold worker_run in *; by rewrite foldl_app, Hrun1|].
  split; [rewrite !omap_app, Hloc, Hown; f_equal; simpl; by destruct (own i ev)|].
  intros r [Hr|Hr]%elem_of_app.
  - destruct (Hseen r Hr) as (evs1 & Hp & Hg). exists evs1. split; [by apply prefix_app_r|done].
  - exists evs. split; [by eexists|]. by apply Hgr.
Qed.

(** The others' events are moves. *)
Lemma projects_moves p0 evs ev p p' i w0 :
  projects p0 evs p i w0 -> workers p' !! i = workers p !! i ->
  rtc move (shared p) (shared p') -> own i ev = None -> projects p0 (evs ++ [ev]) p' i w0.
Proof.
  intros Hp Hw Hm Ho. pose proof Hp as (w & _ & Ew & _).
  destruct (moves_ops _ _ Hm) as (ops & Hok & Hf & Hrun).
  eapply (projects_step p0 evs ev p p' i w0 w w ops); [done|done|congruence|done|apply Hrun| |].
  - by rewrite Ho, foreign_local.
  - intros r Hr. rewrite Forall_forall in Hf. by apply Hf in Hr.
Qed.

Record follows (p0 : Process) (evs : list PEvent) (p : Process) : Prop := {
  fo_ok : process_ok p;
  fo_moves : rtc move (shared p0) (shared p);
  fo_announcer : match announcer p with
                 | Some al => (exists al0, announcer p0 = Some al0 /\ same_policy al0 al) /\
                              groups_after p0 evs (Registry_ al)
                 | None => announcer p0 = None
                 end;
  fo_length : length (workers p) = length (workers p0);
  fo_workers : forall i w0, workers p0 !! i = Some w0 -> projects p0 evs p i w0;
}.

Lemma groups_after_snoc p0 evs ev al0 r r' :
  groups_after p0 evs r -> announcer p0 = Some al0 ->
  SubtreeGroup.run (option_list (announce_op al0 ev)) r = Some r' ->
  groups_after p0 (evs ++ [ev]) r'.
Proof.
  intros (al & Hal & Hr) E Hr'. rewrite Hal in E. injection E as ->. exists al0. split; [done|].
  rewrite omap_app. unfold SubtreeGroup.run in *. rewrite foldl_app, Hr. simpl.
  by destruct (announce_op al0 ev).
Qed.

(** Events that neither touch the announcement listener nor belong to a worker
    but through moves. *)
Lemma follows_same_announcer p0 evs ev p :
  follows p0 evs p -> (is_Some (announcer p) -> forall al, announce_op al ev = None) ->
  match announcer p with
  | Some al => (exists al0, announcer p0 = Some al0 /\ same_policy al0 al) /\
               groups_after p0 (evs ++ [ev]) (Registry_ al)
  | None => announcer p0 = None
  end.
Proof.
  intros Hf Hn. pose proof (fo_announcer _ _ _ Hf) as Ha.
  destruct (announcer p) as [al|]; [|done]. destruct Ha as [(al0 & E & Hs) Hg].
  split; [by exists al0|]. eapply groups_after_snoc; [exact Hg|exact E|]. by rewrite Hn by eauto.
Qed.

(** A turn of the goroutines of the tracker, or of the beacon listener. *)
Lemma follows_tracker p0 evs ev p f :
  follows p0 evs p -> rtc move (shared p) (f (shared p)) ->
  (forall i, own i ev = None) -> (is_Some (announcer p) -> forall al, announce_op al ev = None) ->
  follows p0 (evs ++ [ev]) (on_tracker f p).
Proof.
  intros Hf Hm Ho Ha. destruct (fo_ok _ _ _ Hf) as [Hj Hb Hg]. split.
  - split; [|done..]. unfold jitter_fine in *. simpl. by rewrite (moves_keep _ _ Hm).
  - etrans; [apply (fo_moves _ _ _ Hf)|exact Hm].
  - by apply (follows_same_announcer p0 evs ev p).
  - apply (fo_length _ _ _ Hf).
  - intros i w0 Hi. eapply projects_moves; [by apply (fo_workers _ _ _ Hf)|done|done|apply Ho].
Qed.

(** A turn of a worker. *)
Lemma follows_worker p0 evs ev p i o :
  follows p0 evs p -> wop_ok o -> (forall g, o <> WTrack g) ->
  (forall j, option_list (own j ev) = if decide (j = i) then omap local [o] else []) ->
  (forall al, announce_op al ev = None) -> (forall r, o = WGroups r -> groups_after p0 evs r) ->
  exists p', on_worker i (run_wop o) p = Some p' /\ follows p0 (evs ++ [ev]) p'.
Proof.
  intros Hf Hok Hno Ho Ha Hr. destruct (fo_ok _ _ _ Hf) as [Hj Hb Hg].
  destruct (on_worker_spec i o p Hok Hno Hj Hb)
    as (p' & Hp' & Hb' & Hlen & Ean & Hwm & Hothers & Hown).
  assert (rtc move (shared p) (shared p')) as Hm
    by (eapply rtc_subrel; [exact worker_move_move|exact Hwm]).
  exists p'. split; [exact Hp'|]. split.
  - split; [|done|by rewrite Ean]. unfold jitter_fine in *. by rewrite (moves_keep _ _ Hm).
  - etrans; [apply (fo_moves _ _ _ Hf)|exact Hm].
  - rewrite Ean. by apply (follows_same_announcer p0 evs ev p).
  - rewrite Hlen. apply (fo_length _ _ _ Hf).
  - intros j w0 Hj0. pose proof (fo_workers _ _ _ Hf j w0 Hj0) as Hp. destruct (decide (j = i)) as [->|Hne].
    + pose proof Hp as (w & _ & Ew & _). destruct (Hown w Ew) as (w' & Ews & Hrun).
      eapply (projects_step p0 evs ev p p' i w0 w w'); [done|done|done| |exact Hrun| |].
      * apply Forall_cons_2; [exact Hok|]. apply Forall_singleton. intros t. apply rtc_refl.
      * rewrite Ho, decide_True by done. simpl. by destruct (local o).
      * intros r [E|E]%elem_of_cons; [by apply Hr|]. by apply list_elem_of_singleton in E.
    + eapply projects_moves; [done|by apply Hothers|done|].
      specialize (Ho j). rewrite decide_False in Ho by done. by destruct (own j ev).
Qed.

(** A turn of the announcement listener. *)
Lemma follows_announcement p0 evs ev p f :
  follows p0 evs p -> (forall i, own i ev = None) ->
  (forall al, reg_ok (Registry_ al) ->
     exists al', f al = Some al' /\ reg_ok (Registry_ al') /\ announced_as al (announce_op al ev) al') ->
  exists p', on_announcer f p = Some p' /\ follows p0 (evs ++ [ev]) p'.
Proof.
  intros Hf Ho Hstep. unfold on_announcer. destruct (announcer p) as [al|] eqn:Ea.
  2: { exists p. split; [done|].
       assert (follows p0 (evs ++ [ev]) (on_tracker (fun t => t) p)) as H
         by (apply follows_tracker; [done|apply rtc_refl|done|rewrite Ea; by intros [? [=]]]).
       by destruct p. }
  destruct (fo_ok _ _ _ Hf) as [Hj Hb Hg].
  destruct (Hstep (set_Rec al (rec (shared p)))) as (al' & -> & Hok' & Hpol & Hrun & m & Hm & Hrec);
    [exact (Hg al Ea)|].
  eexists. split; [done|].
  assert (rtc move (shared p) (with_recorder (shared p) (Rec al'))) as Hmv.
  { apply rtc_once. rewrite Hrec. exact (move_count m (shared p) Hm). }
  pose proof (fo_announcer _ _ _ Hf) as Hann. rewrite Ea in Hann.
  destruct Hann as [(al0 & E0 & Hs0) Hgr].
  assert (announce_op (set_Rec al (rec (shared p))) ev = announce_op al0 ev) as Eop
    by (apply (announce_op_same al0); exact Hs0).
  split.
  - split; [exact Hj|exact Hb|by intros ? [= <-]].
  - etrans; [apply (fo_moves _ _ _ Hf)|exact Hmv].
  - cbn [announcer]. split.
    + exists al0. split; [done|]. destruct Hs0 as (?&?&?), Hpol as (?&?&?). unfold set_Rec in *; simpl in *; split_and!; congruence.
    + eapply groups_after_snoc; [exact Hgr|exact E0|]. by rewrite <- Eop.
  - apply (fo_length _ _ _ Hf).
  - intros i w0 Hi. eapply projects_moves; [by apply (fo_workers _ _ _ Hf)|done|done|apply Ho].
Qed.

Lemma request_steps i iter now net t : rtc move t (request i iter now net t).
Proof.
  unfold request. destruct (flights t !! i) as [[e|]|] eqn:E; try done.
  destruct (send_request iter now net e t) eqn:Er.
  eapply rtc_once, move_step, step_request; [exact E|exact Er].
Qed.

Lemma respond_steps i now net t : rtc move t (respond i now net t).
Proof.
  unfold respond. destruct (flights t !! i) as [[|e n]|] eqn:E; try done.
  eapply rtc_once, move_step, step_response, E.
Qed.

Lemma follows_step p0 evs ev p :
  follows p0 evs p -> pevent_ok ev ->
  exists p', pstep ev p = Some p' /\ follows p0 (evs ++ [ev]) p'.
Proof.
  intros Hf Hok.
  destruct ev as [i|i e raw|i now|w now drain| |i iter now net|i now net|now d from|now|now d|now];
    cbn [pstep pevent_ok] in *.
  - unfold view. destruct (announcer p) as [al|] eqn:Ea.
    + apply follows_worker; [done..|by intros j; case_decide|done|]. intros r [= <-].
      pose proof (fo_announcer _ _ _ Hf) as Ha. rewrite Ea in Ha. apply Ha.
    + assert (follows p0 (evs ++ [PView i]) (on_tracker (fun t => t) p)) as H
        by (apply follows_tracker; [done|apply rtc_refl|done|done]).
      exists p. split; [done|]. by destruct p.
  - apply (follows_worker _ _ _ _ i (WData e raw)); [done|done|done| |done|done].
    intros j. cbn [own]. by repeat case_decide; subst.
  - apply (follows_worker _ _ _ _ i (WTick now)); [done|done|done| |done|done].
    intros j. cbn [own]. by repeat case_decide; subst.
  - eexists. split; [done|]. apply follows_tracker; [done| |done|done].
    by apply rtc_once, move_step, step_sweep.
  - eexists. split; [done|]. apply follows_tracker; [done| |done|done].
    apply rtc_once, move_step, step_dispatch.
  - eexists. split; [done|]. apply follows_tracker; [done|apply request_steps|done|done].
  - eexists. split; [done|]. apply follows_tracker; [done|apply respond_steps|done|done].
  - apply follows_announcement; [done|done|]. intros al. apply datagram_announced.
  - apply follows_announcement; [done|done|]. intros al Hal. eexists. split; [done|].
    by apply tick_announced.
  - eexists. split; [done|]. apply follows_tracker; [done|apply datagram_moves|done|done].
  - eexists. split; [done|]. apply follows_tracker; [done|apply beacon_tick_moves|done|done].
Qed.

Lemma follows_run p0 evs :
  process_ok p0 -> Forall pevent_ok evs -> exists p, prun evs p0 = Some p /\ follows p0 evs p.
Proof.
  intros H0. induction evs as [|ev evs IH] using rev_ind.
  - intros _. exists p0. split; [done|]. split; [done|apply rtc_refl| |done|].
    + destruct (announcer p0) as [al|] eqn:E; [|done]. split; [by exists al|]. by exists al.
    + intros i w Hw. exists w, []. split_and!; [done..|]. intros r Hr. by apply elem_of_nil in Hr.
  - intros [Hl [He _]%Forall_cons]%Forall_app. destruct (IH Hl) as (p & Hp & Hf).
    destruct (follows_step p0 evs ev p Hf He) as (p' & Hp' & Hf'). exists p'. split; [|done].
    unfold prun in *. by rewrite foldl_snoc, Hp.
Qed.
End Parts.

(** ** The process that [main] starts *)

Section Started.
Context `{FL : FrameLib} `{SL : ShardLib}.

Lemma start_workers_lookup cfg io hio e n i ws :
  start_workers cfg io hio e n i = inl ws ->
  length ws = n /\
  forall k w, ws !! k = Some w ->
    start_worker cfg (io (i + k)%nat) (hio (i + k)%nat) e (Z.of_nat (i + k)) = inl w.
Proof.
  revert i ws. induction n as [|n IH]; intros i ws; simpl; [by intros [= <-]|].
  destruct (start_worker cfg (io i) (hio i) e (Z.of_nat i)) as [w0|] eqn:E0; [|done]. simpl.
  destruct (start_workers cfg io hio e n (S i)) as [ws'|] eqn:E1; [|done]. intros [= <-].
  destruct (IH _ _ E1) as [Hl Hk]. split; [by simpl; rewrite Hl|]. intros [|k] w; simpl.
  - intros [= <-]. by rewrite Nat.add_0_r.
  - intros Hw. rewrite Nat.add_succ_r. by apply Hk.
Qed.

Context (cfg : Config) (io hio : nat -> SinkIO) (e : Env) (p0 : Process).
Context (Hstart : start_process cfg io hio e = inl p0).

Lemma start_shape :
  length (workers p0) = Z.to_nat (NumWorkers cfg) /\ shared p0 = make_tracker cfg /\
  announcer p0 = fst <$> make_announce cfg /\
  forall i w, workers p0 !! i = Some w ->
    start_worker cfg (io i) (hio i) e (Z.of_nat i) = inl w.
Proof.
  unfold start_process in Hstart.
  destruct (start_workers cfg io hio e _ 0) as [ws|] eqn:E; [|done].
  injection Hstart as <-. by destruct (start_workers_lookup _ _ _ _ _ _ _ E).
Qed.

Lemma start_started i w : workers p0 !! i = Some w -> started cfg w.
Proof. intros Hw. eapply start_worker_started. by apply start_shape. Qed.

(** A started worker already holds the shared objects. *)
Lemma join_started i w : workers p0 !! i = Some w -> join (shared p0) w = w.
Proof.
  intros Hw. pose proof (start_started i w Hw) as Hst.
  pose proof (st_tracker _ _ Hst) as Ht. pose proof (st_rec _ _ Hst) as Hr.
  destruct start_shape as (_ & -> & _). destruct w as [[] b]. unfold join, with_core, set_tracker.
  cbn in *. by subst.
Qed.

Lemma start_ok :
  0 <= NACKJitterMax cfg < 2 ^ 63 - 1 ->
  process_ok (VerifyPayloadHash cfg) (SubtreeDataVerifyMerkle cfg) p0.
Proof.
  intros Hj. destruct start_shape as (_ & Hs & Ha & Hw). split.
  - unfold jitter_fine. rewrite Hs. simpl. rewrite i64_id; lia.
  - apply Forall_lookup_2. intros i w Hi b Hb. pose proof (start_started i w Hi) as Hst.
    rewrite (st_buffer cfg w Hst), (st_verify cfg w Hst) in Hb. injection Hb as <-.
    apply worker_buffer_inv.
  - intros al. rewrite Ha. unfold make_announce, make_groupReg.
    destruct (0 <? length (SubtreeGroups cfg))%nat; [|done]. intros [= <-]. apply New_reg_ok.
Qed.

Context (Hjit : 0 <= NACKJitterMax cfg < 2 ^ 63 - 1).
Context (Hft : fragments_typed) (Hty : frames_typed).

(** The registry states of a run are histories of the configured registry. *)
Definition run_history (evs : list PEvent) (hist : list SubtreeGroup.Op) : Prop :=
  exists evs1 al, evs1 `prefix_of` evs /\ announcer p0 = Some al /\ hist = omap (announce_op al) evs1.

Lemma groups_after_announced evs evs1 r :
  evs1 `prefix_of` evs -> groups_after p0 evs1 r ->
  exists hist, run_history evs hist /\ announced cfg hist r.
Proof.
  intros Hp (al & Ha & Hr). exists (omap (announce_op al) evs1). split; [by exists evs1, al|].
  unfold announced. rewrite <- Hr. f_equal. destruct start_shape as (_ & _ & E & _). rewrite Ha in E.
  revert E. unfold make_announce, make_groupReg.
  destruct (0 <? length (SubtreeGroups cfg))%nat; [|done]. by intros [= ->].
Qed.

(** A worker's run inside the process. *)
Lemma process_worker evs p i w0 :
  prun evs p0 = Some p ->
  follows (VerifyPayloadHash cfg) (SubtreeDataVerifyMerkle cfg) p0 evs p ->
  workers p0 !! i = Some w0 ->
  exists w ops, workers p !! i = Some w /\ worker_run ops w0 = Some (join (shared p) w) /\
    Forall wop_ok ops /\ omap local ops = omap (own i) evs /\
    forall r, WGroups r ∈ ops -> exists hist, run_history evs hist /\ announced cfg hist r.
Proof.
  intros Hp Hf Hi.
  destruct (fo_workers _ _ _ _ _ Hf i w0 Hi) as (w & ops & Hw & Hops & Hrun & Hloc & Hseen).
  rewrite (join_started i w0 Hi) in Hrun. exists w, ops. split_and!; [done..|].
  intros r Hr. destruct (Hseen r Hr) as (evs1 & Hpre & Hg). by eapply groups_after_announced.
Qed.

(** An announcement of subtree [sid] for group [g] arrived from a sender the
    configuration admits. *)
Definition sender_admitted (ip : bytes) : Prop :=
  (forall n, n ∈ Config.SenderExclude cfg -> IPNet_Contains n ip = false) /\
  (Config.SenderInclude cfg = [] \/
   exists n, n ∈ Config.SenderInclude cfg /\ IPNet_Contains n ip = true).

Definition announced_in (evs : list PEvent) (g sid : bytes) : Prop :=
  exists now d from ann, PAnnounce now d from ∈ evs /\ sender_admitted (sockaddrToUDP from) /\
    DecodeSubtreeAnnounce (take (SubtreeAnnounceSize + 64) d) = Some ann /\
    sa_GroupID ann = g /\ sa_SubtreeID ann = sid.

Lemma promised_added dttl g sid hist x :
  promised dttl g sid hist = Some x -> exists now ttl, SubtreeGroup.OpAdd now g sid ttl ∈ hist.
Proof.
  induction hist as [|o hist IH] using rev_ind; [done|]. unfold promised. rewrite foldl_snoc.
  fold (promised dttl g sid hist). intros H.
  assert (forall now ttl, SubtreeGroup.OpAdd now g sid ttl ∈ hist ->
    exists now ttl, SubtreeGroup.OpAdd now g sid ttl ∈ hist ++ [o]) as Hl
    by (intros now ttl Hin; exists now, ttl; apply elem_of_app; by left).
  destruct o as [now g' s' ttl|g' s'|now]; simpl in H; [| |by destruct (IH H) as (?&?&?); eauto].
  - case_decide as E; [|by destruct (IH H) as (?&?&?); eauto]. destruct E as [<- <-].
    exists now, ttl. apply elem_of_app. right. by left.
  - case_decide; [done|]. by destruct (IH H) as (?&?&?); eauto.
Qed.

Lemma history_announced evs hist now g sid ttl :
  run_history evs hist -> SubtreeGroup.OpAdd now g sid ttl ∈ hist -> announced_in evs g sid.
Proof.
  intros (evs1 & al & [rest ->] & Ha & ->) (ev & Hev & Hop)%list_elem_of_omap.
  destruct ev as [| | | | | | |now' d from|now'| |]; try done. simpl in Hop.
  apply bind_Some in Hop as ([[g' sid'] secs] & Ho & [= <- <- <- _]).
  unfold announce_outcome in Ho. destruct (_ <? _)%nat; [done|].
  destruct (senderAllowed al (sockaddrToUDP from)) eqn:Es; [|done]. simpl in Ho.
  destruct (DecodeSubtreeAnnounce _) as [ann|] eqn:Ed; [|done]. injection Ho as <- <- <-.
  exists now', d, from, ann. split; [apply elem_of_app; by left|]. split; [|done].
  apply senderAllowed_spec in Es. destruct start_shape as (_ & _ & E & _). rewrite Ha in E.
  revert E. unfold make_announce, make_groupReg.
  destruct (0 <? length (SubtreeGroups cfg))%nat; [|done]. intros [= ->]. exact Es.
Qed.

(** What the configuration admits, given what was announced to the process. *)
Definition process_admits (evs : list PEvent) (f : Frame) : Prop :=
  shard_allowed (ShardInclude cfg) (GroupIndex (TxID f)) /\
  SubtreeID f ∉ SubtreeExclude cfg /\
  ((SubtreeInclude cfg = [] /\ SubtreeGroups cfg = []) \/
   SubtreeID f ∈ SubtreeInclude cfg \/
   exists g, g ∈ SubtreeGroups cfg /\ announced_in evs g (SubtreeID f)) /\
  (VerifyPayloadHash cfg = true -> Version f = FrameVerV2 -> sha256d (Payload f) = TxID f).

Lemma policy_process evs f : policy_admits cfg (run_history evs) f -> process_admits evs f.
Proof.
  intros (H1 & H2 & H3 & H4). split_and!; [done..| |done].
  destruct H3 as [H3|[H3|(g & hist & x & Hg & Hh & Hp)]]; [by left|by right; left|].
  right; right. exists g. split; [done|]. apply promised_added in Hp as (now & ttl & Hin).
  by eapply history_announced.
Qed.

(** C3: the process runs, and each of its workers runs as if it were alone among
    arbitrary moves of the objects it shares. Started from any configuration
    with a non-negative jitter bound, on any interleaving of datagrams, ticks,
    sweeps, dispatches, NACK exchanges, announcements and beacons, no goroutine
    panics; and worker [i] comes from its start by a run of its own, in which
    its datagrams and ticks are exactly those of the process in the same order,
    the others' work on the tracker and the recorder appears as steps of the
    tracker and counts, and the group registry is only seen in states the
    announcements and evictions before put it in. *)
Theorem process_refines_workers evs :
  Forall pevent_ok evs ->
  exists p, prun evs p0 = Some p /\ length (workers p) = Z.to_nat (NumWorkers cfg) /\
  forall i w0, workers p0 !! i = Some w0 -> exists w ops,
    workers p !! i = Some w /\ worker_run ops w0 = Some (join (shared p) w) /\
    Forall wop_ok ops /\ omap local ops = omap (own i) evs /\
    forall r, WGroups r ∈ ops -> exists hist, run_history evs hist /\ announced cfg hist r.
Proof.
  intros Hevs.
  destruct (follows_run Hft Hty _ _ p0 evs (start_ok Hjit) Hevs) as (p & Hp & Hf).
  exists p. split; [done|]. split; [rewrite (fo_length _ _ _ _ _ Hf); apply start_shape|].
  intros i w0 Hi. by apply process_worker.
Qed.

(** C1: the whole process enforces its configuration. On any interleaving of
    what arrives, no goroutine panics, and each of a worker's sinks only ever
    sends what the configuration admits for it. The unicast sink sends, whole or
    stripped as configured, block frames, subtree data frames, and data frames
    of an included shard, of a subtree not excluded, listed or announced for a
    subscribed group by an admitted sender while the process ran, and, under
    verification, with the right hash; legacy frames pass the same checks, with
    the zero subtree. The multicast sink sends only such data frames. The two
    header sinks, which no filter applies to, send only block announcements
    re-encoded with the block header as their whole payload. *)
Theorem process_enforces_configuration evs :
  Forall pevent_ok evs ->
  exists p, prun evs p0 = Some p /\
  forall i w, workers p !! i = Some w ->
    Forall (configured_output cfg (process_admits evs)) (sent (egr (core w))) /\
    (forall mc, mcastEgr (core w) = Some mc ->
      Forall (fun d => configured_data cfg (process_admits evs) d.2) (m_sent mc)) /\
    (forall s, headerEgr (core w) = Some s -> Forall header_output (sent s)) /\
    (forall mc, headerMCastEgr (core w) = Some mc ->
      Forall (fun d => header_output d.2) (m_sent mc)).
Proof.
  intros Hevs. destruct (follows_run Hft Hty _ _ p0 evs (start_ok Hjit) Hevs) as (p & Hp & Hf).
  exists p. split; [done|]. intros i w Hw.
  destruct (lookup_lt_is_Some_2 (workers p0) i) as [w0 Hi].
  { rewrite <- (fo_length _ _ _ _ _ Hf). by eapply lookup_lt_Some. }
  destruct (process_worker evs p i w0 Hp Hf Hi) as (w1 & ops & Hw1 & Hrun & Hops & _ & Hseen).
  rewrite Hw in Hw1. injection Hw1 as <-. destruct start_shape as (_ & _ & _ & Hstarted).
  destruct (configured_worker cfg (run_history evs) _ _ _ _ w0 ops Hjit (Hstarted i w0 Hi) Hft Hops Hseen)
    as (w' & Hrun' & Hsent & Hmc & Hhd).
  rewrite Hrun in Hrun'. injection Hrun' as <-. simpl in Hsent, Hmc, Hhd.
  assert (forall buf, configured_data cfg (policy_admits cfg (run_history evs)) buf ->
    configured_data cfg (process_admits evs) buf) as Hd.
  { intros buf (f & raw & H1 & H2 & H3). exists f, raw. split_and!; [done|by apply policy_process|done]. }
  split_and!; [| |apply Hhd..].
  - eapply Forall_impl; [exact Hsent|]. intros buf [H|H]; [left; by apply Hd|by right].
  - intros mc Emc. eapply Forall_impl; [by apply Hmc|]. intros d. apply Hd.
Qed.

(** C4: no gap of the process is lost from the accounts. All workers observe
    into one tracker while its goroutines sweep, request and read responses:
    after any interleaving, the gaps counted as detected are those suppressed,
    those given up, and those still pending. *)
Theorem process_gap_accounting evs :
  Forall pevent_ok evs ->
  exists p r, prun evs p0 = Some p /\ rec (shared p) = Some r /\
    value gapsDetected r = value gapsSuppressed r + value nacksUnrecovered r + PendingGaps (shared p).
Proof.
  intros Hevs. destruct (follows_run Hft Hty _ _ p0 evs (start_ok Hjit) Hevs) as (p & Hp & Hf).
  pose proof (fo_moves _ _ _ _ _ Hf) as Hm. destruct start_shape as (_ & Hs & _). rewrite Hs in Hm.
  destruct (moves_balanced _ _ Hm (New_tracker_ok _ _ _ _)) as [_ [Hb Hh]].
  destruct (rec (shared p)) as [r|] eqn:Er; [|done]. exists p, r. split_and!; [done..|].
  change (PendingGaps (shared p)) with (gaps_in (flows (shared p))).
  unfold NackSteps.balance in Hb. rewrite Er in Hb. unfold net, has in Hb. simpl in Hb.
  change (gaps_in ∅) with 0 in Hb. change (value _ (make_rec cfg)) with 0 in Hb. lia.
Qed.
End Started.
