(* ===== verification/ProcessNack.v ===== *)
(** Where the process sends its NACKs: only to endpoints that the configuration
    lists or that a beacon advertised. *)
From Stdlib Require Import ZArith Lia.
From stdpp Require Import sorting.
From S2P Require Import Prelude Sha256 Frame Metrics Net Reassembly Dedup SubtreeGroup Wire Advert Discovery.
From S2P Require Import Announce Nack NackSteps Egress Listener ListenerProps Filter Config Main.
From S2P Require Import Process MainProps ProcessProps.

(** ** Endpoints from known sources *)

Section Sources.
Context (A : string -> Prop).

Definition from (l : list EndpointEntry) : Prop := Forall (fun e => A (Discovery.Addr e)) l.

Record sourced (r : Discovery.Registry) : Prop := {
  src_entries : map_Forall (fun _ e => A (Discovery.Addr e)) (Discovery.entries r);
  src_seeds : from (seeds r);
  src_cache : forall s, snapshot r = Some s -> from s;
}.

Lemma Upsert_sourced now a r :
  A (host_port (Advert.NACKAddr a) (Advert.NACKPort a)) -> sourced r -> sourced (Upsert now a r).
Proof.
  intros Ha [H1 H2 H3]. split; [|done..]. simpl. apply map_Forall_insert_2; [|done].
  by destruct (Discovery.entries r !! Advert.InstanceID a).
Qed.

Lemma Evict_sourced now r : sourced r -> sourced (Discovery.Evict now r).
Proof.
  intros [H1 H2 H3]. split; [|done..]. intros id e He. simpl in He.
  apply map_lookup_filter_Some in He as [He _]. by apply (H1 id e).
Qed.

Lemma Seed_sourced addrs r : Forall A addrs -> sourced r -> sourced (Seed addrs r).
Proof.
  intros Ha [H1 H2 H3]. split; [done| |done]. simpl. apply Forall_lookup_2. intros i e He.
  rewrite list_lookup_imap in He. apply fmap_Some in He as (addr & Hi & ->). simpl.
  by eapply Forall_lookup_1.
Qed.

Lemma merged_from iter r : fair iter -> sourced r -> from (merged iter r).
Proof.
  intros Hi [H1 H2 _]. unfold from, merged. apply Forall_app. split.
  - rewrite (Hi _). apply Forall_forall. intros e (p & -> & Hp)%list_elem_of_fmap.
    destruct p as [id e]. apply elem_of_map_to_list in Hp. by apply (H1 id e).
  - by destruct (_ =? _)%nat.
Qed.

Lemma Snapshot_sourced iter r :
  fair iter -> sourced r -> from (Snapshot iter r).1 /\ sourced (Snapshot iter r).2.
Proof.
  intros Hi Hr. pose proof (merged_from iter r Hi Hr) as Hm.
  assert (from (merge_sort before (merged iter r))) as Hs
    by (unfold from; by rewrite merge_sort_Permutation).
  destruct Hr as [H1 H2 H3]. unfold Snapshot.
  destruct (snapshot r) as [s|] eqn:Es; [destruct (dirty r)|]; simpl; rewrite ?Es; simpl;
    (split; [by auto|split; [done|done|]]); simpl; intros s' Hs'; try (injection Hs' as <-; done).
  rewrite Es in Hs'. injection Hs' as <-. by auto.
Qed.

(** ** What the tracker sends *)

Definition sends_to (t : Tracker) : Prop :=
  sourced (registry t) /\ Forall (fun d : string * bytes => A d.1) (wire t).

Definition same_wire (t t' : Tracker) : Prop := registry t' = registry t /\ wire t' = wire t.

#[export] Instance same_wire_po : PreOrder same_wire.
Proof. split; [done|]. intros a b c [] []. split; congruence. Qed.

Lemma same_wire_sends t t' : same_wire t t' -> sends_to t -> sends_to t'.
Proof. unfold sends_to. by intros [-> ->]. Qed.

Lemma worker_move_wire t t' : rtc worker_move t t' -> same_wire t t'.
Proof.
  induction 1 as [|t1 t2 t3 H _ IH]; [done|]. etrans; [|exact IH]. clear IH.
  destruct H as [m t Hm|now rnd g sid hk seq t t' Hs Ho]; [done|].
  unfold Nack.Observe in Ho. destruct (seq =? 0); [by injection Ho as <-|].
  apply bind_Some in Ho as ([fs r] & _ & Ho). by injection Ho as <-.
Qed.

Lemma dispatch_wire t : same_wire t (dispatch t).
Proof. unfold dispatch. by destruct (waiting t); [destruct (_ <? _)%nat|destruct (nackQueue t)]. Qed.

Lemma iter_dispatch_wire n t : same_wire t (Nat.iter n dispatch t).
Proof. induction n as [|n IH]; [done|]. etrans; [exact IH|apply dispatch_wire]. Qed.

Lemma advance_wire now e imm n t : same_wire t (advanceEndpoint now e imm n t).
Proof.
  unfold advanceEndpoint. destruct (flows t !! _); [|done]. by destruct (pending _ !! _).
Qed.

Lemma drop_wire label hk seq t : same_wire t (drop_gap label hk seq t).
Proof. unfold drop_gap. destruct (flows t !! hk); [|done]. by destruct (pending _ !! _). Qed.

Lemma sweep_gap_wire now drain hk t seq : same_wire t (sweep_gap now drain hk t seq).
Proof.
  unfold sweep_gap. destruct (flows t !! hk); [|done]. destruct (pending _ !! _) as [e|]; [|done].
  destruct (_ <? _); [done|]. destruct (_ <=? _); [done|]. destruct (_ <? _); [|done].
  pose proof (iter_dispatch_wire (drain hk seq) t) as H. by destruct (_ <? _)%nat.
Qed.

Lemma retire_wire now hk t : same_wire t (retire_flow now hk t).
Proof. unfold retire_flow. destruct (flows t !! hk); [|done]. by destruct (_ && _). Qed.

Lemma sweep_wire w now drain t : same_wire t (sweepOnce w now drain t).
Proof.
  apply (sweepOnce_pres (same_wire t)); [| |done].
  - intros hk t1 seq H. etrans; [exact H|apply sweep_gap_wire].
  - intros hk t1 H. etrans; [exact H|apply retire_wire].
Qed.

Lemma response_wire now net e n t : same_wire t (send_response now net e n t).
Proof.
  unfold send_response. destruct (response net); [|apply advance_wire].
  destruct (DecodeResponse _); [|apply advance_wire].
  destruct (_ =? _); [apply drop_wire|]. destruct (_ =? _); [apply advance_wire|done].
Qed.

Lemma respond_wire i now net t : same_wire t (respond i now net t).
Proof.
  unfold respond. destruct (flights t !! i) as [[|e n]|]; [done| |done].
  destruct (response_wire now net e n t) as [H1 H2]. by split.
Qed.

Lemma request_sends i iter now net t : fair iter -> sends_to t -> sends_to (request i iter now net t).
Proof.
  intros Hi [Hr Hw]. unfold request. destruct (flights t !! i) as [[e|]|]; [|by split..].
  unfold send_request. destruct (Snapshot_sourced iter (registry t) Hi Hr) as [Hs Hreg].
  destruct (Snapshot iter (registry t)) as [snap reg]. cbn [fst snd] in *.
  set (t1 := with_sent t reg (rec t) (wire t)). assert (sends_to t1) as H1 by (by split).
  destruct (Z.eqb_spec (Z.of_nat (length snap)) 0) as [|Hn]; [exact H1|].
  pose proof (same_wire_sends _ _ (advance_wire now e false 0 t1) H1) as Hadv.
  set (idx := Z.to_nat _). assert (A (Discovery.Addr (nth idx snap dummy_endpoint))) as Ha.
  { assert (idx < length snap)%nat as Hlt
      by (subst idx; unfold clamp; destruct (Z.leb_spec (Z.of_nat (length snap)) (endpointIdx e)); lia).
    unfold from in Hs. rewrite Forall_forall in Hs. apply Hs, list_elem_of_In, nth_In, Hlt. }
  destruct (negb _); [exact Hadv|]. destruct (negb _); [exact Hadv|].
  split; [exact Hreg|]. simpl. apply Forall_app. split; [exact Hw|]. by apply Forall_singleton.
Qed.
End Sources.

(** ** The process *)

Section Process.
Context `{FL : FrameLib} `{SL : ShardLib}.
Context (cfg : Config) (io hio : nat -> SinkIO) (e : Env) (p0 : Process).
Context (Hstart : start_process cfg io hio e = inl p0).
Context (Hjit : 0 <= NACKJitterMax cfg < 2 ^ 63 - 1).
Context (Hft : fragments_typed) (Hty : frames_typed).

(** A beacon of a live endpoint arrived: [addr] is its NACK address. *)
Definition advertised_in (evs : list PEvent) (addr : string) : Prop :=
  exists now d a, PBeacon now d ∈ evs /\ DecodeADVERT (take (ADVERTSize + 64) d) = inl a /\
    has_flag (Advert.Flags a) FlagDraining = false /\ addr = host_port (Advert.NACKAddr a) (Advert.NACKPort a).

Definition known (evs : list PEvent) (addr : string) : Prop :=
  addr ∈ RetryEndpoints cfg \/ advertised_in evs addr.

Lemma known_more evs ev addr : known evs addr -> known (evs ++ [ev]) addr.
Proof.
  intros [H|(now & d & a & Hin & H)]; [by left|]. right. exists now, d, a.
  split; [apply elem_of_app; by left|done].
Qed.

Lemma sends_to_mono (A B : string -> Prop) t :
  (forall addr, A addr -> B addr) -> sends_to A t -> sends_to B t.
Proof.
  intros HAB [[H1 H2 H3] H4]. split; [split|].
  - intros id x Hx. apply HAB. by apply (H1 id).
  - eapply Forall_impl; [exact H2|]. intros x. apply HAB.
  - intros s Hs. eapply Forall_impl; [by apply H3|]. intros x. apply HAB.
  - eapply Forall_impl; [exact H4|]. intros x. apply HAB.
Qed.

Lemma start_sends : sends_to (known []) (shared p0).
Proof.
  destruct (start_shape _ _ _ _ _ Hstart) as (_ & -> & _). split; [|constructor].
  unfold make_tracker, Nack.New. cbn [registry default]. 
  assert (sourced (known []) NewRegistry) as Hnew.
  { split; [apply map_Forall_empty|constructor|by intros s [=]]. }
  destruct (_ <? _)%nat; [|exact Hnew]. apply Seed_sourced; [|exact Hnew].
  apply Forall_forall. intros addr Ha. by left.
Qed.

Lemma on_worker_wire i o p p' :
  process_ok (VerifyPayloadHash cfg) (SubtreeDataVerifyMerkle cfg) p -> wop_ok o ->
  (forall g, o <> WTrack g) -> on_worker i (run_wop o) p = Some p' ->
  same_wire (shared p) (shared p').
Proof.
  intros [Hj Hb _] Ho Hno Hp.
  destruct (on_worker_spec Hft Hty _ _ i o p Ho Hno Hj Hb) as (p1 & Hp1 & _ & _ & _ & Hm & _).
  rewrite Hp in Hp1. injection Hp1 as <-. by apply worker_move_wire.
Qed.

Lemma announcer_wire f p p' : on_announcer f p = Some p' -> same_wire (shared p) (shared p').
Proof.
  unfold on_announcer. destruct (announcer p); [|by intros [= <-]].
  by intros (al & _ & [= <-])%bind_Some.
Qed.

Lemma pstep_sends evs ev p p' :
  process_ok (VerifyPayloadHash cfg) (SubtreeDataVerifyMerkle cfg) p -> pevent_ok ev ->
  sends_to (known evs) (shared p) -> pstep ev p = Some p' ->
  sends_to (known (evs ++ [ev])) (shared p').
Proof.
  intros Hok He Hs Hp. apply (sends_to_mono _ (known (evs ++ [ev])) _ (known_more evs ev)) in Hs.
  assert (same_wire (shared p) (shared p') -> sends_to (known (evs ++ [ev])) (shared p')) as Hsame
    by (intros H; by apply (same_wire_sends _ _ _ H)).
  destruct ev as [i|i e' raw|i now|w now drain| |i iter now net|i now net|now d from|now|now d|now];
    cbn [pstep pevent_ok] in *.
  - apply Hsame. unfold view in Hp. destruct (announcer p); [|by injection Hp as <-].
    by apply (on_worker_wire i _ p p' Hok) in Hp.
  - apply Hsame. by apply (on_worker_wire i (WData e' raw) p p' Hok).
  - apply Hsame. by apply (on_worker_wire i (WTick now) p p' Hok).
  - apply Hsame. injection Hp as <-. apply sweep_wire.
  - apply Hsame. injection Hp as <-. apply dispatch_wire.
  - injection Hp as <-. by apply request_sends.
  - apply Hsame. injection Hp as <-. apply respond_wire.
  - apply Hsame. by apply announcer_wire in Hp.
  - apply Hsame. by apply announcer_wire in Hp.
  - injection Hp as <-. destruct Hs as [H1 H2]. split; [|exact H2].
    cbn [on_tracker shared]. unfold on_beacon, beacon_datagram. cbn [with_sent registry].
    destruct (DecodeADVERT _) as [a|] eqn:Ea; [|exact H1].
    destruct (has_flag (Advert.Flags a) FlagDraining) eqn:Ef; [exact H1|]. cbn [bl_Registry].
    apply Upsert_sourced; [|exact H1]. right. exists now, d, a.
    split_and!; [apply elem_of_app; right; by left|done..].
  - injection Hp as <-. destruct Hs as [H1 H2]. split; [|exact H2]. by apply Evict_sourced.
Qed.

(** C5: NACKs go only to known endpoints. On any interleaving, every NACK the
    process sends goes to an endpoint that the configuration lists or that a
    beacon received before announced, not draining, as its own. *)
Theorem nacks_go_to_known_endpoints evs :
  Forall pevent_ok evs ->
  exists p, prun evs p0 = Some p /\ Forall (fun d => known evs d.1) (wire (shared p)).
Proof.
  intros Hevs.
  assert (exists p, prun evs p0 = Some p /\
    follows (VerifyPayloadHash cfg) (SubtreeDataVerifyMerkle cfg) p0 evs p /\
    sends_to (known evs) (shared p)) as (p & Hp & _ & _ & Hw); [|by exists p].
  induction evs as [|ev evs IH] using rev_ind.
  - destruct (follows_run Hft Hty _ _ p0 [] (start_ok _ _ _ _ _ Hstart Hjit) Hevs) as (p & Hp & Hf).
    exists p. split_and!; [done..|]. injection Hp as <-. apply start_sends.
  - apply Forall_app in Hevs as [Hl [He _]%Forall_cons]. destruct (IH Hl) as (p & Hp & Hf & Hs).
    destruct (follows_step Hft Hty _ _ p0 evs ev p Hf He) as (p' & Hp' & Hf').
    exists p'. split_and!; [unfold prun in *; by rewrite foldl_snoc, Hp|done|].
    eapply pstep_sends; [apply (fo_ok _ _ _ _ _ Hf)|done|exact Hs|exact Hp'].
Qed.
End Process.
