(* ===== verification/ProcessForward.v ===== *)
(** What the process lets through: a data frame that the configuration admits
    when it arrives, given what was announced so far, is sent. *)
From Stdlib Require Import ZArith Lia.
From S2P Require Import Prelude Sha256 Frame Metrics Net Reassembly Dedup SubtreeGroup Wire Discovery.
From S2P Require Import Announce Nack NackSteps Egress Listener ListenerProps Filter Config Main.
From S2P Require Import Process MainProps ProcessProps.

(** ** One datagram *)

Section Datagram.
Context `{FL : FrameLib}.

(** A sink that can send: its socket is open, or it can dial. *)
Definition linked (s : Sender) : Prop :=
  (proto s = "udp"%string /\ udpConn s = true) \/ proto s = "tcp"%string.

Lemma linked_sends s buf : linked s -> sent (SendRaw io_fine buf s).2 = sent s ++ [buf].
Proof.
  unfold SendRaw. intros [[-> Hu]| ->]; simpl.
  - unfold sendUDP. by rewrite Hu.
  - unfold sendTCP. destruct (tcpConn s) as [c|] eqn:E; simpl; by rewrite ?E.
Qed.

Lemma track_sent g sid hk seq c c' : track g sid hk seq c = Some c' -> egr c' = egr c.
Proof.
  unfold track. destruct (tracker c) as [t|]; [|by intros [= <-]].
  by intros (t' & _ & [= <-])%bind_Some.
Qed.

Lemma unicast_egr send c : egr (unicast send c) = (send (egr c)).2.
Proof. unfold unicast. by destruct (send (egr c)) as [[err|] s]. Qed.

Lemma dedup_check_ext f c c' g :
  dedupSet c' = dedupSet c -> now_dedup (env c') = now_dedup (env c) ->
  (dedup_check g f c').1 = (dedup_check g f c).1.
Proof.
  unfold dedup_check. intros -> ->. destruct (dedupSet c); [|done].
  destruct (is_v2 f && _); [|done]. by destruct (SeenAndAdd _ _ _).
Qed.

(** A data frame that the filter allows and whose hash is right is sent, once. *)
Lemma data_forwarded raw f c c' :
  DecodeFrame raw = Some f ->
  (verifyPayloadHash c = true -> Version f = FrameVerV2 -> sha256d (Payload f) = TxID f) ->
  (Allow (clock (env c)) (GroupIndex (TxID f)) f (filt c)).1 = true ->
  linked (egr c) -> io_egr (env c) = io_fine -> process_data raw c = Some c' ->
  sent (egr c') = sent (egr c) ++
    if (dedup_check (GroupIndex (TxID f)) f c).1 then []
    else [if stripHeader (egr c) then Payload f else raw].
Proof.
  intros Hd Hh Ha Hl Hio Hp. unfold process_data in Hp. rewrite Hd in Hp.
  set (c1 := emit _ c) in Hp. change (verifyPayloadHash c1) with (verifyPayloadHash c) in Hp.
  assert (verifyPayloadHash c && is_v2 f && negb (bool_decide (sha256d (Payload f) = TxID f)) = false)
    as Hv.
  { unfold is_v2. destruct (verifyPayloadHash c); [|done]. destruct (Z.eqb_spec (Version f) FrameVerV2); [|done].
    by rewrite bool_decide_eq_true_2 by auto. }
  rewrite Hv in Hp. change (clock (env c1)) with (clock (env c)) in Hp.
  change (filt c1) with (filt c) in Hp.
  destruct (Allow _ _ f (filt c)) as [ok reason]. simpl in Ha. subst ok.
  assert (dedup_check (GroupIndex (TxID f)) f c1 =
    ((dedup_check (GroupIndex (TxID f)) f c).1,
     emit (FrameReceived (id c) (iface c) (if is_v2 f then "brc124" else "brc12"))
       (dedup_check (GroupIndex (TxID f)) f c).2)) as E.
  { unfold dedup_check. change (dedupSet c1) with (dedupSet c).
    change (now_dedup (env c1)) with (now_dedup (env c)). destruct (dedupSet c); [|done].
    destruct (is_v2 f && _); [|done]. by destruct (SeenAndAdd _ _ _). }
  rewrite E in Hp.
  assert (egr (dedup_check (GroupIndex (TxID f)) f c).2 = egr c /\
          env (dedup_check (GroupIndex (TxID f)) f c).2 = env c) as [Ee Ev].
  { unfold dedup_check. destruct (dedupSet c); [|done].
    destruct (is_v2 f && _); [|done]. by destruct (SeenAndAdd _ _ _). }
  destruct (dedup_check (GroupIndex (TxID f)) f c) as [seen c2]. cbn [fst snd] in *.
  destruct seen; [by rewrite app_nil_r, (track_sent _ _ _ _ _ _ Hp), <- Ee|].
  set (c3 := emit _ c2) in Hp. change (env c3) with (env c2) in Hp. rewrite Ev, Hio in Hp.
  set (c4 := multicast _ _ _ _) in Hp.
  assert (egr c' = egr c4) as ->
    by (destruct (is_v2 f && _); [by apply track_sent in Hp|by injection Hp as <-]).
  subst c4. rewrite (proj1 (proj2 (multicast_frame _ _ _ _))), unicast_egr.
  change (egr c3) with (egr c2). rewrite Ee. by apply linked_sends.
Qed.
End Datagram.

(** ** The process *)

Section Process.
Context `{FL : FrameLib} `{SL : ShardLib}.
Context (cfg : Config) (io hio : nat -> SinkIO) (e0 : Env) (p0 : Process).
Context (Hstart : start_process cfg io hio e0 = inl p0).
Context (Hjit : 0 <= NACKJitterMax cfg < 2 ^ 63 - 1).
Context (Hft : fragments_typed) (Hty : frames_typed).

(** A worker as it serves the configuration, whatever it has met so far. *)
Record serves (w : Worker) : Prop := {
  sv_filt : exists r, filt (core w) = with_groups r (make_filter cfg);
  sv_verify : verifyPayloadHash (core w) = VerifyPayloadHash cfg;
  sv_strip : stripHeader (egr (core w)) = StripHeader cfg;
  sv_link : EgressProto cfg = "udp"%string \/ EgressProto cfg = "tcp"%string -> linked (egr (core w));
}.

Lemma worker_serves evs p i w :
  prun evs p0 = Some p ->
  follows (VerifyPayloadHash cfg) (SubtreeDataVerifyMerkle cfg) p0 evs p ->
  workers p !! i = Some w -> serves w.
Proof.
  intros Hp Hf Hw. destruct (lookup_lt_is_Some_2 (workers p0) i) as [w0 Hi].
  { rewrite <- (fo_length _ _ _ _ _ Hf). by eapply lookup_lt_Some. }
  destruct (process_worker cfg io hio e0 p0 Hstart evs p i w0 Hp Hf Hi)
    as (w1 & ops & Hw1 & Hrun & Hops & _).
  rewrite Hw in Hw1. injection Hw1 as <-. pose proof (start_started _ _ _ _ _ Hstart i w0 Hi) as Hst.
  rewrite (st_buffer cfg w0 Hst) in Hrun.
  destruct (run_sends _ _ _ _ Hft Hops (started_fresh cfg w0 Hst) Hrun)
    as [[(r & _ & H1) H2 (H3 & H4 & H5) _ _ _ _] _].
  simpl in *. rewrite (st_filt cfg w0 Hst) in H1. rewrite (st_verify cfg w0 Hst) in H2.
  rewrite (st_strip cfg w0 Hst) in H3. destruct (st_link cfg w0 Hst) as [Hpr Hu].
  rewrite Hpr in H4. split; [by exists r|done..|]. intros [E|E]; [left|right; by rewrite H4].
  by rewrite H4, H5, Hu.
Qed.

(** What happened to the group registry so far. *)
Definition group_ops (evs : list PEvent) : list SubtreeGroup.Op :=
  match announcer p0 with Some al => omap (announce_op al) evs | None => [] end.

(** The subtree of [f] is selected when the clock shows [clk]: no subtree is
    asked for, or it is listed, or a subscribed group's last announcement of it
    still runs (and the evictions did not run ahead of that clock). *)
Definition subtree_selected (evs : list PEvent) (clk : bytes -> Z) (f : Frame) : Prop :=
  (SubtreeInclude cfg = [] /\ SubtreeGroups cfg = []) \/ SubtreeID f ∈ SubtreeInclude cfg \/
  exists g x, g ∈ SubtreeGroups cfg /\
    promised (SubtreeGroupDefaultTTL cfg) g (SubtreeID f) (group_ops evs) = Some x /\ clk g < x /\
    forall now, PAnnounceTick now ∈ evs -> now <= clk g.

(** What the configuration admits when it arrives. *)
Definition admitted_now (evs : list PEvent) (clk : bytes -> Z) (f : Frame) : Prop :=
  shard_allowed (ShardInclude cfg) (GroupIndex (TxID f)) /\
  SubtreeID f ∉ SubtreeExclude cfg /\ subtree_selected evs clk f /\
  (VerifyPayloadHash cfg = true -> Version f = FrameVerV2 -> sha256d (Payload f) = TxID f).

Lemma ops_not_after evs t :
  (forall now, PAnnounceTick now ∈ evs -> now <= t) -> Forall (not_after t) (group_ops evs).
Proof.
  intros Ht. unfold group_ops. destruct (announcer p0) as [al|]; [|done].
  apply Forall_forall. intros o (ev & Hev & Ho)%list_elem_of_omap.
  destruct ev as [| | | | | | |now d from|now| |]; try done; simpl in Ho.
  - by apply bind_Some in Ho as ([[g sid] secs] & _ & [= <-]).
  - injection Ho as <-. by apply Ht.
Qed.

(** The worker's view of the registry, once it has looked. *)
Definition looks (p : Process) (c : Core) : Prop :=
  filt c = Filter.New (ShardInclude cfg) (SubtreeInclude cfg) (SubtreeExclude cfg)
             (Registry_ <$> announcer p).

Lemma view_looks evs p i w p1 :
  prun evs p0 = Some p ->
  follows (VerifyPayloadHash cfg) (SubtreeDataVerifyMerkle cfg) p0 evs p ->
  workers p !! i = Some w -> view i p = Some p1 ->
  announcer p1 = announcer p /\
  exists w1, workers p1 !! i = Some w1 /\ looks p (core w1) /\ egr (core w1) = egr (core w) /\
    verifyPayloadHash (core w1) = verifyPayloadHash (core w) /\ dedupSet (core w1) = dedupSet (core w).
Proof.
  intros Hp Hf Hw Hv. destruct (worker_serves evs p i w Hp Hf Hw) as [(r & Hr) _ _ _].
  pose proof (fo_announcer _ _ _ _ _ Hf) as Ha. destruct (start_shape _ _ _ _ _ Hstart) as (_ & _ & E & _).
  assert (make_announce cfg = None <-> make_groupReg cfg = None) as Hm
    by (unfold make_announce; by destruct (make_groupReg cfg)).
  unfold view in Hv. unfold looks. destruct (announcer p) as [al|] eqn:Eal.
  - destruct Ha as [(al0 & E0 & _) _]. unfold on_worker in Hv. rewrite Hw in Hv.
    injection Hv as <-. split; [exact Eal|].
    eexists. split; [apply list_lookup_insert_eq; by eapply lookup_lt_Some|]. split; [|done].
    simpl. rewrite Hr, with_groups_twice. unfold with_groups, make_filter, Filter.New. simpl.
    destruct (make_groupReg cfg); [done|]. rewrite E0 in E. by rewrite (proj2 Hm eq_refl) in E.
  - injection Hv as <-. split; [done|]. exists w. split; [done|]. split; [|done].
    rewrite Hr. unfold with_groups, make_filter, Filter.New. simpl. destruct (make_groupReg cfg) eqn:Eg; [|done].
    rewrite Ha in E. destruct (make_announce cfg) eqn:Em; [done|]. discriminate (proj1 Hm eq_refl).
Qed.

(** The filter of such a worker allows what is admitted. *)
Lemma looks_allows evs p c clk f :
  follows (VerifyPayloadHash cfg) (SubtreeDataVerifyMerkle cfg) p0 evs p ->
  looks p c -> admitted_now evs clk f -> (Allow clk (GroupIndex (TxID f)) f (filt c)).1 = true.
Proof.
  intros Hf Hl (Hs & Hx & Hsel & _). rewrite Hl. set (reg := Registry_ <$> announcer p).
  destruct (Allow_spec (ShardInclude cfg) (SubtreeInclude cfg) (SubtreeExclude cfg) reg clk
    (GroupIndex (TxID f)) f) as [[_ H1] _]. rewrite H1; [done|]. split_and!; [done..|].
  destruct (start_shape _ _ _ _ _ Hstart) as (_ & _ & E & _).
  pose proof (fo_announcer _ _ _ _ _ Hf) as Ha. subst reg. unfold seen_included.
  destruct Hsel as [[H2 H3]|[H2|(g & x & Hg & Hp & Hx' & Ht)]]; [left|by right; left|right; right].
  - split; [done|]. destruct (announcer p); [|done]. destruct Ha as [(al0 & E0 & _) _].
    rewrite E0 in E. revert E. unfold make_announce, make_groupReg. by rewrite H3.
  - unfold group_ops in Hp. pose proof (ops_not_after evs (clk g) Ht) as Hn. unfold group_ops in Hn.
    destruct (announcer p) as [al|]; [|by rewrite Ha in Hp].
    destruct Ha as [(al0 & E0 & _) (al1 & E1 & Hrun)]. rewrite E1 in Hp, Hn.
    assert (Registry_ al1 = SubtreeGroup.New (SubtreeGroups cfg) (SubtreeGroupDefaultTTL cfg)) as Er.
    { rewrite E1 in E. revert E. unfold make_announce, make_groupReg.
      destruct (0 <? length (SubtreeGroups cfg))%nat; [|done]. by intros [= ->]. }
    rewrite Er in Hrun.
    destruct (run_promised (SubtreeGroups cfg) (SubtreeGroupDefaultTTL cfg) _ _ Hn)
      as (r & Hr & _ & _ & _ & Hinv).
    rewrite Hrun in Hr. injection Hr as <-. exists (Registry_ al). split; [done|].
    apply Contains_stored. exists g, x. split; [|done]. by apply (proj2 (Hinv g _)).
Qed.

(** C2: what the configuration admits is forwarded. After any run of the whole
    process, let a worker look at the group registry and a data frame arrive
    there that the configuration admits at that moment: its shard is included,
    its subtree is not excluded and is listed, or the last announcement of it
    for a subscribed group still runs, and its hash is right when that is
    verified. Then, the network willing, the worker's sink sends it, in the
    configured form, unless the duplicate check recognises it. *)
Theorem admitted_frames_are_forwarded evs i e raw f :
  EgressProto cfg = "udp"%string \/ EgressProto cfg = "tcp"%string ->
  Forall pevent_ok evs -> Forall is_byte raw -> (i < Z.to_nat (NumWorkers cfg))%nat ->
  IsBlockFrame raw = false -> IsSubtreeDataFrame raw = false -> IsFragment raw = false ->
  DecodeFrame raw = Some f -> admitted_now evs (clock e) f -> io_egr e = io_fine ->
  exists p w p' w', prun evs p0 = Some p /\ workers p !! i = Some w /\
    prun (evs ++ [PView i; PData i e raw]) p0 = Some p' /\ workers p' !! i = Some w' /\
    sent (egr (core w')) = sent (egr (core w)) ++
      if (dedup_check (GroupIndex (TxID f)) f (set_env (core w) e)).1 then []
      else [if StripHeader cfg then Payload f else raw].
Proof.
  intros Hpr Hevs Hraw Hi Hk1 Hk2 Hk3 Hd Hadm Hio.
  destruct (follows_run Hft Hty _ _ p0 evs (start_ok _ _ _ _ _ Hstart Hjit) Hevs) as (p & Hp & Hf).
  destruct (start_shape _ _ _ _ _ Hstart) as (Hlen & _).
  destruct (lookup_lt_is_Some_2 (workers p) i) as [w Hw]; [by rewrite (fo_length _ _ _ _ _ Hf), Hlen|].
  destruct (follows_step Hft Hty _ _ p0 evs (PView i) p Hf I) as (p1 & Hp1 & Hf1).
  destruct (view_looks evs p i w p1 Hp Hf Hw Hp1) as (Ean & w1 & Hw1 & Hl & Ee & Ev & Ed).
  destruct (follows_step Hft Hty _ _ p0 _ (PData i e raw) p1 Hf1 Hraw) as (p' & Hp' & _).
  exists p, w, p'. unfold prun. rewrite foldl_app. fold (prun evs p0). rewrite Hp.
  cbn [foldl mbind option_bind]. rewrite Hp1. cbn [mbind option_bind].
  cbn [pstep] in Hp'. unfold on_worker in Hp'. rewrite Hw1 in Hp'.
  apply bind_Some in Hp' as (w' & Hw' & E).
  exists w'. split_and!; [done|done| |injection E as <-; apply list_lookup_insert_eq; by eapply lookup_lt_Some|].
  { cbn [pstep]. unfold on_worker. rewrite Hw1, Hw'. exact E. }
  unfold processFrame in Hw'. rewrite Hk1, Hk2, Hk3 in Hw'.
  apply fmap_Some in Hw' as (c' & Hc & ->). cbn [core with_core].
  destruct (worker_serves evs p i w Hp Hf Hw) as [_ Hver Hstrip Hlink].
  epose proof (data_forwarded raw f _ c' Hd) as H. rewrite H; clear H; [..|exact Hc].
  - simpl. rewrite Ee, Hstrip. by rewrite (dedup_check_ext f (set_env (core w) e)).
  - simpl. rewrite Ev, Hver. apply Hadm.
  - by apply (looks_allows evs p).
  - simpl. rewrite Ee. by apply Hlink.
  - done.
Qed.
End Process.
