(* ===== verification/Startup.v ===== *)
(** [run] of [main.go] as the sequence of what it does: the goroutines it
    launches, the sinks it opens and closes, and its end; the exit code of
    [main]; and what these actions do to the open sinks and the goroutines. *)
From Stdlib Require Import ZArith Lia.
From S2P Require Import Prelude Frame Metrics MetricsSetup Net Egress Listener Config Main Process.

Section Startup.
Context `{FL : FrameLib} `{SL : ShardLib}.

(** ** Actions *)

Inductive Goroutine :=
  | GDispatch | GGc | GServe | GAnnounce (groups : list UDPAddr) | GBeacon (groups : list UDPAddr)
  | GWorker (i : nat) | GTicker (i : nat).

(** The goroutines [wg] counts; [Tracker.Start] launches the first two on its
    own. *)
Definition awaited (g : Goroutine) : bool :=
  match g with GDispatch | GGc => false | _ => true end.

Inductive SinkKind := KEgress | KMCEgress | KHeaderEgress | KHeaderMCEgress.

#[export] Instance sink_kind_eq_dec : EqDecision SinkKind.
Proof. solve_decision. Defined.

(** A sink of a worker. *)
Abbreviation SinkId := (nat * SinkKind)%type (only parsing).

Inductive Action :=
  | Launch (g : Goroutine)
  | OpenSink (s : SinkId)
  | CloseSink (s : SinkId)
  | GotSignal
  | SetDrain
  | Sleep (ns : Z)
  | CancelCtx
  | CloseDone
  | AwaitAll
  | FlushMetrics.

(** ** The loop over the workers *)

(** The sinks of worker [i] that are enabled, in order, each with the error
    [run] returns for it and whether it opens. *)
Definition worker_sinks (cfg : Config) (io hio : SinkIO) : list (SinkKind * StartErr * bool) :=
  let opens {A} (o : option A) := bool_decide (o <> None) in
  [(KEgress, ErrEgress, opens (Egress.New (EgressAddr cfg) (EgressProto cfg) (StripHeader cfg)
                                 (udp_resolves io) (udp_dials io)))] ++
  (if MCEgressEnabled cfg
   then [(KMCEgress, ErrMCEgress,
          opens (NewMCast (MCEgressPrefix cfg) (MCEgressGroupID cfg) (MCEgressPort cfg)
                   (StripHeader cfg) (mc_socket io) (mc_if io) (mc_hops io) (mc_loop io)))]
   else []) ++
  (if HeaderEgressEnabled cfg
   then [(KHeaderEgress, ErrHeaderEgress,
          opens (Egress.New (HeaderEgressAddr cfg) (HeaderEgressProto cfg) false
                   (udp_resolves hio) (udp_dials hio)))]
   else []) ++
  (if HeaderMCEgressEnabled cfg
   then [(KHeaderMCEgress, ErrHeaderMCEgress,
          opens (NewMCast (HeaderMCEgressPrefix cfg) (HeaderMCEgressGroupID cfg)
                   (HeaderMCEgressPort cfg) false
                   (mc_socket hio) (mc_if hio) (mc_hops hio) (mc_loop hio)))]
   else []).

(** They are opened until one fails. *)
Fixpoint open_sinks (l : list (SinkKind * StartErr * bool)) : list SinkKind * option StartErr :=
  match l with
  | [] => ([], None)
  | (k, err, ok) :: l' =>
      if ok then let '(ks, e) := open_sinks l' in (k :: ks, e) else ([], Some err)
  end.

(** Actions, the sinks whose [Close] is deferred by then, and the error. *)
Fixpoint start_loop (cfg : Config) (io hio : nat -> SinkIO) (n i : nat)
    : list Action * list SinkId * option (nat * StartErr) :=
  match n with
  | O => ([], [], None)
  | S n' =>
      let '(ks, e) := open_sinks (worker_sinks cfg (io i) (hio i)) in
      let ids := pair i <$> ks in
      match e with
      | Some err => (OpenSink <$> ids, ids, Some (i, err))
      | None =>
          let '(acts, opened, r) := start_loop cfg io hio n' (S i) in
          ((OpenSink <$> ids) ++ [Launch (GWorker i); Launch (GTicker i)] ++ acts, ids ++ opened, r)
      end
  end.

(** ** [run] *)

(** The goroutines before the workers. *)
Definition launched (cfg : Config) : list Goroutine :=
  [GDispatch; GGc; GServe] ++
  (if (0 <? length (SubtreeGroups cfg))%nat then [GAnnounce (announceGroups cfg)] else []) ++
  (if BeaconEnabled cfg then [GBeacon [beaconGrp cfg]] else []).

Definition drain (cfg : Config) : list Action :=
  if 0 <? DrainTimeout cfg then [SetDrain; Sleep (DrainTimeout cfg)] else [].

(** [run] once the configuration is loaded and the recorder made. The deferred
    calls come last, in reverse; the first [defer] is the one of [cancel]. *)
Definition run_configured (cfg : Config) (io hio : nat -> SinkIO)
    : list Action * option (nat * StartErr) :=
  let '(acts, opened, err) := start_loop cfg io hio (Z.to_nat (NumWorkers cfg)) 0 in
  let deferred := (CloseSink <$> reverse opened) ++ [CancelCtx] in
  let start := (Launch <$> launched cfg) ++ acts in
  match err with
  | Some _ => (start ++ deferred, err)
  | None =>
      (start ++ [GotSignal] ++ drain cfg ++ [CancelCtx; CloseDone; AwaitAll; FlushMetrics] ++ deferred, None)
  end.

(** Everything [run] asks of the outside before it waits for a signal. *)
Record World := mkWorld {
  getenv : string -> string;
  InterfaceByName : string -> option Interface;
  NumCPU : Z;
  parse : Flags -> Flags;
  otel : Otel;
  version : string;
  sink_io : nat -> SinkIO;
  header_io : nat -> SinkIO;
}.

Inductive RunErr := RunConfig (e : LoadError) | RunMetrics (e : MetricsErr) | RunWorker (i : nat) (e : StartErr).

Definition run (W : World) : list Action * option RunErr :=
  match Load (getenv W) (InterfaceByName W) (NumCPU W) (parse W) with
  | inr e => ([], Some (RunConfig e))
  | inl cfg =>
      match MetricsSetup.New (otel W) (version W) (InstanceID cfg) (NumWorkers cfg)
              (OTLPEndpoint cfg) (OTLPInterval cfg) with
      | inr e => ([], Some (RunMetrics e))
      | inl _ =>
          let '(acts, err) := run_configured cfg (sink_io W) (header_io W) in
          (acts, (fun p => RunWorker p.1 p.2) <$> err)
      end
  end.

(** The exit code of [main]. *)
Definition main (W : World) : Z := match (run W).2 with Some _ => 1 | None => 0 end.

(** ** The sinks of a trace *)

(** The open sinks, last first; [None] when a sink that is not the last open
    one is closed. *)
Definition sink_step (acc : option (list SinkId)) (a : Action) : option (list SinkId) :=
  s ← acc;
  match a with
  | OpenSink id => Some (id :: s)
  | CloseSink id => match s with id' :: s' => if decide (id = id') then Some s' else None | [] => None end
  | _ => Some s
  end.

Definition sinks_after (acts : list Action) (s : list SinkId) : option (list SinkId) :=
  foldl sink_step (Some s) acts.

Lemma sinks_app a b s : sinks_after (a ++ b) s = sinks_after a s ≫= sinks_after b.
Proof.
  unfold sinks_after. rewrite foldl_app. destruct (foldl _ _ a); [done|]. simpl.
  by induction b.
Qed.

Lemma sinks_opened ids s : sinks_after (OpenSink <$> ids) s = Some (reverse ids ++ s).
Proof.
  revert s. induction ids as [|id ids IH]; intros s; [done|]. simpl.
  change (sinks_after (OpenSink <$> ids) (id :: s) = Some (reverse (id :: ids) ++ s)).
  by rewrite IH, reverse_cons, <- app_assoc.
Qed.

Lemma sinks_closed ids s : sinks_after (CloseSink <$> ids) (ids ++ s) = Some s.
Proof.
  revert s. induction ids as [|id ids IH]; intros s; [done|].
  change (sinks_after (CloseSink <$> id :: ids) ((id :: ids) ++ s)) with
    (foldl sink_step (if decide (id = id) then Some (ids ++ s) else None) (CloseSink <$> ids)).
  rewrite decide_True by done. apply IH.
Qed.

(** Actions that are not about sinks. *)
Definition no_sinks (a : Action) : Prop :=
  match a with OpenSink _ | CloseSink _ => False | _ => True end.

Lemma sinks_kept acts s : Forall no_sinks acts -> sinks_after acts s = Some s.
Proof.
  induction 1 as [|a acts Ha _ IH]; [done|].
  change (foldl sink_step (sink_step (Some s) a) acts = Some s). by destruct a.
Qed.

Lemma sinks_skip a b s : Forall no_sinks a -> sinks_after (a ++ b) s = sinks_after b s.
Proof. intros Ha. by rewrite sinks_app, sinks_kept. Qed.

(** ** The start *)

Lemma open_sinks_ok l : (open_sinks l).2 = None <-> Forall (fun p => p.2 = true) l.
Proof.
  induction l as [|[[k err] ok] l IH]; [done|]. rewrite Forall_cons. simpl. destruct ok.
  - destruct (open_sinks l) as [ks e]. simpl in *. rewrite IH. tauto.
  - simpl. intuition congruence.
Qed.

(** A worker is started with its sinks, and fails with the first that fails. *)
Lemma open_sinks_start_worker cfg io hio e i :
  match start_worker cfg io hio e i with
  | inl _ => (open_sinks (worker_sinks cfg io hio)).2 = None
  | inr err => (open_sinks (worker_sinks cfg io hio)).2 = Some err
  end.
Proof.
  unfold start_worker, worker_sinks, when.
  destruct (Egress.New (EgressAddr cfg) _ _ _ _); simpl; [|done].
  destruct (MCEgressEnabled cfg); simpl;
    [destruct (NewMCast (MCEgressPrefix cfg) _ _ _ _ _ _ _); simpl; [|done]|];
    (destruct (HeaderEgressEnabled cfg); simpl;
      [destruct (Egress.New (HeaderEgressAddr cfg) _ _ _ _); simpl; [|done]|]);
    (destruct (HeaderMCEgressEnabled cfg); simpl;
      [destruct (NewMCast (HeaderMCEgressPrefix cfg) _ _ _ _ _ _ _); simpl; done|]); done.
Qed.

(** The loop, with what it leaves to the deferred calls. *)
Lemma start_loop_spec cfg io hio e n i s :
  let '(acts, opened, err) := start_loop cfg io hio n i in
  sinks_after acts s = Some (reverse opened ++ s) /\
  match start_workers cfg io hio e n i with
  | inl _ => err = None
  | inr x => exists k, (i <= k < i + n)%nat /\ err = Some (k, x)
  end.
Proof.
  revert i s. induction n as [|n IH]; intros i s; [done|]. cbn [start_loop start_workers].
  pose proof (open_sinks_start_worker cfg (io i) (hio i) e (Z.of_nat i)) as Hw.
  destruct (open_sinks (worker_sinks cfg (io i) (hio i))) as [ks err] eqn:Eo. simpl in Hw.
  destruct (start_worker cfg (io i) (hio i) e (Z.of_nat i)) as [w|x]; subst err; cbn [rbind].
  2: { split; [apply sinks_opened|]. exists i. split; [lia|done]. }
  specialize (IH (S i) (reverse (pair i <$> ks) ++ s)).
  destruct (start_loop cfg io hio n (S i)) as [[acts opened] r]. destruct IH as [Hs Hr].
  split.
  - rewrite sinks_app, sinks_opened. simpl. change (sinks_after (Launch (GWorker i) :: Launch (GTicker i) :: acts)
      (reverse (pair i <$> ks) ++ s)) with (sinks_after acts (reverse (pair i <$> ks) ++ s)).
    by rewrite Hs, reverse_app, <- app_assoc.
  - destruct (start_workers cfg io hio e n (S i)) as [ws|x]; cbn [rbind].
    + exact Hr.
    + destruct Hr as (k & Hk & ->). exists k. split; [lia|done].
Qed.

Lemma start_loop_never_awaits cfg io hio n i : ~ AwaitAll ∈ (start_loop cfg io hio n i).1.1.
Proof.
  revert i. induction n as [|n IH]; intros i; cbn [start_loop]; [apply not_elem_of_nil|].
  destruct (open_sinks _) as [ks [err|]].
  - simpl. by intros (? & [=] & _)%list_elem_of_fmap.
  - specialize (IH (S i)). destruct (start_loop cfg io hio n (S i)) as [[acts opened] r]. simpl.
    intros [(? & [=] & _)%list_elem_of_fmap|H]%elem_of_app.
    rewrite !elem_of_cons in H. destruct H as [[=]|[[=]|H]]. by apply IH.
Qed.

Lemma launches_no_sinks gs : Forall no_sinks (Launch <$> gs).
Proof. by induction gs; constructor. Qed.

Lemma drain_no_sinks cfg : Forall no_sinks (drain cfg).
Proof. unfold drain. destruct (0 <? _); repeat constructor. Qed.

(** ** What the actions do

    The state the actions of a run act on: the open sinks (last first), the
    goroutines that may still run, and what they were told. An action that
    would go wrong gives [None]: a sink closed out of turn or under a goroutine
    of its worker, a channel closed twice, a wait for a goroutine that nobody
    told to stop, metrics flushed under their server. *)
Record RunState := mkRun {
  r_open : list SinkId;
  r_running : list Goroutine;
  r_cancelled : bool;
  r_done : bool;
  r_draining : bool;
  r_drained : Z;
  r_flushed : bool;
}.

Definition run_init : RunState := mkRun [] [] false false false 0 false.

(** The metrics server stops on [done], everything else on the context. *)
Definition told (s : RunState) (g : Goroutine) : bool :=
  match g with GServe => r_done s | _ => r_cancelled s end.

Definition uses (id : SinkId) (g : Goroutine) : bool :=
  match g with GWorker i | GTicker i => (i =? id.1)%nat | _ => false end.

Definition serves (g : Goroutine) : bool := match g with GServe => true | _ => false end.

Definition set_open (l : list SinkId) (s : RunState) : RunState :=
  mkRun l (r_running s) (r_cancelled s) (r_done s) (r_draining s) (r_drained s) (r_flushed s).
Definition set_running (l : list Goroutine) (s : RunState) : RunState :=
  mkRun (r_open s) l (r_cancelled s) (r_done s) (r_draining s) (r_drained s) (r_flushed s).

Definition act (s : RunState) (a : Action) : option RunState :=
  match a with
  | Launch g => Some (set_running (r_running s ++ [g]) s)
  | OpenSink id => Some (set_open (id :: r_open s) s)
  | CloseSink id =>
      match r_open s with
      | id' :: l => if bool_decide (id = id') && negb (existsb (uses id) (r_running s))
                    then Some (set_open l s) else None
      | [] => None
      end
  | GotSignal => Some s
  | SetDrain =>
      Some (mkRun (r_open s) (r_running s) (r_cancelled s) (r_done s) true (r_drained s) (r_flushed s))
  | Sleep ns =>
      let counted := if r_draining s && negb (r_cancelled s) then ns else 0 in
      Some (mkRun (r_open s) (r_running s) (r_cancelled s) (r_done s) (r_draining s)
              (r_drained s + counted) (r_flushed s))
  | CancelCtx =>
      Some (mkRun (r_open s) (r_running s) true (r_done s) (r_draining s) (r_drained s) (r_flushed s))
  | CloseDone =>
      if r_done s then None
      else Some (mkRun (r_open s) (r_running s) (r_cancelled s) true (r_draining s) (r_drained s)
                   (r_flushed s))
  | AwaitAll =>
      if forallb (fun g => negb (awaited g) || told s g) (r_running s)
      then Some (set_running (List.filter (fun g => negb (awaited g)) (r_running s)) s) else None
  | FlushMetrics =>
      if existsb serves (r_running s) then None
      else Some (mkRun (r_open s) (r_running s) (r_cancelled s) (r_done s) (r_draining s)
                   (r_drained s) true)
  end.

Fixpoint acts_run (acts : list Action) (s : RunState) : option RunState :=
  match acts with [] => Some s | a :: acts' => s' ← act s a; acts_run acts' s' end.

Lemma acts_run_app a b s : acts_run (a ++ b) s = acts_run a s ≫= acts_run b.
Proof. revert s. induction a as [|x a IH]; intros s; [done|]. simpl. destruct (act s x); [apply IH|done]. Qed.

Lemma acts_launch gs s :
  acts_run (Launch <$> gs) s = Some (set_running (r_running s ++ gs) s).
Proof.
  revert s. induction gs as [|g gs IH]; intros s; [destruct s; unfold set_running; simpl; by rewrite app_nil_r|].
  cbn [fmap list_fmap acts_run act mbind option_bind]. rewrite IH. simpl. by rewrite <- app_assoc.
Qed.

Lemma acts_open ids s :
  acts_run (OpenSink <$> ids) s = Some (set_open (reverse ids ++ r_open s) s).
Proof.
  revert s. induction ids as [|id ids IH]; intros s; [by destruct s|].
  cbn [fmap list_fmap acts_run act mbind option_bind]. rewrite IH, reverse_cons, <- app_assoc. done.
Qed.

Lemma acts_close ids s :
  r_open s = ids -> Forall (fun g => forall id, uses id g = false) (r_running s) ->
  acts_run (CloseSink <$> ids) s = Some (set_open [] s).
Proof.
  revert s. induction ids as [|id ids IH]; intros s Ho Hr; [destruct s; simpl in *; by subst|].
  assert (existsb (uses id) (r_running s) = false) as Hu.
  { clear -Hr. induction Hr as [|g l Hg _ IH]; [done|]. simpl. by rewrite Hg. }
  cbn [fmap list_fmap acts_run act]. rewrite Ho, Hu, bool_decide_eq_true_2 by done.
  cbn [andb negb mbind option_bind]. by rewrite IH.
Qed.

(** The sinks a worker has, and its two goroutines. *)
Definition enabled_sinks (cfg : Config) (i : nat) : list SinkId :=
  [(i, KEgress)] ++ (if MCEgressEnabled cfg then [(i, KMCEgress)] else []) ++
  (if HeaderEgressEnabled cfg then [(i, KHeaderEgress)] else []) ++
  (if HeaderMCEgressEnabled cfg then [(i, KHeaderMCEgress)] else []).

Definition worker_goroutines (i : nat) : list Goroutine := [GWorker i; GTicker i].

Lemma open_sinks_all l : (open_sinks l).2 = None -> (open_sinks l).1 = (fun p => p.1.1) <$> l.
Proof.
  induction l as [|[[k err] ok] l IH]; [done|]. simpl. destruct ok; [|done].
  destruct (open_sinks l) as [ks e]. simpl in *. intros H. by rewrite IH.
Qed.

Lemma worker_sinks_enabled cfg io hio i :
  pair i <$> ((fun p : SinkKind * StartErr * bool => p.1.1) <$> worker_sinks cfg io hio) =
    enabled_sinks cfg i.
Proof.
  unfold worker_sinks, enabled_sinks.
  by destruct (MCEgressEnabled cfg), (HeaderEgressEnabled cfg), (HeaderMCEgressEnabled cfg).
Qed.

(** A loop that starts all its workers opens all their sinks. *)
Lemma start_loop_acts cfg io hio n : forall i s,
  let q := start_loop cfg io hio n i in
  q.2 = None ->
  acts_run q.1.1 s =
    Some (set_open (reverse q.1.2 ++ r_open s)
            (set_running (r_running s ++ concat (worker_goroutines <$> seq i n)) s)) /\
  q.1.2 = concat (enabled_sinks cfg <$> seq i n).
Proof.
  induction n as [|n IH]; intros i s; cbn [start_loop].
  { intros _. split; [|done]. destruct s. unfold set_open, set_running. simpl. by rewrite app_nil_r. }
  pose proof (open_sinks_all (worker_sinks cfg (io i) (hio i))) as Hall.
  destruct (open_sinks (worker_sinks cfg (io i) (hio i))) as [ks [err|]]; [done|].
  cbn [fst snd] in Hall. rewrite Hall by done. rewrite worker_sinks_enabled.
  set (s1 := set_running (r_running s ++ worker_goroutines i)
               (set_open (reverse (enabled_sinks cfg i) ++ r_open s) s)).
  specialize (IH (S i) s1).
  destruct (start_loop cfg io hio n (S i)) as [[acts opened] r]. cbn [fst snd] in *.
  intros Hr. destruct (IH Hr) as [E1 ->]. split; [|done].
  rewrite acts_run_app, acts_open. cbn [mbind option_bind].
  change ([Launch (GWorker i); Launch (GTicker i)] ++ acts) with ((Launch <$> worker_goroutines i) ++ acts).
  rewrite acts_run_app, acts_launch. cbn [mbind option_bind].
  change (set_running _ (set_open _ s)) with s1. rewrite E1. unfold s1, set_open, set_running.
  cbn [r_open r_running r_cancelled r_done r_draining r_drained r_flushed seq fmap list_fmap concat].
  by rewrite reverse_app, <- !app_assoc.
Qed.

(** Of what is running, only the two goroutines of the tracker are not awaited. *)
Lemma unawaited_workers n : forall i,
  List.filter (fun g => negb (awaited g)) (concat (worker_goroutines <$> seq i n)) = [].
Proof. induction n as [|n IH]; intros i; [done|]. simpl. apply IH. Qed.

(** The shut-down, from the signal on. *)
Lemma shutdown_acts cfg st :
  r_cancelled st = false -> r_done st = false -> r_draining st = false -> r_drained st = 0 ->
  List.filter (fun g => negb (awaited g)) (r_running st) = [GDispatch; GGc] ->
  acts_run (drain cfg ++ [CancelCtx; CloseDone; AwaitAll; FlushMetrics] ++
            (CloseSink <$> r_open st) ++ [CancelCtx]) st =
    Some {| r_open := []; r_running := [GDispatch; GGc]; r_cancelled := true; r_done := true;
            r_draining := bool_decide (0 < DrainTimeout cfg);
            r_drained := Z.max 0 (DrainTimeout cfg); r_flushed := true |}.
Proof.
  intros Hc Hd Hdr Hz Hf.
  assert (acts_run (drain cfg) st = Some (mkRun (r_open st) (r_running st) false false
    (bool_decide (0 < DrainTimeout cfg)) (Z.max 0 (DrainTimeout cfg)) (r_flushed st))) as E.
  { unfold drain. destruct (Z.ltb_spec 0 (DrainTimeout cfg)).
    - rewrite bool_decide_eq_true_2 by done. simpl. rewrite Hc, Hd, Hz. simpl. do 2 f_equal. lia.
    - rewrite bool_decide_eq_false_2 by lia. rewrite Z.max_l by lia. destruct st. simpl in *. by subst. }
  rewrite acts_run_app, E. cbn [mbind option_bind].
  rewrite acts_run_app. cbn [acts_run act mbind option_bind r_done r_running].
  rewrite (proj2 (forallb_forall _ _)) by (intros []; done).
  cbn [set_running r_running]. rewrite Hf.
  cbn [set_running existsb serves orb mbind option_bind r_open r_running r_cancelled r_done r_draining r_drained r_flushed].
  rewrite acts_run_app. rewrite acts_close; [done|done|]. by repeat constructor.
Qed.


(** [main] exits with 1 exactly when the configuration is refused, the recorder
    cannot be made or a worker cannot be started. *)
Theorem main_exit_code W e :
  main W = 0 <-> exists cfg m p,
    Load (getenv W) (InterfaceByName W) (NumCPU W) (parse W) = inl cfg /\
    MetricsSetup.New (otel W) (version W) (InstanceID cfg) (NumWorkers cfg)
      (OTLPEndpoint cfg) (OTLPInterval cfg) = inl m /\
    start_process cfg (sink_io W) (header_io W) e = inl p.
Proof.
  unfold main, run. destruct (Load _ _ _ _) as [cfg|]; [|split; [done|by intros (? & ? & ? & [=] & _)]].
  destruct (MetricsSetup.New _ _ _ _ _ _) as [m|] eqn:Em;
    [|split; [done|intros (? & ? & ? & [= <-] & Hm & _); congruence]].
  unfold run_configured.
  pose proof (start_loop_spec cfg (sink_io W) (header_io W) e (Z.to_nat (NumWorkers cfg)) 0 []) as H.
  destruct (start_loop _ _ _ _ 0) as [[acts opened] err]. destruct H as [_ Hr].
  destruct (start_process cfg (sink_io W) (header_io W) e) as [p|x] eqn:Ep; pose proof Ep as Eq; unfold start_process in Eq;
    destruct (start_workers _ _ _ _ _ 0) as [ws|y]; try done.
  - subst err. simpl. split; [|done]. intros _. by exists cfg, m, p.
  - destruct Hr as (k & _ & ->). simpl. split; [done|]. intros (cfg' & m' & p & [= <-] & _ & Hp).
    congruence.
Qed.
End Startup.
