(* ===== verification/SinkTest.v ===== *)
(** The test tool [cmd/sink-test-frames]: it counts datagrams until it has seen
    enough of them or its timer runs out. *)
From Stdlib Require Import ZArith Lia.
From S2P Require Import Prelude Frame FrameExample.

Section Sink.
Context `{FL : FrameLib}.

(** The flags. *)
Record Opts := mkOpts { count : Z; raw : bool; timeout : Z }.

(** What [ReadFrom] returns. *)
Inductive Read := ReadErr | ReadFrom (datagram : bytes).

(** [received] and [done] are shared with [main]; [looping] is whether
    [recvLoop] has not returned. *)
Record Sink := mkSink { received : Z; looping : bool; done_ : bool }.

Definition sink_start : Sink := mkSink 0 true false.

Definition bufSize : nat := 65536.

(** A datagram [recvLoop] counts: any in raw mode, else a frame. *)
Definition counted (o : Opts) (datagram : bytes) : bool :=
  raw o || match DecodeFrame (take bufSize datagram) with Some _ => true | None => false end.

(** One round of [recvLoop]. *)
Definition recv_round (o : Opts) (r : Read) (s : Sink) : Sink :=
  if negb (looping s) then s
  else
    match r with
    | ReadErr => mkSink (received s) false (done_ s)
    | ReadFrom datagram =>
        if counted o datagram then
          let cnt := received s + 1 in
          if (0 <? count o) && (count o <=? cnt) then mkSink cnt false true
          else mkSink cnt true (done_ s)
        else s
    end.

(** What happens while [main] waits: a round of the loop, or its timer. *)
Inductive SinkEvent := ERead (r : Read) | ETimer.

Definition is_timer (ev : SinkEvent) : bool := match ev with ETimer => true | _ => false end.

Definition sink_event (o : Opts) (s : Sink) (ev : SinkEvent) : Sink :=
  match ev with ERead r => recv_round o r s | ETimer => s end.

Definition recvLoop (o : Opts) (evs : list SinkEvent) : Sink := foldl (sink_event o) sink_start evs.

(** The exit codes the [select] of [main] may choose from after [evs]: none
    while it blocks. There is a timer when the timeout is positive. *)
Definition exit_codes (o : Opts) (evs : list SinkEvent) : list Z :=
  (if done_ (recvLoop o evs) then [0] else []) ++
  (if (0 <? timeout o) && existsb is_timer evs then [1] else []).

(** [main]: without its socket it is fatal. *)
Definition sink_main (listens : bool) (o : Opts) (evs : list SinkEvent) : list Z :=
  if listens then exit_codes o evs else [1].

(** ** What it reports *)

(** The datagrams that arrive before the first read error. *)
Fixpoint arrived (evs : list SinkEvent) : list bytes :=
  match evs with
  | ERead (ReadFrom d) :: evs' => d :: arrived evs'
  | ERead ReadErr :: _ => []
  | ETimer :: evs' => arrived evs'
  | [] => []
  end.

Definition total (o : Opts) (evs : list SinkEvent) : Z :=
  Z.of_nat (length (filter (fun d => counted o d = true) (arrived evs))).

Lemma stopped_stays o s evs : looping s = false -> foldl (sink_event o) s evs = s.
Proof.
  intros Hs. induction evs as [|ev evs IH]; [done|]. simpl.
  assert (sink_event o s ev = s) as -> by (destruct ev; [|done]; simpl; unfold recv_round; by rewrite Hs).
  exact IH.
Qed.

(** The loop from any count below the limit. *)
Lemma loop_counts o k evs :
  (0 < count o -> k < count o) ->
  let s := foldl (sink_event o) (mkSink k true false) evs in
  (done_ s = true <-> 0 < count o <= k + total o evs) /\
  received s = if 0 <? count o then Z.min (count o) (k + total o evs) else k + total o evs.
Proof.
  unfold total. revert k. induction evs as [|ev evs IH]; intros k Hk; cbn zeta.
  { simpl. destruct (Z.ltb_spec 0 (count o)); split; try lia; split; (done || lia). }
  destruct ev as [[|d]|]; cbn [foldl arrived sink_event]; [| |by apply IH].
  - unfold recv_round. simpl. rewrite stopped_stays by done. simpl.
    destruct (Z.ltb_spec 0 (count o)); split; try lia; split; (done || lia).
  - unfold recv_round. cbn [looping negb received done_]. destruct (counted o d) eqn:Ed.
    + rewrite filter_cons_True by done. cbn [length]. rewrite Nat2Z.inj_succ. cbn zeta.
      destruct (Z.ltb_spec 0 (count o)) as [Hc|Hc], (Z.leb_spec (count o) (k + 1)) as [Hl|Hl]; cbn [andb].
      * rewrite stopped_stays by done. simpl. split; [|lia]. split; [|done]. lia.
      * destruct (IH (k + 1)) as [H1 H2]; [lia|]. cbn zeta in *. rewrite H1, H2. split; [lia|].
        destruct (Z.ltb_spec 0 (count o)); lia.
      * destruct (IH (k + 1)) as [H1 H2]; [lia|]. cbn zeta in *. rewrite H1, H2. split; [lia|].
        destruct (Z.ltb_spec 0 (count o)); lia.
      * destruct (IH (k + 1)) as [H1 H2]; [lia|]. cbn zeta in *. rewrite H1, H2. split; [lia|].
        destruct (Z.ltb_spec 0 (count o)); lia.
    + rewrite filter_cons_False by (by rewrite Ed). by apply IH.
Qed.

(** C40: the test sink's verdict. It may exit 0 exactly when it has its socket,
    the limit is positive, and at least that many countable datagrams (frames,
    or any in raw mode) came before the first read error; and 1 exactly when it
    has no socket or there is a timeout and it fired. It never reports more than
    the limit. *)
Theorem sink_verdict listens o evs :
  (0 ∈ sink_main listens o evs <-> listens = true /\ 0 < count o <= total o evs) /\
  (1 ∈ sink_main listens o evs <-> listens = false \/ (0 < timeout o /\ ETimer ∈ evs)) /\
  received (recvLoop o evs) =
    if 0 <? count o then Z.min (count o) (total o evs) else total o evs.
Proof.
  destruct (loop_counts o 0 evs) as [H1 H2]; [lia|]. cbn zeta in *. fold sink_start in *.
  fold (recvLoop o evs) in *. rewrite Z.add_0_l in *.
  assert (existsb is_timer evs = true <-> ETimer ∈ evs) as Ht.
  { rewrite existsb_exists. split; [intros ([|] & Hin & H); [done|by apply list_elem_of_In]|].
    intros Hin%list_elem_of_In. by exists ETimer. }
  split; [|split; [|exact H2]]; destruct listens; simpl; unfold exit_codes; rewrite ?elem_of_app;
    [|rewrite list_elem_of_singleton; lia| |rewrite list_elem_of_singleton; tauto].
  - rewrite <- H1. destruct (done_ _), (_ && _); rewrite ?elem_of_nil, ?list_elem_of_singleton; lia.
  - rewrite <- Ht. destruct (done_ _), (Z.ltb_spec 0 (timeout o)), (existsb is_timer evs); simpl;
      rewrite ?elem_of_nil, ?list_elem_of_singleton; intuition (done || lia).
Qed.

(** Without a count it never exits 0, and a timeout still ends it: the default
    one of 30 seconds too, although "0 = run forever". *)
Theorem sink_without_count o evs :
  count o <= 0 -> 0 < timeout o -> exit_codes o (evs ++ [ETimer]) = [1].
Proof.
  intros Hc Ht. unfold exit_codes. destruct (loop_counts o 0 (evs ++ [ETimer])) as [H1 _]; [lia|].
  fold sink_start in H1. fold (recvLoop o (evs ++ [ETimer])) in H1.
  destruct (done_ _); [exfalso; assert (0 < count o) by (by apply H1); lia|].
  rewrite existsb_app. simpl. rewrite orb_true_r, (proj2 (Z.ltb_lt _ _)) by done. done.
Qed.
End Sink.

(** Two datagrams of which one is a frame, then the timer. *)
Example sink_counts :
  exit_codes (mkOpts 1 false Second) [ERead (ReadFrom [1; 2]); ETimer] = [1] /\
  exit_codes (mkOpts 1 true Second) [ERead (ReadFrom [1; 2]); ETimer] = [0; 1].
Proof. split; vm_compute; reflexivity. Qed.

Lemma sink_without_count_witness :
  exit_codes (mkOpts 0 true (30 * Second)) [ERead (ReadFrom [1; 2]); ETimer] = [1].
Proof.
  apply (sink_without_count (mkOpts 0 true (30 * Second)) [ERead (ReadFrom [1; 2])]).
  - simpl. lia.
  - simpl. unfold Second. lia.
Defined.
