(* ===== verification/Listeners.v ===== *)
(** The life of the discovery listeners and of the periodic goroutines: the
    receive loops around the handlers of [Discovery] and [Announce], the sockets
    they read, the ticker loops, and the [Start] methods that wait for them. *)
From Stdlib Require Import ZArith Lia.
From S2P Require Import Prelude Net Frame FrameExample Metrics Sockets SubtreeGroup Filter.
From S2P Require Import Advert Discovery Announce Nack NackSteps Reassembly Listener.

(** ** Ticker loops *)

(** What the [select] of a periodic goroutine chooses. *)
Inductive Wakeup := CtxDone | Ticked (now : Z).

#[export] Instance wakeup_eq_dec : EqDecision Wakeup.
Proof. solve_decision. Defined.

(** [evictLoop] of both listeners, [gcLoop] and the buffer ticker of [run]: the
    work is done at each tick until the context is seen cancelled. *)
Fixpoint tick_loop {A} (tick : Z -> A -> A) (l : list Wakeup) (a : A) : bool * A :=
  match l with
  | [] => (true, a)
  | CtxDone :: _ => (false, a)
  | Ticked now :: l' => tick_loop tick l' (tick now a)
  end.

(** The ticks before the cancellation. *)
Fixpoint ticks (l : list Wakeup) : list Z :=
  match l with
  | Ticked now :: l' => now :: ticks l'
  | _ => []
  end.

Lemma tick_loop_spec {A} (tick : Z -> A -> A) l a :
  tick_loop tick l a = (bool_decide (CtxDone ∉ l), foldl (fun a now => tick now a) a (ticks l)).
Proof.
  revert a. induction l as [|[|now] l IH]; intros a; cbn [tick_loop ticks foldl].
  - by rewrite bool_decide_eq_true_2 by apply not_elem_of_nil.
  - rewrite bool_decide_eq_false_2; [done|]. intros H. apply H. by left.
  - rewrite IH. f_equal. apply bool_decide_ext. rewrite elem_of_cons. intuition congruence.
Qed.

(** ** Receive loops *)

(** A loop whose rounds say whether it goes on; [None] is a panic. *)
Fixpoint rounds {T A} (round : T -> A -> option (bool * A)) (l : list T) (a : A) : option (bool * A) :=
  match l with
  | [] => Some (true, a)
  | t :: l' =>
      match round t a with
      | None => None
      | Some (true, a) => rounds round l' a
      | Some (false, a) => Some (false, a)
      end
  end.

(** It has ended exactly when one of its rounds was of the kind that ends it. *)
Lemma rounds_end {T A} (round : T -> A -> option (bool * A)) (I : A -> Prop) (ends : T -> Prop) l a :
  (forall t a, I a -> exists b a', round t a = Some (b, a') /\ I a' /\ (b = false <-> ends t)) ->
  I a -> exists b a', rounds round l a = Some (b, a') /\ I a' /\ (b = false <-> Exists ends l).
Proof.
  intros Hr. revert a. induction l as [|t l IH]; intros a Ha; cbn [rounds].
  { exists true, a. split; [done|]. split; [done|]. split; [done|]. intros H. by apply Exists_nil in H. }
  destruct (Hr t a Ha) as (b & a1 & -> & Ha1 & Hb). destruct b.
  - destruct (IH a1 Ha1) as (b & a2 & -> & Ha2 & Hb2). exists b, a2. split; [done|]. split; [done|].
    rewrite Exists_cons, Hb2. assert (~ ends t) by (rewrite <- Hb; done). tauto.
  - exists false, a1. split; [done|]. split; [done|]. split; [|done]. rewrite Exists_cons. intros _. left. by apply Hb.
Qed.

(** ** The announcement listener *)

Section Announcements.
Context `{FL : FrameLib}.

(** One [recvfrom], with what the code sees of the context after it. *)
Record ATurn := mkATurn { a_now : Z; a_done : bool; a_recv : Recv }.

Definition announce_round (t : ATurn) : Announce.Listener -> option (bool * Announce.Listener) :=
  announce_recv (a_now t) (a_done t) (a_recv t).

(** How far [listenGroup] got. *)
Inductive GroupState (S : Type) :=
  | OpenFailed
  | GListening (fd : Z) (s : S)
  | GReturned (fd : Z) (s : S)
  | GPanicked.
#[global] Arguments OpenFailed {S}.
#[global] Arguments GListening {S}.
#[global] Arguments GReturned {S}.
#[global] Arguments GPanicked {S}.

Definition listenGroup (ifindex : Z) (ip : bytes) (port : Z) (l : list ATurn) (al : Announce.Listener)
    : Sys (GroupState Announce.Listener) :=
  Sockets.bind (openAnnounceSocket ifindex ip port) (fun r =>
  match r with
  | None => Sockets.ret OpenFailed
  | Some fd =>
      Sockets.bind (Sockets.call (SetRcvTimeout fd (2 * Second))) (fun _ =>
      Sockets.ret match rounds announce_round l al with
                  | None => GPanicked
                  | Some (true, al) => GListening fd al
                  | Some (false, al) => GReturned fd al
                  end)
  end).

(** The answers that end it: the closed socket, or any error but an interruption
    seen with the context cancelled. *)
Definition announce_ends (t : ATurn) : Prop :=
  match a_recv t with
  | RecvErr (EBADF | EINVAL) => True
  | RecvErr (EAGAIN | EWOULDBLOCK | EOTHER) => a_done t = true
  | _ => False
  end.

Definition announcing (al0 al : Announce.Listener) : Prop :=
  reg_ok (Registry_ al) /\ (is_Some (Rec al0) -> is_Some (Rec al)).

Lemma announce_round_spec al0 t al :
  announcing al0 al ->
  exists b al', announce_round t al = Some (b, al') /\ announcing al0 al' /\
    (b = false <-> announce_ends t).
Proof.
  intros [Hok Hrec]. unfold announce_round, announce_recv, announce_ends.
  destruct (a_recv t) as [d from|err].
  - unfold announce_datagram.
    assert (forall m r, reg_ok r ->
      announcing al0 (with_rec_field (Announce.with_registry al r) m)) as Hk.
    { intros m r Hr. split; [done|]. intros H. simpl. destruct (Hrec H) as [x ->]. by eexists. }
    destruct (_ <? _)%nat; [eexists _, _; split; [done|]; split; [by apply Hk|done]|].
    destruct (negb _); [eexists _, _; split; [done|]; split; [by apply Hk|done]|].
    destruct (DecodeSubtreeAnnounce _) as [ann|];
      [|eexists _, _; split; [done|]; split; [by apply Hk|done]].
    destruct (Add_ok (a_now t) (sa_GroupID ann) (sa_SubtreeID ann)
      (if 0 <? sa_TTL ann then sa_TTL ann * Second else Announce.DefaultTTL al) _ Hok)
      as (r & Hr & Hok' & _). cbn zeta. rewrite Hr.
    eexists _, _. split; [done|]. split; [by apply Hk|done].
  - destruct err; eexists _, _; (split; [done|]); (split; [by split|]); destruct (a_done t); by split.
Qed.

(** ** The beacon listener *)

(** What [ReadFromUDP] returns under its 2 second deadline. *)
Inductive BRecv := BData (datagram : bytes) | BTimeout | BError.

(** One round: the context as seen before the read, and after an error. *)
Record BTurn := mkBTurn { b_now : Z; b_done : bool; b_recv : BRecv; b_done_after : bool }.

Definition beacon_round (t : BTurn) (bl : BeaconListener) : option (bool * BeaconListener) :=
  if b_done t then Some (false, bl)
  else
    match b_recv t with
    | BTimeout => Some (true, bl)
    | BError => Some (negb (b_done_after t), bl)
    | BData d => Some (true, beacon_datagram (b_now t) d bl)
    end.

Definition beacon_ends (t : BTurn) : Prop :=
  b_done t = true \/ (b_recv t = BError /\ b_done_after t = true).

Lemma beacon_round_spec t bl :
  True -> exists b bl', beacon_round t bl = Some (b, bl') /\ True /\ (b = false <-> beacon_ends t).
Proof.
  intros _. unfold beacon_round, beacon_ends. destruct (b_done t).
  { eexists _, _. split; [done|]. split; [done|]. split; [by left|done]. }
  destruct (b_recv t); eexists _, _; (split; [done|]); (split; [done|]);
    [| |destruct (b_done_after t)]; simpl; split; try done; try (by right);
    intros [[=]|[? ?]]; done.
Qed.

Definition beacon_listenGroup (conn : option Z) (l : list BTurn) (bl : BeaconListener)
    : GroupState BeaconListener :=
  match conn with
  | None => OpenFailed
  | Some c =>
      match rounds beacon_round l bl with
      | None => GPanicked
      | Some (true, bl) => GListening c bl
      | Some (false, bl) => GReturned c bl
      end
  end.

(** ** The periodic goroutines *)

Definition announce_evictLoop : list Wakeup -> Announce.Listener -> bool * Announce.Listener :=
  tick_loop announce_tick.
Definition beacon_evictLoop : list Wakeup -> BeaconListener -> bool * BeaconListener :=
  tick_loop beacon_tick.

(** Each sweep walks the maps and drains the queue in its own way. *)
Definition gcLoop (w : Z -> walk) (drain : Z -> Z -> Z -> nat) : list Wakeup -> Tracker -> bool * Tracker :=
  tick_loop (fun now => sweepOnce (w now) now (drain now)).

(** The goroutine of [run] that ticks the buffer of a worker. *)
Definition buffer_ticker : list Wakeup -> Worker -> option (bool * Worker) :=
  rounds (fun wk w =>
    match wk with
    | CtxDone => Some (false, w)
    | Ticked now => w' ← buffer_tick now w; Some (true, w')
    end).

(** ** What ends the goroutines *)

(** C38: the listeners and the periodic goroutines stop when they are told to,
    and only then. An announcement listener whose socket opens never panics,
    and it has returned after its answers exactly when one of them was an error
    seen with the context cancelled or the answer of a closed descriptor; a
    beacon listener exactly when it found the context cancelled before a read
    or after a read error. The eviction and sweep loops have done the work of
    every tick before they choose the cancellation, and then they have ended. *)
Theorem listeners_stop_iff ifx ip port la conn lb lt al bl w drain t ker h fd h1 :
  reg_ok (Registry_ al) -> openAnnounceSocket ifx ip port ker h = (Some fd, h1) ->
  (let r := (listenGroup ifx ip port la al ker h).1 in
   (Exists announce_ends la -> exists al', r = GReturned fd al') /\
   (~ Exists announce_ends la -> exists al', r = GListening fd al')) /\
  (let r := beacon_listenGroup (Some conn) lb bl in
   (Exists beacon_ends lb -> exists bl', r = GReturned conn bl') /\
   (~ Exists beacon_ends lb -> exists bl', r = GListening conn bl')) /\
  let going := bool_decide (CtxDone ∉ lt) in
  announce_evictLoop lt al = (going, foldl (fun al now => announce_tick now al) al (ticks lt)) /\
  beacon_evictLoop lt bl = (going, foldl (fun bl now => beacon_tick now bl) bl (ticks lt)) /\
  gcLoop w drain lt t =
    (going, foldl (fun t now => sweepOnce (w now) now (drain now) t) t (ticks lt)).
Proof.
  intros Hok Hs. split; [|split; [|split_and!; apply tick_loop_spec]].
  - unfold listenGroup. cbn zeta. rewrite run_bind, Hs. simpl.
    destruct (rounds_end announce_round (announcing al) announce_ends la al (announce_round_spec al))
      as (b & al' & Hr & _ & Hb); [by split|]. rewrite Hr. destruct b.
    + split; [|by eexists]. intros H. by apply Hb in H.
    + split; [by eexists|]. intros H. by destruct H; apply Hb.
  - unfold beacon_listenGroup. cbn zeta.
    destruct (rounds_end beacon_round (fun _ => True) beacon_ends lb bl beacon_round_spec)
      as (b & bl' & Hr & _ & Hb); [done|]. rewrite Hr. destruct b.
    + split; [|by eexists]. intros H. by apply Hb in H.
    + split; [by eexists|]. intros H. by destruct H; apply Hb.
Qed.

(** A worker's buffer ticker never panics on a buffer that ticks do not panic. *)
Lemma buffer_ticker_total (I : Worker -> Prop) l w :
  (forall now w, I w -> exists w', buffer_tick now w = Some w' /\ I w') -> I w ->
  exists b w', buffer_ticker l w = Some (b, w') /\ I w' /\ (b = false <-> CtxDone ∈ l).
Proof.
  intros Ht Hw.
  destruct (rounds_end (fun wk w => match wk with CtxDone => Some (false, w)
      | Ticked now => w' ← buffer_tick now w; Some (true, w') end) I (fun wk => wk = CtxDone) l w)
    as (b & w' & Hr & HI & Hb); [|exact Hw|].
  - intros [|now] w0 H0; [by eexists _, _|]. destruct (Ht now w0 H0) as (w1 & -> & H1).
    by eexists _, _.
  - exists b, w'. split; [exact Hr|]. split; [exact HI|]. rewrite Hb, Exists_exists.
    split; [by intros (x & Hx & ->)|]. intros H. by exists CtxDone.
Qed.

(** A [listenGroup] of the announcement listener leaves no descriptor behind:
    none when the socket cannot be set up, and otherwise the one the goroutine
    that waits for the cancellation closes. *)
Theorem listenGroup_closes_socket ifx ip port l al ker h :
  fresh_sockets ker ->
  let '(r, h') := listenGroup ifx ip port l al ker h in
  match r with
  | OpenFailed => opened h' = opened h
  | GListening fd _ | GReturned fd _ => opened (Sockets.call (CloseFd fd) ker h').2 = opened h
  | GPanicked => True
  end.
Proof.
  intros Hf. unfold listenGroup, bind.
  destruct (openAnnounceSocket ifx ip port ker h) as [r h1] eqn:E.
  pose proof (openAnnounce_accounted ker Hf ifx ip port h) as H. rewrite E in H.
  destruct r as [fd|]; [|exact H]. destruct H as [Hn Ho]. simpl.
  destruct (rounds _ _ _) as [[[] al']|]; simpl; [| |done];
    rewrite !opened_snoc; simpl; rewrite Ho; set_solver.
Qed.
End Announcements.

(** ** [Start] *)

(** [Start] waits for the context or for the first of its groups to return:
    [results] is what the groups have sent so far (an error, or nil), and the
    value is what the [select] may choose; nothing while it blocks. The other
    groups and the eviction go on. *)
Inductive StartResult (E : Type) := CtxErr | GroupResult (err : option E).
#[global] Arguments CtxErr {E}.
#[global] Arguments GroupResult {E}.

Definition first_of {E} (ctx_done : bool) (results : list (option E)) : list (StartResult E) :=
  (if ctx_done then [CtxErr] else []) ++
  match results with [] => [] | err :: _ => [GroupResult err] end.

(** What a group sends when it returns: the error of its socket, or nil. The
    groups are listed in the order in which they return. *)
Definition group_result {S} (g : GroupState S) : list (option unit) :=
  match g with
  | OpenFailed => [Some tt]
  | GReturned _ _ => [None]
  | GListening _ _ | GPanicked => []
  end.

Definition announce_Start (ctx_done : bool) (groups : list (GroupState Announce.Listener))
    : list (StartResult unit) := first_of ctx_done (groups ≫= group_result).
Definition beacon_Start (ctx_done : bool) (groups : list (GroupState BeaconListener))
    : list (StartResult unit) := first_of ctx_done (groups ≫= group_result).

(** [main] reports an error of a listener only while the context is not
    cancelled. *)
Definition reported {E} (ctx_done : bool) (r : StartResult E) : bool :=
  match r with
  | CtxErr => negb ctx_done
  | GroupResult (Some _) => negb ctx_done
  | GroupResult None => false
  end.

(** It blocks while the context is alive and every group is listening; a group
    whose socket cannot be opened ends it, whatever the others do. *)
Lemma announce_Start_blocks ctx_done groups :
  (forall g, g ∈ groups -> g <> GPanicked) ->
  announce_Start ctx_done groups = [] <->
  ctx_done = false /\ forall g, g ∈ groups -> exists fd al, g = GListening fd al.
Proof.
  intros Hp. unfold announce_Start, first_of. split.
  - destruct ctx_done; [done|]. simpl.
    destruct (groups ≫= group_result) eqn:E; [|done]. intros _. split; [done|]. intros g Hg.
    assert (forall r, r ∉ group_result g) as Hn.
    { intros r Hr. eapply (not_elem_of_nil r). rewrite <- E. apply list_elem_of_bind. by exists g. }
    destruct g as [|fd al|fd al|]; [|by eexists _, _| |by apply Hp in Hg].
    + destruct (Hn (Some tt)). by left.
    + destruct (Hn None). by left.
  - intros [-> Hg]. simpl. destruct (groups ≫= group_result) as [|r l] eqn:E; [done|].
    assert (r ∈ groups ≫= group_result) as Hr by (rewrite E; by left).
    apply list_elem_of_bind in Hr as (g & Hr & Hin). destruct (Hg g Hin) as (fd & al & ->).
    by apply not_elem_of_nil in Hr.
Qed.

(** ** Witnesses *)

(** An announcement, a timeout, and a timeout after the cancellation. *)
Definition ex_aturns : list ATurn :=
  [mkATurn 0 false (RecvData ex_announce ex_source); mkATurn 1 false (RecvErr EAGAIN);
   mkATurn 2 true (RecvErr EAGAIN)].
Definition ex_bturns : list BTurn :=
  [mkBTurn 0 false (BData []) false; mkBTurn 1 false BError true].

Lemma listeners_stop_iff_witness :
  exists fd h1, openAnnounceSocket 2 (ex_ip 3) 9001 simple_kernel [] = (Some fd, h1) /\
    (exists al', (listenGroup 2 (ex_ip 3) 9001 ex_aturns ex_listener simple_kernel []).1 = GReturned fd al') /\
    (exists al', (listenGroup 2 (ex_ip 3) 9001 (take 2 ex_aturns) ex_listener simple_kernel []).1 =
       GListening fd al') /\
    (exists bl', beacon_listenGroup (Some 7) ex_bturns (mkBeaconListener NewRegistry None) =
       GReturned 7 bl').
Proof.
  destruct (openAnnounceSocket 2 (ex_ip 3) 9001 simple_kernel []) as [[fd|] h1] eqn:E;
    [|vm_compute in E; discriminate E].
  exists fd, h1. split; [reflexivity|].
  pose (t0 := Nack.New (mkConfig 0 0 0 0 0 0) [] None None).
  pose (w0 := fun _ : Z => mkWalk (fun l => l) (fun _ l => l)).
  destruct (listeners_stop_iff 2 (ex_ip 3) 9001 ex_aturns 7 ex_bturns [] ex_listener
    (mkBeaconListener NewRegistry None) w0 (fun _ _ _ => 0%nat) t0 simple_kernel [] fd h1 (New_reg_ok _ _) E)
    as ([H1 _] & [H2 _] & _).
  destruct (listeners_stop_iff 2 (ex_ip 3) 9001 (take 2 ex_aturns) 7 [] [] ex_listener
    (mkBeaconListener NewRegistry None) w0 (fun _ _ _ => 0%nat) t0 simple_kernel [] fd h1 (New_reg_ok _ _) E)
    as ([_ H4] & _).
  split; [|split].
  - apply H1. do 2 apply Exists_cons_tl. apply Exists_cons_hd. reflexivity.
  - apply H4. intros H. do 2 (apply Exists_cons in H as [H|H]; [exact H || discriminate H|]). inversion H.
  - apply H2. apply Exists_cons_tl, Exists_cons_hd. right. split; reflexivity.
Defined.
