(* ===== verification/ListenerCount.v ===== *)
(** The counters and the duplicate check of the worker: every datagram settles
    exactly one counter; a run offers to the duplicate set some of its stamped
    frames, in order, so that a frame is forwarded once whatever else arrives;
    and reassembled frames are outside the duplicate check. *)
From Stdlib Require Import ZArith Lia.
From S2P Require Import Prelude Sha256 Frame FrameExample Metrics Net Reassembly.
From S2P Require Import Dedup SubtreeGroup Filter Nack NackSteps Egress Listener.
From S2P Require Import ListenerProps.

(** ** What settles a datagram *)

(** A datagram is settled by a drop, an invalid payload, a suppressed duplicate,
    or the outcome of the unicast send. The multicast fan-out has its own
    protocol label and settles nothing. *)
Definition settles (p : point) : Z :=
  match p_counter p with
  | framesDropped | framesInvalidPayload | framesDeduped | egressErrors => p_value p
  | framesForwarded =>
      if decide (AStr "proto" MCProto ∈ p_attrs p) then 0 else p_value p
  | _ => 0
  end.

Definition settled (r : Recorder) : Z := foldr (fun p acc => settles p + acc) 0 (adds r).

Definition S_ (o : option Recorder) : Z := match o with Some r => settled r | None => 0 end.

Lemma settled_with_rec o c v l :
  S_ (with_rec o (add c v l)) = S_ o + has o * settles (mkPoint c v l).
Proof.
  destruct o as [r|]; [|done]. simpl. unfold settled. simpl. rewrite foldr_app. simpl.
  generalize (settles (mkPoint c v l)). intros z. rewrite Z.mul_1_l.
  induction (adds r) as [|p ps IH]; simpl; lia.
Qed.

Lemma settled_iter n c v l o :
  settles (mkPoint c v l) = 0 -> S_ (Nat.iter n (fun r => with_rec r (add c v l)) o) = S_ o.
Proof.
  intros Hz. induction n as [|n IH]; [done|].
  change (Nat.iter (S n) (fun r => with_rec r (add c v l)) o)
    with (with_rec (Nat.iter n (fun r => with_rec r (add c v l)) o) (add c v l)).
  rewrite settled_with_rec, Hz, IH. lia.
Qed.

(** The gap tracker settles nothing. *)
Lemma Observe_settles now rnd g sid hk seq t t' :
  Nack.Observe now rnd g sid hk seq t = Some t' ->
  S_ (rec t') = S_ (rec t) /\ has (rec t') = has (rec t).
Proof.
  unfold Nack.Observe. destruct (seq =? 0); [by intros [= <-]|].
  set (fs := default _ _). cbn zeta. set (fs0 := mkFlow _ _ _ _ _ _).
  intros ([fs' r'] & Ho & [= <-])%bind_Some. simpl. revert Ho. unfold observe_flow.
  assert (S_ (auto_fill seq fs0 (rec t)).2 = S_ (rec t) /\
          has (auto_fill seq fs0 (rec t)).2 = has (rec t)) as [E1 E2].
  { unfold auto_fill. destruct (pending fs0 !! seq); [|done]. simpl.
    rewrite has_with_rec. unfold GapSuppressed. rewrite settled_with_rec.
    change (settles _) with 0. split; [lia|done]. }
  destruct (auto_fill seq fs0 (rec t)) as [f1 r1]. cbn [snd] in *. rewrite <- E1, <- E2.
  destruct (_ =? 0); [by intros [= <- <-]|]. destruct (seq <=? _).
  { destruct ((seq <=? _) && _); intros [= <- <-]; [|done].
    split; [by apply settled_iter|apply has_iter]. }
  destruct (seq =? _); [by intros [= <- <-]|].
  intros ([p r2] & Hg & [= <- <-])%bind_Some. apply gap_loop_spec in Hg as (_ & -> & _).
  split; [by apply settled_iter|apply has_iter].
Qed.

Section Count.
Context `{FL : FrameLib}.

(** [counts k c c']: going from [c] to [c'] settles [k] datagrams; the recorder
    stays and the unicast sink keeps its protocol. *)
Definition counts (k : Z) (c c' : Core) : Prop :=
  S_ (w_rec c') = S_ (w_rec c) + k * has (w_rec c) /\ has (w_rec c') = has (w_rec c) /\
  proto (egr c') = proto (egr c).

Lemma counts_refl c : counts 0 c c.
Proof. split_and!; [lia|done|done]. Qed.

Lemma counts_trans k1 k2 k c1 c2 c3 :
  counts k1 c1 c2 -> counts k2 c2 c3 -> k1 + k2 = k -> counts k c1 c3.
Proof.
  intros (H1 & H2 & H3) (H4 & H5 & H6) <-. rewrite H2 in *. split_and!; [lia|congruence|congruence].
Qed.

Lemma emit_counts ct v l k c :
  settles (mkPoint ct v l) = k -> counts k c (emit (add ct v l) c).
Proof.
  intros <-. split_and!; [|apply has_with_rec|done]. simpl. rewrite settled_with_rec. lia.
Qed.

Lemma same_counts c c' :
  w_rec c' = w_rec c -> proto (egr c') = proto (egr c) -> counts 0 c c'.
Proof. intros E1 E2. unfold counts. rewrite E1. split_and!; [lia|done|done]. Qed.

Lemma track_counts g sid hk seq c c' : track g sid hk seq c = Some c' -> counts 0 c c'.
Proof.
  unfold track. destruct (tracker c) as [t|]; [|intros [= <-]; apply counts_refl].
  intros (t' & Ho & [= <-])%bind_Some. apply Observe_settles in Ho as [E1 E2].
  simpl in *. unfold counts. simpl. split_and!; [lia|done|done].
Qed.

Lemma unicast_counts io raw payload send c :
  (forall s, send s = SendRaw io (if stripHeader s then payload else raw) s) ->
  proto (egr c) <> MCProto -> counts 1 c (unicast send c).
Proof.
  intros Hs Hp. unfold unicast. rewrite Hs.
  destruct (SendRaw_spec io (if stripHeader (egr c) then payload else raw) (egr c))
    as (_ & E & _). destruct (SendRaw io _ (egr c)) as [r s]. cbn [fst snd] in *.
  destruct r as [err|].
  - eapply counts_trans; [by apply (same_counts c (set_egr c s))|by apply emit_counts|done].
  - eapply counts_trans; [by apply (same_counts c (set_egr c s))|apply emit_counts|done].
    unfold settles. cbn [p_counter p_attrs p_value]. rewrite decide_False; [done|]. change (Proto _) with (proto s).
    rewrite E.
    rewrite !elem_of_cons. intros [H|[H|H]]; [discriminate H| |by apply elem_of_nil in H].
    injection H as H. congruence.
Qed.

Lemma multicast_counts raw f g c : counts 0 c (multicast raw f g c).
Proof.
  unfold multicast. destruct (mcastEgr c) as [mc|]; [|apply counts_refl].
  destruct (MCSend _ _ _ _ _) as [ok mc'].
  eapply counts_trans; [by apply (same_counts c (set_mcast c mc'))|destruct ok|done];
    [apply emit_counts|by apply emit_counts].
  unfold settles. cbn [p_counter p_attrs p_value]. rewrite decide_True; [done|]. right. by left.
Qed.

Lemma header_counts bf c : counts 0 c (emitBlockHeader bf c).
Proof.
  unfold emitBlockHeader. destruct (negb _); [apply counts_refl|].
  destruct (_ <? _)%nat; [apply counts_refl|].
  destruct (EncodeBlock _ _) as [buf|]; [|apply counts_refl].
  set (c1 := match headerEgr c with Some _ => _ | None => _ end).
  assert (counts 0 c c1) as Hc1.
  { subst c1. destruct (headerEgr c) as [s|]; [|apply counts_refl].
    destruct (SendRaw _ _ _) as [[err|] s'];
      (eapply counts_trans; [by apply (same_counts c (SetHeaderEgress (Some s') c))|
                             by apply emit_counts|done]). }
  destruct (headerMCastEgr c1) as [mc|]; [|exact Hc1]. destruct (SendToGroup _ _ _ _) as [ok mc'].
  eapply counts_trans; [exact Hc1| |done].
  destruct ok; (eapply counts_trans; [by apply (same_counts c1 (SetHeaderMCastEgress (Some mc') c1))|
                                      by apply emit_counts|done]).
Qed.

Lemma data_counts raw c c' :
  proto (egr c) <> MCProto -> process_data raw c = Some c' -> counts 1 c c'.
Proof.
  intros Hp. unfold process_data.
  destruct (DecodeFrame raw) as [f|]; [|intros [= <-]; by apply emit_counts].
  set (c1 := emit _ c). assert (counts 0 c c1) as Hc1 by (by apply emit_counts).
  assert (forall ct v l, settles (mkPoint ct v l) = 1 -> counts 1 c (emit (add ct v l) c1)) as Hend
    by (intros; eapply counts_trans; [exact Hc1|by apply emit_counts|done]).
  destruct (verifyPayloadHash c1 && _ && _); [intros [= <-]; by apply Hend|].
  destruct (Allow _ _ _ _) as [[] reason]; [|intros [= <-]; by apply Hend].
  destruct (dedup_check _ f c1) as [seen c2] eqn:Hdd.
  assert (counts 0 c c2 /\ proto (egr c2) = proto (egr c)) as [Hc2 Hp2].
  { revert Hdd. unfold dedup_check.
    destruct (dedupSet c1) as [ds|]; [|by intros [= <- <-]].
    destruct (is_v2 f && negb (SeqNum f =? 0)); [|by intros [= <- <-]].
    destruct (SeenAndAdd _ _ _) as [sn ds']. by intros [= <- <-]. }
  destruct seen.
  { intros Ht. apply track_counts in Ht. eapply (counts_trans 0 1); [exact Hc2| |done].
    eapply (counts_trans 1 0); [|exact Ht|done]. by apply emit_counts. }
  set (c3 := multicast _ _ _ _).
  assert (counts 1 c c3) as Hc3.
  { eapply (counts_trans 0 1); [exact Hc2| |done].
    eapply (counts_trans 1 0); [|apply multicast_counts|done].
    apply (unicast_counts (io_egr (env c2)) raw (Payload f)); [done|by rewrite Hp2]. }
  destruct (is_v2 f && negb (SeqNum f =? 0)); [|by intros [= <-]].
  intros Ht. apply track_counts in Ht. by eapply counts_trans.
Qed.

Lemma block_counts raw c c' :
  proto (egr c) <> MCProto -> processBlockFrame raw c = Some c' -> counts 1 c c'.
Proof.
  intros Hp. unfold processBlockFrame.
  destruct (DecodeBlock raw) as [bf|]; [|intros [= <-]; by apply emit_counts].
  unfold forward_block. set (c1 := emit _ c). set (c2 := unicast _ c1).
  set (c3 := if has_header_egress c2 then _ else _).
  assert (counts 1 c c3) as Hc3.
  { assert (counts 0 c c1) as Hc1 by (by apply emit_counts).
    eapply (counts_trans 0 1); [exact Hc1| |done].
    eapply (counts_trans 1 0); [|subst c3; destruct (has_header_egress c2);
      [apply header_counts|apply counts_refl]|done].
    by apply (unicast_counts (io_egr (env c1)) raw (bf_Payload bf)). }
  destruct (negb (bf_SeqNum bf =? 0)); [|by intros [= <-]].
  intros Ht. apply track_counts in Ht. by eapply counts_trans.
Qed.

Lemma subtree_counts raw c c' :
  proto (egr c) <> MCProto -> processSubtreeDataFrame raw c = Some c' -> counts 1 c c'.
Proof.
  intros Hp. unfold processSubtreeDataFrame.
  destruct (DecodeSubtreeData raw) as [sf|]; [|intros [= <-]; by apply emit_counts].
  unfold forward_subtree_data. set (c1 := emit _ c). set (c2 := unicast _ c1).
  assert (counts 1 c c2) as Hc2.
  { assert (counts 0 c c1) as Hc1 by (by apply emit_counts).
    eapply (counts_trans 0 1); [exact Hc1| |done].
    by apply (unicast_counts (io_egr (env c1)) raw (sf_Payload sf)). }
  destruct (negb (sf_SeqNum sf =? 0)); [|by intros [= <-]].
  intros Ht. apply track_counts in Ht. by eapply counts_trans.
Qed.

(** A datagram that does not go to a reassembly buffer. *)
Definition direct (w : Worker) (raw : bytes) : Prop :=
  reassemBuf w = None \/ IsFragment raw = false.

Lemma frame_counts e raw w w' :
  direct w raw -> proto (egr (core w)) <> MCProto -> processFrame e raw w = Some w' ->
  counts 1 (core w) (core w') /\ reassemBuf w' = reassemBuf w.
Proof.
  intros Hd Hp. unfold processFrame. set (c := set_env (core w) e).
  assert (forall o, (forall c', o = Some c' -> counts 1 c c') ->
    with_core w <$> o = Some w' -> counts 1 (core w) (core w') /\ reassemBuf w' = reassemBuf w) as Hwrap.
  { intros o Ho (c' & Hc' & ->)%fmap_Some. split; [|done]. by apply Ho. }
  destruct (IsBlockFrame raw); [apply Hwrap; intros; by apply (block_counts raw)|].
  destruct (IsSubtreeDataFrame raw); [apply Hwrap; intros; by apply (subtree_counts raw)|].
  destruct (IsFragment raw) eqn:Ef; [|apply Hwrap; intros; by apply (data_counts raw)].
  destruct Hd as [E|E]; [|congruence]. rewrite E. intros [= <-].
  split; [by apply (emit_counts framesDropped _ _ 1 c)|exact E].
Qed.

(** C18: every datagram is accounted for once. Over any run of datagrams that do
    not go through reassembly, each settles exactly one counter: it is dropped
    (undecodable, refused by the filter, or a fragment nobody reassembles),
    invalid, suppressed as a duplicate, or it reached the unicast sink, as
    forwarded or as an error; blocks and subtree data included. *)
Theorem datagram_accounting l w w' r :
  Forall (fun d => direct w d.2) l -> proto (egr (core w)) <> MCProto ->
  w_rec (core w) = Some r ->
  worker_run ((fun d => WData d.1 d.2) <$> l) w = Some w' ->
  exists r', w_rec (core w') = Some r' /\ settled r' = settled r + Z.of_nat (length l).
Proof.
  intros Hall Hp Hr Hrun.
  assert (counts (Z.of_nat (length l)) (core w) (core w') /\ reassemBuf w' = reassemBuf w)
    as [(H1 & H2 & _) _].
  { revert w' Hall Hrun. induction l as [|d l IH] using rev_ind.
    - intros w' _ [= <-]. split; [apply counts_refl|done].
    - intros w' [Hl [Hd _]%Forall_cons]%Forall_app. rewrite fmap_app. unfold worker_run.
      rewrite foldl_app. simpl. intros (w1 & Hw1 & Ho)%bind_Some.
      destruct (IH w1 Hl Hw1) as [Hc Hb].
      assert (direct w1 d.2) as Hd1 by (unfold direct in *; by rewrite Hb).
      assert (proto (egr (core w1)) <> MCProto) as Hp1 by (by destruct Hc as (_ & _ & ->)).
      destruct (frame_counts d.1 d.2 w1 w' Hd1 Hp1 Ho) as [Hc' Hb'].
      split; [|congruence]. eapply counts_trans; [exact Hc|exact Hc'|]. rewrite length_app. simpl. lia. }
  rewrite Hr in *. destruct (w_rec (core w')) as [r'|]; [|done]. exists r'. split; [done|].
  simpl in H1. lia.
Qed.
End Count.

(** ** Duplicates *)

Section Duplicates.
Context `{FL : FrameLib}.

Definition frame_key (f : Frame) : Key :=
  mkKey (GroupIndex (TxID f)) (SubtreeID f) (SeqNum f).

Definition stamped_v2 (f : Frame) : Prop := is_v2 f && negb (SeqNum f =? 0) = true.

Lemma track_frame g sid hk seq c c' :
  track g sid hk seq c = Some c' ->
  egr c' = egr c /\ mcastEgr c' = mcastEgr c /\ dedupSet c' = dedupSet c /\
  verifyPayloadHash c' = verifyPayloadHash c /\ filt c' = filt c.
Proof.
  unfold track. destruct (tracker c) as [t|]; [|by intros [= <-]].
  by intros (t' & _ & [= <-])%bind_Some.
Qed.

(** A frame the policy admits at this moment. *)
Definition passes (c : Core) (f : Frame) : Prop :=
  (verifyPayloadHash c && is_v2 f && negb (bool_decide (sha256d (Payload f) = TxID f)) = false) /\
  (Allow (clock (env c)) (GroupIndex (TxID f)) f (filt c)).1 = true.

(** The handling of an admitted, stamped V2 frame under a duplicate set: a new
    key goes to both sinks, a duplicate to none, and the tracker sees both. *)
Lemma process_admitted raw f s c c' :
  DecodeFrame raw = Some f -> stamped_v2 f -> dedupSet c = Some s -> passes c f ->
  process_data raw c = Some c' ->
  let q := SeenAndAdd (now_dedup (env c)) (frame_key f) s in
  dedupSet c' = Some q.2 /\
  (if q.1 then egr c' = egr c /\ mcastEgr c' = mcastEgr c
   else egr c' = (Send (io_egr (env c)) raw f (egr c)).2 /\
        mcastEgr c' =
          (fun m => (MCSend (io_mcast (env c)) raw f (GroupIndex (TxID f)) m).2) <$> mcastEgr c) /\
  exists c1, env c1 = env c /\ tracker c1 = tracker c /\
    track (GroupIndex (TxID f)) (SubtreeID f) (HashKey f) (SeqNum f) c1 = Some c'.
Proof.
  intros Hd Hv Hs [Hh Ha] Hp. cbn zeta. unfold process_data in Hp. rewrite Hd in Hp.
  set (c1 := emit _ c) in Hp. change (verifyPayloadHash c1) with (verifyPayloadHash c) in Hp.
  rewrite Hh in Hp. change (clock (env c1)) with (clock (env c)) in Hp.
  change (filt c1) with (filt c) in Hp.
  destruct (Allow _ _ f (filt c)) as [ok reason]. simpl in Ha. subst ok.
  unfold dedup_check in Hp. change (dedupSet c1) with (dedupSet c) in Hp.
  unfold stamped_v2 in Hv. rewrite Hs, Hv in Hp.
  change (now_dedup (env c1)) with (now_dedup (env c)) in Hp.
  change (mkKey (GroupIndex (TxID f)) (SubtreeID f) (SeqNum f)) with (frame_key f) in Hp.
  destruct (SeenAndAdd _ (frame_key f) s) as [seen s']. cbn [fst snd]. destruct seen.
  - pose proof (track_frame _ _ _ _ _ _ Hp) as (E1 & E2 & E3 & _). split; [by rewrite E3|].
    split; [by rewrite E1, E2|]. eexists. split; [|split; [|exact Hp]]; done.
  - pose proof (track_frame _ _ _ _ _ _ Hp) as (E1 & E2 & E3 & _). rewrite E1, E2, E3.
    set (c2 := SetEgressDedup (Some s') c1) in *.
    set (c3 := unicast (Send (io_egr (env c2)) raw f) c2) in *.
    destruct (multicast_frame raw f (GroupIndex (TxID f)) c3) as (F1 & F2 & F3 & F4).
    destruct (unicast_frame (Send (io_egr (env c2)) raw f) c2) as (G1 & G2 & G3 & G4).
    fold c3 in G1, G2, G3, G4. split; [by rewrite F3, G3|].
    split; [|eexists; split; [|split; [|exact Hp]]; [by rewrite F4, G4|by rewrite F1, G1]].
    rewrite F2. split.
    + unfold c3, unicast. change (env c2) with (env c). change (egr c2) with (egr c).
      by destruct (Send _ raw f (egr c)) as [[err|] e].
    + unfold multicast. rewrite G2, G4. change (mcastEgr c2) with (mcastEgr c).
      change (env c2) with (env c).
      destruct (mcastEgr c) as [mc|] eqn:Em; [|by rewrite G2].
      unfold MCSend, SendToGroup. by destruct (io_mcast (env c)).
Qed.

(** What a plain datagram asks of the duplicate set: nothing when it is not a
    stamped V2 frame, or refused by the policy, and one call otherwise. *)
Definition offer (e : Env) (raw : bytes) : list (Z * Key) :=
  match DecodeFrame raw with
  | Some f => if plain raw && (is_v2 f && negb (SeqNum f =? 0))
              then [(now_dedup e, frame_key f)] else []
  | None => []
  end.

Lemma process_offers e raw s c c' :
  plain raw = true -> dedupSet c = Some s -> env c = e -> process_data raw c = Some c' ->
  (egr c' = egr c /\ mcastEgr c' = mcastEgr c /\ dedupSet c' = Some s) \/
  (exists f, DecodeFrame raw = Some f /\ passes c f) /\
  dedupSet c' = Some (calls (offer e raw) s).2.
Proof.
  intros Hpl Hs <- Hp. unfold offer. destruct (DecodeFrame raw) as [f|] eqn:Hd.
  2: { left. unfold process_data in Hp. rewrite Hd in Hp. by injection Hp as <-. }
  rewrite Hpl. cbn [andb].
  destruct (verifyPayloadHash c && is_v2 f && negb (bool_decide (sha256d (Payload f) = TxID f))) eqn:Hh.
  { left. unfold process_data in Hp. rewrite Hd in Hp.
    change (verifyPayloadHash (emit _ c)) with (verifyPayloadHash c) in Hp.
    rewrite Hh in Hp. by injection Hp as <-. }
  destruct (Allow (clock (env c)) (GroupIndex (TxID f)) f (filt c)) as [ok reason] eqn:Ha.
  destruct ok.
  2: { left. unfold process_data in Hp. rewrite Hd in Hp.
       change (verifyPayloadHash (emit _ c)) with (verifyPayloadHash c) in Hp. rewrite Hh in Hp.
       change (clock (env (emit _ c))) with (clock (env c)) in Hp.
       change (filt (emit _ c)) with (filt c) in Hp. rewrite Ha in Hp. by injection Hp as <-. }
  right. split; [by exists f; split; [|split; [|rewrite Ha]]|].
  destruct (is_v2 f && negb (SeqNum f =? 0)) eqn:Hv.
  - destruct (process_admitted raw f s c c' Hd Hv Hs) as [E _]; [by split; [|rewrite Ha]|done|].
    rewrite E. simpl. by destruct (SeenAndAdd _ _ s).
  - unfold process_data in Hp. rewrite Hd in Hp.
    change (verifyPayloadHash (emit _ c)) with (verifyPayloadHash c) in Hp. rewrite Hh in Hp.
    change (clock (env (emit _ c))) with (clock (env c)) in Hp.
    change (filt (emit _ c)) with (filt c) in Hp. rewrite Ha in Hp.
    unfold dedup_check in Hp. change (dedupSet (emit _ c)) with (dedupSet c) in Hp.
    rewrite Hs, Hv in Hp. cbv iota beta zeta in Hp. injection Hp as <-.
    set (c1 := emit _ c).
    destruct (multicast_frame raw f (GroupIndex (TxID f)) (unicast (Send (io_egr (env c)) raw f) c1))
      as (_ & _ & -> & _).
    by destruct (unicast_frame (Send (io_egr (env c)) raw f) c1) as (_ & _ & -> & _).
Qed.

(** Reassembled frames are outside the duplicate check: delivering one
    neither consults nor updates the set, so it goes out whether or not the
    same frame was forwarded before, and does not suppress a later copy. *)
Theorem reassembled_bypasses_dedup p f s c :
  DeliverReassembled p f (SetEgressDedup s c) =
    SetEgressDedup s <$> DeliverReassembled p f c.
Proof.
  unfold DeliverReassembled.
  change (clock (env (emit _ (SetEgressDedup s c)))) with (clock (env c)).
  change (filt (emit _ (SetEgressDedup s c))) with (filt c).
  change (clock (env (emit _ c))) with (clock (env c)). change (filt (emit _ c)) with (filt c).
  destruct (Allow _ _ f (filt c)) as [[] reason]; [|done].
  destruct (EncodeFrame f _) as [raw|]; [|done].
  set (c1 := emit (FrameReceived _ _ _) (emit ReassemblyCompleted c)).
  change (emit (FrameReceived _ _ _) (emit _ (SetEgressDedup s c))) with (SetEgressDedup s c1).
  assert (unicast (Send (io_egr (env c1)) raw f) (SetEgressDedup s c1) =
          SetEgressDedup s (unicast (Send (io_egr (env c1)) raw f) c1)) as E.
  { unfold unicast. change (egr (SetEgressDedup s c1)) with (egr c1).
    by destruct (Send _ _ _ _) as [[err|] e]. }
  change (io_egr (env (SetEgressDedup s c1))) with (io_egr (env c1)). rewrite E.
  set (c2 := unicast _ c1).
  assert (multicast raw f (GroupIndex (TxID f)) (SetEgressDedup s c2) =
          SetEgressDedup s (multicast raw f (GroupIndex (TxID f)) c2)) as ->.
  { unfold multicast. change (mcastEgr (SetEgressDedup s c2)) with (mcastEgr c2).
    destruct (mcastEgr c2); [|done].
    change (io_mcast (env (SetEgressDedup s c2))) with (io_mcast (env c2)).
    by destruct (MCSend _ _ _ _ _) as [[] mc]. }
  set (c3 := multicast _ _ _ c2). destruct (negb (SeqNum f =? 0)); [|done].
  unfold track. change (tracker (SetEgressDedup s c3)) with (tracker c3).
  destruct (tracker c3) as [t|]; [|done].
  change (env (SetEgressDedup s c3)) with (env c3).
  change (w_rec (SetEgressDedup s c3)) with (w_rec c3).
  by destruct (Nack.Observe _ _ _ _ _ _ _).
Qed.
(** *** What a run asks of the duplicate set *)

Definition wop_offer (o : WOp) : list (Z * Key) :=
  match o with WData e raw => offer e raw | _ => [] end.

Definition offers (ops : list WOp) : list (Z * Key) := mjoin (wop_offer <$> ops).

(** The reassembly buffer of a worker is the one [main] wires to it. *)
Definition wired_buffer (v m : bool) (w : Worker) : Prop :=
  forall b, reassemBuf w = Some b -> buf_ok b /\ same_config (worker_buffer v m) b.

(** Nothing but the data handler touches the set. *)
Lemma track_dedup g sid hk seq c D :
  dedupSet c = D -> holds (fun c => dedupSet c = D) True (track g sid hk seq c).
Proof.
  intros <-. destruct (track g sid hk seq c) as [c'|] eqn:E; [|exact I].
  by apply track_frame in E as (_ & _ & ? & _).
Qed.

Lemma unicast_dedup send c : dedupSet (unicast send c) = dedupSet c.
Proof. by destruct (unicast_frame send c) as (_ & _ & ? & _). Qed.

Lemma multicast_dedup raw f g c : dedupSet (multicast raw f g c) = dedupSet c.
Proof. by destruct (multicast_frame raw f g c) as (_ & _ & ? & _). Qed.

Lemma header_dedup bf c : dedupSet (emitBlockHeader bf c) = dedupSet c.
Proof.
  unfold emitBlockHeader. destruct (negb _); [done|]. destruct (_ <? _)%nat; [done|].
  destruct (EncodeBlock _ _) as [buf|]; [|done].
  set (c1 := match headerEgr c with Some _ => _ | None => _ end).
  assert (dedupSet c1 = dedupSet c) as <-
    by (subst c1; destruct (headerEgr c); [|done]; by destruct (SendRaw _ _ _) as [[] ?]).
  destruct (headerMCastEgr c1); [|done]. by destruct (SendToGroup _ _ _ _) as [[] ?].
Qed.

Lemma forward_block_dedup raw bf c D :
  dedupSet c = D -> holds (fun c => dedupSet c = D) True (forward_block raw bf c).
Proof.
  intros Hc. unfold forward_block. set (c1 := if has_header_egress _ then _ else _).
  assert (dedupSet c1 = D)
    by (subst c1; destruct (has_header_egress _); by rewrite ?header_dedup, unicast_dedup).
  destruct (negb _); [by apply track_dedup|done].
Qed.

Lemma forward_subtree_dedup raw sf c D :
  dedupSet c = D -> holds (fun c => dedupSet c = D) True (forward_subtree_data raw sf c).
Proof.
  intros Hc. unfold forward_subtree_data.
  destruct (negb _); [apply track_dedup|simpl]; by rewrite unicast_dedup.
Qed.

Lemma deliver_dedup p f c D :
  dedupSet c = D -> holds (fun c => dedupSet c = D) True (DeliverReassembled p f c).
Proof.
  intros Hc. unfold DeliverReassembled. destruct (Allow _ _ _ _) as [[] reason]; [|exact Hc].
  destruct (EncodeFrame f _); [|exact Hc].
  destruct (negb _); [apply track_dedup|simpl]; by rewrite multicast_dedup, unicast_dedup.
Qed.

Lemma plain_process e raw w w' :
  plain raw = true -> processFrame e raw w = Some w' ->
  process_data raw (set_env (core w) e) = Some (core w') /\ reassemBuf w' = reassemBuf w.
Proof.
  unfold plain, processFrame. destruct (IsBlockFrame raw); [done|].
  destruct (IsSubtreeDataFrame raw); [done|]. destruct (IsFragment raw); [done|].
  intros _ (c & -> & ->)%fmap_Some. done.
Qed.

Lemma wop_dedup v m o w w' s :
  fragments_typed -> wop_ok o -> wired_buffer v m w -> dedupSet (core w) = Some s ->
  run_wop o w = Some w' ->
  wired_buffer v m w' /\
  exists tr, tr `sublist_of` wop_offer o /\ dedupSet (core w') = Some (calls tr s).2.
Proof.
  intros Hft Ho Hw Hs Hrun.
  assert ((forall e raw, o = WData e raw -> plain raw = true -> False) ->
    wired_buffer v m w' /\ dedupSet (core w') = Some s) as Hother.
  { intros Hno.
    pose proof (run_wop_inv (fun c => dedupSet c = Some s) True (fun _ => True) (fun _ => True)
      (fun _ => False) v m) as H.
    assert (match run_wop o w with
            | Some w' => worker_inv (fun c => dedupSet c = Some s) v m w'
            | None => True end) as Hinv.
    { apply H; try done.
      - intros g c _ Hc. unfold move_tracker. by destruct (tracker c).
      - intros raw c _ Hc _. unfold processBlockFrame.
        destruct (DecodeBlock raw); [by apply forward_block_dedup|exact Hc].
      - intros raw c _ Hc _. unfold processSubtreeDataFrame.
        destruct (DecodeSubtreeData raw); [by apply forward_subtree_dedup|exact Hc].
      - intros f c _ Hc _ _. by apply deliver_dedup.
      - intros bf c _ Hc. unfold DeliverReassembledBlock.
        destruct (EncodeBlock _ _); [by apply forward_block_dedup|exact Hc].
      - intros sf c _ Hc. unfold DeliverReassembledSubtreeData.
        destruct (EncodeSubtreeData _ _); [by apply forward_subtree_dedup|exact Hc]. }
    rewrite Hrun in Hinv. by destruct Hinv. }
  destruct (match o with WData _ raw => plain raw | _ => false end) eqn:Hpl.
  2: { destruct Hother as [H1 H2]; [intros e raw ->; congruence|].
       split; [done|]. exists []. split; [apply sublist_nil_l|done]. }
  destruct o as [e raw| | | |]; [|discriminate Hpl..].
  destruct (plain_process e raw w w' Hpl Hrun) as (Hp & Hb).
  split; [intros b; rewrite Hb; apply Hw|].
  destruct (process_offers e raw s (set_env (core w) e) _ Hpl Hs eq_refl Hp)
    as [(_ & _ & E)|[_ E]]; rewrite E.
  - exists []. split; [apply sublist_nil_l|done].
  - exists (offer e raw). by split.
Qed.

(** The duplicate set after a run is that of some of the offers, in their order. *)
Lemma run_dedup v m ops w w' s :
  fragments_typed -> Forall wop_ok ops -> wired_buffer v m w -> dedupSet (core w) = Some s ->
  worker_run ops w = Some w' ->
  wired_buffer v m w' /\
  exists tr, tr `sublist_of` offers ops /\ dedupSet (core w') = Some (calls tr s).2.
Proof.
  intros Hft. revert w'. induction ops as [|o ops IH] using rev_ind; intros w' Hall Hw Hs.
  { intros [= <-]. split; [done|]. by exists []. }
  apply Forall_app in Hall as [Hl [Ho _]%Forall_cons]. unfold worker_run. rewrite foldl_snoc.
  intros (w1 & Hw1 & Hrun)%bind_Some.
  destruct (IH w1 Hl Hw Hs Hw1) as (Hwb & tr & Htr & E).
  destruct (wop_dedup v m o w1 w' _ Hft Ho Hwb E Hrun) as (Hwb' & tr' & Htr' & E').
  split; [done|]. exists (tr ++ tr'). split; [|by rewrite calls_app].
  unfold offers. rewrite fmap_app, join_app. simpl. rewrite app_nil_r. by apply sublist_app.
Qed.

(** C19: a frame is forwarded once, whatever else arrives. A stamped V2 frame
    that was not offered before and that the policy admits goes to the unicast
    and the multicast sink. From then on let anything happen (datagrams of every
    kind, copies of this frame included, reassembly, announcements, the other
    goroutines). While the TTL counted from the first copy runs, or for ever if
    it is not positive, and as long as fewer stamped frames of other keys arrived
    than the set holds, the datagram arriving again sends nothing on either
    sink; and the gap tracker still observes it if the policy still admits it. *)
Theorem retransmit_forwarded_once v m cap t raw f pre mid e1 e2 c0 w1 w2 w3 w4 :
  fragments_typed -> Forall wop_ok pre -> Forall wop_ok mid ->
  plain raw = true -> DecodeFrame raw = Some f -> stamped_v2 f ->
  dedupSet c0 = Some (Dedup.New cap t) -> 0 < cap ->
  worker_run pre (mkWorker c0 (Some (worker_buffer v m))) = Some w1 ->
  processFrame e1 raw w1 = Some w2 -> worker_run mid w2 = Some w3 ->
  processFrame e2 raw w3 = Some w4 ->
  passes (set_env (core w1) e1) f -> frame_key f ∉ (offers pre).*2 ->
  Z.of_nat (length (filter (fun d => d.2 <> frame_key f) (offers mid))) < cap ->
  let first := now_dedup e1 in
  t <= 0 \/
    (-2 ^ 63 <= first /\ first + 2 * t < 2 ^ 63 /\ now_dedup e2 <= first + t /\
     forall now, (now, frame_key f) ∈ offers mid -> first <= now <= first + t) ->
  (egr (core w2) = (Send (io_egr e1) raw f (egr (core w1))).2 /\
   mcastEgr (core w2) =
     (fun mc => (MCSend (io_mcast e1) raw f (GroupIndex (TxID f)) mc).2) <$> mcastEgr (core w1)) /\
  (egr (core w4) = egr (core w3) /\ mcastEgr (core w4) = mcastEgr (core w3)) /\
  (passes (set_env (core w3) e2) f -> forall tk, tracker (core w3) = Some tk -> exists r tk',
     Nack.Observe (now_tracker e2) (rnd e2) (GroupIndex (TxID f)) (SubtreeID f) (HashKey f)
       (SeqNum f) (with_flows tk (flows tk) r) = Some tk' /\ tracker (core w4) = Some tk').
Proof.
  intros Hft Hpre Hmid Hpl Hd Hv Hs Hcap R1 R2 R3 R4 Hp1 Hnew Hfew first Htime.
  assert (wired_buffer v m (mkWorker c0 (Some (worker_buffer v m)))) as Hb0
    by (intros b [= <-]; apply worker_buffer_inv).
  destruct (run_dedup v m pre _ w1 _ Hft Hpre Hb0 Hs R1) as (Hb1 & tr1 & Htr1 & E1).
  destruct (plain_process e1 raw w1 w2 Hpl R2) as [P1 B1].
  destruct (process_admitted raw f _ (set_env (core w1) e1) _ Hd Hv E1 Hp1 P1) as (E2 & Hsent & _).
  change (now_dedup (env (set_env (core w1) e1))) with first in E2, Hsent.
  assert (frame_key f ∉ tr1.*2) as Hk1.
  { intros (d & Ed & Hin)%list_elem_of_fmap. apply Hnew. rewrite Ed.
    apply list_elem_of_fmap_2. by eapply elem_of_sublist. }
  destruct (first_remembered tr1 cap t first _ Hcap Hk1) as [Ha1 _]. rewrite Ha1 in Hsent.
  split; [exact Hsent|].
  assert (wired_buffer v m w2) as Hb2 by (intros b; rewrite B1; apply Hb1).
  destruct (run_dedup v m mid w2 w3 _ Hft Hmid Hb2 E2 R3) as (_ & tr2 & Htr2 & E3).
  destruct (plain_process e2 raw w3 w4 Hpl R4) as [P2 _].
  assert ((SeenAndAdd (now_dedup e2) (frame_key f)
            (calls tr2 (calls (tr1 ++ [(first, frame_key f)]) (Dedup.New cap t)).2).2).1 = true) as Ha2.
  { apply (repeated_answer tr1 tr2 cap t first _ _ (first + t)); try done.
    - destruct Htime as [?|(? & ? & _)]; [by left|]. destruct (Z.leb_spec t 0); [by left|].
      right. rewrite i64_id; lia.
    - apply Forall_forall. intros [now k] Hin Ek. simpl in Ek. subst k.
      destruct Htime as [?|(? & ? & _ & Hall)]; [by left|]. right. simpl.
      specialize (Hall now (elem_of_sublist _ _ _ Hin Htr2)). rewrite i64_id; lia.
    - pose proof (filter_length_sublist (fun d : Z * Key => d.2 <> frame_key f) _ _ Htr2). lia.
    - destruct Htime as [?|(_ & _ & ? & _)]; [by left|by right]. }
  rewrite calls_snoc in Ha2. cbn [snd] in Ha2.
  assert (passes (set_env (core w3) e2) f -> egr (core w4) = egr (core w3) /\
    mcastEgr (core w4) = mcastEgr (core w3) /\ exists c, env c = e2 /\ tracker c = tracker (core w3) /\
    track (GroupIndex (TxID f)) (SubtreeID f) (HashKey f) (SeqNum f) c = Some (core w4)) as Hadm.
  { intros Hp2. destruct (process_admitted raw f _ (set_env (core w3) e2) _ Hd Hv E3 Hp2 P2) as (_ & H & Htr).
    change (now_dedup (env (set_env (core w3) e2))) with (now_dedup e2) in H. rewrite Ha2 in H.
    destruct H. by split_and!. }
  split.
  - destruct (process_offers e2 raw _ (set_env (core w3) e2) _ Hpl E3 eq_refl P2) as [(H1 & H2 & _)|[(f' & Hd' & Hp2) _]];
      [done|].
    rewrite Hd in Hd'. injection Hd' as <-. destruct (Hadm Hp2) as (? & ? & _). done.
  - intros Hp2 tk Htk. destruct (Hadm Hp2) as (_ & _ & c & Ee & Et & Ht). unfold track in Ht.
    rewrite Et, Ee, Htk in Ht. apply bind_Some in Ht as (tk' & Ho & E).
    exists (w_rec c), tk'. split; [exact Ho|]. injection E as E. by rewrite <- E.
Qed.
End Duplicates.
