(* ===== verification/ListenerExample.v ===== *)
(** A worker on concrete datagrams: the witnesses of the worker's theorems, and
    a fragmented transaction taken through it from end to end. *)
From Stdlib Require Import ZArith Lia.
From S2P Require Import Prelude Sha256 Frame FrameExample Metrics Net Reassembly.
From S2P Require Import Dedup SubtreeGroup Filter Nack NackSteps NackProps Egress.
From S2P Require Import Listener ListenerProps ListenerCount ReassemblyProps Fragmented.

(** ** The example library returns typed fragments *)

Lemma be_get_range l : Forall is_byte l -> 0 <= be_get l < 256 ^ Z.of_nat (length l).
Proof.
  induction l as [|b l IH] using rev_ind; [done|].
  intros [Hl [Hb _]%Forall_cons]%Forall_app. rewrite be_get_snoc, length_app.
  specialize (IH Hl). unfold is_byte in Hb. simpl length.
  rewrite Nat2Z.inj_add, Z.pow_add_r by lia. change (256 ^ Z.of_nat 1) with 256. lia.
Qed.

Lemma slice_range i j raw (k : nat) :
  (j - i <= k)%nat -> Forall is_byte raw -> 0 <= be_get (slice i j raw) < 256 ^ Z.of_nat k.
Proof.
  intros Hk Hb. assert (Forall is_byte (slice i j raw)) as Hs
    by auto with bytes.
  pose proof (be_get_range _ Hs) as Hr. split; [lia|].
  eapply Z.lt_le_trans; [apply Hr|]. apply Z.pow_le_mono_r; [lia|].
  unfold slice. len.
Qed.

Lemma example_fragments_typed : fragments_typed.
Proof.
  intros raw ff Hb. unfold DecodeFragment, exampleLib, ex_fragment.
  destruct (ex_kind 3 raw && _); [|done]. intros [= <-]. unfold frag_ok. simpl.
  pose proof (slice_range 96 98 raw 2 ltac:(lia) Hb).
  pose proof (slice_range 98 100 raw 2 ltac:(lia) Hb).
  pose proof (slice_range 92 96 raw 4 ltac:(lia) Hb).
  pose proof (slice_range 48 56 raw 8 ltac:(lia) Hb). lia.
Qed.

Lemma example_frames_typed : frames_typed.
Proof.
  intros raw Hb. pose proof (slice_range 48 56 raw 8 ltac:(lia) Hb).
  split_and!; [|by intros ? [= <-]..].
  intros f. unfold DecodeFrame, exampleLib, ex_decode. destruct (ex_kind 2 raw); [|done].
  by intros [= <-].
Qed.

(** ** Datagrams *)

Definition payload1 : bytes := [1; 2; 3; 4; 5].
Definition txid1 : bytes := sha256d payload1.
Definition frame1 (seq : Z) : Frame := mkFrame 2 txid1 7 seq (zeros 32) payload1.
Definition raw1 (seq : Z) : bytes := default [] (EncodeFrame (frame1 seq) (zeros 97)).

(** The same payload under a TxID that is not its hash. *)
Definition bad_raw : bytes :=
  default [] (EncodeFrame (mkFrame 2 (zeros 32) 7 9 (zeros 32) payload1) (zeros 97)).

(** Fragment [i] of [n] of that payload. *)
Definition frag_raw (i n : Z) (data : bytes) : bytes :=
  be_put 4 0xE3E1F3E8 ++ be_put 2 0x02BF ++ [3; 0] ++ txid1 ++ be_put 8 7 ++ be_put 8 12 ++
  zeros 32 ++ [0; 0; 0; 2] ++ be_put 4 5 ++ be_put 2 i ++ be_put 2 n ++ data.

Definition ex_env (t : Z) : Env :=
  mkEnv t t t (fun _ => t) (fun _ => 0) io_fine true io_fine true.

Definition ex_core (f : Filter.Filter SubtreeGroup.Registry) : Core :=
  SetEgressDedup (Some (Dedup.New 16 Second))
    (SetVerifyPayloadHash true
       (Listener.New (ex_env 0) 0 "eth0" f (mkSender "[fd00::1]:9000" "udp" false None true 0 [])
          None (Some (Nack.New ex_cfg [] None None)) (Some (Metrics.New 1)))).

Definition open_filter : Filter.Filter SubtreeGroup.Registry := Filter.New [] [] [] None.

Definition ex_worker : Worker :=
  mkWorker (ex_core open_filter) (Some (worker_buffer true false)).

(** Meanwhile a retry endpoint's frame fills number 7 of flow 7, and the
    announcement listener drops every group. *)
Definition ex_fill : Tracker -> Tracker := Fill 7 7.
Definition no_groups : SubtreeGroup.Registry := SubtreeGroup.New [] 0.

Definition ex_run : list WOp :=
  [WGroups no_groups; WTrack ex_fill; WData (ex_env 1) (raw1 10); WData (ex_env 2) bad_raw; WData (ex_env 3) (raw1 10);
   WData (ex_env 4) (frag_raw 1 2 [4; 5]); WTick 5; WData (ex_env 6) (frag_raw 0 2 [1; 2; 3])].

(** The inline frame goes out, the corrupt one and the duplicate do not, and the
    two fragments, in reverse order, go out as one frame with number 12. *)
Example ex_run_outputs :
  (w ← worker_run ex_run ex_worker; Some (sent (egr (core w)))) =
    Some [raw1 10; default [] (EncodeFrame (frame1 12) (zeros 97))].
Proof. vm_compute. reflexivity. Qed.

Definition wop_okb (o : WOp) : bool :=
  match o with
  | WData _ raw => forallb byteb raw
  | WTick _ | WGroups _ => true
  | _ => false
  end.

Lemma wops_check ops : forallb wop_okb ops = true -> Forall wop_ok ops.
Proof.
  intros H. rewrite Forall_forall. intros o Ho. rewrite forallb_forall in H.
  apply list_elem_of_In, H in Ho. destruct o as [e raw| | | |]; [|done..]. by apply bytes_check.
Qed.

Lemma ex_fill_ok : wop_ok (WTrack ex_fill).
Proof. intros t. apply rtc_once, step_fill. Qed.

Lemma ex_run_ok : Forall wop_ok ex_run.
Proof.
  apply (Forall_app_2 _ [WGroups no_groups; WTrack ex_fill]).
  - apply Forall_cons_2; [exact I|]. apply Forall_singleton, ex_fill_ok.
  - apply wops_check. vm_compute. reflexivity.
Qed.

(** ** Witnesses *)

Lemma outputs_are_admitted_witness :
  exists w', worker_run ex_run ex_worker = Some w' /\
    Forall (output (ex_core open_filter)
      (fun r => r = groups_of (filt (ex_core open_filter)) \/ WGroups r ∈ ex_run)
      (stripHeader (egr (core w')))) (sent (egr (core w'))).
Proof.
  destruct (worker_run ex_run ex_worker) as [w'|] eqn:E.
  - exists w'. split; [reflexivity|].
    apply (outputs_are_admitted false ex_run (ex_core open_filter) w').
    + exact example_fragments_typed.
    + exact ex_run_ok.
    + split; [reflexivity|]. repeat split; intros mc H; discriminate H.
    + exact E.
  - exfalso. assert ((w ← worker_run ex_run ex_worker; Some (sent (egr (core w)))) = None) as H
      by (by rewrite E).
    by rewrite ex_run_outputs in H.
Defined.

Lemma worker_never_panics_witness :
  exists w', worker_run ex_run ex_worker = Some w'.
Proof.
  destruct (worker_never_panics true false ex_run (ex_core open_filter)) as (w' & H & _).
  - exact example_fragments_typed.
  - exact ex_run_ok.
  - intros t [= <-]. vm_compute. reflexivity.
  - exists w'. exact H.
Defined.

(** Numbers 5 and 10 of one flow: four gaps, of which 7 is filled by another
    goroutine and 8 by a late frame. *)
Definition gap_run : list WOp :=
  [WData (ex_env 1) (raw1 5); WData (ex_env 2) (raw1 10); WTrack ex_fill; WData (ex_env 3) (raw1 8)].

Lemma gap_run_ok : Forall wop_ok gap_run.
Proof.
  apply (Forall_app_2 _ [WData (ex_env 1) (raw1 5); WData (ex_env 2) (raw1 10)]);
    [|apply Forall_cons_2; [exact ex_fill_ok|]];
    apply wops_check; vm_compute; reflexivity.
Qed.

Example gap_run_counts :
  (w ← worker_run gap_run ex_worker; r ← w_rec (core w);
   Some (value gapsDetected r, value gapsSuppressed r, PendingGaps <$> tracker (core w))) =
    Some (4, 2, Some 2).
Proof. vm_compute. reflexivity. Qed.

Lemma worker_gap_accounting_witness :
  exists w' t r, worker_run gap_run ex_worker = Some w' /\ tracker (core w') = Some t /\
    w_rec (core w') = Some r /\
    value gapsDetected r = value gapsSuppressed r + value nacksUnrecovered r + PendingGaps t.
Proof.
  destruct (worker_run gap_run ex_worker) as [w'|] eqn:E;
    [|pose proof gap_run_counts as H; rewrite E in H; discriminate H].
  exists w'.
  destruct (worker_gap_accounting true false gap_run (ex_core open_filter)
    (Nack.New ex_cfg [] None None) 1 w') as (t & r & H).
  - exact example_fragments_typed.
  - exact example_frames_typed.
  - exact gap_run_ok.
  - reflexivity.
  - reflexivity.
  - reflexivity.
  - reflexivity.
  - reflexivity.
  - exact E.
  - exists t, r. split; [reflexivity|exact H].
Defined.

Definition plain_worker : Worker := mkWorker (ex_core open_filter) None.

Definition count_run : list (Env * bytes) :=
  [(ex_env 1, raw1 10); (ex_env 2, bad_raw); (ex_env 3, raw1 10); (ex_env 4, frag_raw 0 2 [])].

Example count_run_ends :
  (fun _ => tt) <$> worker_run ((fun d => WData d.1 d.2) <$> count_run) plain_worker = Some tt.
Proof. vm_compute. reflexivity. Qed.

Lemma datagram_accounting_witness :
  exists w' r', worker_run ((fun d => WData d.1 d.2) <$> count_run) plain_worker = Some w' /\
    w_rec (core w') = Some r' /\ settled r' = 4.
Proof.
  pose proof count_run_ends as H. apply fmap_Some in H as (w' & E & _).
  destruct (datagram_accounting count_run plain_worker w' (Metrics.New 1)) as (r' & H1 & H2).
  - repeat constructor.
  - simpl. discriminate.
  - reflexivity.
  - exact E.
  - exists w', r'. split; [exact E|]. split; [exact H1|]. rewrite H2. reflexivity.
Defined.

(** The frame with number 10; a frame with another number, a corrupt one, a
    fragment, a fill from another goroutine, and a copy of the frame; then the
    frame again. *)
Definition between : list WOp :=
  [WData (ex_env 2) (raw1 5); WTrack ex_fill; WData (ex_env 3) bad_raw;
   WData (ex_env 4) (frag_raw 1 2 [4; 5]); WData (ex_env 5) (raw1 10); WTick 6].

Lemma between_ok : Forall wop_ok between.
Proof.
  apply Forall_cons_2; [apply bytes_check; vm_compute; reflexivity|].
  apply Forall_cons_2; [exact ex_fill_ok|]. apply wops_check. vm_compute. reflexivity.
Qed.

Example between_offers :
  offers [WGroups no_groups] = [] /\
  offers between = [(2, frame_key (frame1 5)); (3, mkKey 0 (zeros 32) 9); (5, frame_key (frame1 10))].
Proof. split; vm_compute; reflexivity. Qed.

Definition twice : option (Worker * Worker * Worker * Worker) :=
  w1 ← worker_run [WGroups no_groups] ex_worker;
  w2 ← processFrame (ex_env 1) (raw1 10) w1;
  w3 ← worker_run between w2;
  w4 ← processFrame (ex_env 7) (raw1 10) w3; Some (w1, w2, w3, w4).

Example twice_sends :
  (fun ws => (length (sent (egr (core ws.1.1.2))), length (sent (egr (core ws.2))),
     (verifyPayloadHash (core ws.1.1.1) && is_v2 (frame1 10) &&
        negb (bool_decide (sha256d (Payload (frame1 10)) = TxID (frame1 10))),
      (Allow (clock (ex_env 1)) (GroupIndex (TxID (frame1 10))) (frame1 10)
         (filt (core ws.1.1.1))).1))) <$> twice =
    Some (1%nat, 2%nat, (false, true)).
Proof. vm_compute. reflexivity. Qed.

Lemma retransmit_forwarded_once_witness :
  exists w1 w2 w3 w4, twice = Some (w1, w2, w3, w4) /\
    length (sent (egr (core w2))) = 1%nat /\ length (sent (egr (core w4))) = 2%nat /\
    egr (core w4) = egr (core w3).
Proof.
  pose proof twice_sends as H. apply fmap_Some in H as ([[[w1 w2] w3] w4] & E & H).
  exists w1, w2, w3, w4. split; [exact E|]. cbn [fst snd] in H.
  apply pair_eq in H as [H Hp]. apply pair_eq in H as [H1 H2]. apply pair_eq in Hp as [Hhash Hallow].
  split; [symmetry; exact H1|]. split; [symmetry; exact H2|].
  unfold twice in E. apply bind_Some in E as (v1 & R1 & E). apply bind_Some in E as (v2 & R2 & E).
  apply bind_Some in E as (v3 & R3 & E). apply bind_Some in E as (v4 & R4 & E).
  apply (inj Some) in E. apply pair_eq in E as [E ->]. apply pair_eq in E as [E ->].
  apply pair_eq in E as [-> ->]. destruct between_offers as [Ho1 Ho2].
  destruct (retransmit_forwarded_once true false 16 Second (raw1 10) (frame1 10)
    [WGroups no_groups] between (ex_env 1) (ex_env 7) (ex_core open_filter) w1 w2 w3 w4)
    as (_ & [H _] & _).
  - exact example_fragments_typed.
  - apply Forall_cons_2; [exact I|constructor].
  - exact between_ok.
  - vm_compute. reflexivity.
  - vm_compute. reflexivity.
  - vm_compute. reflexivity.
  - reflexivity.
  - reflexivity.
  - exact R1.
  - exact R2.
  - exact R3.
  - exact R4.
  - split; symmetry; [exact Hhash|exact Hallow].
  - rewrite Ho1. apply not_elem_of_nil.
  - rewrite Ho2. vm_compute. reflexivity.
  - right. rewrite Ho2. split; [discriminate|]. split; [reflexivity|]. split; [discriminate|].
    intros now Hin. rewrite !elem_of_cons in Hin. destruct Hin as [Hin|[Hin|[Hin|Hin]]].
    + apply (f_equal (fun d => KSeqNum d.2)) in Hin. discriminate Hin.
    + apply (f_equal (fun d => KSeqNum d.2)) in Hin. discriminate Hin.
    + apply (f_equal fst) in Hin. simpl in Hin. subst now. split; discriminate.
    + destruct (proj1 (elem_of_nil _) Hin).
  - exact H.
Defined.

(** ** A fragmented transaction *)

Definition frag_run : list WOp :=
  [WData (ex_env 1) (raw1 10); WData (ex_env 4) (frag_raw 1 2 [4; 5]); WTick 5].
Definition pieces1 : list bytes := [[1; 2; 3]; [4; 5]].
Definition frag1 (i : Z) (data : bytes) : FragFrame :=
  mkFragFrame txid1 (zeros 32) 7 12 5 i 2 2 0 data.

Example frag_run_unseen :
  (fun w => (dedup_check (GroupIndex txid1) (frame1 12) (set_env (core w) (ex_env 6))).1) <$>
    worker_run frag_run ex_worker = Some false.
Proof. vm_compute. reflexivity. Qed.

Example frag_run_sends :
  (w ← worker_run frag_run ex_worker;
   w' ← processFrame (ex_env 6) (frag_raw 0 2 [1; 2; 3]) w; Some (sent (egr (core w')))) =
    Some [raw1 10; raw1 12].
Proof. vm_compute. reflexivity. Qed.

Example frag_run_seen :
  omap buffer_op frag_run = [OObserve 4 (frag1 1 [4; 5]); OTick 5] /\
  buffer_op (WData (ex_env 6) (frag_raw 0 2 [1; 2; 3])) = Some (OObserve 6 (frag1 0 [1; 2; 3])).
Proof. split; vm_compute; reflexivity. Qed.

Lemma frag1_of i d :
  0 <= i < 2 -> pieces1 !! Z.to_nat i = Some d ->
  frag_ok (frag1 i d) /\ fragment_of txid1 pieces1 (frag1 i d).
Proof.
  intros Hi Hd. split; [unfold frag_ok; cbn; lia|]. intros _. split; [reflexivity|].
  split; [exact Hd|]. unfold bad_metadata. cbn. rewrite (proj2 (Z.leb_gt _ _)) by lia. reflexivity.
Qed.

Lemma frag_run_punctual : Forall (punctual txid1 pieces1 4) (omap buffer_op frag_run).
Proof.
  destruct frag_run_seen as [-> _]. apply Forall_cons_2; [|apply Forall_cons_2; [|apply Forall_nil_2]].
  - destruct (frag1_of 1 [4; 5] ltac:(lia) eq_refl) as [H1 H2]. split; [exact H1|].
    split; [exact H2|]. vm_compute. split; discriminate.
  - vm_compute. split; discriminate.
Qed.

Lemma frag_last_punctual : punctual txid1 pieces1 4 (OObserve 6 (frag1 0 [1; 2; 3])).
Proof.
  destruct (frag1_of 0 [1; 2; 3] ltac:(lia) eq_refl) as [H1 H2]. split; [exact H1|].
  split; [exact H2|]. vm_compute. split; discriminate.
Qed.

Lemma raw1_whole : datagram_of (frame1 12) (raw1 12).
Proof. vm_compute. repeat split. Qed.

Lemma frag_run_ok : Forall wop_ok frag_run.
Proof. apply wops_check. vm_compute. reflexivity. Qed.

Lemma frag_indices :
  indices txid1 (observations frag_run) = [1%nat] /\
  indices txid1 (observations frag_run ++ [(6, frag1 0 [1; 2; 3])]) = [1%nat; 0%nat].
Proof. split; vm_compute; reflexivity. Qed.

Lemma frag_first :
  first_of txid1 (observations frag_run) (6, frag1 0 [1; 2; 3]) = (4, frag1 1 [4; 5]).
Proof. vm_compute. reflexivity. Qed.

Lemma fragmented_like_inline_witness :
  exists w, worker_run frag_run ex_worker = Some w /\
    (w' ← processFrame (ex_env 6) (frag_raw 0 2 [1; 2; 3]) w; Some (sent (egr (core w')))) =
      Some [raw1 10; raw1 12] /\
    erase ∘ core <$> processFrame (ex_env 6) (frag_raw 0 2 [1; 2; 3]) w =
      erase ∘ core <$> processFrame (ex_env 6) (raw1 12) w.
Proof.
  pose proof frag_run_unseen as Hs. pose proof frag_run_sends as Hsent.
  destruct frag_run_seen as [_ Hlast]. destruct frag_indices as [Hi1 Hi2].
  apply bind_Some in Hsent as (w & E & Hsent). rewrite E in Hs. apply (inj Some) in Hs.
  exists w. split; [exact E|]. split; [exact Hsent|].
  pose proof (fragmented_like_inline txid1 pieces1 false [] frag_run 4 (ex_core open_filter)
    ex_worker w (ex_env 6) (frag_raw 0 2 [1; 2; 3]) (frag1 0 [1; 2; 3]) (raw1 12)) as H.
  cbn zeta in H. change (now_buffer (ex_env 6)) with 6 in H. rewrite frag_first in H.
  change (message txid1 pieces1 (4, frag1 1 [4; 5]).2) with (frame1 12) in H.
  apply H; clear H.
  - exact example_fragments_typed.
  - constructor.
  - exact frag_run_ok.
  - reflexivity.
  - intros mc H. discriminate H.
  - reflexivity.
  - exact E.
  - vm_compute. reflexivity.
  - vm_compute. reflexivity.
  - exact frag_run_punctual.
  - exact frag_last_punctual.
  - exact Hlast.
  - reflexivity.
  - rewrite Hi1. intros H. apply list_elem_of_singleton in H. discriminate H.
  - rewrite Hi2. intros i Hi. simpl in Hi. destruct i as [|[|i]]; [right; left|left|lia].
  - discriminate.
  - discriminate.
  - intros _. vm_compute. reflexivity.
  - exact raw1_whole.
  - exact Hs.
Defined.
