(* ===== verification/MainExample.v ===== *)
(** The program on a concrete configuration, from the environment to the sinks:
    witnesses of the theorems of [Run] and [MainProps]. *)
From Stdlib Require Import ZArith Lia.
From S2P Require Import Prelude Sha256 Frame FrameExample Metrics Net NetParse Sockets Reassembly.
From S2P Require Import Dedup SubtreeGroup Filter Discovery Announce Nack NackSteps Egress Listener.
From S2P Require Import ListenerProps Run Config ConfigProps Main MainProps ListenerExample.
#[local] Open Scope Z_scope.

(** ** Group addresses *)

(** The layout of docs/architecture.md: scope prefix, group id, index. *)
Definition ex_addr (p g i : Z) : bytes := be_put 2 p ++ zeros 10 ++ be_put 2 g ++ be_put 2 i.

#[export] Instance exampleShard : ShardLib := {|
  Engine := Z * Z * Z;
  shard_New p g b := (p, g, b);
  Addr e i port := mkUDPAddr (ex_addr e.1.1 e.1.2 i) port;
  ControlGroupAddr := ex_addr;
  CtrlGroupBeacon := 0xFFFD;
|}.

Lemma mreq_control p g i : mreq_addr (ControlGroupAddr p g i) = ex_addr p g i.
Proof. done. Qed.

Lemma mreq_shard cfg i port :
  mreq_addr (ua_IP (Addr (make_engine cfg) i port)) = ex_addr (MCPrefix cfg) (MCGroupID cfg) i.
Proof. done. Qed.

Lemma ex_addr_inj p g i j :
  0 <= i < 65536 -> 0 <= j < 65536 -> ex_addr p g i = ex_addr p g j -> i = j.
Proof.
  intros Hi Hj E. apply (f_equal (drop 14)) in E.
  change (be_put 2 i = be_put 2 j) in E. apply (f_equal be_get) in E.
  rewrite !be_get_put in E. by rewrite !Z.mod_small in E by (simpl; lia).
Qed.

(** ** A configuration *)

Definition host_ifaces (name : string) : option Interface :=
  if String.eqb name "eth0" then Some (mkInterface 2 "eth0") else None.

(** Two of the four shards, a subscribed group, hash verification, and the
    unicast header sink. *)
Definition host_env (shards key : string) : string :=
  if String.eqb key "SHARD_INCLUDE" then shards
  else if String.eqb key "SUBTREE_GROUPS" then "0x00000000000000000000000000000001"
  else if String.eqb key "VERIFY_PAYLOAD_HASH" then "true"
  else if String.eqb key "SUBTREE_DATA_ENABLED" then "1"
  else if String.eqb key "HEADER_EGRESS_ENABLED" then "true"
  else "".

Definition from_inl {A E} (r : A + E) : match r with inl _ => A | inr _ => unit end :=
  match r with inl a => a | inr _ => tt end.

Definition load (shards : string) : Config + LoadError :=
  Load (host_env shards) host_ifaces 2 (fun f => f).

Definition host_cfg := Eval vm_compute in from_inl (load "2, 0").
Definition twice_cfg := Eval vm_compute in from_inl (load "2,0,2").

Lemma host_loads : load "2, 0" = inl host_cfg.
Proof. vm_compute. reflexivity. Qed.

Lemma twice_loads : load "2,0,2" = inl twice_cfg.
Proof. vm_compute. reflexivity. Qed.

Lemma example_addresses cfg : NumGroups cfg = 4 -> shard_addresses cfg.
Proof.
  intros Hn. split; rewrite ?Hn.
  - intros i j Hi Hj. rewrite !mreq_shard. apply ex_addr_inj; lia.
  - intros i ctl Hi Hc E. rewrite mreq_shard, mreq_control in E.
    assert (i = ctl); [|destruct Hc; subst; simpl in *; lia].
    revert E. apply ex_addr_inj; [lia|]. destruct Hc; subst; simpl; lia.
  - rewrite !mreq_control. intros E%ex_addr_inj; simpl in *; lia.
  - intros id Hb. unfold GroupIndex, exampleLib, byte_at.
    assert (0 <= default 0 (id !! 0%nat) < 256) as Hr.
    { destruct id as [|b id]; [simpl; lia|]. apply Forall_cons in Hb as [Hb _]. exact Hb. }
    split; [apply Z.div_pos; lia|]. apply Z.div_lt_upper_bound; lia.
Qed.

(** A frame of shard 2, one of shard 1. *)
Definition shard_frame (b : Z) : Frame := mkFrame 2 (b :: zeros 31) 7 1 s1 [].

Lemma joined_groups_match_filter_witness :
  Addr (make_engine host_cfg) 2 9001 ∈ buildGroups host_cfg (make_engine host_cfg) /\
  ~ Addr (make_engine host_cfg) 1 9001 ∈ buildGroups host_cfg (make_engine host_cfg).
Proof.
  assert (forall b, 0 <= b < 256 -> Forall is_byte (TxID (shard_frame b))) as Hb.
  { intros b Hb. constructor; [exact Hb|]. by apply bytes_check. }
  split.
  - change (Addr (make_engine host_cfg) 2 9001) with
      (Addr (make_engine host_cfg) (GroupIndex (TxID (shard_frame 128))) (ListenPort host_cfg)).
    apply (joined_groups_match_filter (host_env "2, 0") host_ifaces 2 (fun f => f) host_cfg
      (fun _ => 0) (shard_frame 128)).
    + lia.
    + exact host_loads.
    + by apply example_addresses.
    + apply Hb. lia.
    + vm_compute. discriminate.
  - change (Addr (make_engine host_cfg) 1 9001) with
      (Addr (make_engine host_cfg) (GroupIndex (TxID (shard_frame 64))) (ListenPort host_cfg)).
    intros H. apply (joined_groups_match_filter (host_env "2, 0") host_ifaces 2 (fun f => f) host_cfg
      (fun _ => 0) (shard_frame 64)) in H.
    + apply H. vm_compute. reflexivity.
    + lia.
    + exact host_loads.
    + by apply example_addresses.
    + apply Hb. lia.
Defined.

Lemma workers_start_iff_shards_distinct_witness :
  (worker_setup host_cfg simple_kernel []).1 <> None /\
  ~ (worker_setup twice_cfg simple_kernel []).1 <> None.
Proof.
  split.
  - apply (workers_start_iff_shards_distinct (host_env "2, 0") host_ifaces 2 (fun f => f) host_cfg).
    + lia.
    + exact host_loads.
    + by apply example_addresses.
    + exact simple_fresh.
    + exact simple_once.
    + exact simple_obliging.
    + apply (bool_decide_unpack _). reflexivity.
  - intros H.
    apply (workers_start_iff_shards_distinct (host_env "2,0,2") host_ifaces 2 (fun f => f) twice_cfg) in H.
    + revert H. apply (bool_decide_unpack (NoDup _ -> False)). reflexivity.
    + lia.
    + exact twice_loads.
    + by apply example_addresses.
    + exact simple_fresh.
    + exact simple_once.
    + exact simple_obliging.
Defined.

(** ** A worker of that configuration *)

Definition all_fine : SinkIO := mkSinkIO true true true true true true.

Definition payload2 : bytes := [2].
Definition group_frame (sub : bytes) : Frame := mkFrame 2 (sha256d payload2) 7 1 sub payload2.
Definition group_raw (sub : bytes) : bytes := default [] (EncodeFrame (group_frame sub) (zeros 93)).

(** The registry after one announcement of [s1] for the subscribed group. *)
Definition host_hist : list SubtreeGroup.Op := [SubtreeGroup.OpAdd 0 g1 s1 0].
Definition host_groups := Eval vm_compute in
  default (SubtreeGroup.New [] 0)
    (SubtreeGroup.run host_hist (SubtreeGroup.New (SubtreeGroups host_cfg) (SubtreeGroupDefaultTTL host_cfg))).

(** A frame comes before its subtree is announced, and again after. *)
Definition host_run : list WOp :=
  [WData (ex_env 1) (group_raw s1); WGroups host_groups; WData (ex_env 2) (group_raw s1)].

Lemma host_run_ok : Forall wop_ok host_run.
Proof. apply wops_check. vm_compute. reflexivity. Qed.

Definition host_outputs : option (list bytes) :=
  match start_worker host_cfg all_fine all_fine (ex_env 0) 0 with
  | inl w => w ← worker_run host_run w; Some (sent (egr (core w)))
  | inr _ => None
  end.

Example host_run_outputs : host_outputs = Some [group_raw s1].
Proof. vm_compute. reflexivity. Qed.

Lemma host_run_announced r :
  WGroups r ∈ host_run -> exists hist, hist = host_hist /\ announced host_cfg hist r.
Proof.
  intros Hr. exists host_hist. split; [done|]. assert (r = host_groups) as ->.
  { unfold host_run in Hr. rewrite !elem_of_cons in Hr.
    destruct Hr as [[=]|[[= ->]|[[=]|Hr]]]; [done|]. by apply elem_of_nil in Hr. }
  vm_compute. reflexivity.
Qed.

Lemma configured_worker_witness :
  exists w w', start_worker host_cfg all_fine all_fine (ex_env 0) 0 = inl w /\
    worker_run host_run w = Some w' /\
    Forall (configured_output host_cfg (policy_admits host_cfg (fun h => h = host_hist)))
      (sent (egr (core w'))).
Proof.
  destruct (start_worker host_cfg all_fine all_fine (ex_env 0) 0) as [w|] eqn:E.
  - destruct (configured_worker host_cfg (fun h => h = host_hist) all_fine all_fine (ex_env 0) 0 w host_run) as (w' & H1 & H2 & _).
    + vm_compute. split; [discriminate|reflexivity].
    + exact E.
    + exact example_fragments_typed.
    + exact host_run_ok.
    + exact host_run_announced.
    + exists w, w'. split; [reflexivity|]. split; [exact H1|exact H2].
  - exfalso. pose proof host_run_outputs as H. unfold host_outputs in H. rewrite E in H. discriminate H.
Defined.

(** ** Its life *)

(** Two datagrams, a timeout, the cancel. *)
Definition host_turns (stop : bool) : list Turn :=
  [mkTurn (ex_env 1) false (RecvData (raw1 5) SockaddrOther);
   mkTurn (ex_env 2) false (RecvErr EAGAIN);
   mkTurn (ex_env 3) true (RecvData (raw1 10) SockaddrOther)] ++
  if stop then [mkTurn (ex_env 4) true (RecvErr EAGAIN)] else [].

Lemma host_turns_ok b : Forall (fun t => Forall wop_ok (datagram t)) (host_turns b).
Proof.
  assert (forall t, forallb wop_okb (datagram t) = true -> Forall wop_ok (datagram t)) as H
    by (intros; by apply wops_check).
  destruct b; repeat (apply Forall_cons_2; [apply H; vm_compute; reflexivity|]); apply Forall_nil_2.
Qed.

Definition ex_groups : list bytes := [ex_ip 3; ex_ip 4].

Lemma run_readiness_witness :
  match (Run 9001 2 ex_groups (host_turns true)
           (mkWorker (ex_core open_filter) (Some (worker_buffer true false))) simple_kernel []).1 with
  | SetupFailed w => w_rec (core w) = Some (Metrics.New 1)
  | Receiving _ w => exists r', w_rec (core w) = Some r' /\ readyCount r' = 0 + 1 /\
      draining r' = false /\ numWorkers r' = 1
  | Returned _ w => exists r', w_rec (core w) = Some r' /\ readyCount r' = 0 /\
      draining r' = false /\ numWorkers r' = 1
  | Panicked => True
  end.
Proof.
  apply (run_readiness true false 9001 2 ex_groups (host_turns true) (ex_core open_filter)
    (Metrics.New 1) simple_kernel []).
  - exact example_fragments_typed.
  - exact (host_turns_ok true).
  - reflexivity.
  - vm_compute. split; [discriminate|reflexivity].
Defined.

Lemma run_returns_iff_witness :
  (exists w, (Run 9001 2 ex_groups (host_turns true)
     (mkWorker (ex_core open_filter) (Some (worker_buffer true false))) simple_kernel []).1 =
       Returned 1 w) /\
  (exists w, (Run 9001 2 ex_groups (host_turns false)
     (mkWorker (ex_core open_filter) (Some (worker_buffer true false))) simple_kernel []).1 =
       Receiving 1 w).
Proof.
  assert (exists h1, run_setup 9001 2 ex_groups simple_kernel [] = (Some 1, h1)) as [h1 Hs]
    by (eexists; vm_compute; reflexivity).
  split; eapply (run_returns_iff true false 9001 2 ex_groups _ (ex_core open_filter) simple_kernel [] 1 h1);
    try exact Hs; try exact example_fragments_typed; try apply host_turns_ok;
    try (intros t [= <-]; vm_compute; reflexivity).
  - do 3 apply Exists_cons_tl. apply Exists_cons_hd. reflexivity.
  - intros H. do 3 (apply Exists_cons in H as [H|H]; [discriminate H || exact H|]). inversion H.
Defined.

Lemma run_closes_socket_witness :
  opened (close_on_cancel 1 simple_kernel
    (Run 9001 2 ex_groups [] (mkWorker (ex_core open_filter) None) simple_kernel []).2).2 = ∅.
Proof.
  pose proof (run_closes_socket 9001 2 ex_groups [] (mkWorker (ex_core open_filter) None)
    simple_kernel [] simple_fresh) as H.
  destruct (Run 9001 2 ex_groups [] (mkWorker (ex_core open_filter) None) simple_kernel []) as [r h'] eqn:E.
  assert (r = Receiving 1 (with_core (mkWorker (ex_core open_filter) None)
                             (emit WorkerReady (ex_core open_filter)))) as ->.
  { transitivity (Run 9001 2 ex_groups [] (mkWorker (ex_core open_filter) None) simple_kernel []).1;
      [rewrite E; reflexivity|]. reflexivity. }
  exact H.
Defined.
