(* ===== verification/ProcessExample.v ===== *)
(** The process on a concrete run: the witnesses of the theorems of
    [ProcessProps] and [ProcessNack]. *)
From Stdlib Require Import ZArith Lia.
From S2P Require Import Prelude Sha256 Frame FrameExample Metrics Net NetParse Sockets Reassembly.
From S2P Require Import Dedup SubtreeGroup Filter Advert Discovery Announce Nack NackSteps Egress Listener.
From S2P Require Import ListenerProps Run Config ConfigProps Main MainProps ListenerExample MainExample.
From S2P Require Import Process ProcessProps ProcessNack ProcessForward.
#[local] Open Scope Z_scope.

(** A frame of the group's subtree with sequence number [seq]. *)
Definition flow_raw (seq : Z) : bytes :=
  default [] (EncodeFrame (mkFrame 2 (sha256d payload2) 7 seq s1 payload2) (zeros 93)).

(** The announcement of a block, with a header of eighty bytes and one more, and
    what is left of it for the header sink. *)
Definition block_raw (payload : bytes) : bytes :=
  default [] (EncodeBlock (mkBlockFrame 1 (zeros 32) 9 0 payload) (zeros (92 + length payload))).
Definition header80 : bytes := (fun i => Z.of_nat i) <$> seq 1 80.

Definition ex_beacon : bytes := default [] (EncodeADVERT (ex_advert 3 0 1) (zeros 56)).
Definition ex_endpoint : string := host_port (Advert.NACKAddr (ex_advert 3 0 1)) (Advert.NACKPort (ex_advert 3 0 1)).

Definition straight : walk := mkWalk (fun l => l) (fun _ l => l).
Definition silent : Network := mkNetwork (fun _ => true) true None.

(** Two workers. A frame of a subtree that nobody announced; its announcement,
    after which each worker looks at the groups and gets a frame, with a hole
    of two numbers between them; a sweep, a beacon, and a NACK. *)
Definition ex_events : list PEvent :=
  [PData 0 (ex_env 1) (flow_raw 1); PAnnounce 2 ex_announce ex_source; PView 1;
   PData 1 (ex_env 3) (flow_raw 1); PView 0; PData 0 (ex_env 4) (flow_raw 4);
   PBeacon 5 ex_beacon; PSweep straight (2 * Second) (fun _ _ => 0%nat); PDispatch; PDispatch;
   PRequest 0 (fun l => l) (2 * Second) silent; PBeaconTick (3 * Second); PAnnounceTick (3 * Second);
   PResponse 0 (3 * Second) silent; PTick 1 (3 * Second);
   PData 1 (ex_env 5) (block_raw (header80 ++ [7]))].

Definition host_start : Process + StartErr :=
  start_process host_cfg (fun _ => all_fine) (fun _ => all_fine) (ex_env 0).

(** What is to be seen of a run. *)
Definition seen {A} (evs : list PEvent) (f : Process -> A) : option A :=
  match host_start with inl p => f <$> prun evs p | inr _ => None end.

Lemma host_jitter : 0 <= NACKJitterMax host_cfg < 2 ^ 63 - 1.
Proof. vm_compute. split; [discriminate|reflexivity]. Qed.

Definition pevent_okb (ev : PEvent) : bool :=
  match ev with PData _ _ raw => forallb byteb raw | PSweep _ _ _ | PRequest _ _ _ _ => false | _ => true end.

Lemma pevents_check evs :
  Forall (fun ev => pevent_okb ev = true \/ (exists now d, ev = PSweep straight now d) \/
    exists i now net, ev = PRequest i (fun l => l) now net) evs -> Forall pevent_ok evs.
Proof.
  intros H. eapply Forall_impl; [exact H|]. intros ev [E|[(now & d & ->)|(i & now & net & ->)]].
  - destruct ev; try done. by apply bytes_check.
  - by split.
  - by intros l.
Qed.

Lemma ex_events_ok : Forall pevent_ok ex_events.
Proof.
  apply pevents_check. unfold ex_events.
  repeat (apply Forall_cons_2;
    [first [left; vm_compute; reflexivity | right; left; by eexists _, _ | right; right; by eexists _, _, _]|]).
  apply Forall_nil_2.
Qed.

(** Both workers have sent the frame they got after the announcement; the two
    numbers between the frames of the flow are pending gaps, one of them
    requested from the endpoint of the beacon. *)
Definition ex_view (p : Process) : list (list bytes) * list string * option Z * Z :=
  ((fun w => sent (egr (core w))) <$> workers p, fst <$> wire (shared p),
   value gapsDetected <$> rec (shared p), PendingGaps (shared p)).

Example ex_events_view :
  seen ex_events ex_view =
    Some ([[flow_raw 4]; [flow_raw 1; block_raw (header80 ++ [7])]], [ex_endpoint], Some 2, 2).
Proof. vm_compute. reflexivity. Qed.

(** The second worker stripped the block to its header, for its header sink. *)
Example ex_events_headers :
  seen ex_events (fun p => (fun w => sent <$> headerEgr (core w)) <$> workers p) =
    Some [Some []; Some [block_raw header80]].
Proof. vm_compute. reflexivity. Qed.

(** ** Witnesses *)

Lemma process_refines_workers_witness :
  exists p0 p, host_start = inl p0 /\ prun ex_events p0 = Some p /\
    length (workers p) = Z.to_nat (NumWorkers host_cfg) /\
    forall i w0, workers p0 !! i = Some w0 -> exists w ops,
      workers p !! i = Some w /\ worker_run ops w0 = Some (join (shared p) w) /\
      Forall wop_ok ops /\ omap local ops = omap (own i) ex_events /\
      forall r, WGroups r ∈ ops -> exists hist, run_history p0 ex_events hist /\ announced host_cfg hist r.
Proof.
  destruct host_start as [p0|err] eqn:E;
    [|exfalso; pose proof ex_events_view as H; unfold seen in H; rewrite E in H; discriminate H].
  destruct (process_refines_workers host_cfg (fun _ => all_fine) (fun _ => all_fine) (ex_env 0) p0 E
    host_jitter example_fragments_typed example_frames_typed ex_events ex_events_ok) as (p & H1 & H2 & H3).
  exists p0, p. split; [reflexivity|]. split; [exact H1|]. split; [exact H2|exact H3].
Defined.

Lemma process_enforces_configuration_witness :
  exists p0 p, host_start = inl p0 /\ prun ex_events p0 = Some p /\
    (fun w => sent <$> headerEgr (core w)) <$> workers p = [Some []; Some [block_raw header80]] /\
    forall i w, workers p !! i = Some w ->
      Forall (configured_output host_cfg (process_admits host_cfg ex_events)) (sent (egr (core w))) /\
      forall s, headerEgr (core w) = Some s -> Forall header_output (sent s).
Proof.
  pose proof ex_events_headers as Hv. unfold seen in Hv.
  destruct host_start as [p0|err] eqn:E; [|discriminate Hv].
  destruct (process_enforces_configuration host_cfg (fun _ => all_fine) (fun _ => all_fine) (ex_env 0) p0 E
    host_jitter example_fragments_typed example_frames_typed ex_events ex_events_ok) as (p & H1 & H2).
  exists p0, p. split; [reflexivity|]. split; [exact H1|]. rewrite H1 in Hv. split.
  - apply (inj Some) in Hv. exact Hv.
  - intros i w Hw. destruct (H2 i w Hw) as (Ha & _ & Hh & _). split; [exact Ha|exact Hh].
Defined.

Lemma process_gap_accounting_witness :
  exists p0 p r, host_start = inl p0 /\ prun ex_events p0 = Some p /\ rec (shared p) = Some r /\
    value gapsDetected r = 2 /\
    value gapsDetected r = value gapsSuppressed r + value nacksUnrecovered r + PendingGaps (shared p).
Proof.
  pose proof ex_events_view as Hv. unfold seen in Hv.
  destruct host_start as [p0|err] eqn:E; [|discriminate Hv].
  destruct (process_gap_accounting host_cfg (fun _ => all_fine) (fun _ => all_fine) (ex_env 0) p0 E
    host_jitter example_fragments_typed example_frames_typed ex_events ex_events_ok) as (p & r & H1 & H2 & H3).
  exists p0, p, r. split; [reflexivity|]. split; [exact H1|]. split; [exact H2|]. split; [|exact H3].
  rewrite H1 in Hv. apply (inj Some) in Hv. unfold ex_view in Hv. rewrite H2 in Hv.
  apply (f_equal (fun q => q.1.2)) in Hv. apply (inj Some) in Hv. exact Hv.
Defined.

Lemma nacks_go_to_known_endpoints_witness :
  exists p0 p, host_start = inl p0 /\ prun ex_events p0 = Some p /\
    wire (shared p) <> [] /\ Forall (fun d => known host_cfg ex_events d.1) (wire (shared p)).
Proof.
  pose proof ex_events_view as Hv. unfold seen in Hv.
  destruct host_start as [p0|err] eqn:E; [|discriminate Hv].
  destruct (nacks_go_to_known_endpoints host_cfg (fun _ => all_fine) (fun _ => all_fine) (ex_env 0) p0 E
    host_jitter example_fragments_typed example_frames_typed ex_events ex_events_ok) as (p & H1 & H2).
  exists p0, p. split; [reflexivity|]. split; [exact H1|]. split; [|exact H2].
  rewrite H1 in Hv. apply (inj Some) in Hv. unfold ex_view in Hv.
  apply (f_equal (fun q => q.1.1.2)) in Hv. intros Hw. cbn [fst snd] in Hv. rewrite Hw in Hv. discriminate Hv.
Defined.

(** The second worker meets the frame one second after the announcement. *)
Definition before_frame : list PEvent := take 2 ex_events.

Lemma admitted_frames_are_forwarded_witness :
  exists p0 p w p' w', host_start = inl p0 /\ prun before_frame p0 = Some p /\
    workers p !! 1%nat = Some w /\
    prun (before_frame ++ [PView 1; PData 1 (ex_env 3) (flow_raw 1)]) p0 = Some p' /\
    workers p' !! 1%nat = Some w' /\
    sent (egr (core w')) = sent (egr (core w)) ++
      if (dedup_check (GroupIndex (sha256d payload2)) (mkFrame 2 (sha256d payload2) 7 1 s1 payload2)
            (set_env (core w) (ex_env 3))).1 then []
      else [if StripHeader host_cfg then payload2 else flow_raw 1].
Proof.
  pose proof ex_events_view as Hv. unfold seen in Hv.
  destruct host_start as [p0|err] eqn:E; [|discriminate Hv]. clear Hv. exists p0.
  destruct (admitted_frames_are_forwarded host_cfg (fun _ => all_fine) (fun _ => all_fine) (ex_env 0) p0 E
    host_jitter example_fragments_typed example_frames_typed before_frame 1 (ex_env 3) (flow_raw 1)
    (mkFrame 2 (sha256d payload2) 7 1 s1 payload2)) as (p & w & p' & w' & H).
  - left. reflexivity.
  - apply Forall_take, ex_events_ok.
  - apply bytes_check. vm_compute. reflexivity.
  - vm_compute. lia.
  - vm_compute. reflexivity.
  - vm_compute. reflexivity.
  - vm_compute. reflexivity.
  - vm_compute. reflexivity.
  - split; [|split; [|split]].
    + right. apply (bool_decide_unpack _). vm_compute. reflexivity.
    + apply not_elem_of_nil.
    + right. right. exists g1, (2 + 20 * Second). split; [|split; [|split]].
      * by apply (bool_decide_unpack _).
      * unfold group_ops. destruct (start_shape _ _ _ _ _ E) as (_ & _ & -> & _).
        vm_compute. reflexivity.
      * vm_compute. reflexivity.
      * intros now H. exfalso. unfold before_frame, ex_events in H. simpl in H.
        rewrite !elem_of_cons in H. destruct H as [H|[H|H]]; [discriminate H..|by apply elem_of_nil in H].
    + intros _ _. reflexivity.
  - reflexivity.
  - exists p, w, p', w'. split; [reflexivity|exact H].
Defined.
